(* ===== verification/_CoqProject ===== *)
-Q . S2P
Prelude.v
Outcome.v
Bits.v
Register.v
RegisterFacts.v
RegisterBits.v
Insts.v
InstsFacts.v
Factories.v
FactoriesFacts.v
RvcFacts.v
RvcSpec.v
Memory.v
MemoryFacts.v
MemoryOk.v
WXorXFacts.v
SparseFacts.v
Machine.v
Core.v
Decoder.v
Execute.v
Elf.v
Ast.v
Asm.v
Snapshot.v
Snapshot2.v
Exec.v
Run.v
Traces.v
Support.v
Runner.v
Demo.v
AsmFacts.v
AsmRefine.v
AsmInit.v
AsmOk.v
TracesFacts.v
AsmHeader.v
Fetch.v
FetchMem.v
ElfFacts.v
ElfLoad.v
Pages.v
SnapshotFacts.v
Snapshot2Facts.v
Snapshot2Resume.v
StraightLine.v
MachineOk.v
AstFacts.v
CoreOk.v
DecoderOk.v
TracesOk.v
TracesEnd.v
RunOk.v
AsmRunOk.v
CodeKept.v
Threads.v
TraceOk.v
TraceSim.v
LibOk.v
StackFacts.v
CkbVmRunner.v
Tracked.v
Isa.v
IsaFacts.v
IsaStep.v
Fusion.v
FusionSound.v
