(* ===== verification/Prelude.v ===== *)
(** * A verification of CKB-VM

    CKB-VM is an interpreter for RISC-V (RV32/RV64 IMC with the A and B extensions and
    macro-op fusion) that runs untrusted programs deterministically under a cycle
    budget.  This library translates the Rust sources into executable definitions and
    proves what makes the interpreter safe and correct.

    ** How the program is put together

    A [DefaultMachine] owns a [DefaultCoreMachine] (registers, pc, memory, cycles) and
    the embedder's syscalls and debugger.  [run_with_decoder] loops: fetch and decode
    the instruction at pc (through an instruction cache, the factories and, with the
    MOP flag, the fusion rules), charge its cycles, execute its handler, commit the
    pc.  The trace machine runs the same handlers from a cache of basic blocks.  A
    memory is a flat byte array, a sparse page table, or either one behind a
    write-xor-execute permission layer.

    ** Conventions

    A w-bit integer is a [Z] and wrap-around is written out ([wrap], [wadd], ...);
    arithmetic is that of a release build, and [usize] has 64 bits.  A fallible
    function on a state [S] is a computation [ST S A := S -> outcome A * S]: the state
    comes back on every path and a panic (index out of range, failed [assert!]) is an
    outcome of its own, so that "does not panic" is a theorem and not an assumption.
    Traits are classes ([Register], [Memory], [CoreMachine], [Machine], [Syscalls],
    [Debugger]); theorems about generic code are proved against the interfaces
    [RegisterOk], [MemoryOk], [MachineOk], [EmbedderOk] and each implementation
    discharges its interface.

    ** Files and the code they model

    - [Prelude]: fixed-width arithmetic, bit lemmas, tactics, hint databases.
    - [Outcome]: src/src/error.rs and the effect of fallible functions, with its
      predicates [wp] and [stable].
    - [Bits]: src/src/bits.rs and src/src/rng.rs.
    - [Register], [RegisterFacts], [RegisterBits]: src/src/instructions/register.rs,
      both widths; division, high and carry-less multiplication, counting, rotation.
    - [Insts], [InstsFacts]: the opcodes (src/definitions/src/instructions.rs), the
      packed 64-bit format (src/src/instructions/mod.rs) and tagged.rs.
    - [Factories], [FactoriesFacts]: utils.rs, i.rs, m.rs, a.rs, b.rs, rvc.rs: from
      instruction words to packed instructions.
    - [Memory]: src/src/memory/*.rs.  [MemoryFacts] (flat memory as a byte array),
      [MemoryOk] (the contract of a memory), [WXorXFacts], [SparseFacts] (the sparse
      memory refines the flat one).
    - [Machine], [Core]: src/src/machine/mod.rs, syscalls/mod.rs, debugger.rs: traits,
      core machine, loading, stack, syscalls.
    - [Decoder]: src/src/decoder.rs.  [Execute]: src/src/instructions/common.rs and
      execute.rs, one definition per handler.
    - [Run]: the loops of machine/mod.rs and machine/trace.rs, cost_model.rs, lib.rs.
    - [MachineOk], [CoreOk], [DecoderOk], [RunOk]: every handler, decoder rule and loop
      keeps the machine well formed and does not panic; the loop terminates.
    - [RvcFacts], [RvcSpec]: the RV64C encodings and expansions of the ISA manual, which
      are not a translation of code; that rvc.rs implements them, and that it accepts
      nothing else but the hints it decodes as nops.
    - [Elf]: src/src/elf.rs.  [ElfFacts] (what is accepted) and [ElfLoad] (what is in
      memory after loading).
    - [Snapshot]: src/src/snapshot.rs.  [SnapshotFacts]: memory page by page, and the
      round trip.
    - [Snapshot2]: src/src/snapshot2.rs.  [Snapshot2Facts]: the context and its clean
      pages; [Pages]: page-wise operations on a flat memory; [Snapshot2Resume]: the round
      trip; [Tracked]: no operation and no guest makes the context wrong.
    - [Ast]: src/src/instructions/ast.rs, symbolic registers.  [AstFacts]: evaluation, and
      that execution commutes with it.
    - [Asm]: the memory of the assembly machine in src/src/machine/asm/mod.rs, and the
      struct of src/definitions/src/asm.rs.  [AsmFacts]: frames and the view in which
      untouched frames are zeros; [AsmRefine], [AsmInit]: it refines the W^X flat memory;
      [AsmOk]: it keeps the contract of a memory.
    - [Traces]: src/src/machine/asm/traces.rs and the driver of asm/mod.rs, with the
      assembly interpreter as a parameter.  [TracesFacts]: traces are basic blocks;
      [TracesOk]: the contracts [InstDecoderOk] and [TraceDecoderOk] and the decoders that
      keep them; [TracesEnd]: preparing a trace ends; [AsmRunOk]: the driver against the
      contract.
    - [AsmHeader]: src/definitions/src/generate_asm_constants.rs, which prints the header the
      assembly code is compiled against, and that header as it is checked in.
    - [StraightLine]: instructions inside a basic block; [CodeKept]: under W^X code does
      not change; [Threads]: the thread table; [TraceSim]: hence the trace machine of
      src/src/machine/trace.rs runs programs like the interpreter.
    - [Support]: the trait SupportMachine of machine/mod.rs, its implementations for the core
      machine, the assembly machine and DefaultMachine, the trace machine as a machine, and
      Display.
    - [Runner]: the trait DefaultMachineRunner of machine/mod.rs with its laws, and the three
      machines that implement it: the interpreter, the trace and the assembly machine.
    - [CkbVmRunner]: src/examples/ckb_vm_runner.rs, an embedder with one syscall.
    - [TraceOk]: the trace machine is safe for every width and memory; [LibOk]: so are
      loading and the entry points of lib.rs; [StackFacts]: what the program finds on its
      stack.
    - [Exec]: executing an instruction as updates of the register file, and its tactics.
      [Demo]: a concrete machine, used by the witnesses.
    - [Fetch], [FetchMem]: what the decoder needs of a memory ([FetchOk]), and that each
      memory provides it; coherence of the instruction cache.
    - [Isa]: a specification of RV64IM and FENCE.I in the terms of the ISA manual, which is not a
      translation of code.  [IsaFacts], [IsaStep]: the interpreter implements it.
    - [Fusion], [FusionSound]: macro-op fusion, the execution and the decoding side.

    ** What the theorems show

    Memory: the sparse memory is a refinement of the flat one; the W^X layer lets no
    store reach an executable page and no fetch reach a writable one; loads see
    stores.  Decoding: every instruction of RV64I and M assembled by the ISA manual's
    formats decodes to the instruction with the same operands; a compressed instruction
    decodes to what its expansion decodes to; the packed format round-trips.
    Registers: arithmetic agrees with the ISA manual's definitions.  Machine: no
    program makes the interpreter panic, x0 stays zero, and a run under a cycle limit
    ends.

    A step of the interpreter on an RV64IM word is the transition of the ISA
    specification ([step_isa]); fused instructions do what the sequences they replace do,
    with two exceptions that are bugs of the rules ([fusion_sound], [fusion_gaps]); the
    instruction cache is transparent.  Loading an ELF file puts exactly its segments into
    memory, and a machine resumed from a snapshot is the machine it was taken of, for both
    versions of snapshots; the pages that the second version leaves to a data source are
    known to be unchanged whatever the guest does ([context_invariant],
    [guest_keeps_tracked]).  Executing on symbolic registers and evaluating is executing
    ([symbolic_execution]).

    The entry point of the library, from the bytes of an ELF file to the exit code, does
    not panic ([lib_run_never_panics]); it has no cycle limit to run into, since its
    instructions cost nothing, so it need not end.  The arguments it puts on the stack are
    the arguments a program reads there ([stack_roundtrip]).

    The trace machine: behind the W^X layer a guest cannot change code
    ([guest_keeps_code]), an instruction inside a block goes to the next one
    ([straight_line]) and threads are the dispatch of the interpreter
    ([threads_dispatch]); so the trace machine, interrupted or not, ends when the interpreter
    does and with the same result in the same machine ([trace_machine_runs]).  It decodes blocks
    ahead, so when code does not decode the two may report different errors.

    The assembly machine: its lazily filled memory is a refinement of the W^X flat memory
    the interpreter runs on ([asm_memory_refines], [asm_init_pages_refines]); the traces
    handed to the assembly code are the basic blocks of the program ([fixed_trace_block],
    [dynamic_trace_block]) and are found where it looks ([prepare_traces_ready]); the Rust
    driver does not panic ([asm_run_never_panics]), provided that the assembly code leaves
    a well-formed machine.  The header the assembly code is compiled against describes the
    structures it is passed, and its label table is indexed by opcode ([asm_header_spec]).

    ** Bounds

    The loops of the machine take fuel (one unit per iteration) and an oracle that says
    at which iteration another thread sets the pause flag; [run_terminates] shows that
    as much fuel as there are cycles left is enough.  [load_c_string_loop] takes fuel,
    one unit per byte.  The loop that builds a dynamic trace and the driver's loop take
    fuel as well; [prepare_traces_ready] bounds the former by half the size of the memory.
    All other loops are structural.

    ** Not modelled

    The assembly code itself (src/src/machine/asm/execute_*.S), a parameter of the driver;
    chaos mode of the assembly
    machine is modelled but [asm_ok] excludes it, since its memory does not start as zeros;
    ELF header parsing, which is the goblin crate's (the record [Goblin], a parameter of
    [parse_elf]); Display of symbolic values and the derived serialization of snapshots;
    build scripts, benchmarks, fuzzers, the other examples and the command line of
    ckb_vm_runner.rs.
*)
From stdpp Require Import base list numbers strings.
From Stdlib Require Import Btauto.


Open Scope Z_scope.

(** * Rust's fixed-width integers on [Z]

    An unsigned w-bit value is a [Z] in [0, 2^w); a signed one is a [Z] in
    [-2^(w-1), 2^(w-1)).  Arithmetic follows the release build (overflow checks
    off): results wrap and shift amounts are taken modulo the width. *)

Declare Scope rust_scope.
Delimit Scope rust_scope with rust.

(** [x as uW] *)
Definition wrap (w z : Z) : Z := z mod 2 ^ w.

(** [x as iW] *)
Definition sign (w z : Z) : Z :=
  let u := wrap w z in if u <? 2 ^ (w - 1) then u else u - 2 ^ w.

(** [x + y], [x - y], [x * y] with wrap-around. *)
Definition wadd (w x y : Z) : Z := wrap w (x + y).
Definition wsub (w x y : Z) : Z := wrap w (x - y).
Definition wmul (w x y : Z) : Z := wrap w (x * y).

(** [x << n], [x >> n] on an unsigned value, [x >> n] on a signed one. *)
Definition wshl (w x n : Z) : Z := wrap w (Z.shiftl x (n mod w)).
Definition wshr (w x n : Z) : Z := Z.shiftr x (n mod w).

(** [!x] *)
Definition wnot (w x : Z) : Z := wrap w (Z.lnot x).

(** [x.overflowing_add(y)]: the wrapped sum and whether it overflowed. *)
Definition woverflowing_add (w x y : Z) : Z * bool :=
  (wadd w x y, 2 ^ w <=? x + y).

(** [bool] as an integer, [b.into()]. *)
Definition b2r (b : bool) : Z := if b then 1 else 0.

Notation "'u8'" := (wrap 8) : rust_scope.
Notation "'u16'" := (wrap 16) : rust_scope.
Notation "'u32'" := (wrap 32) : rust_scope.
Notation "'u64'" := (wrap 64) : rust_scope.
Notation "'i8'" := (sign 8) : rust_scope.
Notation "'i16'" := (sign 16) : rust_scope.
Notation "'i32'" := (sign 32) : rust_scope.
Notation "'i64'" := (sign 64) : rust_scope.

Definition U64_MAX : Z := 2 ^ 64 - 1.
Definition U32_MAX : Z := 2 ^ 32 - 1.

(** The value ranges. *)
Definition in_u (w x : Z) : Prop := 0 <= x < 2 ^ w.
Definition in_s (w x : Z) : Prop := - 2 ^ (w - 1) <= x < 2 ^ (w - 1).

(** * Little-endian byte strings ([to_le_bytes], [from_le_bytes]) *)

Fixpoint le_to_Z (l : list Z) : Z :=
  match l with
  | [] => 0
  | b :: l' => Z.lor b (Z.shiftl (le_to_Z l') 8)
  end.

Fixpoint Z_to_le (n : nat) (z : Z) : list Z :=
  match n with
  | O => []
  | S n' => wrap 8 z :: Z_to_le n' (Z.shiftr z 8)
  end.

Definition is_byte (b : Z) : Prop := in_u 8 b.

(** A register index of the architecture. *)
Definition is_reg (r : Z) : Prop := 0 <= r < 32.

(** * Slices

    [data[a..a+n]] and [data[a..a+n].copy_from_slice(bs)]; [None] is the panic of
    an out-of-range slice. *)

Definition slice_get (data : list Z) (a n : Z) : option (list Z) :=
  if (0 <=? a) && (0 <=? n) && (a + n <=? Z.of_nat (length data))
  then Some (take (Z.to_nat n) (drop (Z.to_nat a) data))
  else None.

Definition slice_set (data : list Z) (a : Z) (bs : list Z) : option (list Z) :=
  if (0 <=? a) && (a + Z.of_nat (length bs) <=? Z.of_nat (length data))
  then Some (take (Z.to_nat a) data ++ bs ++
             drop (Z.to_nat a + length bs) data)
  else None.

(** * Tactics *)

(** Split every boolean comparison on [Z] of the goal. *)
Ltac case_bool :=
  match goal with
  | |- context [?a <? ?b] => destruct (Z.ltb_spec a b)
  | |- context [?a <=? ?b] => destruct (Z.leb_spec a b)
  | |- context [?a =? ?b] => destruct (Z.eqb_spec a b)
  end.

Ltac case_bools := repeat (case_bool; simpl).

(** Turn boolean comparisons of the context into propositions. *)
Ltac bool_hyps :=
  repeat match goal with
  | H : (_ && _) = true |- _ => apply andb_prop in H; destruct H
  | H : (_ || _) = false |- _ => apply orb_false_elim in H; destruct H
  | H : (_ <? _) = true |- _ => apply Z.ltb_lt in H
  | H : (_ <? _) = false |- _ => apply Z.ltb_ge in H
  | H : (_ <=? _) = true |- _ => apply Z.leb_le in H
  | H : (_ <=? _) = false |- _ => apply Z.leb_gt in H
  | H : (_ =? _) = true |- _ => apply Z.eqb_eq in H
  | H : (_ =? _) = false |- _ => apply Z.eqb_neq in H
  | H : negb _ = true |- _ => apply negb_true_iff in H
  | H : negb _ = false |- _ => apply negb_false_iff in H
  end.

(** [lia] with quotients and remainders expanded. *)
Ltac dlia := Z.to_euclidean_division_equations; lia.

(** * Ranges *)

Lemma pow2_pos w : 0 <= w -> 0 < 2 ^ w.
Proof. intros. apply Z.pow_pos_nonneg; lia. Qed.

Lemma wrap_range w z : 0 <= w -> in_u w (wrap w z).
Proof. intros. apply Z.mod_pos_bound, pow2_pos; lia. Qed.

Lemma wrap_small w z : in_u w z -> wrap w z = z.
Proof. apply Z.mod_small. Qed.

Lemma wrap_wrap w z : wrap w (wrap w z) = wrap w z.
Proof. apply Z.mod_mod_divide. by exists 1; lia. Qed.

Lemma wrap_wrap_le v w z : 0 <= v <= w -> wrap v (wrap w z) = wrap v z.
Proof.
  intros. apply Z.mod_mod_divide. exists (2 ^ (w - v)).
  rewrite <- Z.pow_add_r by lia. f_equal; lia.
Qed.

Lemma wrap_wrap_ge v w z : 0 <= w <= v -> wrap v (wrap w z) = wrap w z.
Proof.
  intros. apply wrap_small. destruct (wrap_range w z); [lia|].
  split; [done|]. pose proof (Z.pow_le_mono_r 2 w v). lia.
Qed.

Lemma pow2_split w : 0 < w -> 2 ^ w = 2 * 2 ^ (w - 1).
Proof. intros. replace w with (Z.succ (w - 1)) at 1 by lia. rewrite Z.pow_succ_r; lia. Qed.

Lemma sign_range w z : 0 < w -> in_s w (sign w z).
Proof.
  intros. unfold in_s, sign. destruct (wrap_range w z) as [? ?]; [lia|].
  pose proof (pow2_split w). case_bool; lia.
Qed.

Lemma sign_small w z : 0 < w -> in_s w z -> sign w z = z.
Proof.
  intros Hw [Hl Hh]. unfold sign, wrap. pose proof (pow2_split w Hw).
  destruct (Z.le_gt_cases 0 z).
  - rewrite Z.mod_small by lia. case_bool; lia.
  - rewrite <- (Z.mod_add _ 1) by lia. rewrite Z.mod_small by lia.
    case_bool; lia.
Qed.

Lemma sign_wrap w z : sign w (wrap w z) = sign w z.
Proof. unfold sign. by rewrite wrap_wrap. Qed.

Lemma wrap_sign w z : 0 < w -> wrap w (sign w z) = wrap w z.
Proof.
  intros. unfold sign. case_bool; [apply wrap_wrap|].
  unfold wrap. rewrite <- (Z.mod_add _ 1) by (pose proof (pow2_pos w); lia).
  replace (z mod 2 ^ w - 2 ^ w + 1 * 2 ^ w) with (z mod 2 ^ w) by lia.
  apply wrap_wrap.
Qed.

Lemma wrap_add_l w x y : wrap w (wrap w x + y) = wrap w (x + y).
Proof. unfold wrap. apply Zplus_mod_idemp_l. Qed.
Lemma wrap_add_r w x y : wrap w (x + wrap w y) = wrap w (x + y).
Proof. unfold wrap. apply Zplus_mod_idemp_r. Qed.

Lemma in_u_le v w x : 0 <= v <= w -> in_u v x -> in_u w x.
Proof. intros ? [? ?]. split; [done|]. pose proof (Z.pow_le_mono_r 2 v w). lia. Qed.

Lemma in_s_le v w x : 0 < v <= w -> in_s v x -> in_s w x.
Proof. intros ? [? ?]. pose proof (Z.pow_le_mono_r 2 (v-1) (w-1)). split; lia. Qed.

Lemma wadd_range w x y : 0 <= w -> in_u w (wadd w x y).
Proof. apply wrap_range. Qed.

(** * Bits *)

Lemma testbit_high w x j : 0 <= w -> in_u w x -> w <= j -> Z.testbit x j = false.
Proof.
  intros Hw [H0 H1] Hj. revert j Hj.
  by apply Z.bounded_iff_bits_nonneg.
Qed.

Lemma in_u_bits w x :
  0 <= w -> 0 <= x -> (forall j, w <= j -> Z.testbit x j = false) -> in_u w x.
Proof. intros. split; [done|]. by apply Z.bounded_iff_bits_nonneg. Qed.

Lemma testbit_wrap w z j : 0 <= w -> Z.testbit (wrap w z) j = (j <? w) && Z.testbit z j.
Proof. apply Z.testbit_mod_pow2. Qed.

Lemma testbit_shiftl z n j : 0 <= j -> Z.testbit (Z.shiftl z n) j = Z.testbit z (j - n).
Proof. apply Z.shiftl_spec. Qed.

Lemma testbit_sign w z j : 0 < w -> 0 <= j ->
  Z.testbit (sign w z) j = Z.testbit z (if j <? w then j else w - 1).
Proof.
  intros Hw Hj. pose proof (pow2_split w Hw) as Hp.
  assert (Hlow : forall k, 0 <= k < w -> Z.testbit (sign w z) k = Z.testbit z k).
  { intros k Hk. rewrite <- (Z.mod_pow2_bits_low _ w) by lia.
    fold (wrap w (sign w z)). rewrite wrap_sign by lia.
    unfold wrap. apply Z.mod_pow2_bits_low. lia. }
  case_bool; [by apply Hlow|]. rewrite <- (Hlow (w - 1)) by lia.
  destruct (sign_range w z Hw) as [Hl Hh].
  destruct (Z.le_gt_cases 0 (sign w z)) as [Hs|Hs].
  - rewrite !(testbit_high (w - 1)) by (unfold in_u; lia). done.
  - rewrite <- (Z.lnot_involutive (sign w z)), !(Z.lnot_spec (Z.lnot _)) by lia. f_equal.
    rewrite !(testbit_high (w - 1)) by (unfold in_u, Z.lnot; lia). done.
Qed.

Lemma land_ones_wrap w x : 0 <= w -> Z.land x (2 ^ w - 1) = wrap w x.
Proof.
  intros. replace (2 ^ w - 1) with (Z.ones w).
  - by apply Z.land_ones.
  - rewrite Z.ones_equiv. lia.
Qed.

Lemma lor_range w x y : 0 <= w -> in_u w x -> in_u w y -> in_u w (Z.lor x y).
Proof.
  intros Hw Hx Hy.
  apply in_u_bits; [done|apply Z.lor_nonneg; split; [apply Hx|apply Hy]|].
  intros. by rewrite Z.lor_spec, !(testbit_high w) by done.
Qed.

Lemma land_range_l w x y : 0 <= w -> in_u w x -> in_u w (Z.land x y).
Proof.
  intros Hw Hx. apply in_u_bits; [done|apply Z.land_nonneg; left; apply Hx|].
  intros. by rewrite Z.land_spec, (testbit_high w) by done.
Qed.

Lemma land_range w x y : 0 <= w -> in_u w x -> in_u w y -> in_u w (Z.land x y).
Proof. intros. by apply land_range_l. Qed.

Lemma lxor_range w x y : 0 <= w -> in_u w x -> in_u w y -> in_u w (Z.lxor x y).
Proof.
  intros Hw [? ?] [? ?].
  apply in_u_bits; [done|apply Z.lxor_nonneg; lia|].
  intros. by rewrite Z.lxor_spec, !(testbit_high w) by done.
Qed.

Lemma shiftr_range w x n : 0 <= w -> 0 <= n -> in_u w x -> in_u w (Z.shiftr x n).
Proof.
  intros Hw Hn Hx. apply in_u_bits; [done|apply Z.shiftr_nonneg, Hx|].
  intros. rewrite Z.shiftr_spec by lia. apply (testbit_high w); [done|done|lia].
Qed.

(** Disjoint bits add up. *)
Lemma lor_shiftl_add x y n :
  0 <= n -> in_u n x -> Z.lor x (Z.shiftl y n) = x + y * 2 ^ n.
Proof.
  intros Hn Hx. rewrite <- Z.shiftl_mul_pow2 by done.
  symmetry. apply Z.add_nocarry_lor, Z.bits_inj'. intros j Hj.
  rewrite Z.land_spec, Z.shiftl_spec, Z.testbit_0_l by done.
  destruct (Z.lt_ge_cases j n).
  - rewrite (Z.testbit_neg_r _ (j - n)) by lia. btauto.
  - rewrite (testbit_high n x) by done. done.
Qed.

Create HintDb range.
#[export] Hint Resolve wrap_range sign_range lor_range land_range lxor_range
  shiftr_range wadd_range : range.

(** Bit extensionality: reduce an equation between words to one bit. *)
Create Rewrite HintDb bits.
#[export] Hint Rewrite Z.lor_spec Z.land_spec Z.lxor_spec Z.ldiff_spec
  Z.testbit_0_l : bits.
#[export] Hint Rewrite testbit_wrap testbit_shiftl Z.shiftr_spec Z.lnot_spec
  testbit_sign using lia : bits.

(** * Little-endian round trips *)

Lemma length_Z_to_le n z : length (Z_to_le n z) = n.
Proof. revert z. induction n; simpl; auto. Qed.

Lemma Z_to_le_bytes n z : Forall is_byte (Z_to_le n z).
Proof. revert z. induction n; simpl; constructor; auto. by apply wrap_range. Qed.

Lemma le_to_Z_range l : Forall is_byte l -> in_u (8 * Z.of_nat (length l)) (le_to_Z l).
Proof.
  induction 1 as [|b l Hb Hl IH]; [by split|].
  cbn [le_to_Z length]. rewrite lor_shiftl_add by done.
  unfold is_byte, in_u in *. destruct IH.
  replace (8 * Z.of_nat (S (length l))) with (8 + 8 * Z.of_nat (length l)) by lia.
  rewrite Z.pow_add_r by lia. change (2 ^ 8) with 256 in *. nia.
Qed.

Lemma le_to_Z_to_le n z : le_to_Z (Z_to_le n z) = wrap (8 * Z.of_nat n) z.
Proof.
  revert z. induction n as [|n IH]; intros z; [symmetry; apply Z.mod_1_r|].
  cbn [Z_to_le le_to_Z]. rewrite IH. apply Z.bits_inj'. intros j Hj.
  rewrite Z.lor_spec, Z.shiftl_spec, !testbit_wrap by lia.
  destruct (Z.lt_ge_cases j 8).
  - rewrite (Z.testbit_neg_r _ (j - 8)) by lia. case_bools; btauto || lia.
  - rewrite Z.shiftr_spec, Z.sub_add by lia. case_bools; done || lia.
Qed.

Lemma Z_to_le_to_Z l : Forall is_byte l -> Z_to_le (length l) (le_to_Z l) = l.
Proof.
  induction 1 as [|b l Hb Hl IH]; [done|].
  cbn [le_to_Z length Z_to_le].
  replace (Z.shiftr (Z.lor b (Z.shiftl (le_to_Z l) 8)) 8) with (le_to_Z l).
  - rewrite IH. f_equal. rewrite lor_shiftl_add by done.
    unfold wrap. rewrite Z.mod_add by done. by apply Z.mod_small.
  - apply Z.bits_inj'. intros j Hj. autorewrite with bits.
    rewrite (testbit_high 8 b) by (done || lia). simpl. f_equal. lia.
Qed.

Lemma le_to_Z_app l1 l2 :
  le_to_Z (l1 ++ l2) =
  Z.lor (le_to_Z l1) (Z.shiftl (le_to_Z l2) (8 * Z.of_nat (length l1))).
Proof.
  induction l1 as [|b l1 IH]; [by rewrite Z.shiftl_0_r|].
  cbn [app le_to_Z length]. rewrite IH, Z.shiftl_lor, Z.shiftl_shiftl, Z.lor_assoc by lia.
  do 2 f_equal. lia.
Qed.

Lemma Z_to_le_app n m z :
  Z_to_le (n + m) z = Z_to_le n z ++ Z_to_le m (Z.shiftr z (8 * Z.of_nat n)).
Proof.
  revert z. induction n as [|n IH]; intros z; [by rewrite Z.shiftr_0_r|].
  cbn [plus Z_to_le app]. f_equal. rewrite IH, Z.shiftr_shiftr by lia.
  do 3 f_equal. lia.
Qed.

(** * Slices *)

Lemma slice_get_Some data a n :
  0 <= a -> 0 <= n -> a + n <= Z.of_nat (length data) ->
  slice_get data a n = Some (take (Z.to_nat n) (drop (Z.to_nat a) data)).
Proof. intros. unfold slice_get. case_bools; done || lia. Qed.

Lemma slice_set_Some data a bs :
  0 <= a -> a + Z.of_nat (length bs) <= Z.of_nat (length data) ->
  slice_set data a bs =
  Some (take (Z.to_nat a) data ++ bs ++ drop (Z.to_nat a + length bs) data).
Proof. intros. unfold slice_set. case_bools; done || lia. Qed.

Lemma slice_set_length data a bs data' :
  slice_set data a bs = Some data' -> length data' = length data.
Proof.
  unfold slice_set. case_bools; intros [= <-].
  rewrite !length_app, length_take, length_drop. lia.
Qed.

Lemma slice_set_bytes data a bs data' :
  slice_set data a bs = Some data' ->
  Forall is_byte data -> Forall is_byte bs -> Forall is_byte data'.
Proof.
  unfold slice_set. case_bools; intros [= <-] Hd Hb.
  rewrite !Forall_app. auto using Forall_take, Forall_drop.
Qed.

(** A byte of the updated buffer: from the source inside the slice, unchanged
    outside. *)
Lemma slice_set_lookup data a bs data' (i : nat) :
  slice_set data a bs = Some data' ->
  data' !! i =
  if (Z.to_nat a <=? i)%nat && (i <? Z.to_nat a + length bs)%nat
  then bs !! (i - Z.to_nat a)%nat else data !! i.
Proof.
  unfold slice_set. case_bools; intros [= <-].
  destruct (Nat.leb_spec (Z.to_nat a) i); simpl.
  - rewrite lookup_app_r by (rewrite length_take; lia).
    rewrite length_take. replace (Z.to_nat a `min` length data)%nat with (Z.to_nat a) by lia.
    destruct (Nat.ltb_spec i (Z.to_nat a + length bs)); [by rewrite lookup_app_l by lia|].
    rewrite lookup_app_r by lia. rewrite lookup_drop. f_equal. lia.
  - rewrite lookup_app_l by (rewrite length_take; lia). by rewrite lookup_take_lt by lia.
Qed.

Lemma slice_get_lookup data a n bs (i : nat) :
  slice_get data a n = Some bs -> (i < Z.to_nat n)%nat ->
  bs !! i = data !! (Z.to_nat a + i)%nat.
Proof.
  unfold slice_get. case_bools; intros [= <-] Hi.
  rewrite lookup_take_lt by lia. by rewrite lookup_drop.
Qed.

Lemma slice_get_length data a n bs :
  slice_get data a n = Some bs -> length bs = Z.to_nat n.
Proof.
  unfold slice_get. case_bools; intros [= <-]. rewrite length_take, length_drop. lia.
Qed.

(** Reading back what was written. *)
Lemma slice_get_set data a bs data' :
  slice_set data a bs = Some data' ->
  slice_get data' a (Z.of_nat (length bs)) = Some bs.
Proof.
  intros Hs. pose proof (slice_set_length _ _ _ _ Hs) as Hl. revert Hs.
  unfold slice_set. case_bools; intros [= Hs].
  rewrite slice_get_Some by lia. rewrite <- Hs, Nat2Z.id.
  rewrite drop_app_length' by (rewrite length_take; lia).
  by rewrite take_app_length.
Qed.

(** Reading outside what was written. *)
Lemma slice_get_set_ne data a bs data' b n :
  slice_set data a bs = Some data' ->
  b + n <= a \/ a + Z.of_nat (length bs) <= b ->
  slice_get data' b n = slice_get data b n.
Proof.
  intros Hs Hd. pose proof (slice_set_length _ _ _ _ Hs) as Hl.
  unfold slice_get. rewrite Hl. case_bools; try done. f_equal.
  apply list_eq. intros i. destruct (Nat.lt_ge_cases i (Z.to_nat n)).
  - rewrite !lookup_take_lt, !lookup_drop, (slice_set_lookup _ _ _ _ _ Hs) by lia.
    unfold slice_set in Hs. destruct (Z.leb_spec 0 a); [|done].
    destruct (Nat.leb_spec (Z.to_nat a) (Z.to_nat b + i)); [|done].
    destruct (Nat.ltb_spec (Z.to_nat b + i) (Z.to_nat a + length bs)); [lia|done].
  - by rewrite !lookup_take_ge by lia.
Qed.
