(* ===== verification/Outcome.v ===== *)
(** The error type of the VM (src/src/error.rs) and the effect of its functions.

    A Rust function [fn f(&mut self, ..) -> Result<A, Error>] is a function
    [S -> outcome A * S]: the state is returned on every path, because the code
    leaves its partial updates in place when it returns an error.  A panic
    (out-of-range index, failed [assert!]) is a third outcome. *)
From S2P Require Import Prelude.
From stdpp Require Import base list numbers strings.
Open Scope Z_scope.

Inductive OutOfBoundKind := Memory_ | ExternalData.

Inductive Error :=
  | Asm (code : Z)
  | CyclesExceeded
  | CyclesOverflow
  | ElfBits
  | ElfParseError (msg : string)
  | ElfSegmentUnreadable (vaddr : Z)
  | ElfSegmentWritableAndExecutable (vaddr : Z)
  | ElfSegmentAddrOrSizeError (vaddr : Z)
  | External (msg : string)
  | InvalidEcall (code : Z)
  | InvalidInstruction (pc : Z) (instruction : Z)
  | InvalidOp (op : Z)
  | InvalidVersion
  | IO (kind : string) (data : string)
  | MemOutOfBound (addr : Z) (kind : OutOfBoundKind)
  | MemOutOfStack
  | MemPageUnalignedAccess (addr : Z)
  | MemWriteOnExecutablePage (page : Z)
  | MemWriteOnFreezedPage (page : Z)
  | Pause_
  | SnapshotDataLoadError
  | Unexpected (msg : string)
  | Yield.

#[export] Instance OutOfBoundKind_eq_dec : EqDecision OutOfBoundKind.
Proof. solve_decision. Defined.
#[export] Instance Error_eq_dec : EqDecision Error.
Proof. solve_decision. Defined.

Inductive outcome (A : Type) :=
  | Ok (a : A)
  | Err (e : Error)
  | Panic.
Arguments Ok {A} a.
Arguments Err {A} e.
Arguments Panic {A}.

Definition ST (S A : Type) : Type := S -> outcome A * S.

#[export] Instance ST_ret S : MRet (ST S) := fun A a s => (Ok a, s).

#[export] Instance ST_bind S : MBind (ST S) := fun A B k m s =>
  match m s with
  | (Ok a, s') => k a s'
  | (Err e, s') => (Err e, s')
  | (Panic, s') => (Panic, s')
  end.

Definition fail {S A} (e : Error) : ST S A := fun s => (Err e, s).
Definition panic {S A} : ST S A := fun s => (Panic, s).
Definition gets {S A} (f : S -> A) : ST S A := fun s => (Ok (f s), s).
Definition modify {S} (f : S -> S) : ST S unit := fun s => (Ok tt, f s).

(** An index or slice expression: [None] panics. *)
Definition unwrap {S A} (o : option A) : ST S A :=
  match o with Some a => mret a | None => panic end.

(** A computation on a part of the state. *)
Definition zoom {S T A} (get : S -> T) (set : T -> S -> S) (m : ST T A) : ST S A :=
  fun s => let (o, t) := m (get s) in (o, set t s).

(** Turning a failure into a value, as [if let Ok(x) = m]. *)
Definition attempt {S A} (m : ST S A) : ST S (option A) := fun s =>
  match m s with
  | (Ok a, s') => (Ok (Some a), s')
  | (Err _, s') => (Ok None, s')
  | (Panic, s') => (Panic, s')
  end.

(** [for i in start..start+n { f(i)?; }] *)
Fixpoint for_range {S} (n : nat) (start : Z) (f : Z -> ST S unit) : ST S unit :=
  match n with
  | O => mret tt
  | Datatypes.S n' => _ ← f start; for_range n' (start + 1) f
  end.

Notation "m ;; k" := (mbind (fun _ => k) m)
  (at level 100, right associativity, only parsing) : stdpp_scope.

(** * Outcome predicates

    [wp m s Q E]: running [m] from [s] does not panic, and ends in [Ok a] with
    [Q a s'] or in [Err e] with [E e s']. *)
Definition wp {S A} (m : ST S A) (s : S)
  (Q : A -> S -> Prop) (E : Error -> S -> Prop) : Prop :=
  match m s with
  | (Ok a, s') => Q a s'
  | (Err e, s') => E e s'
  | (Panic, _) => False
  end.

Lemma wp_ret {S A} (a : A) (s : S) Q E : Q a s -> wp (mret a) s Q E.
Proof. done. Qed.

Lemma wp_bind {S A B} (m : ST S A) (k : A -> ST S B) s Q E :
  wp m s (fun a s' => wp (k a) s' Q E) E -> wp (m ≫= k) s Q E.
Proof.
  unfold wp, mbind, ST_bind. destruct (m s) as [[a|e|] s']; done.
Qed.

Lemma wp_mono {S A} (m : ST S A) s (Q Q' : A -> S -> Prop) (E E' : Error -> S -> Prop) :
  wp m s Q E -> (forall a s', Q a s' -> Q' a s') -> (forall e s', E e s' -> E' e s') ->
  wp m s Q' E'.
Proof. unfold wp. destruct (m s) as [[a|e|] s']; eauto. Qed.

Lemma wp_fail {S A} e (s : S) (Q : A -> S -> Prop) (E : Error -> S -> Prop) :
  E e s -> wp (fail e) s Q E.
Proof. done. Qed.

Lemma wp_gets {S A} (f : S -> A) s (Q : A -> S -> Prop) (E : Error -> S -> Prop) :
  Q (f s) s -> wp (gets f) s Q E.
Proof. done. Qed.

Lemma wp_modify {S} (f : S -> S) s (Q : unit -> S -> Prop) (E : Error -> S -> Prop) :
  Q tt (f s) -> wp (modify f) s Q E.
Proof. done. Qed.

Lemma wp_unwrap {S A} (o : option A) a (s : S) (Q : A -> S -> Prop) (E : Error -> S -> Prop) :
  o = Some a -> Q a s -> wp (unwrap o) s Q E.
Proof. by intros ->. Qed.

Lemma wp_zoom {S T A} (get : S -> T) set (m : ST T A) s Q E :
  wp m (get s) (fun a t => Q a (set t s)) (fun e t => E e (set t s)) ->
  wp (zoom get set m) s Q E.
Proof. unfold wp, zoom. destruct (m (get s)) as [[a|e|] t]; done. Qed.

Lemma wp_attempt {S A} (m : ST S A) s (Q : option A -> S -> Prop) (E : Error -> S -> Prop) :
  wp m s (fun a => Q (Some a)) (fun _ => Q None) -> wp (attempt m) s Q E.
Proof. unfold wp, attempt. destruct (m s) as [[a|e|] s']; done. Qed.

Lemma wp_if {S A} (b : bool) (m1 m2 : ST S A) s Q E :
  (b = true -> wp m1 s Q E) -> (b = false -> wp m2 s Q E) ->
  wp (if b then m1 else m2) s Q E.
Proof. destruct b; auto. Qed.

(** A loop over a range keeps its invariant. *)
Lemma wp_for_range {S} n start (f : Z -> ST S unit) (I : S -> Prop) s :
  (forall i s, start <= i < start + Z.of_nat n -> I s ->
     wp (f i) s (fun _ => I) (fun _ => I)) ->
  I s -> wp (for_range n start f) s (fun _ => I) (fun _ => I).
Proof.
  revert start s. induction n as [|n IH]; intros start s Hf Hs; [done|].
  cbn [for_range]. apply wp_bind.
  eapply wp_mono; [apply Hf; [lia|done]| |done].
  intros [] s' Hs'. apply IH; [|done]. intros. apply Hf; [lia|done].
Qed.

(** The three ways a bind runs. *)
Lemma bind_Ok {S A B} (m : ST S A) (k : A -> ST S B) s a s' :
  m s = (Ok a, s') -> (m ≫= k) s = k a s'.
Proof. unfold mbind, ST_bind. by intros ->. Qed.

Lemma bind_Err {S A B} (m : ST S A) (k : A -> ST S B) s e s' :
  m s = (Err e, s') -> (m ≫= k) s = (Err e, s').
Proof. unfold mbind, ST_bind. by intros ->. Qed.

Lemma bind_inv_Ok {S A B} (m : ST S A) (k : A -> ST S B) s b s' :
  (m ≫= k) s = (Ok b, s') -> exists a t, m s = (Ok a, t) /\ k a t = (Ok b, s').
Proof. unfold mbind, ST_bind. destruct (m s) as [[a|e|] t]; intros; simplify_eq; eauto. Qed.

Create HintDb wp.
#[export] Hint Resolve wp_ret wp_bind wp_fail wp_gets wp_modify wp_zoom wp_if : wp.

(** * Stable computations

    [stable ok rel m Q]: from a state with [ok], [m] does not panic, and whatever
    way it ends, the final state is [ok] and related to the initial one by [rel];
    a value it returns has [Q].  This is the shape of every invariant of the
    memory and machine operations. *)
Definition stable {S A} (ok : S -> Prop) (rel : S -> S -> Prop) (m : ST S A)
  (Q : A -> Prop) : Prop :=
  forall s, ok s ->
    wp m s (fun a s' => Q a /\ ok s' /\ rel s s') (fun _ s' => ok s' /\ rel s s').

Section stable.
Context {S : Type} (ok : S -> Prop) (rel : S -> S -> Prop) `{!PreOrder rel}.

Lemma stable_ret {A} (a : A) (Q : A -> Prop) : Q a -> stable ok rel (mret a) Q.
Proof. intros HQ s Hs. split_and!; [done|done|reflexivity]. Qed.

Lemma stable_fail {A} e (Q : A -> Prop) : stable ok rel (fail e) Q.
Proof. intros s Hs. split; [done|reflexivity]. Qed.

Lemma stable_bind {A B} (m : ST S A) (k : A -> ST S B) P Q :
  stable ok rel m P -> (forall a, P a -> stable ok rel (k a) Q) ->
  stable ok rel (m ≫= k) Q.
Proof.
  intros Hm Hk s Hs. apply wp_bind. eapply wp_mono; [by apply Hm| |done].
  intros a s' (Ha & Hs' & Hr). eapply wp_mono; [by apply (Hk a Ha)| |].
  - intros b s'' (? & ? & ?). split_and!; [done|done|by etrans].
  - intros e s'' (? & ?). split; [done|by etrans].
Qed.

Lemma stable_mono {A} (m : ST S A) (P Q : A -> Prop) :
  stable ok rel m P -> (forall a, P a -> Q a) -> stable ok rel m Q.
Proof. intros Hm HPQ s Hs. eapply wp_mono; [by apply Hm| |done]. naive_solver. Qed.

Lemma stable_if {A} (b : bool) (m1 m2 : ST S A) Q :
  (b = true -> stable ok rel m1 Q) -> (b = false -> stable ok rel m2 Q) ->
  stable ok rel (if b then m1 else m2) Q.
Proof. destruct b; auto. Qed.

(** A computation that looks at the state first. *)
Lemma stable_state {A} (m : S -> ST S A) Q :
  (forall s, ok s -> stable ok rel (m s) Q) -> stable ok rel (fun s => m s s) Q.
Proof. intros H s Hs. by apply (H s Hs s). Qed.

Lemma stable_gets {A} (f : S -> A) (Q : A -> Prop) :
  (forall s, ok s -> Q (f s)) -> stable ok rel (gets f) Q.
Proof. intros H s Hs. split_and!; [by apply H|done|reflexivity]. Qed.

Lemma stable_modify (f : S -> S) :
  (forall s, ok s -> ok (f s) /\ rel s (f s)) -> stable ok rel (modify f) (fun _ => True).
Proof. intros H s Hs. split; [done|]. by apply H. Qed.

Lemma stable_unwrap {A} (o : option A) (Q : A -> Prop) a :
  o = Some a -> Q a -> stable ok rel (unwrap o) Q.
Proof. intros -> HQ. by apply stable_ret. Qed.

Lemma stable_for_range n start (f : Z -> ST S unit) :
  (forall i, start <= i < start + Z.of_nat n -> stable ok rel (f i) (fun _ => True)) ->
  stable ok rel (for_range n start f) (fun _ => True).
Proof.
  revert start. induction n as [|n IH]; intros start Hf; [by apply stable_ret|].
  cbn [for_range]. eapply stable_bind; [apply Hf; lia|].
  intros _ _. apply IH. intros. apply Hf. lia.
Qed.
End stable.

(** The result of a stable computation. *)
Lemma stable_Ok {S A} (ok : S -> Prop) rel (m : ST S A) Q s a s' :
  stable ok rel m Q -> ok s -> m s = (Ok a, s') -> Q a /\ ok s' /\ rel s s'.
Proof. intros Hm Hs E. specialize (Hm s Hs). unfold wp in Hm. by rewrite E in Hm. Qed.

(** A weaker relation. *)
Lemma stable_rel {S A} (ok : S -> Prop) (rel rel' : S -> S -> Prop) (m : ST S A) Q :
  (forall s s', rel s s' -> rel' s s') -> stable ok rel m Q -> stable ok rel' m Q.
Proof. intros Hr Hm s Hs. eapply wp_mono; [by apply Hm|..]; naive_solver. Qed.

(** A stable computation on a part of the state. *)
Lemma stable_zoom {S T A} (okT : T -> Prop) relT (ok : S -> Prop) rel
  (get : S -> T) (set : T -> S -> S) (m : ST T A) Q :
  (forall s, ok s -> okT (get s)) ->
  (forall s t, ok s -> okT t -> relT (get s) t -> ok (set t s) /\ rel s (set t s)) ->
  stable okT relT m Q -> stable ok rel (zoom get set m) Q.
Proof.
  intros Hg Hset Hm s Hs. apply wp_zoom. eapply wp_mono; [by apply Hm, Hg| |].
  - intros a t (? & ? & ?). split; [done|]. by apply Hset.
  - intros e t (? & ?). by apply Hset.
Qed.

(** Let [done] find the preorder of a [stable] lemma. *)
#[export] Hint Extern 0 (PreOrder _) => solve [typeclasses eauto] : core.

(** * Computations that only read *)

Definition reads {S A} (m : ST S A) : Prop := forall s, (m s).2 = s.

Lemma reads_ret {S A} (a : A) : reads (S := S) (mret a).
Proof. by intros s. Qed.
Lemma reads_fail {S A} e : reads (S := S) (A := A) (fail e).
Proof. by intros s. Qed.
Lemma reads_gets {S A} (f : S -> A) : reads (gets f).
Proof. by intros s. Qed.
Lemma reads_unwrap {S A} (o : option A) : reads (S := S) (unwrap o).
Proof. by destruct o; intros s. Qed.
Lemma reads_bind {S A B} (m : ST S A) (k : A -> ST S B) :
  reads m -> (forall a, reads (k a)) -> reads (m ≫= k).
Proof.
  intros Hm Hk s. unfold mbind, ST_bind. specialize (Hm s).
  destruct (m s) as [[a|e|] s']; cbn in *; subst; [apply Hk|done..].
Qed.
Lemma reads_if {S A} (b : bool) (m m' : ST S A) :
  reads m -> reads m' -> reads (if b then m else m').
Proof. by destruct b. Qed.
Lemma reads_zoom {S T A} get set (m : ST T A) :
  (forall s : S, set (get s) s = s) -> reads m -> reads (zoom get set m).
Proof.
  intros Hs Hm s. unfold zoom. specialize (Hm (get s)). destruct (m (get s)) as [o t].
  cbn in *. by subst.
Qed.

(** The result of a reading computation determines its outcome. *)
Lemma reads_eq {S A} (m : ST S A) s o : reads m -> (m s).1 = o -> m s = (o, s).
Proof. intros Hm <-. specialize (Hm s). destruct (m s). cbn in *. by subst. Qed.

(** * Computations that respect a relation

    [respects rel c]: from related states [c] has the same result, and it stays among
    the states related to the one it started from.  [rel] is a partial equivalence:
    the states related to themselves are the valid ones. *)

Definition respects {S A} (rel : S -> S -> Prop) (c : ST S A) : Prop :=
  forall s s', rel s s' -> (c s).1 = (c s').1 /\ rel s (c s).2.

Section respects.
Context {S : Type} (rel : S -> S -> Prop) {Hsym : Symmetric rel} {Htrans : Transitive rel}.

Lemma respects_ret {A} (a : A) : respects rel (mret a).
Proof. intros s s' H. split; [done|]. cbn. by etrans. Qed.
Lemma respects_fail {A} e : respects rel (fail (A := A) e).
Proof. intros s s' H. split; [done|]. cbn. by etrans. Qed.
Lemma respects_gets {A} (f : S -> A) :
  (forall s s', rel s s' -> f s = f s') -> respects rel (gets f).
Proof. intros Hf s s' H. split; [cbn; f_equal; by apply Hf|]. cbn. by etrans. Qed.
Lemma respects_if {A} (b : bool) (c c' : ST S A) :
  respects rel c -> respects rel c' -> respects rel (if b then c else c').
Proof. by destruct b. Qed.

(** The final states are related too. *)
Lemma respects_final {A} (c : ST S A) s s' :
  respects rel c -> rel s s' -> rel (c s).2 (c s').2.
Proof.
  intros Hc H. destruct (Hc s s' H) as [_ H1]. destruct (Hc s' s ltac:(by symmetry)) as [_ H2].
  transitivity s; [by symmetry|]. by transitivity s'.
Qed.

Lemma respects_bind {A B} (c : ST S A) (k : A -> ST S B) :
  respects rel c -> (forall a, respects rel (k a)) -> respects rel (c ≫= k).
Proof.
  intros Hc Hk s s' H. destruct (Hc s s' H) as [E H1].
  pose proof (respects_final c s s' Hc H) as H2. unfold mbind, ST_bind.
  destruct (c s) as [o t], (c s') as [o' t']. cbn in *. subst o'.
  destruct o as [a|e|]; [|done..]. destruct (Hk a t t' H2) as [? ?]. split; [done|]. by etrans.
Qed.

Lemma respects_attempt {A} (c : ST S A) : respects rel c -> respects rel (attempt c).
Proof.
  intros Hc s s' H. destruct (Hc s s' H) as [E H1]. unfold attempt.
  destruct (c s) as [[a|e|] t], (c s') as [o' t']; cbn in *; subst; done.
Qed.

Lemma respects_zoom {T A} (relT : T -> T -> Prop) get set (c : ST T A) :
  (forall s s', rel s s' -> relT (get s) (get s')) ->
  (forall s t, rel s s -> relT (get s) t -> rel s (set t s)) ->
  respects relT c -> respects rel (zoom get set c).
Proof.
  intros Hg Hs Hc s s' H. destruct (Hc _ _ (Hg s s' H)) as [E H1]. unfold zoom.
  destruct (c (get s)) as [o t], (c (get s')) as [o' t']. cbn in *. subst.
  split; [done|]. apply Hs; [by etrans|done].
Qed.

Lemma respects_for_range n start (f : Z -> ST S unit) :
  (forall i, respects rel (f i)) -> respects rel (for_range n start f).
Proof.
  intros Hf. revert start. induction n as [|n IH]; intros start; [apply respects_ret|].
  cbn [for_range]. apply respects_bind; [apply Hf|intros _; apply IH].
Qed.
End respects.

(** Let [done] find the symmetry and transitivity of a [respects] lemma. *)
#[export] Hint Extern 0 (Symmetric _) => solve [typeclasses eauto] : core.
#[export] Hint Extern 0 (Transitive _) => solve [typeclasses eauto] : core.
