(* ===== verification/Bits.v ===== *)
(** Alignment helpers (src/src/bits.rs) and the pseudo-random filler that
    implements the chaos mode (src/src/rng.rs). *)
From S2P Require Import Prelude.
From stdpp Require Import base list numbers.
Open Scope Z_scope.

(** * bits.rs *)

Definition roundup (x round : Z) : Z :=
  wadd 64 x (Z.land (wadd 64 (wnot 64 x) 1) (wsub 64 round 1)).

Definition rounddown (x round : Z) : Z :=
  Z.land x (wnot 64 (wsub 64 round 1)).

(** * rng.rs *)

Definition LCG_A : Z := 0x5DEECE66D.
Definition LCG_C : Z := 0xB.
Definition LCG_M : Z := 2 ^ 48.

(** The new contents of [data] and the new seed. *)
Fixpoint rng_fill (seed : Z) (data : list Z) : list Z * Z :=
  match data with
  | [] => ([], seed)
  | _ :: rest =>
      let seed := wadd 64 (wmul 64 LCG_A seed) LCG_C mod LCG_M in
      let byte := wrap 8 (Z.land (Z.shiftr seed 40) 0xFF) in
      let (bytes, seed) := rng_fill seed rest in (byte :: bytes, seed)
  end.

Record Rand := { rand_seed : Z }.

Definition Rand_new (seed : Z) : Rand := {| rand_seed := seed |}.

Definition Rand_fill (r : Rand) (data : list Z) : list Z * Rand :=
  let (bytes, seed) := rng_fill (rand_seed r) data in (bytes, {| rand_seed := seed |}).

(** * Closed forms *)

Lemma wsub_pow2_1 k : 0 <= k <= 64 -> wsub 64 (2 ^ k) 1 = Z.ones k.
Proof.
  intros. rewrite Z.ones_equiv. unfold wsub. rewrite wrap_small; [lia|].
  pose proof (pow2_pos k). pose proof (Z.pow_le_mono_r 2 k 64). split; lia.
Qed.

Lemma rounddown_eq x k : in_u 64 x -> 0 <= k < 64 -> rounddown x (2 ^ k) = x - x mod 2 ^ k.
Proof.
  intros Hx Hk. unfold rounddown, wnot. rewrite wsub_pow2_1 by lia.
  transitivity (Z.ldiff x (Z.ones k)).
  - apply Z.bits_inj'. intros j Hj. autorewrite with bits.
    case_bools; [done|]. by rewrite (testbit_high 64 x) by done || lia.
  - rewrite Z.ldiff_ones_r, Z.shiftl_mul_pow2, Z.shiftr_div_pow2 by lia.
    pose proof (Z.div_mod x (2 ^ k)). pose proof (pow2_pos k). lia.
Qed.

Lemma roundup_eq x k :
  in_u 64 x -> 0 <= k < 64 -> roundup x (2 ^ k) = wrap 64 (x + (- x) mod 2 ^ k).
Proof.
  intros Hx Hk. unfold roundup, wadd at 1. do 2 f_equal.
  rewrite wsub_pow2_1, Z.land_ones by lia.
  unfold wadd, wnot. rewrite wrap_add_l.
  replace (Z.lnot x + 1) with (- x) by (unfold Z.lnot; lia).
  apply wrap_wrap_le. lia.
Qed.

Lemma neg_mod_up x m : 0 < m -> (x + (- x) mod m) mod m = 0 /\ 0 <= (- x) mod m < m.
Proof.
  intros. split; [|by apply Z.mod_pos_bound].
  rewrite Zplus_mod_idemp_r. replace (x + - x) with 0 by lia. by apply Z.mod_0_l; lia.
Qed.

(** [roundup] to a power of two returns the least multiple of [round] that is
    not below [x], or 0 when that multiple is 2^64. *)
Lemma roundup_spec x k :
  in_u 64 x -> 0 <= k < 64 ->
  exists m, m mod 2 ^ k = 0 /\ x <= m < x + 2 ^ k /\
    (roundup x (2 ^ k) = m /\ m < 2 ^ 64 \/ roundup x (2 ^ k) = 0 /\ m = 2 ^ 64).
Proof.
  intros Hx Hk. pose proof (pow2_pos k ltac:(lia)) as Hp.
  destruct (neg_mod_up x (2 ^ k) Hp) as [Hm Hr].
  exists (x + (- x) mod 2 ^ k). split; [done|]. split; [lia|].
  rewrite roundup_eq by done. unfold in_u in Hx.
  destruct (Z.lt_ge_cases (x + (- x) mod 2 ^ k) (2 ^ 64)) as [Hl|Hl].
  - left. split; [|done]. apply wrap_small. split; lia.
  - right. assert (x + (- x) mod 2 ^ k = 2 ^ 64) as ->; [|done].
    assert (Hd : 2 ^ 64 = 2 ^ (64 - k) * 2 ^ k)
      by (rewrite <- Z.pow_add_r by lia; f_equal; lia).
    set (m := x + (- x) mod 2 ^ k) in *.
    pose proof (Z.div_exact m (2 ^ k) ltac:(lia)) as [_ He]. specialize (He Hm).
    assert (2 ^ (64 - k) <= m / 2 ^ k) by (apply (Z.mul_le_mono_pos_r _ _ (2 ^ k)); lia).
    assert (m / 2 ^ k < 2 ^ (64 - k) + 1) by (apply (Z.mul_lt_mono_pos_r (2 ^ k)); lia).
    replace (m / 2 ^ k) with (2 ^ (64 - k)) in He by lia. lia.
Qed.

(** [rounddown] to a power of two returns the greatest multiple of [round] not
    above [x], and is the identity exactly on multiples. *)
Lemma rounddown_spec x k :
  in_u 64 x -> 0 <= k < 64 ->
  rounddown x (2 ^ k) mod 2 ^ k = 0 /\
  rounddown x (2 ^ k) <= x < rounddown x (2 ^ k) + 2 ^ k /\
  (rounddown x (2 ^ k) = x <-> x mod 2 ^ k = 0).
Proof.
  intros Hx Hk. rewrite rounddown_eq by done.
  pose proof (pow2_pos k ltac:(lia)). pose proof (Z.mod_pos_bound x (2 ^ k)).
  rewrite Zminus_mod_idemp_r, Z.sub_diag, Z.mod_0_l by lia. lia.
Qed.

(** C40: rounding to a power of two.  [roundup] returns the least multiple of [round] that is
    not below [x], or 0 when that multiple is 2^64; [rounddown] the greatest multiple not
    above [x]; so they agree exactly on multiples. *)
Theorem rounding_spec x k :
  in_u 64 x -> 0 <= k < 64 ->
  (exists m, m mod 2 ^ k = 0 /\ x <= m < x + 2 ^ k /\
    (roundup x (2 ^ k) = m /\ m < 2 ^ 64 \/ roundup x (2 ^ k) = 0 /\ m = 2 ^ 64)) /\
  (rounddown x (2 ^ k) mod 2 ^ k = 0 /\ rounddown x (2 ^ k) <= x < rounddown x (2 ^ k) + 2 ^ k) /\
  (rounddown x (2 ^ k) = x <-> x mod 2 ^ k = 0).
Proof.
  intros Hx Hk. destruct (rounddown_spec x k Hx Hk) as (H1 & H2 & H3).
  exact (conj (roundup_spec x k Hx Hk) (conj (conj H1 H2) H3)).
Qed.

Lemma rounding_spec_witness :
  (roundup 0x1001 (2 ^ 12) = 0x2000 /\ roundup U64_MAX (2 ^ 12) = 0 /\ rounddown 0x1001 (2 ^ 12) = 0x1000) /\
  (rounddown 0x1001 (2 ^ 12) = 0x1001 <-> 0x1001 mod 2 ^ 12 = 0).
Proof.
  split; [split_and!; vm_compute; reflexivity|].
  apply (rounding_spec 0x1001 12); [split; vm_compute; congruence | lia].
Defined.

(** * The random filler *)

(** drand48's recurrence: the 64-bit wrap does not show modulo 2^48. *)
Lemma lcg_step seed :
  wadd 64 (wmul 64 LCG_A seed) LCG_C mod LCG_M = (LCG_A * seed + LCG_C) mod 2 ^ 48.
Proof.
  unfold wadd, wmul. rewrite wrap_add_l. by apply (wrap_wrap_le 48 64).
Qed.

Lemma rng_fill_length seed data : length (rng_fill seed data).1 = length data.
Proof.
  revert seed. induction data as [|b data IH]; intros; [done|]. cbn [rng_fill].
  specialize (IH (wadd 64 (wmul 64 LCG_A seed) LCG_C mod LCG_M)).
  destruct (rng_fill _ data). simpl in *. by rewrite IH.
Qed.

Lemma rng_fill_bytes seed data : Forall is_byte (rng_fill seed data).1.
Proof.
  revert seed. induction data as [|b data IH]; intros; [constructor|]. cbn [rng_fill].
  specialize (IH (wadd 64 (wmul 64 LCG_A seed) LCG_C mod LCG_M)).
  destruct (rng_fill _ data). constructor; [by apply wrap_range|done].
Qed.

(** Filling two adjacent buffers one after the other is filling their
    concatenation: the stream does not depend on how it is cut. *)
Lemma rng_fill_app seed d1 d2 :
  rng_fill seed (d1 ++ d2) =
  let (b1, s1) := rng_fill seed d1 in
  let (b2, s2) := rng_fill s1 d2 in (b1 ++ b2, s2).
Proof.
  revert seed. induction d1 as [|b d1 IH]; intros; [simpl; by destruct (rng_fill seed d2)|].
  cbn [rng_fill app]. rewrite IH. destruct (rng_fill _ d1) as [b1 s1].
  by destruct (rng_fill s1 d2).
Qed.
