(* ===== verification/Register.v ===== *)
(** The [Register] trait and its implementations for [u32] and [u64]
    (src/src/instructions/register.rs).

    The trait is a record of operations over a carrier type, so that the
    instruction handlers are written once for every register width, as the
    generic code is.  [RegisterOk] states what the rest of the development relies
    on: every operation stays inside the carrier's valid values. *)
From S2P Require Import Prelude.
From stdpp Require Import base list numbers.
From Stdlib Require Import Btauto.
Open Scope Z_scope.

(** * Primitive integer methods used by the implementations *)

(** [iW::overflowing_div] and [iW::overflowing_rem] (divisor not 0). *)
Definition overflowing_div_s (w x y : Z) : Z * bool :=
  if (x =? - 2 ^ (w - 1)) && (y =? -1) then (x, true) else (Z.quot x y, false).
Definition overflowing_rem_s (w x y : Z) : Z * bool :=
  if (x =? - 2 ^ (w - 1)) && (y =? -1) then (0, true) else (Z.rem x y, false).

Definition leading_zeros (w x : Z) : Z := if x =? 0 then w else w - 1 - Z.log2 x.

Fixpoint pos_trailing_zeros (p : positive) : Z :=
  match p with xO q => 1 + pos_trailing_zeros q | _ => 0 end.
Definition trailing_zeros (w x : Z) : Z :=
  match x with Zpos p => pos_trailing_zeros p | _ => w end.

Fixpoint pos_count_ones (p : positive) : Z :=
  match p with
  | xH => 1
  | xO q => pos_count_ones q
  | xI q => 1 + pos_count_ones q
  end.
Definition count_ones (x : Z) : Z :=
  match x with Zpos p => pos_count_ones p | _ => 0 end.

Definition rotate_left (w x n : Z) : Z :=
  let n := n mod w in Z.lor (wrap w (Z.shiftl x n)) (Z.shiftr x (w - n)).
Definition rotate_right (w x n : Z) : Z :=
  let n := n mod w in Z.lor (Z.shiftr x n) (wrap w (Z.shiftl x (w - n))).

(** * The trait *)

Record Register := {
  reg : Type;
  (* the operator supertraits *)
  r_not : reg -> reg;
  r_and : reg -> reg -> reg;
  r_or : reg -> reg -> reg;
  r_xor : reg -> reg -> reg;
  r_shl : reg -> reg -> reg;
  r_shr : reg -> reg -> reg;
  BITS : Z;
  SHIFT_MASK : Z;
  r_zero : reg;
  r_one : reg;
  min_value : reg;
  max_value : reg;
  r_eq : reg -> reg -> reg;
  r_lt : reg -> reg -> reg;
  r_lt_s : reg -> reg -> reg;
  logical_not : reg -> reg;
  cond : reg -> reg -> reg -> reg;
  overflowing_add : reg -> reg -> reg;
  overflowing_sub : reg -> reg -> reg;
  overflowing_mul : reg -> reg -> reg;
  overflowing_div : reg -> reg -> reg;
  overflowing_rem : reg -> reg -> reg;
  overflowing_div_signed : reg -> reg -> reg;
  overflowing_rem_signed : reg -> reg -> reg;
  overflowing_mul_high_signed : reg -> reg -> reg;
  overflowing_mul_high_unsigned : reg -> reg -> reg;
  overflowing_mul_high_signed_unsigned : reg -> reg -> reg;
  clz : reg -> reg;
  ctz : reg -> reg;
  cpop : reg -> reg;
  clmul : reg -> reg -> reg;
  clmulh : reg -> reg -> reg;
  clmulr : reg -> reg -> reg;
  orcb : reg -> reg;
  rev8 : reg -> reg;
  signed_shl : reg -> reg -> reg;
  signed_shr : reg -> reg -> reg;
  rol : reg -> reg -> reg;
  ror : reg -> reg -> reg;
  zero_extend : reg -> reg -> reg;
  sign_extend : reg -> reg -> reg;
  to_i8 : reg -> Z; to_i16 : reg -> Z; to_i32 : reg -> Z; to_i64 : reg -> Z;
  to_u8 : reg -> Z; to_u16 : reg -> Z; to_u32 : reg -> Z; to_u64 : reg -> Z;
  from_i8 : Z -> reg; from_i16 : Z -> reg; from_i32 : Z -> reg; from_i64 : Z -> reg;
  from_u8 : Z -> reg; from_u16 : Z -> reg; from_u32 : Z -> reg; from_u64 : Z -> reg;
}.

Arguments r_not {_} _. Arguments r_and {_} _ _. Arguments r_or {_} _ _.
Arguments r_xor {_} _ _. Arguments r_shl {_} _ _. Arguments r_shr {_} _ _.
Arguments r_zero {_}. Arguments r_one {_}.
Arguments r_eq {_} _ _. Arguments r_lt {_} _ _. Arguments r_lt_s {_} _ _.
Arguments logical_not {_} _. Arguments cond {_} _ _ _.
Arguments overflowing_add {_} _ _. Arguments overflowing_sub {_} _ _.
Arguments overflowing_mul {_} _ _. Arguments overflowing_div {_} _ _.
Arguments overflowing_rem {_} _ _. Arguments overflowing_div_signed {_} _ _.
Arguments overflowing_rem_signed {_} _ _. Arguments overflowing_mul_high_signed {_} _ _.
Arguments overflowing_mul_high_unsigned {_} _ _.
Arguments overflowing_mul_high_signed_unsigned {_} _ _.
Arguments clz {_} _. Arguments ctz {_} _. Arguments cpop {_} _.
Arguments clmul {_} _ _. Arguments clmulh {_} _ _. Arguments clmulr {_} _ _.
Arguments orcb {_} _. Arguments rev8 {_} _.
Arguments signed_shl {_} _ _. Arguments signed_shr {_} _ _.
Arguments rol {_} _ _. Arguments ror {_} _ _.
Arguments zero_extend {_} _ _. Arguments sign_extend {_} _ _.
Arguments to_i8 {_} _. Arguments to_i16 {_} _. Arguments to_i32 {_} _.
Arguments to_i64 {_} _. Arguments to_u8 {_} _. Arguments to_u16 {_} _.
Arguments to_u32 {_} _. Arguments to_u64 {_} _.
Arguments from_i8 {_} _. Arguments from_i16 {_} _. Arguments from_i32 {_} _.
Arguments from_i64 {_} _. Arguments from_u8 {_} _. Arguments from_u16 {_} _.
Arguments from_u32 {_} _. Arguments from_u64 {_} _.

(** The trait's default methods. *)
Definition r_ne {R : Register} (x rhs : reg R) : reg R := logical_not (r_eq x rhs).

Definition r_ge {R : Register} (x other : reg R) : reg R := logical_not (r_lt x other).

Definition r_ge_s {R : Register} (x other : reg R) : reg R := logical_not (r_lt_s x other).

(** * [impl Register for u32] *)

Definition u32_BITS : Z := 32.

Definition u32_SHIFT_MASK : Z := 0x1F.

Definition u32_zero : Z := 0.

Definition u32_one : Z := 1.

Definition u32_min_value : Z := 0.

Definition u32_max_value : Z := U32_MAX.

Definition u32_eq (x other : Z) : Z := b2r (x =? other).

Definition u32_lt (x other : Z) : Z := b2r (x <? other).

Definition u32_lt_s (x other : Z) : Z := b2r (sign 32 x <? sign 32 other).

Definition u32_logical_not (x : Z) : Z := b2r (negb (x =? u32_one)).

Definition u32_cond (x true_value false_value : Z) : Z :=
  if x =? u32_one then true_value else false_value.

Definition u32_overflowing_add (x rhs : Z) : Z := wadd 32 x rhs.

Definition u32_overflowing_sub (x rhs : Z) : Z := wsub 32 x rhs.

Definition u32_overflowing_mul (x rhs : Z) : Z := wmul 32 x rhs.

Definition u32_overflowing_div (x rhs : Z) : Z :=
  if rhs =? 0 then U32_MAX else x / rhs.

Definition u32_overflowing_rem (x rhs : Z) : Z :=
  if rhs =? 0 then x else x mod rhs.

Definition u32_overflowing_div_signed (x rhs : Z) : Z :=
  if rhs =? 0 then wrap 32 (-1) else
  let (v, o) := overflowing_div_s 32 (sign 32 x) (sign 32 rhs) in
  if o then wshl 32 (wrap 32 (-1)) (u32_BITS - 1) else wrap 32 v.

Definition u32_overflowing_rem_signed (x rhs : Z) : Z :=
  if rhs =? 0 then x else
  let (v, o) := overflowing_rem_s 32 (sign 32 x) (sign 32 rhs) in
  if o then 0 else wrap 32 v.

Definition u32_overflowing_mul_high_signed (x rhs : Z) : Z :=
  let a := sign 32 x in
  let b := sign 32 rhs in
  let value := sign 64 (a * b) in
  wrap 32 (Z.shiftr value 32).

Definition u32_overflowing_mul_high_unsigned (x rhs : Z) : Z :=
  let value := wrap 64 (x * rhs) in
  wrap 32 (Z.shiftr value 32).

Definition u32_overflowing_mul_high_signed_unsigned (x rhs : Z) : Z :=
  let a := sign 32 x in
  let value := sign 64 (a * rhs) in
  wrap 32 (Z.shiftr value 32).

Definition u32_signed_shl (x rhs : Z) : Z :=
  wrap 32 (Z.shiftl (sign 32 x) (rhs mod 32)).

Definition u32_signed_shr (x rhs : Z) : Z :=
  wrap 32 (Z.shiftr (sign 32 x) (rhs mod 32)).

Definition u32_zero_extend (x start_bit : Z) : Z :=
  let start_bit := Z.min start_bit 32 in
  wshr 32 (wshl 32 x (32 - start_bit)) (32 - start_bit).

Definition u32_sign_extend (x start_bit : Z) : Z :=
  let start_bit := Z.min start_bit 32 in
  wrap 32 (Z.shiftr (sign 32 (wshl 32 x (32 - start_bit))) ((32 - start_bit) mod 32)).

Definition u32_clz (x : Z) : Z := leading_zeros 32 x.

Definition u32_ctz (x : Z) : Z := trailing_zeros 32 x.

Definition u32_cpop (x : Z) : Z := count_ones x.

Definition u32_clmul (a rhs : Z) : Z :=
  foldl (fun x i => if negb (Z.land (Z.shiftr rhs i) 1 =? 0)
                    then Z.lxor x (wshl 32 a i) else x) 0 (seqZ 0 32).

Definition u32_clmulh (a rhs : Z) : Z :=
  foldl (fun x i => if negb (Z.land (Z.shiftr rhs i) 1 =? 0)
                    then Z.lxor x (wshr 32 a (32 - i)) else x) 0 (seqZ 1 31).

Definition u32_clmulr (a rhs : Z) : Z :=
  foldl (fun x i => if negb (Z.land (Z.shiftr rhs i) 1 =? 0)
                    then Z.lxor x (wshr 32 a (31 - i)) else x) 0 (seqZ 0 32).

Definition u32_orcb (x : Z) : Z :=
  let rr := 0 in
  let rr := if negb (Z.land x 0x000000ff =? 0) then Z.lor rr 0x000000ff else rr in
  let rr := if negb (Z.land x 0x0000ff00 =? 0) then Z.lor rr 0x0000ff00 else rr in
  let rr := if negb (Z.land x 0x00ff0000 =? 0) then Z.lor rr 0x00ff0000 else rr in
  let rr := if negb (Z.land x 0xff000000 =? 0) then Z.lor rr 0xff000000 else rr in
  rr.

Definition u32_rev8 (x : Z) : Z :=
  let r := 0 in
  let a := Z.land x 0x000000ff in let r := Z.lor r (wshl 32 a 24) in
  let a := Z.land x 0x0000ff00 in let r := Z.lor r (wshl 32 a 8) in
  let a := Z.land x 0x00ff0000 in let r := Z.lor r (wshr 32 a 8) in
  let a := Z.land x 0xff000000 in let r := Z.lor r (wshr 32 a 24) in
  r.

Definition u32_rol (x rhs : Z) : Z := rotate_left 32 x (wrap 32 rhs).

Definition u32_ror (x rhs : Z) : Z := rotate_right 32 x (wrap 32 rhs).

Definition u32_to_i8 (x : Z) : Z := sign 8 x.

Definition u32_to_i16 (x : Z) : Z := sign 16 x.

Definition u32_to_i32 (x : Z) : Z := sign 32 x.

Definition u32_to_i64 (x : Z) : Z := sign 32 x.

Definition u32_to_u8 (x : Z) : Z := wrap 8 x.

Definition u32_to_u16 (x : Z) : Z := wrap 16 x.

Definition u32_to_u32 (x : Z) : Z := x.

Definition u32_to_u64 (x : Z) : Z := x.

Definition u32_from_i8 (v : Z) : Z := wrap 32 v.

Definition u32_from_i16 (v : Z) : Z := wrap 32 v.

Definition u32_from_i32 (v : Z) : Z := wrap 32 v.

Definition u32_from_i64 (v : Z) : Z := wrap 32 (sign 32 v).

Definition u32_from_u8 (v : Z) : Z := v.

Definition u32_from_u16 (v : Z) : Z := v.

Definition u32_from_u32 (v : Z) : Z := v.

Definition u32_from_u64 (v : Z) : Z := wrap 32 v.

(** [impl Register for u32], with the primitive type's own [!], [&], [|], [^],
    [<<] and [>>]. *)
Definition u32_register : Register := {|
  reg := Z;
  r_not := wnot 32; r_and := Z.land; r_or := Z.lor; r_xor := Z.lxor;
  r_shl := wshl 32; r_shr := wshr 32;
  BITS := u32_BITS;
  SHIFT_MASK := u32_SHIFT_MASK;
  r_zero := u32_zero;
  r_one := u32_one;
  min_value := u32_min_value;
  max_value := u32_max_value;
  r_eq := u32_eq;
  r_lt := u32_lt;
  r_lt_s := u32_lt_s;
  logical_not := u32_logical_not;
  cond := u32_cond;
  overflowing_add := u32_overflowing_add;
  overflowing_sub := u32_overflowing_sub;
  overflowing_mul := u32_overflowing_mul;
  overflowing_div := u32_overflowing_div;
  overflowing_rem := u32_overflowing_rem;
  overflowing_div_signed := u32_overflowing_div_signed;
  overflowing_rem_signed := u32_overflowing_rem_signed;
  overflowing_mul_high_signed := u32_overflowing_mul_high_signed;
  overflowing_mul_high_unsigned := u32_overflowing_mul_high_unsigned;
  overflowing_mul_high_signed_unsigned := u32_overflowing_mul_high_signed_unsigned;
  clz := u32_clz;
  ctz := u32_ctz;
  cpop := u32_cpop;
  clmul := u32_clmul;
  clmulh := u32_clmulh;
  clmulr := u32_clmulr;
  orcb := u32_orcb;
  rev8 := u32_rev8;
  signed_shl := u32_signed_shl;
  signed_shr := u32_signed_shr;
  rol := u32_rol;
  ror := u32_ror;
  zero_extend := u32_zero_extend;
  sign_extend := u32_sign_extend;
  to_i8 := u32_to_i8;
  to_i16 := u32_to_i16;
  to_i32 := u32_to_i32;
  to_i64 := u32_to_i64;
  to_u8 := u32_to_u8;
  to_u16 := u32_to_u16;
  to_u32 := u32_to_u32;
  to_u64 := u32_to_u64;
  from_i8 := u32_from_i8;
  from_i16 := u32_from_i16;
  from_i32 := u32_from_i32;
  from_i64 := u32_from_i64;
  from_u8 := u32_from_u8;
  from_u16 := u32_from_u16;
  from_u32 := u32_from_u32;
  from_u64 := u32_from_u64
|}.

(** * [impl Register for u64] *)

Definition u64_BITS : Z := 64.

Definition u64_SHIFT_MASK : Z := 0x3F.

Definition u64_zero : Z := 0.

Definition u64_one : Z := 1.

Definition u64_min_value : Z := 0.

Definition u64_max_value : Z := U64_MAX.

Definition u64_eq (x other : Z) : Z := b2r (x =? other).

Definition u64_lt (x other : Z) : Z := b2r (x <? other).

Definition u64_lt_s (x other : Z) : Z := b2r (sign 64 x <? sign 64 other).

Definition u64_logical_not (x : Z) : Z := b2r (negb (x =? u64_one)).

Definition u64_cond (x true_value false_value : Z) : Z :=
  if x =? u64_one then true_value else false_value.

Definition u64_overflowing_add (x rhs : Z) : Z := wadd 64 x rhs.

Definition u64_overflowing_sub (x rhs : Z) : Z := wsub 64 x rhs.

Definition u64_overflowing_mul (x rhs : Z) : Z := wmul 64 x rhs.

Definition u64_overflowing_div (x rhs : Z) : Z :=
  if rhs =? 0 then U64_MAX else x / rhs.

Definition u64_overflowing_rem (x rhs : Z) : Z :=
  if rhs =? 0 then x else x mod rhs.

Definition u64_overflowing_div_signed (x rhs : Z) : Z :=
  if rhs =? 0 then wrap 64 (-1) else
  let (v, o) := overflowing_div_s 64 (sign 64 x) (sign 64 rhs) in
  if o then wshl 64 (wrap 64 (-1)) (u64_BITS - 1) else wrap 64 v.

Definition u64_overflowing_rem_signed (x rhs : Z) : Z :=
  if rhs =? 0 then x else
  let (v, o) := overflowing_rem_s 64 (sign 64 x) (sign 64 rhs) in
  if o then 0 else wrap 64 v.

Definition u64_overflowing_mul_high_signed (x rhs : Z) : Z :=
  let a := sign 64 x in
  let b := sign 64 rhs in
  let value := sign 128 (a * b) in
  wrap 64 (Z.shiftr value 64).

Definition u64_overflowing_mul_high_unsigned (x rhs : Z) : Z :=
  let value := wrap 128 (x * rhs) in
  wrap 64 (Z.shiftr value 64).

Definition u64_overflowing_mul_high_signed_unsigned (x rhs : Z) : Z :=
  let a := sign 64 x in
  let value := sign 128 (a * rhs) in
  wrap 64 (Z.shiftr value 64).

Definition u64_signed_shl (x rhs : Z) : Z :=
  wrap 64 (Z.shiftl (sign 64 x) (rhs mod 64)).

Definition u64_signed_shr (x rhs : Z) : Z :=
  wrap 64 (Z.shiftr (sign 64 x) (rhs mod 64)).

Definition u64_zero_extend (x start_bit : Z) : Z :=
  let start_bit := Z.min start_bit 64 in
  wshr 64 (wshl 64 x (64 - start_bit)) (64 - start_bit).

Definition u64_sign_extend (x start_bit : Z) : Z :=
  let start_bit := Z.min start_bit 64 in
  wrap 64 (Z.shiftr (sign 64 (wshl 64 x (64 - start_bit))) ((64 - start_bit) mod 64)).

Definition u64_clz (x : Z) : Z := leading_zeros 64 x.

Definition u64_ctz (x : Z) : Z := trailing_zeros 64 x.

Definition u64_cpop (x : Z) : Z := count_ones x.

Definition u64_clmul (a rhs : Z) : Z :=
  foldl (fun x i => if negb (Z.land (Z.shiftr rhs i) 1 =? 0)
                    then Z.lxor x (wshl 64 a i) else x) 0 (seqZ 0 64).

Definition u64_clmulh (a rhs : Z) : Z :=
  foldl (fun x i => if negb (Z.land (Z.shiftr rhs i) 1 =? 0)
                    then Z.lxor x (wshr 64 a (64 - i)) else x) 0 (seqZ 1 63).

Definition u64_clmulr (a rhs : Z) : Z :=
  foldl (fun x i => if negb (Z.land (Z.shiftr rhs i) 1 =? 0)
                    then Z.lxor x (wshr 64 a (63 - i)) else x) 0 (seqZ 0 64).

Definition u64_orcb (x : Z) : Z :=
  let rr := 0 in
  let rr := if negb (Z.land x 0x00000000000000ff =? 0) then Z.lor rr 0x00000000000000ff else rr in
  let rr := if negb (Z.land x 0x000000000000ff00 =? 0) then Z.lor rr 0x000000000000ff00 else rr in
  let rr := if negb (Z.land x 0x0000000000ff0000 =? 0) then Z.lor rr 0x0000000000ff0000 else rr in
  let rr := if negb (Z.land x 0x00000000ff000000 =? 0) then Z.lor rr 0x00000000ff000000 else rr in
  let rr := if negb (Z.land x 0x000000ff00000000 =? 0) then Z.lor rr 0x000000ff00000000 else rr in
  let rr := if negb (Z.land x 0x0000ff0000000000 =? 0) then Z.lor rr 0x0000ff0000000000 else rr in
  let rr := if negb (Z.land x 0x00ff000000000000 =? 0) then Z.lor rr 0x00ff000000000000 else rr in
  let rr := if negb (Z.land x 0xff00000000000000 =? 0) then Z.lor rr 0xff00000000000000 else rr in
  rr.

Definition u64_rev8 (x : Z) : Z :=
  let r := 0 in
  let a := Z.land x 0x00000000000000ff in let r := Z.lor r (wshl 64 a 56) in
  let a := Z.land x 0x000000000000ff00 in let r := Z.lor r (wshl 64 a 40) in
  let a := Z.land x 0x0000000000ff0000 in let r := Z.lor r (wshl 64 a 24) in
  let a := Z.land x 0x00000000ff000000 in let r := Z.lor r (wshl 64 a 8) in
  let a := Z.land x 0x000000ff00000000 in let r := Z.lor r (wshr 64 a 8) in
  let a := Z.land x 0x0000ff0000000000 in let r := Z.lor r (wshr 64 a 24) in
  let a := Z.land x 0x00ff000000000000 in let r := Z.lor r (wshr 64 a 40) in
  let a := Z.land x 0xff00000000000000 in let r := Z.lor r (wshr 64 a 56) in
  r.

Definition u64_rol (x rhs : Z) : Z := rotate_left 64 x (wrap 32 rhs).

Definition u64_ror (x rhs : Z) : Z := rotate_right 64 x (wrap 32 rhs).

Definition u64_to_i8 (x : Z) : Z := sign 8 x.

Definition u64_to_i16 (x : Z) : Z := sign 16 x.

Definition u64_to_i32 (x : Z) : Z := sign 32 x.

Definition u64_to_i64 (x : Z) : Z := sign 64 x.

Definition u64_to_u8 (x : Z) : Z := wrap 8 x.

Definition u64_to_u16 (x : Z) : Z := wrap 16 x.

Definition u64_to_u32 (x : Z) : Z := wrap 32 x.

Definition u64_to_u64 (x : Z) : Z := x.

Definition u64_from_i8 (v : Z) : Z := wrap 64 v.

Definition u64_from_i16 (v : Z) : Z := wrap 64 v.

Definition u64_from_i32 (v : Z) : Z := wrap 64 v.

Definition u64_from_i64 (v : Z) : Z := wrap 64 v.

Definition u64_from_u8 (v : Z) : Z := v.

Definition u64_from_u16 (v : Z) : Z := v.

Definition u64_from_u32 (v : Z) : Z := v.

Definition u64_from_u64 (v : Z) : Z := v.

(** [impl Register for u64], with the primitive type's own [!], [&], [|], [^],
    [<<] and [>>]. *)
Definition u64_register : Register := {|
  reg := Z;
  r_not := wnot 64; r_and := Z.land; r_or := Z.lor; r_xor := Z.lxor;
  r_shl := wshl 64; r_shr := wshr 64;
  BITS := u64_BITS;
  SHIFT_MASK := u64_SHIFT_MASK;
  r_zero := u64_zero;
  r_one := u64_one;
  min_value := u64_min_value;
  max_value := u64_max_value;
  r_eq := u64_eq;
  r_lt := u64_lt;
  r_lt_s := u64_lt_s;
  logical_not := u64_logical_not;
  cond := u64_cond;
  overflowing_add := u64_overflowing_add;
  overflowing_sub := u64_overflowing_sub;
  overflowing_mul := u64_overflowing_mul;
  overflowing_div := u64_overflowing_div;
  overflowing_rem := u64_overflowing_rem;
  overflowing_div_signed := u64_overflowing_div_signed;
  overflowing_rem_signed := u64_overflowing_rem_signed;
  overflowing_mul_high_signed := u64_overflowing_mul_high_signed;
  overflowing_mul_high_unsigned := u64_overflowing_mul_high_unsigned;
  overflowing_mul_high_signed_unsigned := u64_overflowing_mul_high_signed_unsigned;
  clz := u64_clz;
  ctz := u64_ctz;
  cpop := u64_cpop;
  clmul := u64_clmul;
  clmulh := u64_clmulh;
  clmulr := u64_clmulr;
  orcb := u64_orcb;
  rev8 := u64_rev8;
  signed_shl := u64_signed_shl;
  signed_shr := u64_signed_shr;
  rol := u64_rol;
  ror := u64_ror;
  zero_extend := u64_zero_extend;
  sign_extend := u64_sign_extend;
  to_i8 := u64_to_i8;
  to_i16 := u64_to_i16;
  to_i32 := u64_to_i32;
  to_i64 := u64_to_i64;
  to_u8 := u64_to_u8;
  to_u16 := u64_to_u16;
  to_u32 := u64_to_u32;
  to_u64 := u64_to_u64;
  from_i8 := u64_from_i8;
  from_i16 := u64_from_i16;
  from_i32 := u64_from_i32;
  from_i64 := u64_from_i64;
  from_u8 := u64_from_u8;
  from_u16 := u64_from_u16;
  from_u32 := u64_from_u32;
  from_u64 := u64_from_u64
|}.
