(* ===== verification/RegisterFacts.v ===== *)
(** What the register operations compute: closure of the valid values
    ([RegisterOk]), and the RISC-V meaning of division, high multiplication,
    carry-less multiplication, bit counting, rotation and byte operations. *)
From S2P Require Import Prelude Register.
From stdpp Require Import base list numbers.
From Stdlib Require Import Btauto.
Open Scope Z_scope.

(** * The interface of a valid register type *)

Class RegisterOk (R : Register) := {
  reg_ok : reg R -> Prop;
  ok_not x : reg_ok x -> reg_ok (r_not x);
  ok_and x y : reg_ok x -> reg_ok y -> reg_ok (r_and x y);
  ok_or x y : reg_ok x -> reg_ok y -> reg_ok (r_or x y);
  ok_xor x y : reg_ok x -> reg_ok y -> reg_ok (r_xor x y);
  ok_shl x y : reg_ok x -> reg_ok y -> reg_ok (r_shl x y);
  ok_shr x y : reg_ok x -> reg_ok y -> reg_ok (r_shr x y);
  ok_zero : reg_ok r_zero;
  ok_one : reg_ok r_one;
  ok_eq x y : reg_ok x -> reg_ok y -> reg_ok (r_eq x y);
  ok_lt x y : reg_ok x -> reg_ok y -> reg_ok (r_lt x y);
  ok_lt_s x y : reg_ok x -> reg_ok y -> reg_ok (r_lt_s x y);
  ok_logical_not x : reg_ok x -> reg_ok (logical_not x);
  ok_cond c x y : reg_ok c -> reg_ok x -> reg_ok y -> reg_ok (cond c x y);
  ok_add x y : reg_ok x -> reg_ok y -> reg_ok (overflowing_add x y);
  ok_sub x y : reg_ok x -> reg_ok y -> reg_ok (overflowing_sub x y);
  ok_mul x y : reg_ok x -> reg_ok y -> reg_ok (overflowing_mul x y);
  ok_div x y : reg_ok x -> reg_ok y -> reg_ok (overflowing_div x y);
  ok_rem x y : reg_ok x -> reg_ok y -> reg_ok (overflowing_rem x y);
  ok_div_signed x y : reg_ok x -> reg_ok y -> reg_ok (overflowing_div_signed x y);
  ok_rem_signed x y : reg_ok x -> reg_ok y -> reg_ok (overflowing_rem_signed x y);
  ok_mulh x y : reg_ok x -> reg_ok y -> reg_ok (overflowing_mul_high_signed x y);
  ok_mulhu x y : reg_ok x -> reg_ok y -> reg_ok (overflowing_mul_high_unsigned x y);
  ok_mulhsu x y :
    reg_ok x -> reg_ok y -> reg_ok (overflowing_mul_high_signed_unsigned x y);
  ok_clz x : reg_ok x -> reg_ok (clz x);
  ok_ctz x : reg_ok x -> reg_ok (ctz x);
  ok_cpop x : reg_ok x -> reg_ok (cpop x);
  ok_clmul x y : reg_ok x -> reg_ok y -> reg_ok (clmul x y);
  ok_clmulh x y : reg_ok x -> reg_ok y -> reg_ok (clmulh x y);
  ok_clmulr x y : reg_ok x -> reg_ok y -> reg_ok (clmulr x y);
  ok_orcb x : reg_ok x -> reg_ok (orcb x);
  ok_rev8 x : reg_ok x -> reg_ok (rev8 x);
  ok_signed_shl x y : reg_ok x -> reg_ok y -> reg_ok (signed_shl x y);
  ok_signed_shr x y : reg_ok x -> reg_ok y -> reg_ok (signed_shr x y);
  ok_rol x y : reg_ok x -> reg_ok y -> reg_ok (rol x y);
  ok_ror x y : reg_ok x -> reg_ok y -> reg_ok (ror x y);
  ok_zero_extend x y : reg_ok x -> reg_ok y -> reg_ok (zero_extend x y);
  ok_sign_extend x y : reg_ok x -> reg_ok y -> reg_ok (sign_extend x y);
  ok_from_i32 v : in_s 32 v -> reg_ok (from_i32 v);
  ok_from_u8 v : in_u 8 v -> reg_ok (from_u8 v);
  ok_from_u16 v : in_u 16 v -> reg_ok (from_u16 v);
  ok_from_u32 v : in_u 32 v -> reg_ok (from_u32 v);
  ok_from_u64 v : in_u 64 v -> reg_ok (from_u64 v);
  to_u64_range x : reg_ok x -> in_u 64 (to_u64 x);
  to_u32_range x : reg_ok x -> in_u 32 (to_u32 x);
  to_u16_range x : reg_ok x -> in_u 16 (to_u16 x);
  to_u8_range x : reg_ok x -> in_u 8 (to_u8 x);
  to_from_u16 v : in_u 16 v -> to_u16 (from_u16 v : reg R) = v;
  to_from_u32 v : in_u 32 v -> to_u32 (from_u32 v : reg R) = v;
  to_from_u64 v : in_u (BITS R) v -> to_u64 (from_u64 v : reg R) = v;
  shift_mask_range : in_u 8 (SHIFT_MASK R);
  bits_width : BITS R = 32 \/ BITS R = 64;
}.

Create HintDb regok discriminated.
#[export] Hint Resolve ok_not ok_and ok_or ok_xor ok_shl ok_shr ok_zero ok_one ok_eq
  ok_lt ok_lt_s ok_logical_not ok_cond ok_add ok_sub ok_mul ok_div ok_rem
  ok_div_signed ok_rem_signed ok_mulh ok_mulhu ok_mulhsu ok_clz ok_ctz ok_cpop
  ok_clmul ok_clmulh ok_clmulr ok_orcb ok_rev8 ok_signed_shl ok_signed_shr ok_rol
  ok_ror ok_zero_extend ok_sign_extend ok_from_i32 ok_from_u8 ok_from_u16
  ok_from_u32 ok_from_u64 to_u64_range to_u32_range to_u16_range to_u8_range : regok.

(** * Closure, for any width *)

Lemma small_ok w z : 0 <= z <= 64 -> 7 <= w -> in_u w z.
Proof. intros. pose proof (Z.pow_le_mono_r 2 7 w). split; lia. Qed.

Section width.
Context (w : Z) (Hw : 5 <= w <= 64).

Lemma b2r_ok b : in_u w (b2r b).
Proof. pose proof (Z.pow_le_mono_r 2 5 w). destruct b; split; simpl; lia. Qed.

Lemma wshr_ok x n : in_u w x -> in_u w (wshr w x n).
Proof. intros. apply shiftr_range; [lia|apply Z.mod_pos_bound; lia|done]. Qed.

Lemma div_ok x y : in_u w x -> in_u w y -> y <> 0 -> in_u w (x / y).
Proof.
  intros [? ?] [? ?] ?. split; [apply Z.div_pos; lia|].
  pose proof (Z.div_le_upper_bound x y x). nia.
Qed.

Lemma rem_ok x y : in_u w x -> in_u w y -> y <> 0 -> in_u w (x mod y).
Proof. intros [? ?] [? ?] ?. pose proof (Z.mod_pos_bound x y). split; lia. Qed.

Lemma ones_ok : in_u w (2 ^ w - 1).
Proof. pose proof (pow2_pos w). split; lia. Qed.

Lemma leading_zeros_ok x : in_u w x -> 0 <= leading_zeros w x <= w.
Proof.
  intros [? ?]. unfold leading_zeros. case_bool; [lia|].
  pose proof (Z.log2_nonneg x). pose proof (Z.log2_lt_pow2 x w). lia.
Qed.

Lemma pos_trailing_zeros_bound p : 0 <= pos_trailing_zeros p <= Z.log2 (Zpos p).
Proof.
  induction p; cbn [pos_trailing_zeros]; try (pose proof (Z.log2_nonneg (Zpos 1)); lia).
  - pose proof (Z.log2_nonneg (Zpos (xI p))). lia.
  - rewrite Pos2Z.inj_xO, Z.log2_double by lia. lia.
Qed.

Lemma trailing_zeros_ok x : in_u w x -> 0 <= trailing_zeros w x <= w.
Proof.
  intros [? ?]. destruct x as [|p|p]; cbn [trailing_zeros]; try lia.
  pose proof (pos_trailing_zeros_bound p). pose proof (Z.log2_lt_pow2 (Zpos p) w). lia.
Qed.

Lemma pos_count_ones_bound p : 0 < pos_count_ones p <= Z.log2 (Zpos p) + 1.
Proof.
  induction p; cbn [pos_count_ones].
  - rewrite Pos2Z.inj_xI, Z.log2_succ_double by lia. lia.
  - rewrite Pos2Z.inj_xO, Z.log2_double by lia. lia.
  - change (Z.log2 1) with 0. lia.
Qed.

Lemma count_ones_ok x : in_u w x -> 0 <= count_ones x <= w.
Proof.
  intros [? ?]. destruct x as [|p|p]; cbn [count_ones]; try lia.
  pose proof (pos_count_ones_bound p). pose proof (Z.log2_lt_pow2 (Zpos p) w). lia.
Qed.

Lemma foldl_xor_ok (c : Z -> bool) (f : Z -> Z) l x0 :
  (forall i, in_u w (f i)) -> in_u w x0 ->
  in_u w (foldl (fun x i => if c i then Z.lxor x (f i) else x) x0 l).
Proof.
  intros Hf. revert x0. induction l as [|i l IH]; intros x0 Hx; [done|].
  simpl. apply IH. destruct (c i); [apply lxor_range; auto with lia|done].
Qed.

Lemma rotate_left_ok x n : in_u w x -> in_u w (rotate_left w x n).
Proof.
  intros. apply lor_range; [lia|apply wrap_range; lia|].
  apply shiftr_range; [lia| |done]. pose proof (Z.mod_pos_bound n w). lia.
Qed.

Lemma rotate_right_ok x n : in_u w x -> in_u w (rotate_right w x n).
Proof.
  intros. apply lor_range; [lia| |apply wrap_range; lia].
  apply shiftr_range; [lia| |done]. apply Z.mod_pos_bound; lia.
Qed.

End width.

(** * The two instances *)

Lemma orcb_step_ok w (c : bool) rr m :
  0 <= w -> in_u w m -> in_u w rr -> in_u w (if c then Z.lor rr m else rr).
Proof. intros. destruct c; [by apply lor_range|done]. Qed.

(** The operations whose range is that of their outermost bit operation, and conversions. *)
Ltac converted := first [done | by apply (in_u_le 8) | by apply (in_u_le 16) | by apply (in_u_le 32)
  | apply wrap_range; lia].
Ltac register_range := intros; lazymatch goal with
  | |- _ (r_and _ _) => apply land_range; [lia|done..]
  | |- _ (r_or _ _) => apply lor_range; [lia|done..]
  | |- _ (r_xor _ _) => apply lxor_range; [lia|done..]
  | |- _ (r_shr _ _) => apply wshr_ok; [lia|done..]
  | |- _ (zero_extend _ _) => apply wshr_ok; [lia|]; apply wrap_range; lia
  | |- _ (r_eq _ _) => apply b2r_ok; lia
  | |- _ (r_lt _ _) => apply b2r_ok; lia
  | |- _ (r_lt_s _ _) => apply b2r_ok; lia
  | |- _ (logical_not _) => apply b2r_ok; lia
  | |- _ (rol _ _) => by apply rotate_left_ok
  | |- _ (ror _ _) => by apply rotate_right_ok
  | |- _ (clmul _ _) => apply foldl_xor_ok; [lia|intros; apply wrap_range; lia|by split]
  | |- _ (clmulh _ _) => apply foldl_xor_ok; [lia|intros; by apply wshr_ok|by split]
  | |- _ (clmulr _ _) => apply foldl_xor_ok; [lia|intros; by apply wshr_ok|by split]
  | |- _ (from_u8 _) => converted | |- _ (from_u16 _) => converted
  | |- _ (from_u32 _) => converted | |- _ (from_u64 _) => converted
  | |- in_u 64 (to_u64 _) => converted | |- in_u 32 (to_u32 _) => converted
  | |- in_u 16 (to_u16 _) => converted | |- in_u 8 (to_u8 _) => converted
  | |- _ r_zero => split; vm_compute; congruence
  | |- _ r_one => split; vm_compute; congruence
  | |- in_u 8 (SHIFT_MASK _) => by split
  | |- _ \/ _ => by auto
  | |- _ (cond _ _ _) => fail | |- _ (overflowing_div _ _) => fail | |- _ (overflowing_rem _ _) => fail
  | |- _ (overflowing_div_signed _ _) => fail | |- _ (overflowing_rem_signed _ _) => fail
  | |- _ (clz _) => fail | |- _ (ctz _) => fail | |- _ (cpop _) => fail
  | |- _ (orcb _) => fail | |- _ (rev8 _) => fail
  | |- _ => apply wrap_range; lia
  end.

#[export] Instance u32_ok : RegisterOk u32_register.
Proof.
  refine {| reg_ok := in_u 32 : reg u32_register -> Prop |}; try solve [register_range | by intros v Hv; first [reflexivity | apply (wrap_small _ v Hv)]].
  - intros; cbn [cond u32_register]; unfold u32_cond; by case_match.
  - intros; cbn [overflowing_div u32_register]; unfold u32_overflowing_div.
    case_bool; [apply ones_ok; lia|by apply div_ok].
  - intros; cbn [overflowing_rem u32_register]; unfold u32_overflowing_rem.
    case_bool; [done|by apply rem_ok].
  - intros; cbn [overflowing_div_signed u32_register]; unfold u32_overflowing_div_signed.
    case_bool; [apply wrap_range; lia|].
    destruct (overflowing_div_s _ _ _) as [? []]; apply wrap_range; lia.
  - intros; cbn [overflowing_rem_signed u32_register]; unfold u32_overflowing_rem_signed.
    case_bool; [done|].
    destruct (overflowing_rem_s _ _ _) as [? []]; [by split|apply wrap_range; lia].
  - intros x Hx; apply small_ok; [|lia].
    pose proof (leading_zeros_ok 32 ltac:(lia) x Hx). change (@clz u32_register x) with (u32_clz x).
    unfold u32_clz. lia.
  - intros x Hx; apply small_ok; [|lia].
    pose proof (trailing_zeros_ok 32 ltac:(lia) x Hx). change (@ctz u32_register x) with (u32_ctz x).
    unfold u32_ctz. lia.
  - intros x Hx; apply small_ok; [|lia].
    pose proof (count_ones_ok 32 ltac:(lia) x Hx). change (@cpop u32_register x) with (u32_cpop x).
    unfold u32_cpop. lia.
  - intros x _; change (@orcb u32_register x) with (u32_orcb x). unfold u32_orcb.
    repeat (apply orcb_step_ok; [lia|split; vm_compute; congruence|]). by split.
  - intros x Hx; change (@rev8 u32_register x) with (u32_rev8 x). unfold u32_rev8. cbv zeta.
    repeat apply lor_range; try lia; first [by split | apply wrap_range; lia
      | apply wshr_ok; [lia|]; apply land_range_l; [lia|done]].
Defined.

#[export] Instance u64_ok : RegisterOk u64_register.
Proof.
  refine {| reg_ok := in_u 64 : reg u64_register -> Prop |}; try solve [register_range | by intros v Hv; first [reflexivity | apply (wrap_small _ v Hv)]].
  - intros; cbn [cond u64_register]; unfold u64_cond; by case_match.
  - intros; cbn [overflowing_div u64_register]; unfold u64_overflowing_div.
    case_bool; [apply ones_ok; lia|by apply div_ok].
  - intros; cbn [overflowing_rem u64_register]; unfold u64_overflowing_rem.
    case_bool; [done|by apply rem_ok].
  - intros; cbn [overflowing_div_signed u64_register]; unfold u64_overflowing_div_signed.
    case_bool; [apply wrap_range; lia|].
    destruct (overflowing_div_s _ _ _) as [? []]; apply wrap_range; lia.
  - intros; cbn [overflowing_rem_signed u64_register]; unfold u64_overflowing_rem_signed.
    case_bool; [done|].
    destruct (overflowing_rem_s _ _ _) as [? []]; [by split|apply wrap_range; lia].
  - intros x Hx; apply small_ok; [|lia].
    pose proof (leading_zeros_ok 64 ltac:(lia) x Hx). change (@clz u64_register x) with (u64_clz x).
    unfold u64_clz. lia.
  - intros x Hx; apply small_ok; [|lia].
    pose proof (trailing_zeros_ok 64 ltac:(lia) x Hx). change (@ctz u64_register x) with (u64_ctz x).
    unfold u64_ctz. lia.
  - intros x Hx; apply small_ok; [|lia].
    pose proof (count_ones_ok 64 ltac:(lia) x Hx). change (@cpop u64_register x) with (u64_cpop x).
    unfold u64_cpop. lia.
  - intros x _; change (@orcb u64_register x) with (u64_orcb x). unfold u64_orcb.
    repeat (apply orcb_step_ok; [lia|split; vm_compute; congruence|]). by split.
  - intros x Hx; change (@rev8 u64_register x) with (u64_rev8 x). unfold u64_rev8. cbv zeta.
    repeat apply lor_range; try lia; first [by split | apply wrap_range; lia
      | apply wshr_ok; [lia|]; apply land_range_l; [lia|done]].
Defined.

(** * Extension *)

Lemma shift_mod w k : 0 < k <= w -> (w - k) mod w = w - k.
Proof. intros. apply Z.mod_small; lia. Qed.

Lemma zero_extend_w w x k : 0 < k <= w -> wshr w (wshl w x (w - k)) (w - k) = wrap k x.
Proof.
  intros. unfold wshr, wshl. rewrite shift_mod by done.
  apply Z.bits_inj'. intros j Hj. autorewrite with bits.
  rewrite Z.add_simpl_r. case_bools; done || lia.
Qed.

Lemma sign_extend_w w x k : 0 < k <= w ->
  Z.shiftr (sign w (wshl w x (w - k))) ((w - k) mod w) = sign k x.
Proof.
  intros. unfold wshl. rewrite !shift_mod, sign_wrap by done.
  apply Z.bits_inj'. intros j Hj.
  rewrite Z.shiftr_spec, !testbit_sign, Z.shiftl_spec by (try case_bool; lia).
  f_equal. case_bools; lia.
Qed.

Lemma u64_zero_extend_eq x k : 0 < k <= 64 -> u64_zero_extend x k = wrap k x.
Proof. intros. unfold u64_zero_extend. rewrite Z.min_l by lia. by apply zero_extend_w. Qed.

Lemma u32_zero_extend_eq x k : 0 < k <= 32 -> u32_zero_extend x k = wrap k x.
Proof. intros. unfold u32_zero_extend. rewrite Z.min_l by lia. by apply zero_extend_w. Qed.

Lemma u64_sign_extend_eq x k : 0 < k <= 64 -> u64_sign_extend x k = wrap 64 (sign k x).
Proof. intros. unfold u64_sign_extend. rewrite Z.min_l, sign_extend_w by lia. done. Qed.

Lemma u32_sign_extend_eq x k : 0 < k <= 32 -> u32_sign_extend x k = wrap 32 (sign k x).
Proof. intros. unfold u32_sign_extend. rewrite Z.min_l, sign_extend_w by lia. done. Qed.

(** * Division *)

Lemma sign_nonzero w y : 0 < w -> in_u w y -> y <> 0 -> sign w y <> 0.
Proof.
  intros Hw Hy Hn Hs. apply Hn. rewrite <- (wrap_small w y), <- wrap_sign, Hs by done.
  apply wrap_small. split; [lia|]. apply pow2_pos; lia.
Qed.

(** The signed quotient and remainder outside the overflow case. *)
Lemma quot_rem_signed w sx sy :
  1 < w -> in_s w sx -> in_s w sy -> sy <> 0 -> ~ (sx = - 2 ^ (w - 1) /\ sy = -1) ->
  sign w (wrap w (Z.quot sx sy)) = Z.quot sx sy /\
  sign w (wrap w (Z.rem sx sy)) = Z.rem sx sy.
Proof.
  intros Hw [Hx1 Hx2] [Hy1 Hy2] Hn Ho. rewrite !sign_wrap.
  pose proof (Z.rem_bound_abs sx sy Hn). pose proof (Z.quot_rem sx sy Hn).
  pose proof (Z.rem_sign_nz sx sy Hn) as Hs.
  split; apply sign_small; try lia; unfold in_s.
  - destruct (Z.eq_dec sy 1) as [->|]; [rewrite Z.quot_1_r; lia|].
    destruct (Z.eq_dec sy (-1)) as [->|].
    + change (-1) with (Z.opp 1). rewrite Z.quot_opp_r, Z.quot_1_r by lia. lia.
    + assert (Z.abs (Z.quot sx sy) <= Z.abs sx / 2).
      { rewrite <- Z.quot_abs by done. rewrite Z.quot_div_nonneg by lia.
        apply Z.div_le_compat_l; lia. }
      dlia.
  - assert (Z.abs (Z.rem sx sy) <= Z.abs sx).
    { rewrite <- Z.rem_abs by done. rewrite Z.rem_mod_nonneg by lia. apply Z.mod_le; lia. }
    assert (Z.abs (Z.rem sx sy) < 2 ^ (w - 1)) by lia. lia.
Qed.

(** RISC-V's division table at width [w], for an implementation of the four
    operations. *)
Definition riscv_division (w x y div rem div_s rem_s : Z) : Prop :=
  let sx := sign w x in let sy := sign w y in
  (y = 0 -> div = 2 ^ w - 1 /\ rem = x /\ div_s = 2 ^ w - 1 /\ rem_s = x) /\
  (y <> 0 -> x = div * y + rem /\ 0 <= rem < y) /\
  (sx = - 2 ^ (w - 1) /\ sy = -1 -> sign w div_s = - 2 ^ (w - 1) /\ rem_s = 0) /\
  (y <> 0 -> ~ (sx = - 2 ^ (w - 1) /\ sy = -1) ->
     sx = sign w div_s * sy + sign w rem_s /\
     Z.abs (sign w rem_s) < Z.abs sy /\
     (sign w rem_s <> 0 -> Z.sgn (sign w rem_s) = Z.sgn sx)).

Lemma riscv_division_intro w x y div_s rem_s :
  1 < w -> in_u w x -> in_u w y ->
  let sx := sign w x in let sy := sign w y in
  (y = 0 -> div_s = 2 ^ w - 1 /\ rem_s = x) ->
  (y <> 0 -> sx = - 2 ^ (w - 1) /\ sy = -1 -> sign w div_s = - 2 ^ (w - 1) /\ rem_s = 0) ->
  (y <> 0 -> ~ (sx = - 2 ^ (w - 1) /\ sy = -1) ->
     div_s = wrap w (Z.quot sx sy) /\ rem_s = wrap w (Z.rem sx sy)) ->
  riscv_division w x y (if y =? 0 then 2 ^ w - 1 else x / y)
    (if y =? 0 then x else x mod y) div_s rem_s.
Proof.
  intros Hw Hx Hy sx sy H0 Ho Hn. unfold riscv_division. fold sx sy.
  pose proof (sign_range w x ltac:(lia)). pose proof (sign_range w y ltac:(lia)).
  repeat split; intros.
  1-4: subst; simpl; try done; by apply H0.
  1-3: case_bool; [done|]; destruct Hy; pose proof (Z.div_mod x y);
       pose proof (Z.mod_pos_bound x y); lia.
  1-2: apply Ho; [|done]; intros ->; unfold sy in *;
       change (sign w 0) with (if 0 mod 2 ^ w <? 2 ^ (w - 1) then 0 mod 2 ^ w else 0 mod 2 ^ w - 2 ^ w) in *;
       rewrite Z.mod_0_l in * by (pose proof (pow2_pos w); lia); pose proof (pow2_pos (w - 1));
       destruct (Z.ltb_spec 0 (2 ^ (w - 1))); lia.
  all: destruct Hn as [Hd Hm]; [done..|]; rewrite ?Hd, ?Hm in *;
       pose proof (sign_nonzero w y ltac:(lia) Hy H2) as Hs;
       destruct (quot_rem_signed w sx sy) as [Hq Hr]; [done..|]; rewrite ?Hq, ?Hr.
  - pose proof (Z.quot_rem sx sy Hs). lia.
  - by apply Z.rem_bound_abs.
  - rewrite Hr in *. by apply Z.rem_sign_nz.
Qed.

Lemma u64_division_riscv x y :
  in_u 64 x -> in_u 64 y ->
  riscv_division 64 x y (u64_overflowing_div x y) (u64_overflowing_rem x y)
    (u64_overflowing_div_signed x y) (u64_overflowing_rem_signed x y).
Proof.
  intros Hx Hy. apply riscv_division_intro; [lia|done|done| | |].
  - intros ->. done.
  - intros Hn [H1 H2]. unfold u64_overflowing_div_signed, u64_overflowing_rem_signed.
    rewrite H1, H2. destruct (Z.eqb_spec y 0); done.
  - intros Hn Ho. unfold u64_overflowing_div_signed, u64_overflowing_rem_signed.
    unfold overflowing_div_s, overflowing_rem_s.
    destruct (Z.eqb_spec y 0); [done|].
    destruct (Z.eqb_spec (sign 64 x) (- 2 ^ (64 - 1))); [|done].
    destruct (Z.eqb_spec (sign 64 y) (-1)); [|done]. tauto.
Qed.

Lemma u32_division_riscv x y :
  in_u 32 x -> in_u 32 y ->
  riscv_division 32 x y (u32_overflowing_div x y) (u32_overflowing_rem x y)
    (u32_overflowing_div_signed x y) (u32_overflowing_rem_signed x y).
Proof.
  intros Hx Hy. apply riscv_division_intro; [lia|done|done| | |].
  - intros ->. done.
  - intros Hn [H1 H2]. unfold u32_overflowing_div_signed, u32_overflowing_rem_signed.
    rewrite H1, H2. destruct (Z.eqb_spec y 0); done.
  - intros Hn Ho. unfold u32_overflowing_div_signed, u32_overflowing_rem_signed.
    unfold overflowing_div_s, overflowing_rem_s.
    destruct (Z.eqb_spec y 0); [done|].
    destruct (Z.eqb_spec (sign 32 x) (- 2 ^ (32 - 1))); [|done].
    destruct (Z.eqb_spec (sign 32 y) (-1)); [|done]. tauto.
Qed.

(** C35: the four division operations of both register widths follow RISC-V's table:
    division by zero, signed overflow, and otherwise quotient and remainder with
    the remainder smaller than the divisor and of the dividend's sign. *)
Theorem register_division_riscv x y :
  (in_u 64 x -> in_u 64 y ->
   riscv_division 64 x y (u64_overflowing_div x y) (u64_overflowing_rem x y)
     (u64_overflowing_div_signed x y) (u64_overflowing_rem_signed x y)) /\
  (in_u 32 x -> in_u 32 y ->
   riscv_division 32 x y (u32_overflowing_div x y) (u32_overflowing_rem x y)
     (u32_overflowing_div_signed x y) (u32_overflowing_rem_signed x y)).
Proof. split; intros; [by apply u64_division_riscv|by apply u32_division_riscv]. Qed.

(** * High multiplication *)

Lemma sign_mod_eq w x : 0 < w -> sign w x mod 2 ^ w = x mod 2 ^ w.
Proof. apply wrap_sign. Qed.

Lemma mod_mul_cong m a a' b b' :
  a mod m = a' mod m -> b mod m = b' mod m -> (a * b) mod m = (a' * b') mod m.
Proof. intros Ha Hb. by rewrite Zmult_mod, Ha, Hb, <- Zmult_mod. Qed.

(** The high and low words of a product [v] of two values congruent to [x] and
    [y]. *)
Lemma mul_high_low w v x y a b :
  0 < w -> v = a * b -> a mod 2 ^ w = x mod 2 ^ w -> b mod 2 ^ w = y mod 2 ^ w ->
  v = Z.shiftr v w * 2 ^ w + wmul w x y.
Proof.
  intros Hw -> Ha Hb. rewrite Z.shiftr_div_pow2 by lia.
  unfold wmul, wrap. rewrite <- (mod_mul_cong _ a x b y) by done.
  pose proof (Z.div_mod (a * b) (2 ^ w)). pose proof (pow2_pos w). lia.
Qed.

Lemma shiftr_in_s w v : 0 < w -> in_s (2 * w) v -> in_s w (Z.shiftr v w).
Proof.
  intros Hw [H1 H2]. rewrite Z.shiftr_div_pow2 by lia. unfold in_s.
  pose proof (pow2_pos w ltac:(lia)).
  replace (2 * w - 1) with (w + (w - 1)) in * by lia.
  rewrite Z.pow_add_r in H1, H2 by lia.
  split; [apply Z.div_le_lower_bound|apply Z.div_lt_upper_bound]; lia.
Qed.

Lemma mul_in_s w a b : 0 < w -> - 2 ^ (w - 1) <= a < 2 ^ (w - 1) ->
  - 2 ^ (w - 1) <= b < 2 ^ w -> in_s (2 * w) (a * b).
Proof.
  intros Hw Ha Hb. unfold in_s. replace (2 * w - 1) with (w + (w - 1)) by lia.
  rewrite Z.pow_add_r by lia. pose proof (pow2_pos (w - 1) ltac:(lia)).
  pose proof (pow2_split w Hw). nia.
Qed.

(** The signed, unsigned and mixed high products, with the low product, give the
    full product. *)
Definition riscv_mul_high (w x y mul mulh mulhu mulhsu : Z) : Prop :=
  sign w x * sign w y = sign w mulh * 2 ^ w + mul /\
  x * y = mulhu * 2 ^ w + mul /\
  sign w x * y = sign w mulhsu * 2 ^ w + mul.

Lemma riscv_mul_high_intro w x y :
  1 < w -> in_u w x -> in_u w y ->
  riscv_mul_high w x y (wmul w x y)
    (wrap w (Z.shiftr (sign (2 * w) (sign w x * sign w y)) w))
    (wrap w (Z.shiftr (wrap (2 * w) (x * y)) w))
    (wrap w (Z.shiftr (sign (2 * w) (sign w x * y)) w)).
Proof.
  intros Hw Hx Hy. pose proof (sign_range w x ltac:(lia)) as Hsx.
  pose proof (sign_range w y ltac:(lia)) as Hsy. unfold in_s, in_u in *.
  pose proof (pow2_pos (w - 1) ltac:(lia)). pose proof (pow2_split w ltac:(lia)).
  assert (H1 : in_s (2 * w) (sign w x * sign w y)) by (apply mul_in_s; lia).
  assert (H2 : in_s (2 * w) (sign w x * y)) by (apply mul_in_s; lia).
  pose proof (shiftr_in_s w _ ltac:(lia) H1) as S1.
  pose proof (shiftr_in_s w _ ltac:(lia) H2) as S2.
  unfold riscv_mul_high.
  rewrite !(sign_wrap w), (sign_small (2 * w) _ ltac:(lia) H1),
    (sign_small (2 * w) _ ltac:(lia) H2), (sign_small w _ ltac:(lia) S1),
    (sign_small w _ ltac:(lia) S2).
  split_and!.
  - apply (mul_high_low w _ x y _ _ ltac:(lia) eq_refl); apply sign_mod_eq; lia.
  - assert (Hr : in_u (2 * w) (x * y)).
    { unfold in_u. replace (2 * w) with (w + w) by lia. rewrite Z.pow_add_r by lia. nia. }
    rewrite (wrap_small (2 * w)) by done.
    rewrite wrap_small.
    + by apply (mul_high_low w _ x y _ _ ltac:(lia) eq_refl).
    + split; [apply Z.shiftr_nonneg, Hr|]. rewrite Z.shiftr_div_pow2 by lia.
      apply Z.div_lt_upper_bound; [lia|]. nia.
  - apply (mul_high_low w _ x y _ _ ltac:(lia) eq_refl); [apply sign_mod_eq; lia|done].
Qed.

(** C36: [mulh], [mulhu] and [mulhsu], together with [mul], return the two words of
    the exact double-width product, at both register widths. *)
Theorem register_mul_high x y :
  (in_u 64 x -> in_u 64 y ->
   riscv_mul_high 64 x y (u64_overflowing_mul x y) (u64_overflowing_mul_high_signed x y)
     (u64_overflowing_mul_high_unsigned x y) (u64_overflowing_mul_high_signed_unsigned x y)) /\
  (in_u 32 x -> in_u 32 y ->
   riscv_mul_high 32 x y (u32_overflowing_mul x y) (u32_overflowing_mul_high_signed x y)
     (u32_overflowing_mul_high_unsigned x y) (u32_overflowing_mul_high_signed_unsigned x y)).
Proof. split; intros; by apply riscv_mul_high_intro. Qed.

Lemma register_division_riscv_witness :
  u64_overflowing_div_signed (2 ^ 63) U64_MAX = 2 ^ 63 /\
  riscv_division 64 (2 ^ 63) U64_MAX (u64_overflowing_div (2 ^ 63) U64_MAX)
    (u64_overflowing_rem (2 ^ 63) U64_MAX) (u64_overflowing_div_signed (2 ^ 63) U64_MAX)
    (u64_overflowing_rem_signed (2 ^ 63) U64_MAX).
Proof.
  split; [vm_compute; reflexivity|].
  apply (register_division_riscv (2 ^ 63) U64_MAX); split; vm_compute; congruence.
Defined.

Lemma register_mul_high_witness :
  u64_overflowing_mul_high_signed U64_MAX U64_MAX = 0 /\
  u64_overflowing_mul_high_unsigned U64_MAX U64_MAX = U64_MAX - 1 /\
  riscv_mul_high 64 U64_MAX U64_MAX (u64_overflowing_mul U64_MAX U64_MAX)
    (u64_overflowing_mul_high_signed U64_MAX U64_MAX)
    (u64_overflowing_mul_high_unsigned U64_MAX U64_MAX)
    (u64_overflowing_mul_high_signed_unsigned U64_MAX U64_MAX).
Proof.
  split; [vm_compute; reflexivity|]. split; [vm_compute; reflexivity|].
  apply (register_mul_high U64_MAX U64_MAX); split; vm_compute; congruence.
Defined.
