(* ===== verification/RegisterBits.v ===== *)
(** The bit-manipulation operations of the registers: carry-less products,
    counting, rotation, byte reversal and byte-wise or-combine, each against a
    reference definition on bits or bytes. *)
From S2P Require Import Prelude Register RegisterFacts.
From stdpp Require Import base list numbers.
From Stdlib Require Import Btauto.
Open Scope Z_scope.

(** * Carry-less multiplication *)

(** The product of two polynomials over GF(2), the second of degree below [w]. *)
Definition clprod (w a b : Z) : Z :=
  foldl (fun x i => if Z.testbit b i then Z.lxor x (Z.shiftl a i) else x) 0 (seqZ 0 w).

Lemma land_1_testbit x i : 0 <= i -> negb (Z.land (Z.shiftr x i) 1 =? 0) = Z.testbit x i.
Proof.
  intros. change 1 with (Z.ones 1). rewrite Z.land_ones by lia.
  rewrite <- Z.bit0_mod, Z.shiftr_spec, Z.add_0_l by lia. by destruct (Z.testbit x i).
Qed.

(** A linear map commutes with the accumulation. *)
Lemma foldl_xor_hom (g : Z -> Z) (c : Z -> bool) (f h : Z -> Z) l x0 :
  (forall a b, g (Z.lxor a b) = Z.lxor (g a) (g b)) ->
  (forall i, i ∈ l -> g (f i) = h i) ->
  g (foldl (fun x i => if c i then Z.lxor x (f i) else x) x0 l) =
  foldl (fun x i => if c i then Z.lxor x (h i) else x) (g x0) l.
Proof.
  intros Hg. revert x0. induction l as [|i l IH]; intros x0 Hf; [done|].
  simpl. rewrite IH by (intros; apply Hf; by right). f_equal.
  destruct (c i); [|done]. by rewrite Hg, Hf by left.
Qed.

Lemma foldl_xor_ext (c c' : Z -> bool) (f f' : Z -> Z) l x0 :
  (forall i, i ∈ l -> c i = c' i /\ f i = f' i) ->
  foldl (fun x i => if c i then Z.lxor x (f i) else x) x0 l =
  foldl (fun x i => if c' i then Z.lxor x (f' i) else x) x0 l.
Proof.
  revert x0. induction l as [|i l IH]; intros x0 Hc; [done|].
  simpl. destruct (Hc i ltac:(left)) as [-> ->]. apply IH. intros. apply Hc. by right.
Qed.

Lemma wrap_lxor w a b : 0 <= w -> wrap w (Z.lxor a b) = Z.lxor (wrap w a) (wrap w b).
Proof.
  intros. apply Z.bits_inj'. intros. autorewrite with bits. btauto.
Qed.

Lemma wrap_0 w : 0 <= w -> wrap w 0 = 0.
Proof. intros. apply Z.mod_0_l. pose proof (pow2_pos w). lia. Qed.

Lemma clmul_w w a b : 0 < w ->
  foldl (fun x i => if negb (Z.land (Z.shiftr b i) 1 =? 0)
                    then Z.lxor x (wshl w a i) else x) 0 (seqZ 0 w) =
  wrap w (clprod w a b).
Proof.
  intros Hw. unfold clprod.
  rewrite (foldl_xor_hom (wrap w) _ _ (fun i => wrap w (Z.shiftl a i)));
    [|intros; apply wrap_lxor; lia|done].
  rewrite wrap_0 by lia. apply foldl_xor_ext. intros i Hi%elem_of_seqZ.
  split; [apply land_1_testbit; lia|]. unfold wshl. by rewrite Z.mod_small by lia.
Qed.

Lemma clmulr_w w a b : 0 < w ->
  foldl (fun x i => if negb (Z.land (Z.shiftr b i) 1 =? 0)
                    then Z.lxor x (wshr w a (w - 1 - i)) else x) 0 (seqZ 0 w) =
  Z.shiftr (clprod w a b) (w - 1).
Proof.
  intros Hw. unfold clprod.
  rewrite (foldl_xor_hom (fun x => Z.shiftr x (w - 1)) _ _
    (fun i => Z.shiftr (Z.shiftl a i) (w - 1))); [|intros; apply Z.shiftr_lxor|done].
  rewrite Z.shiftr_0_l. apply foldl_xor_ext. intros i Hi%elem_of_seqZ.
  split; [apply land_1_testbit; lia|]. unfold wshr.
  by rewrite Z.mod_small, Z.shiftr_shiftl_r by lia.
Qed.

Lemma shiftr_big w a : 0 <= w -> in_u w a -> Z.shiftr a w = 0.
Proof. intros. rewrite Z.shiftr_div_pow2 by lia. by apply Z.div_small. Qed.

Lemma clmulh_w w a b : 1 < w -> in_u w a ->
  foldl (fun x i => if negb (Z.land (Z.shiftr b i) 1 =? 0)
                    then Z.lxor x (wshr w a (w - i)) else x) 0 (seqZ 1 (w - 1)) =
  Z.shiftr (clprod w a b) w.
Proof.
  intros Hw Ha. unfold clprod.
  rewrite (foldl_xor_hom (fun x => Z.shiftr x w) _ _
    (fun i => Z.shiftr (Z.shiftl a i) w)); [|intros; apply Z.shiftr_lxor|done].
  rewrite Z.shiftr_0_l, (seqZ_cons 0 w) by lia. cbn [foldl].
  rewrite Z.shiftl_0_r, shiftr_big by (done || lia).
  replace (if Z.testbit b 0 then Z.lxor 0 0 else 0) with 0 by (by destruct (Z.testbit b 0)).
  apply foldl_xor_ext. intros i Hi%elem_of_seqZ.
  split; [apply land_1_testbit; lia|]. unfold wshr.
  by rewrite Z.mod_small, Z.shiftr_shiftl_r by lia.
Qed.

(** C37: [clmul], [clmulh] and [clmulr] of both widths return the low word, the high
    word and bits [w-1 .. 2w-2] of the carry-less product. *)
Theorem register_clmul a b :
  (in_u 64 a ->
   u64_clmul a b = wrap 64 (clprod 64 a b) /\
   u64_clmulh a b = Z.shiftr (clprod 64 a b) 64 /\
   u64_clmulr a b = Z.shiftr (clprod 64 a b) 63) /\
  (in_u 32 a ->
   u32_clmul a b = wrap 32 (clprod 32 a b) /\
   u32_clmulh a b = Z.shiftr (clprod 32 a b) 32 /\
   u32_clmulr a b = Z.shiftr (clprod 32 a b) 31).
Proof.
  split; intros; (split_and!; [by apply clmul_w|by apply clmulh_w|by apply clmulr_w]).
Qed.

Lemma register_clmul_witness :
  (u64_clmul 0xff 0xff = 0x5555 /\ u64_clmulh U64_MAX U64_MAX = 0x5555555555555555) /\
  u64_clmul 0xff 0xff = wrap 64 (clprod 64 0xff 0xff) /\
  u64_clmulh 0xff 0xff = Z.shiftr (clprod 64 0xff 0xff) 64 /\
  u64_clmulr 0xff 0xff = Z.shiftr (clprod 64 0xff 0xff) 63.
Proof.
  split; [split; vm_compute; reflexivity|].
  apply (proj1 (register_clmul 0xff 0xff)). split; vm_compute; congruence.
Defined.

(** * Counting *)

Lemma pos_trailing_zeros_spec p :
  Z.testbit (Zpos p) (pos_trailing_zeros p) = true /\
  forall j, 0 <= j < pos_trailing_zeros p -> Z.testbit (Zpos p) j = false.
Proof.
  induction p as [p IH|p IH|]; cbn [pos_trailing_zeros]; [by split; [|lia]| |by split; [|lia]].
  pose proof (pos_trailing_zeros_bound p) as Hb. destruct IH as [H1 H2].
  rewrite Pos2Z.inj_xO. split.
  - rewrite Z.double_bits. by replace (Z.pred (1 + pos_trailing_zeros p)) with (pos_trailing_zeros p) by lia.
  - intros j Hj. rewrite Z.double_bits. destruct (decide (j = 0)) as [->|]; [done|].
    apply H2. lia.
Qed.

(** The number of set bits among the low [w]. *)
Definition bit_sum (w x : Z) : Z :=
  foldr Z.add 0 ((fun i => b2r (Z.testbit x i)) <$> seqZ 0 w).

Lemma bit_sum_step w x : 0 <= w ->
  bit_sum (w + 1) x = b2r (Z.testbit x 0) + bit_sum w (Z.shiftr x 1).
Proof.
  intros. unfold bit_sum. rewrite seqZ_cons by lia.
  replace (Z.succ 0) with (1 + 0) by lia. replace (Z.pred (w + 1)) with w by lia.
  rewrite <- fmap_add_seqZ. cbn [fmap list_fmap foldr]. rewrite <- list_fmap_compose. f_equal.
  f_equal. apply list_fmap_ext. intros k i Hi. simpl. f_equal.
  apply list_elem_of_lookup_2, elem_of_seqZ in Hi. rewrite Z.shiftr_spec by lia. f_equal. lia.
Qed.

Lemma pos_count_ones_spec p (n : nat) :
  Z.log2 (Zpos p) < Z.of_nat n -> pos_count_ones p = bit_sum (Z.of_nat n) (Zpos p).
Proof.
  revert n. induction p as [p IH|p IH|]; intros [|n] Hn;
    try (revert Hn; match goal with |- Z.log2 ?x < _ -> _ => pose proof (Z.log2_nonneg x) end; lia).
  all: replace (Z.of_nat (S n)) with (Z.of_nat n + 1) in * by lia;
       rewrite bit_sum_step by lia.
  - rewrite Pos2Z.inj_xI, Z.log2_succ_double in Hn by lia.
    cbn [pos_count_ones]. rewrite (IH n) by lia. done.
  - rewrite Pos2Z.inj_xO, Z.log2_double in Hn by lia.
    cbn [pos_count_ones]. rewrite (IH n) by lia. done.
  - clear Hn. change (Z.shiftr 1 1) with 0. unfold bit_sum.
    cut (forall m, foldr Z.add 0 ((fun i => b2r (Z.testbit 0 i)) <$> seqZ m (Z.of_nat n)) = 0).
    { intros ->. done. }
    induction n as [|n IHn]; [done|]. intros m. rewrite seqZ_cons by lia.
    cbn [fmap list_fmap foldr]. replace (Z.pred (Z.of_nat (S n))) with (Z.of_nat n) by lia.
    by rewrite IHn, Z.testbit_0_l.
Qed.

Lemma bit_sum_0 w : bit_sum w 0 = 0.
Proof.
  unfold bit_sum. generalize 0 at 3. intros m. generalize (seqZ m w).
  induction l as [|i l IH]; [done|]. cbn [fmap list_fmap foldr].
  by rewrite IH, Z.testbit_0_l.
Qed.

Lemma leading_zeros_spec w x : 0 < w -> in_u w x -> x <> 0 ->
  0 <= leading_zeros w x < w /\
  Z.testbit x (w - 1 - leading_zeros w x) = true /\
  forall j, w - 1 - leading_zeros w x < j -> Z.testbit x j = false.
Proof.
  intros Hw [H0 H1] Hn. unfold leading_zeros. case_bool; [done|].
  pose proof (Z.log2_nonneg x). pose proof (Z.log2_lt_pow2 x w).
  replace (w - 1 - (w - 1 - Z.log2 x)) with (Z.log2 x) by lia.
  split; [lia|]. split; [apply Z.bit_log2; lia|]. intros. apply Z.bits_above_log2; lia.
Qed.

Lemma trailing_zeros_spec w x : 0 < w -> in_u w x -> x <> 0 ->
  0 <= trailing_zeros w x < w /\
  Z.testbit x (trailing_zeros w x) = true /\
  forall j, 0 <= j < trailing_zeros w x -> Z.testbit x j = false.
Proof.
  intros Hw [H0 H1] Hn. destruct x as [|p|p]; [done| |lia]. cbn [trailing_zeros].
  pose proof (pos_trailing_zeros_bound p). pose proof (Z.log2_lt_pow2 (Zpos p) w).
  split; [lia|]. apply pos_trailing_zeros_spec.
Qed.

Lemma count_ones_spec w x : 0 <= w -> in_u w x -> count_ones x = bit_sum w x.
Proof.
  intros Hw [H0 H1]. destruct x as [|p|p]; cbn [count_ones]; [by rewrite bit_sum_0| |lia].
  rewrite (pos_count_ones_spec p (Z.to_nat w)); [by rewrite Z2Nat.id|].
  pose proof (Z.log2_lt_pow2 (Zpos p) w). lia.
Qed.

Lemma u64_count_spec x : in_u 64 x ->
  (x = 0 -> u64_clz x = 64 /\ u64_ctz x = 64) /\
  (x <> 0 ->
     Z.testbit x (63 - u64_clz x) = true /\
     (forall j, 63 - u64_clz x < j -> Z.testbit x j = false) /\
     Z.testbit x (u64_ctz x) = true /\
     (forall j, 0 <= j < u64_ctz x -> Z.testbit x j = false)) /\
  u64_cpop x = bit_sum 64 x.
Proof.
  intros Hx. split_and!.
  - by intros ->.
  - intros Hn. pose proof (leading_zeros_spec 64 x ltac:(lia) Hx Hn).
    pose proof (trailing_zeros_spec 64 x ltac:(lia) Hx Hn). tauto.
  - apply count_ones_spec; [lia|done].
Qed.

(** * Rotation *)

Lemma mod_cases w k j : 0 <= k < w -> 0 <= j < w ->
  (j - k) mod w = if j <? k then j - k + w else j - k.
Proof.
  intros. case_bool; [|apply Z.mod_small; lia].
  rewrite <- (Z.mod_add _ 1) by lia. rewrite Z.mod_small; lia.
Qed.

Lemma testbit_rotate_left w x n j : 0 < w -> in_u w x -> 0 <= j < w ->
  Z.testbit (rotate_left w x n) j = Z.testbit x ((j - n) mod w).
Proof.
  intros Hw Hx Hj. unfold rotate_left.
  pose proof (Z.mod_pos_bound n w Hw). rewrite <- Zminus_mod_idemp_r.
  set (k := n mod w) in *. rewrite mod_cases by lia.
  rewrite Z.lor_spec, testbit_wrap, Z.shiftl_spec, Z.shiftr_spec by lia.
  destruct (Z.ltb_spec j w); [|lia]. simpl. case_bool.
  - rewrite (Z.testbit_neg_r x (j - k)) by lia. simpl. f_equal. lia.
  - rewrite (testbit_high w x (j + (w - k))) by (done || lia). apply orb_false_r.
Qed.

Lemma rotate_right_left w x n : 0 < w -> in_u w x ->
  rotate_right w x n = rotate_left w x (w - n mod w).
Proof.
  intros Hw Hx. unfold rotate_left, rotate_right.
  pose proof (Z.mod_pos_bound n w Hw). set (k := n mod w) in *.
  destruct (decide (k = 0)) as [->|].
  - rewrite Z.sub_0_r, Z.mod_same, Z.shiftl_0_r, Z.shiftr_0_r, Z.sub_0_r by lia.
    rewrite (wrap_small w x), shiftr_big, Z.lor_0_r by (done || lia).
    replace (wrap w (Z.shiftl x w)) with 0; [by rewrite Z.lor_0_r|].
    symmetry. unfold wrap. rewrite Z.shiftl_mul_pow2 by lia. apply Z.mod_mul.
    pose proof (pow2_pos w); lia.
  - rewrite (Z.mod_small (w - k) w) by lia. rewrite Z.lor_comm. do 2 f_equal. lia.
Qed.

Lemma testbit_rotate_right w x n j : 0 < w -> in_u w x -> 0 <= j < w ->
  Z.testbit (rotate_right w x n) j = Z.testbit x ((j + n) mod w).
Proof.
  intros Hw Hx Hj. rewrite rotate_right_left, testbit_rotate_left by done. f_equal.
  replace (j - (w - n mod w)) with (j + n mod w + (-1) * w) by lia.
  rewrite Z.mod_add, Zplus_mod_idemp_r by lia. done.
Qed.

(** Equality of words from equality of their bits. *)
Lemma word_ext w x y : 0 <= w -> in_u w x -> in_u w y ->
  (forall j, 0 <= j < w -> Z.testbit x j = Z.testbit y j) -> x = y.
Proof.
  intros Hw Hx Hy H. apply Z.bits_inj'. intros j Hj.
  destruct (Z.lt_ge_cases j w); [by apply H|]. by rewrite !(testbit_high w).
Qed.

Lemma rotate_inverse w x n : 5 <= w <= 64 -> in_u w x ->
  rotate_right w (rotate_left w x n) n = x.
Proof.
  intros Hw Hx. pose proof (rotate_left_ok w Hw x n Hx) as Hl.
  apply (word_ext w); [lia|by apply rotate_right_ok|done|]. intros j Hj.
  pose proof (Z.mod_pos_bound (j + n) w).
  rewrite testbit_rotate_right, testbit_rotate_left by (done || lia). f_equal.
  rewrite Zminus_mod_idemp_l. replace (j + n - n) with j by lia. apply Z.mod_small. lia.
Qed.

Lemma u64_rotate_spec x n : in_u 64 x ->
  (forall j, 0 <= j < 64 ->
     Z.testbit (u64_rol x n) j = Z.testbit x ((j - wrap 32 n) mod 64)) /\
  u64_ror (u64_rol x n) n = x.
Proof.
  intros Hx. split; [intros; by apply testbit_rotate_left|]. by apply rotate_inverse.
Qed.

(** * Bytes of a word *)

Definition byte_at (x k : Z) : Z := wrap 8 (Z.shiftr x (8 * k)).

Lemma land_byte x k : 0 <= k ->
  Z.land x (Z.shiftl (Z.ones 8) (8 * k)) = Z.shiftl (byte_at x k) (8 * k).
Proof.
  intros. unfold byte_at. apply Z.bits_inj'. intros j Hj.
  rewrite Z.land_spec, !Z.shiftl_spec, testbit_wrap by lia.
  destruct (Z.lt_ge_cases j (8 * k)).
  - rewrite !(Z.testbit_neg_r _ (j - 8 * k)) by lia. btauto.
  - rewrite Z.shiftr_spec, Z.sub_add by lia.
    rewrite (Z.testbit_ones_nonneg 8 (j - 8 * k)) by lia. btauto.
Qed.

Lemma byte_at_byte x k : is_byte (byte_at x k).
Proof. by apply wrap_range. Qed.

Lemma shiftl_byte_range w x k : 0 <= k -> 8 * k + 8 <= w ->
  in_u w (Z.shiftl (byte_at x k) (8 * k)).
Proof.
  intros. pose proof (byte_at_byte x k) as [? ?].
  rewrite Z.shiftl_mul_pow2 by lia. split; [apply Z.mul_nonneg_nonneg; lia|].
  apply Z.lt_le_trans with (2 ^ (8 * k + 8)).
  - rewrite Z.pow_add_r by lia. rewrite Z.mul_comm. apply Z.mul_lt_mono_pos_l; [|done].
    apply pow2_pos; lia.
  - apply Z.pow_le_mono_r; lia.
Qed.

Lemma wshl_byte w b k s : 0 <= k -> 0 <= s < w -> is_byte b -> 8 * k + s + 8 <= w ->
  wshl w (Z.shiftl b (8 * k)) s = Z.shiftl b (8 * k + s).
Proof.
  intros Hk Hs Hb Hw. unfold wshl. rewrite Z.mod_small, Z.shiftl_shiftl by lia.
  apply wrap_small. destruct Hb. rewrite Z.shiftl_mul_pow2 by lia.
  split; [apply Z.mul_nonneg_nonneg; lia|].
  apply Z.lt_le_trans with (2 ^ (8 * k + s + 8)).
  - rewrite (Z.pow_add_r 2 (8 * k + s) 8) by lia. rewrite Z.mul_comm. apply Z.mul_lt_mono_pos_l; [|done].
    apply pow2_pos; lia.
  - apply Z.pow_le_mono_r; lia.
Qed.

Lemma wshr_byte w b k s : 0 <= k -> 0 <= s < w -> s <= 8 * k ->
  wshr w (Z.shiftl b (8 * k)) s = Z.shiftl b (8 * k - s).
Proof. intros. unfold wshr. by rewrite Z.mod_small, Z.shiftr_shiftl_l by lia. Qed.

Lemma Z_to_le_bytes_at (n : nat) x :
  Z_to_le n x = (fun k => byte_at x (Z.of_nat k)) <$> seq 0 n.
Proof.
  revert x. induction n as [|n IH]; intros x; [done|].
  cbn [Z_to_le seq fmap list_fmap]. f_equal.
  rewrite IH, <- fmap_S_seq, <- list_fmap_compose. apply list_fmap_ext. intros k i Hi. simpl.
  unfold byte_at. rewrite Z.shiftr_shiftr by lia. do 2 f_equal. lia.
Qed.

(** The word with the given bytes, as the unrolled code builds it. *)
Lemma le_to_Z_unroll b0 b1 b2 b3 b4 b5 b6 b7 :
  le_to_Z [b0; b1; b2; b3; b4; b5; b6; b7] =
  Z.lor b0 (Z.lor (Z.shiftl b1 8) (Z.lor (Z.shiftl b2 16) (Z.lor (Z.shiftl b3 24)
  (Z.lor (Z.shiftl b4 32) (Z.lor (Z.shiftl b5 40) (Z.lor (Z.shiftl b6 48)
  (Z.shiftl b7 56))))))).
Proof.
  cbn [le_to_Z]. rewrite !Z.shiftl_lor, !Z.shiftl_shiftl, Z.shiftl_0_l, Z.lor_0_r by lia. done.
Qed.

Lemma le_to_Z_unroll4 b0 b1 b2 b3 :
  le_to_Z [b0; b1; b2; b3] =
  Z.lor b0 (Z.lor (Z.shiftl b1 8) (Z.lor (Z.shiftl b2 16) (Z.shiftl b3 24))).
Proof.
  cbn [le_to_Z]. rewrite !Z.shiftl_lor, !Z.shiftl_shiftl, Z.shiftl_0_l, Z.lor_0_r by lia. done.
Qed.

Lemma lor_rev4 a b c d :
  Z.lor (Z.lor (Z.lor a b) c) d = Z.lor d (Z.lor c (Z.lor b a)).
Proof. by rewrite (Z.lor_comm _ d), (Z.lor_comm _ c), (Z.lor_comm a b). Qed.

Lemma lor_rev8 a b c d e f g h :
  Z.lor (Z.lor (Z.lor (Z.lor (Z.lor (Z.lor (Z.lor a b) c) d) e) f) g) h =
  Z.lor h (Z.lor g (Z.lor f (Z.lor e (Z.lor d (Z.lor c (Z.lor b a)))))).
Proof.
  by rewrite (Z.lor_comm _ h), (Z.lor_comm _ g), (Z.lor_comm _ f), (Z.lor_comm _ e), lor_rev4.
Qed.

Lemma u64_rev8_eq x : u64_rev8 x = le_to_Z (rev (Z_to_le 8 x)).
Proof.
  unfold u64_rev8. cbv zeta.
  pose proof (fun k => byte_at_byte x k) as Hb.
  change 0x00000000000000ff with (Z.shiftl (Z.ones 8) (8 * 0)).
  change 0x000000000000ff00 with (Z.shiftl (Z.ones 8) (8 * 1)).
  change 0x0000000000ff0000 with (Z.shiftl (Z.ones 8) (8 * 2)).
  change 0x00000000ff000000 with (Z.shiftl (Z.ones 8) (8 * 3)).
  change 0x000000ff00000000 with (Z.shiftl (Z.ones 8) (8 * 4)).
  change 0x0000ff0000000000 with (Z.shiftl (Z.ones 8) (8 * 5)).
  change 0x00ff000000000000 with (Z.shiftl (Z.ones 8) (8 * 6)).
  change 0xff00000000000000 with (Z.shiftl (Z.ones 8) (8 * 7)).
  rewrite !land_byte by lia.
  rewrite !wshl_byte, !wshr_byte by (done || lia).
  rewrite Z_to_le_bytes_at. cbn [seq fmap list_fmap rev app].
  rewrite le_to_Z_unroll, Z.lor_0_l, lor_rev8. done.
Qed.

Lemma u32_rev8_eq x : u32_rev8 x = le_to_Z (rev (Z_to_le 4 x)).
Proof.
  unfold u32_rev8. cbv zeta.
  pose proof (fun k => byte_at_byte x k) as Hb.
  change 0x000000ff with (Z.shiftl (Z.ones 8) (8 * 0)).
  change 0x0000ff00 with (Z.shiftl (Z.ones 8) (8 * 1)).
  change 0x00ff0000 with (Z.shiftl (Z.ones 8) (8 * 2)).
  change 0xff000000 with (Z.shiftl (Z.ones 8) (8 * 3)).
  rewrite !land_byte by lia.
  rewrite !wshl_byte, !wshr_byte by (done || lia).
  rewrite Z_to_le_bytes_at. cbn [seq fmap list_fmap rev app].
  rewrite le_to_Z_unroll4, Z.lor_0_l, lor_rev4. done.
Qed.

(** Or-combine of one byte. *)
Definition orcb_byte (b : Z) : Z := if b =? 0 then 0 else 0xff.

Lemma orcb_step x k rr : 0 <= k ->
  (if negb (Z.land x (Z.shiftl (Z.ones 8) (8 * k)) =? 0)
   then Z.lor rr (Z.shiftl (Z.ones 8) (8 * k)) else rr) =
  Z.lor rr (Z.shiftl (orcb_byte (byte_at x k)) (8 * k)).
Proof.
  intros. rewrite land_byte by done. unfold orcb_byte.
  destruct (Z.eqb_spec (byte_at x k) 0) as [->|Hn].
  - rewrite Z.shiftl_0_l. simpl. by rewrite Z.lor_0_r.
  - destruct (Z.eqb_spec (Z.shiftl (byte_at x k) (8 * k)) 0) as [Hs|]; [|done].
    rewrite Z.shiftl_eq_0_iff in Hs by lia. done.
Qed.

Lemma u64_orcb_eq x : u64_orcb x = le_to_Z (orcb_byte <$> Z_to_le 8 x).
Proof.
  unfold u64_orcb. cbv zeta.
  change 0x00000000000000ff with (Z.shiftl (Z.ones 8) (8 * 0)).
  change 0x000000000000ff00 with (Z.shiftl (Z.ones 8) (8 * 1)).
  change 0x0000000000ff0000 with (Z.shiftl (Z.ones 8) (8 * 2)).
  change 0x00000000ff000000 with (Z.shiftl (Z.ones 8) (8 * 3)).
  change 0x000000ff00000000 with (Z.shiftl (Z.ones 8) (8 * 4)).
  change 0x0000ff0000000000 with (Z.shiftl (Z.ones 8) (8 * 5)).
  change 0x00ff000000000000 with (Z.shiftl (Z.ones 8) (8 * 6)).
  change 0xff00000000000000 with (Z.shiftl (Z.ones 8) (8 * 7)).
  rewrite !orcb_step by lia.
  rewrite Z_to_le_bytes_at. cbn [seq fmap list_fmap].
  rewrite le_to_Z_unroll, Z.lor_0_l, Z.shiftl_0_r.
  rewrite <- !Z.lor_assoc. done.
Qed.

Lemma u64_byte_ops x :
  Z_to_le 8 (u64_rev8 x) = rev (Z_to_le 8 x) /\
  Z_to_le 8 (u64_orcb x) = orcb_byte <$> Z_to_le 8 x.
Proof.
  pose proof (Z_to_le_bytes 8 x) as Hb.
  rewrite u64_rev8_eq, u64_orcb_eq. split.
  - rewrite <- (Z_to_le_to_Z (rev (Z_to_le 8 x))) at 2 by (by apply List.Forall_rev).
    by rewrite length_rev, length_Z_to_le.
  - rewrite <- (Z_to_le_to_Z (orcb_byte <$> Z_to_le 8 x)) at 2.
    + by rewrite length_fmap, length_Z_to_le.
    + apply Forall_fmap. apply Forall_true. intros b. unfold compose, orcb_byte.
      case_bool; split; lia.
Qed.

(** C38: bit manipulation on a 64-bit word.  [clz] and [ctz] locate the highest and the
    lowest set bit (64 when there is none) and [cpop] counts the set bits; [rol] moves bit
    [j - n mod 64] to position [j], and [ror] by the same amount undoes it; [rev8] reverses
    the bytes and [orcb] maps each byte to 0 or 0xff. *)
Theorem u64_bits_spec x n : in_u 64 x ->
  ((x = 0 -> u64_clz x = 64 /\ u64_ctz x = 64) /\
   (x <> 0 ->
      Z.testbit x (63 - u64_clz x) = true /\
      (forall j, 63 - u64_clz x < j -> Z.testbit x j = false) /\
      Z.testbit x (u64_ctz x) = true /\
      (forall j, 0 <= j < u64_ctz x -> Z.testbit x j = false)) /\
   u64_cpop x = bit_sum 64 x) /\
  ((forall j, 0 <= j < 64 ->
     Z.testbit (u64_rol x n) j = Z.testbit x ((j - wrap 32 n) mod 64)) /\
   u64_ror (u64_rol x n) n = x) /\
  Z_to_le 8 (u64_rev8 x) = rev (Z_to_le 8 x) /\
  Z_to_le 8 (u64_orcb x) = orcb_byte <$> Z_to_le 8 x.
Proof.
  intros Hx. split; [by apply u64_count_spec|]. split; [by apply u64_rotate_spec|apply u64_byte_ops].
Qed.

Lemma u64_bits_spec_witness :
  u64_cpop 0x8000000000000001 = bit_sum 64 0x8000000000000001 /\
  u64_ror (u64_rol 0x8000000000000001 4) 4 = 0x8000000000000001.
Proof.
  destruct (u64_bits_spec 0x8000000000000001 4) as ((_ & _ & H1) & (_ & H2) & _).
  - split; vm_compute; congruence.
  - by split.
Defined.
