(* ===== verification/Insts.v ===== *)
(** The internal 64-bit instruction format.

    Opcodes (src/definitions/src/instructions.rs), the operand layouts [Rtype],
    [Itype], [Stype], [Utype], [R4type], [R5type] and the length field
    (src/src/instructions/mod.rs), the tagged view
    (src/src/instructions/tagged.rs) and the ABI names of the registers
    (src/definitions/src/registers.rs).  An [Instruction] is the u64 the code
    uses: one byte each for the opcode, rd, the high opcode byte and the flags,
    then one byte per source register or a 24/32-bit immediate. *)
From S2P Require Import Prelude Outcome.
From stdpp Require Import base list numbers strings pretty.
Open Scope Z_scope.

Definition Instruction : Type := Z.
Definition InstructionOpcode : Type := Z.
Definition RegisterIndex : Type := Z.

(** [match k { a => x, b => y, .. }] over integer constants: the first arm that
    matches, [None] for the wildcard. *)
Fixpoint zassoc {A} (l : list (Z * A)) (k : Z) : option A :=
  match l with
  | [] => None
  | (a, x) :: l' => if k =? a then Some x else zassoc l' k
  end.

(** The same on a pair of integers. *)
Fixpoint zassoc2 {A} (l : list (Z * Z * A)) (k1 k2 : Z) : option A :=
  match l with
  | [] => None
  | (a, b, x) :: l' => if (k1 =? a) && (k2 =? b) then Some x else zassoc2 l' k1 k2
  end.

(** * Constants of src/definitions/src/lib.rs, memory.rs and registers.rs *)

Definition RISCV_PAGE_SHIFTS : Z := 12.
Definition RISCV_PAGESIZE : Z := Z.shiftl 1 RISCV_PAGE_SHIFTS.
Definition RISCV_GENERAL_REGISTER_NUMBER : Z := 32.
Definition MEMORY_FRAME_SHIFTS : Z := 18.
Definition MEMORY_FRAMESIZE : Z := Z.shiftl 1 MEMORY_FRAME_SHIFTS.
Definition DEFAULT_MEMORY_SIZE : Z := Z.shiftl 4 20.

Definition ISA_IMC : Z := 0.
Definition ISA_B : Z := 1.
Definition ISA_MOP : Z := 2.
Definition ISA_A : Z := 4.

Definition FLAG_FREEZED : Z := 1.
Definition FLAG_EXECUTABLE : Z := 2.
Definition FLAG_WXORX_BIT : Z := 2.
Definition FLAG_WRITABLE : Z := Z.land (wnot 8 FLAG_EXECUTABLE) FLAG_WXORX_BIT.
Definition FLAG_DIRTY : Z := 4.

Definition ZERO : Z := 0.
Definition RA : Z := 1.
Definition SP : Z := 2.
Definition A0 : Z := 10.
Definition A1 : Z := 11.
Definition A7 : Z := 17.

Definition REGISTER_ABI_NAMES : list string :=
  ["zero"; "ra"; "sp"; "gp"; "tp"; "t0"; "t1"; "t2";
   "s0"; "s1"; "a0"; "a1"; "a2"; "a3"; "a4"; "a5";
   "a6"; "a7"; "s2"; "s3"; "s4"; "s5"; "s6"; "s7";
   "s8"; "s9"; "s10"; "s11"; "t3"; "t4"; "t5"; "t6"]%string.

(** * Opcodes *)

Definition OP_UNLOADED : Z := 0x10.
Definition OP_ADD : Z := 0x11.
Definition OP_ADDI : Z := 0x12.
Definition OP_ADDIW : Z := 0x13.
Definition OP_ADDW : Z := 0x14.
Definition OP_AND : Z := 0x15.
Definition OP_ANDI : Z := 0x16.
Definition OP_DIV : Z := 0x17.
Definition OP_DIVU : Z := 0x18.
Definition OP_DIVUW : Z := 0x19.
Definition OP_DIVW : Z := 0x1a.
Definition OP_LB_VERSION0 : Z := 0x1b.
Definition OP_LB_VERSION1 : Z := 0x1c.
Definition OP_LBU_VERSION0 : Z := 0x1d.
Definition OP_LBU_VERSION1 : Z := 0x1e.
Definition OP_LD_VERSION0 : Z := 0x1f.
Definition OP_LD_VERSION1 : Z := 0x20.
Definition OP_LH_VERSION0 : Z := 0x21.
Definition OP_LH_VERSION1 : Z := 0x22.
Definition OP_LHU_VERSION0 : Z := 0x23.
Definition OP_LHU_VERSION1 : Z := 0x24.
Definition OP_LUI : Z := 0x25.
Definition OP_LW_VERSION0 : Z := 0x26.
Definition OP_LW_VERSION1 : Z := 0x27.
Definition OP_LWU_VERSION0 : Z := 0x28.
Definition OP_LWU_VERSION1 : Z := 0x29.
Definition OP_MUL : Z := 0x2a.
Definition OP_MULH : Z := 0x2b.
Definition OP_MULHSU : Z := 0x2c.
Definition OP_MULHU : Z := 0x2d.
Definition OP_MULW : Z := 0x2e.
Definition OP_OR : Z := 0x2f.
Definition OP_ORI : Z := 0x30.
Definition OP_REM : Z := 0x31.
Definition OP_REMU : Z := 0x32.
Definition OP_REMUW : Z := 0x33.
Definition OP_REMW : Z := 0x34.
Definition OP_SB : Z := 0x35.
Definition OP_SD : Z := 0x36.
Definition OP_SH : Z := 0x37.
Definition OP_SLL : Z := 0x38.
Definition OP_SLLI : Z := 0x39.
Definition OP_SLLIW : Z := 0x3a.
Definition OP_SLLW : Z := 0x3b.
Definition OP_SLT : Z := 0x3c.
Definition OP_SLTI : Z := 0x3d.
Definition OP_SLTIU : Z := 0x3e.
Definition OP_SLTU : Z := 0x3f.
Definition OP_SRA : Z := 0x40.
Definition OP_SRAI : Z := 0x41.
Definition OP_SRAIW : Z := 0x42.
Definition OP_SRAW : Z := 0x43.
Definition OP_SRL : Z := 0x44.
Definition OP_SRLI : Z := 0x45.
Definition OP_SRLIW : Z := 0x46.
Definition OP_SRLW : Z := 0x47.
Definition OP_SUB : Z := 0x48.
Definition OP_SUBW : Z := 0x49.
Definition OP_SW : Z := 0x4a.
Definition OP_XOR : Z := 0x4b.
Definition OP_XORI : Z := 0x4c.
Definition OP_LR_W : Z := 0x4d.
Definition OP_SC_W : Z := 0x4e.
Definition OP_AMOSWAP_W : Z := 0x4f.
Definition OP_AMOADD_W : Z := 0x50.
Definition OP_AMOXOR_W : Z := 0x51.
Definition OP_AMOAND_W : Z := 0x52.
Definition OP_AMOOR_W : Z := 0x53.
Definition OP_AMOMIN_W : Z := 0x54.
Definition OP_AMOMAX_W : Z := 0x55.
Definition OP_AMOMINU_W : Z := 0x56.
Definition OP_AMOMAXU_W : Z := 0x57.
Definition OP_LR_D : Z := 0x58.
Definition OP_SC_D : Z := 0x59.
Definition OP_AMOSWAP_D : Z := 0x5a.
Definition OP_AMOADD_D : Z := 0x5b.
Definition OP_AMOXOR_D : Z := 0x5c.
Definition OP_AMOAND_D : Z := 0x5d.
Definition OP_AMOOR_D : Z := 0x5e.
Definition OP_AMOMIN_D : Z := 0x5f.
Definition OP_AMOMAX_D : Z := 0x60.
Definition OP_AMOMINU_D : Z := 0x61.
Definition OP_AMOMAXU_D : Z := 0x62.
Definition OP_ADDUW : Z := 0x63.
Definition OP_ANDN : Z := 0x64.
Definition OP_BCLR : Z := 0x65.
Definition OP_BCLRI : Z := 0x66.
Definition OP_BEXT : Z := 0x67.
Definition OP_BEXTI : Z := 0x68.
Definition OP_BINV : Z := 0x69.
Definition OP_BINVI : Z := 0x6a.
Definition OP_BSET : Z := 0x6b.
Definition OP_BSETI : Z := 0x6c.
Definition OP_CLMUL : Z := 0x6d.
Definition OP_CLMULH : Z := 0x6e.
Definition OP_CLMULR : Z := 0x6f.
Definition OP_CLZ : Z := 0x70.
Definition OP_CLZW : Z := 0x71.
Definition OP_CPOP : Z := 0x72.
Definition OP_CPOPW : Z := 0x73.
Definition OP_CTZ : Z := 0x74.
Definition OP_CTZW : Z := 0x75.
Definition OP_MAX : Z := 0x76.
Definition OP_MAXU : Z := 0x77.
Definition OP_MIN : Z := 0x78.
Definition OP_MINU : Z := 0x79.
Definition OP_ORCB : Z := 0x7a.
Definition OP_ORN : Z := 0x7b.
Definition OP_REV8 : Z := 0x7c.
Definition OP_ROL : Z := 0x7d.
Definition OP_ROLW : Z := 0x7e.
Definition OP_ROR : Z := 0x7f.
Definition OP_RORI : Z := 0x80.
Definition OP_RORIW : Z := 0x81.
Definition OP_RORW : Z := 0x82.
Definition OP_SEXTB : Z := 0x83.
Definition OP_SEXTH : Z := 0x84.
Definition OP_SH1ADD : Z := 0x85.
Definition OP_SH1ADDUW : Z := 0x86.
Definition OP_SH2ADD : Z := 0x87.
Definition OP_SH2ADDUW : Z := 0x88.
Definition OP_SH3ADD : Z := 0x89.
Definition OP_SH3ADDUW : Z := 0x8a.
Definition OP_SLLIUW : Z := 0x8b.
Definition OP_XNOR : Z := 0x8c.
Definition OP_ZEXTH : Z := 0x8d.
Definition OP_WIDE_MUL : Z := 0x8e.
Definition OP_WIDE_MULU : Z := 0x8f.
Definition OP_WIDE_MULSU : Z := 0x90.
Definition OP_WIDE_DIV : Z := 0x91.
Definition OP_WIDE_DIVU : Z := 0x92.
Definition OP_ADC : Z := 0x93.
Definition OP_SBB : Z := 0x94.
Definition OP_ADCS : Z := 0x95.
Definition OP_SBBS : Z := 0x96.
Definition OP_ADD3A : Z := 0x97.
Definition OP_ADD3B : Z := 0x98.
Definition OP_ADD3C : Z := 0x99.
Definition OP_CUSTOM_LOAD_UIMM : Z := 0x9a.
Definition OP_CUSTOM_LOAD_IMM : Z := 0x9b.
Definition OP_AUIPC : Z := 0x9c.
Definition OP_BEQ : Z := 0x9d.
Definition OP_BGE : Z := 0x9e.
Definition OP_BGEU : Z := 0x9f.
Definition OP_BLT : Z := 0xa0.
Definition OP_BLTU : Z := 0xa1.
Definition OP_BNE : Z := 0xa2.
Definition OP_EBREAK : Z := 0xa3.
Definition OP_ECALL : Z := 0xa4.
Definition OP_FENCE : Z := 0xa5.
Definition OP_FENCEI : Z := 0xa6.
Definition OP_JAL : Z := 0xa7.
Definition OP_JALR_VERSION0 : Z := 0xa8.
Definition OP_JALR_VERSION1 : Z := 0xa9.
Definition OP_FAR_JUMP_REL : Z := 0xaa.
Definition OP_FAR_JUMP_ABS : Z := 0xab.
Definition OP_CUSTOM_ASM_TRACE_JUMP : Z := 0xac.
Definition OP_CUSTOM_TRACE_END : Z := 0xad.

(** The list [__for_each_inst_inner!] iterates over. *)
Definition for_each_inst : list (Z * string) :=
  [(OP_UNLOADED, "UNLOADED");
   (OP_ADD, "ADD");
   (OP_ADDI, "ADDI");
   (OP_ADDIW, "ADDIW");
   (OP_ADDW, "ADDW");
   (OP_AND, "AND");
   (OP_ANDI, "ANDI");
   (OP_DIV, "DIV");
   (OP_DIVU, "DIVU");
   (OP_DIVUW, "DIVUW");
   (OP_DIVW, "DIVW");
   (OP_LB_VERSION0, "LB_VERSION0");
   (OP_LB_VERSION1, "LB_VERSION1");
   (OP_LBU_VERSION0, "LBU_VERSION0");
   (OP_LBU_VERSION1, "LBU_VERSION1");
   (OP_LD_VERSION0, "LD_VERSION0");
   (OP_LD_VERSION1, "LD_VERSION1");
   (OP_LH_VERSION0, "LH_VERSION0");
   (OP_LH_VERSION1, "LH_VERSION1");
   (OP_LHU_VERSION0, "LHU_VERSION0");
   (OP_LHU_VERSION1, "LHU_VERSION1");
   (OP_LUI, "LUI");
   (OP_LW_VERSION0, "LW_VERSION0");
   (OP_LW_VERSION1, "LW_VERSION1");
   (OP_LWU_VERSION0, "LWU_VERSION0");
   (OP_LWU_VERSION1, "LWU_VERSION1");
   (OP_MUL, "MUL");
   (OP_MULH, "MULH");
   (OP_MULHSU, "MULHSU");
   (OP_MULHU, "MULHU");
   (OP_MULW, "MULW");
   (OP_OR, "OR");
   (OP_ORI, "ORI");
   (OP_REM, "REM");
   (OP_REMU, "REMU");
   (OP_REMUW, "REMUW");
   (OP_REMW, "REMW");
   (OP_SB, "SB");
   (OP_SD, "SD");
   (OP_SH, "SH");
   (OP_SLL, "SLL");
   (OP_SLLI, "SLLI");
   (OP_SLLIW, "SLLIW");
   (OP_SLLW, "SLLW");
   (OP_SLT, "SLT");
   (OP_SLTI, "SLTI");
   (OP_SLTIU, "SLTIU");
   (OP_SLTU, "SLTU");
   (OP_SRA, "SRA");
   (OP_SRAI, "SRAI");
   (OP_SRAIW, "SRAIW");
   (OP_SRAW, "SRAW");
   (OP_SRL, "SRL");
   (OP_SRLI, "SRLI");
   (OP_SRLIW, "SRLIW");
   (OP_SRLW, "SRLW");
   (OP_SUB, "SUB");
   (OP_SUBW, "SUBW");
   (OP_SW, "SW");
   (OP_XOR, "XOR");
   (OP_XORI, "XORI");
   (OP_LR_W, "LR_W");
   (OP_SC_W, "SC_W");
   (OP_AMOSWAP_W, "AMOSWAP_W");
   (OP_AMOADD_W, "AMOADD_W");
   (OP_AMOXOR_W, "AMOXOR_W");
   (OP_AMOAND_W, "AMOAND_W");
   (OP_AMOOR_W, "AMOOR_W");
   (OP_AMOMIN_W, "AMOMIN_W");
   (OP_AMOMAX_W, "AMOMAX_W");
   (OP_AMOMINU_W, "AMOMINU_W");
   (OP_AMOMAXU_W, "AMOMAXU_W");
   (OP_LR_D, "LR_D");
   (OP_SC_D, "SC_D");
   (OP_AMOSWAP_D, "AMOSWAP_D");
   (OP_AMOADD_D, "AMOADD_D");
   (OP_AMOXOR_D, "AMOXOR_D");
   (OP_AMOAND_D, "AMOAND_D");
   (OP_AMOOR_D, "AMOOR_D");
   (OP_AMOMIN_D, "AMOMIN_D");
   (OP_AMOMAX_D, "AMOMAX_D");
   (OP_AMOMINU_D, "AMOMINU_D");
   (OP_AMOMAXU_D, "AMOMAXU_D");
   (OP_ADDUW, "ADDUW");
   (OP_ANDN, "ANDN");
   (OP_BCLR, "BCLR");
   (OP_BCLRI, "BCLRI");
   (OP_BEXT, "BEXT");
   (OP_BEXTI, "BEXTI");
   (OP_BINV, "BINV");
   (OP_BINVI, "BINVI");
   (OP_BSET, "BSET");
   (OP_BSETI, "BSETI");
   (OP_CLMUL, "CLMUL");
   (OP_CLMULH, "CLMULH");
   (OP_CLMULR, "CLMULR");
   (OP_CLZ, "CLZ");
   (OP_CLZW, "CLZW");
   (OP_CPOP, "CPOP");
   (OP_CPOPW, "CPOPW");
   (OP_CTZ, "CTZ");
   (OP_CTZW, "CTZW");
   (OP_MAX, "MAX");
   (OP_MAXU, "MAXU");
   (OP_MIN, "MIN");
   (OP_MINU, "MINU");
   (OP_ORCB, "ORCB");
   (OP_ORN, "ORN");
   (OP_REV8, "REV8");
   (OP_ROL, "ROL");
   (OP_ROLW, "ROLW");
   (OP_ROR, "ROR");
   (OP_RORI, "RORI");
   (OP_RORIW, "RORIW");
   (OP_RORW, "RORW");
   (OP_SEXTB, "SEXTB");
   (OP_SEXTH, "SEXTH");
   (OP_SH1ADD, "SH1ADD");
   (OP_SH1ADDUW, "SH1ADDUW");
   (OP_SH2ADD, "SH2ADD");
   (OP_SH2ADDUW, "SH2ADDUW");
   (OP_SH3ADD, "SH3ADD");
   (OP_SH3ADDUW, "SH3ADDUW");
   (OP_SLLIUW, "SLLIUW");
   (OP_XNOR, "XNOR");
   (OP_ZEXTH, "ZEXTH");
   (OP_WIDE_MUL, "WIDE_MUL");
   (OP_WIDE_MULU, "WIDE_MULU");
   (OP_WIDE_MULSU, "WIDE_MULSU");
   (OP_WIDE_DIV, "WIDE_DIV");
   (OP_WIDE_DIVU, "WIDE_DIVU");
   (OP_ADC, "ADC");
   (OP_SBB, "SBB");
   (OP_ADCS, "ADCS");
   (OP_SBBS, "SBBS");
   (OP_ADD3A, "ADD3A");
   (OP_ADD3B, "ADD3B");
   (OP_ADD3C, "ADD3C");
   (OP_CUSTOM_LOAD_UIMM, "CUSTOM_LOAD_UIMM");
   (OP_CUSTOM_LOAD_IMM, "CUSTOM_LOAD_IMM");
   (OP_AUIPC, "AUIPC");
   (OP_BEQ, "BEQ");
   (OP_BGE, "BGE");
   (OP_BGEU, "BGEU");
   (OP_BLT, "BLT");
   (OP_BLTU, "BLTU");
   (OP_BNE, "BNE");
   (OP_EBREAK, "EBREAK");
   (OP_ECALL, "ECALL");
   (OP_FENCE, "FENCE");
   (OP_FENCEI, "FENCEI");
   (OP_JAL, "JAL");
   (OP_JALR_VERSION0, "JALR_VERSION0");
   (OP_JALR_VERSION1, "JALR_VERSION1");
   (OP_FAR_JUMP_REL, "FAR_JUMP_REL");
   (OP_FAR_JUMP_ABS, "FAR_JUMP_ABS");
   (OP_CUSTOM_ASM_TRACE_JUMP, "CUSTOM_ASM_TRACE_JUMP");
   (OP_CUSTOM_TRACE_END, "CUSTOM_TRACE_END")]%string.

Definition MINIMAL_OPCODE : Z := OP_UNLOADED.
Definition MAXIMUM_OPCODE : Z := OP_CUSTOM_TRACE_END.
Definition MINIMAL_BASIC_BLOCK_END_OPCODE : Z := OP_AUIPC.
Definition MAXIMUM_BASIC_BLOCK_END_OPCODE : Z := OP_FAR_JUMP_ABS.

Definition instruction_opcode_name (i : InstructionOpcode) : string :=
  default "UNKNOWN_INSTRUCTION!"%string (zassoc for_each_inst i).

(** * Fields of an instruction *)

(** [((i >> 8) & 0xff00 | i & 0xff) as u16] *)
Definition extract_opcode (i : Instruction) : InstructionOpcode :=
  wrap 16 (Z.lor (Z.land (wshr 64 i 8) 0xff00) (Z.land i 0xff)).

Definition blank_instruction (op : InstructionOpcode) : Instruction :=
  Z.lor (wshl 64 (wshr 64 op 8) 16) (Z.land op 0xff).

(** [u64::from(r as u8) << n] *)
Definition field8 (r n : Z) : Z := wshl 64 (wrap 8 r) n.

(** [(u64::from(op) >> 8 << 16) | u64::from(op as u8)] *)
Definition field_op (op : Z) : Z := Z.lor (wshl 64 (wshr 64 op 8) 16) (wrap 8 op).

(** The accessors every layout repeats: [op], the byte at bit [n], and the
    immediates. *)
Definition inst_op (i : Instruction) : InstructionOpcode :=
  wrap 16 (Z.lor (wshl 64 (wshr 64 i 16) 8) (Z.land i 0xff)).
Definition inst_byte (i : Instruction) (n : Z) : RegisterIndex := wrap 8 (wshr 64 i n).
Definition inst_imm (i : Instruction) (n : Z) : Z := sign 32 (wshr 64 (sign 64 i) n).

Definition Rtype_new (op rd rs1 rs2 : Z) : Instruction :=
  Z.lor (Z.lor (Z.lor (field_op op) (field8 rd 8)) (field8 rs1 32)) (field8 rs2 40).
Definition Rtype_op (i : Instruction) := inst_op i.
Definition Rtype_rd (i : Instruction) := inst_byte i 8.
Definition Rtype_rs1 (i : Instruction) := inst_byte i 32.
Definition Rtype_rs2 (i : Instruction) := inst_byte i 40.

Definition Itype_new_u (op rd rs1 immediate_u : Z) : Instruction :=
  Z.lor (Z.lor (Z.lor (field_op op) (field8 rd 8)) (field8 rs1 32))
        (wshl 64 immediate_u 40).
Definition Itype_new_s (op rd rs1 immediate_s : Z) : Instruction :=
  Itype_new_u op rd rs1 (wrap 32 immediate_s).
Definition Itype_op (i : Instruction) := inst_op i.
Definition Itype_rd (i : Instruction) := inst_byte i 8.
Definition Itype_rs1 (i : Instruction) := inst_byte i 32.
Definition Itype_immediate_s (i : Instruction) : Z := inst_imm i 40.
Definition Itype_immediate_u (i : Instruction) : Z := wrap 32 (Itype_immediate_s i).

Definition Stype_new_u (op immediate_u rs1 rs2 : Z) : Instruction :=
  Z.lor (Z.lor (Z.lor (field_op op) (field8 rs2 8)) (field8 rs1 32))
        (wshl 64 immediate_u 40).
Definition Stype_new_s (op immediate_s rs1 rs2 : Z) : Instruction :=
  Stype_new_u op (wrap 32 immediate_s) rs1 rs2.
Definition Stype_op (i : Instruction) := inst_op i.
Definition Stype_rs1 (i : Instruction) := inst_byte i 32.
Definition Stype_rs2 (i : Instruction) := inst_byte i 8.
Definition Stype_immediate_s (i : Instruction) : Z := inst_imm i 40.
Definition Stype_immediate_u (i : Instruction) : Z := wrap 32 (Stype_immediate_s i).

Definition Utype_new (op rd immediate_u : Z) : Instruction :=
  Z.lor (Z.lor (field_op op) (field8 rd 8)) (wshl 64 immediate_u 32).
Definition Utype_new_s (op rd immediate_s : Z) : Instruction :=
  Utype_new op rd (wrap 32 immediate_s).
Definition Utype_op (i : Instruction) := inst_op i.
Definition Utype_rd (i : Instruction) := inst_byte i 8.
Definition Utype_immediate_s (i : Instruction) : Z := inst_imm i 32.
Definition Utype_immediate_u (i : Instruction) : Z := wrap 32 (Utype_immediate_s i).

Definition R4type_new (op rd rs1 rs2 rs3 : Z) : Instruction :=
  Z.lor (Z.lor (Z.lor (Z.lor (field_op op) (field8 rd 8)) (field8 rs1 32))
        (field8 rs2 40)) (field8 rs3 48).
Definition R4type_op (i : Instruction) := inst_op i.
Definition R4type_rd (i : Instruction) := inst_byte i 8.
Definition R4type_rs1 (i : Instruction) := inst_byte i 32.
Definition R4type_rs2 (i : Instruction) := inst_byte i 40.
Definition R4type_rs3 (i : Instruction) := inst_byte i 48.

Definition R5type_new (op rd rs1 rs2 rs3 rs4 : Z) : Instruction :=
  Z.lor (Z.lor (Z.lor (Z.lor (Z.lor (field_op op) (field8 rd 8)) (field8 rs1 32))
        (field8 rs2 40)) (field8 rs3 48)) (field8 rs4 56).
Definition R5type_op (i : Instruction) := inst_op i.
Definition R5type_rd (i : Instruction) := inst_byte i 8.
Definition R5type_rs1 (i : Instruction) := inst_byte i 32.
Definition R5type_rs2 (i : Instruction) := inst_byte i 40.
Definition R5type_rs3 (i : Instruction) := inst_byte i 48.
Definition R5type_rs4 (i : Instruction) := inst_byte i 56.

Definition is_slowpath_instruction (i : Instruction) : bool := wrap 8 i <? MINIMAL_OPCODE.

Definition is_basic_block_end_instruction (i : Instruction) : bool :=
  let opcode := extract_opcode i in
  ((MINIMAL_BASIC_BLOCK_END_OPCODE <=? opcode) &&
   (opcode <=? MAXIMUM_BASIC_BLOCK_END_OPCODE))
  || is_slowpath_instruction i.

Definition set_instruction_length_2 (i : Instruction) : Instruction := Z.lor i 0x1000000.
Definition set_instruction_length_4 (i : Instruction) : Instruction := Z.lor i 0x2000000.
Definition set_instruction_length_n (i n : Z) : Instruction :=
  Z.lor i (wshl 64 (wshr 64 (Z.land n 0x1f) 1) 24).
Definition instruction_length (i : Instruction) : Z :=
  wrap 8 (wshl 64 (Z.land (wshr 64 i 24) 0x0f) 1).

(** * The tagged view *)

Inductive TaggedInstruction :=
  | Rtype (i : Instruction)
  | Itype (i : Instruction)
  | Stype (i : Instruction)
  | Utype (i : Instruction)
  | R4type (i : Instruction)
  | R5type (i : Instruction).

Definition TaggedInstruction_into (t : TaggedInstruction) : Instruction :=
  match t with
  | Rtype i | Itype i | Stype i | Utype i | R4type i | R5type i => i
  end.

Definition tagged_table : list (Z * (Instruction -> TaggedInstruction)) :=
  [(OP_UNLOADED, Rtype);
   (OP_ECALL, Rtype);
   (OP_EBREAK, Rtype);
   (OP_FENCEI, Rtype);
   (OP_FENCE, Rtype);
   (OP_CUSTOM_TRACE_END, Rtype);
   (OP_CUSTOM_ASM_TRACE_JUMP, Rtype);
   (OP_SUB, Rtype);
   (OP_SUBW, Rtype);
   (OP_ADD, Rtype);
   (OP_ADDW, Rtype);
   (OP_XOR, Rtype);
   (OP_OR, Rtype);
   (OP_AND, Rtype);
   (OP_SLL, Rtype);
   (OP_SLLW, Rtype);
   (OP_SRL, Rtype);
   (OP_SRLW, Rtype);
   (OP_SRA, Rtype);
   (OP_SRAW, Rtype);
   (OP_SLT, Rtype);
   (OP_SLTU, Rtype);
   (OP_LB_VERSION0, Itype);
   (OP_LB_VERSION1, Itype);
   (OP_LH_VERSION0, Itype);
   (OP_LH_VERSION1, Itype);
   (OP_LW_VERSION0, Itype);
   (OP_LW_VERSION1, Itype);
   (OP_LD_VERSION0, Itype);
   (OP_LD_VERSION1, Itype);
   (OP_LBU_VERSION0, Itype);
   (OP_LBU_VERSION1, Itype);
   (OP_LHU_VERSION0, Itype);
   (OP_LHU_VERSION1, Itype);
   (OP_LWU_VERSION0, Itype);
   (OP_LWU_VERSION1, Itype);
   (OP_ADDI, Itype);
   (OP_ADDIW, Itype);
   (OP_XORI, Itype);
   (OP_ORI, Itype);
   (OP_ANDI, Itype);
   (OP_SLTI, Itype);
   (OP_SLTIU, Itype);
   (OP_JALR_VERSION0, Itype);
   (OP_JALR_VERSION1, Itype);
   (OP_SLLI, Itype);
   (OP_SRLI, Itype);
   (OP_SRAI, Itype);
   (OP_SLLIW, Itype);
   (OP_SRLIW, Itype);
   (OP_SRAIW, Itype);
   (OP_SB, Stype);
   (OP_SH, Stype);
   (OP_SW, Stype);
   (OP_SD, Stype);
   (OP_BEQ, Stype);
   (OP_BNE, Stype);
   (OP_BLT, Stype);
   (OP_BGE, Stype);
   (OP_BLTU, Stype);
   (OP_BGEU, Stype);
   (OP_LUI, Utype);
   (OP_AUIPC, Utype);
   (OP_JAL, Utype);
   (OP_MUL, Rtype);
   (OP_MULW, Rtype);
   (OP_MULH, Rtype);
   (OP_MULHSU, Rtype);
   (OP_MULHU, Rtype);
   (OP_DIV, Rtype);
   (OP_DIVW, Rtype);
   (OP_DIVU, Rtype);
   (OP_DIVUW, Rtype);
   (OP_REM, Rtype);
   (OP_REMW, Rtype);
   (OP_REMU, Rtype);
   (OP_REMUW, Rtype);
   (OP_LR_W, Rtype);
   (OP_SC_W, Rtype);
   (OP_AMOSWAP_W, Rtype);
   (OP_AMOADD_W, Rtype);
   (OP_AMOXOR_W, Rtype);
   (OP_AMOAND_W, Rtype);
   (OP_AMOOR_W, Rtype);
   (OP_AMOMIN_W, Rtype);
   (OP_AMOMAX_W, Rtype);
   (OP_AMOMINU_W, Rtype);
   (OP_AMOMAXU_W, Rtype);
   (OP_LR_D, Rtype);
   (OP_SC_D, Rtype);
   (OP_AMOSWAP_D, Rtype);
   (OP_AMOADD_D, Rtype);
   (OP_AMOXOR_D, Rtype);
   (OP_AMOAND_D, Rtype);
   (OP_AMOOR_D, Rtype);
   (OP_AMOMIN_D, Rtype);
   (OP_AMOMAX_D, Rtype);
   (OP_AMOMINU_D, Rtype);
   (OP_AMOMAXU_D, Rtype);
   (OP_ADDUW, Rtype);
   (OP_ANDN, Rtype);
   (OP_BCLR, Rtype);
   (OP_BCLRI, Itype);
   (OP_BEXT, Rtype);
   (OP_BEXTI, Itype);
   (OP_BINV, Rtype);
   (OP_BINVI, Itype);
   (OP_BSET, Rtype);
   (OP_BSETI, Itype);
   (OP_CLMUL, Rtype);
   (OP_CLMULH, Rtype);
   (OP_CLMULR, Rtype);
   (OP_CLZ, Rtype);
   (OP_CLZW, Rtype);
   (OP_CPOP, Rtype);
   (OP_CPOPW, Rtype);
   (OP_CTZ, Rtype);
   (OP_CTZW, Rtype);
   (OP_MAX, Rtype);
   (OP_MAXU, Rtype);
   (OP_MIN, Rtype);
   (OP_MINU, Rtype);
   (OP_ORCB, Rtype);
   (OP_ORN, Rtype);
   (OP_REV8, Rtype);
   (OP_ROL, Rtype);
   (OP_ROLW, Rtype);
   (OP_ROR, Rtype);
   (OP_RORI, Itype);
   (OP_RORIW, Itype);
   (OP_RORW, Rtype);
   (OP_SEXTB, Rtype);
   (OP_SEXTH, Rtype);
   (OP_SH1ADD, Rtype);
   (OP_SH1ADDUW, Rtype);
   (OP_SH2ADD, Rtype);
   (OP_SH2ADDUW, Rtype);
   (OP_SH3ADD, Rtype);
   (OP_SH3ADDUW, Rtype);
   (OP_SLLIUW, Itype);
   (OP_XNOR, Rtype);
   (OP_ZEXTH, Rtype);
   (OP_WIDE_MUL, R4type);
   (OP_WIDE_MULU, R4type);
   (OP_WIDE_MULSU, R4type);
   (OP_WIDE_DIV, R4type);
   (OP_WIDE_DIVU, R4type);
   (OP_FAR_JUMP_REL, Utype);
   (OP_FAR_JUMP_ABS, Utype);
   (OP_ADC, Rtype);
   (OP_SBB, R4type);
   (OP_ADCS, R4type);
   (OP_SBBS, R4type);
   (OP_ADD3A, R5type);
   (OP_ADD3B, R5type);
   (OP_ADD3C, R5type);
   (OP_CUSTOM_LOAD_UIMM, Utype);
   (OP_CUSTOM_LOAD_IMM, Utype)].

Definition TaggedInstruction_try_from (i : Instruction) : outcome TaggedInstruction :=
  let op := extract_opcode i in
  match zassoc tagged_table op with
  | Some tag => Ok (tag i)
  | None => Err (InvalidOp op)
  end.

(** * Disassembly: the [Display] instances *)

Definition to_lowercase (s : string) : string :=
  String.string_of_list_ascii
    (List.map (fun c => let n := Ascii.nat_of_ascii c in
       if (65 <=? n)%nat && (n <=? 90)%nat then Ascii.ascii_of_nat (n + 32) else c)
      (String.list_ascii_of_string s)).

Definition op_name (i : Instruction) : string :=
  to_lowercase (instruction_opcode_name (inst_op i)).

(** [REGISTER_ABI_NAMES[r]]: panics out of range. *)
Definition abi_name (r : RegisterIndex) : option string :=
  REGISTER_ABI_NAMES !! Z.to_nat r.

(** A signed decimal. *)
Definition fmt_int (z : Z) : string := pretty.pretty z.

Definition Rtype_fmt (i : Instruction) : option string :=
  d ← abi_name (Rtype_rd i); a ← abi_name (Rtype_rs1 i); b ← abi_name (Rtype_rs2 i);
  Some (op_name i +:+ " " +:+ d +:+ "," +:+ a +:+ "," +:+ b)%string.

Definition Itype_fmt (i : Instruction) : option string :=
  d ← abi_name (Itype_rd i); a ← abi_name (Itype_rs1 i);
  Some (op_name i +:+ " " +:+ d +:+ "," +:+ fmt_int (Itype_immediate_s i) +:+ "(" +:+ a +:+ ")")%string.

Definition Stype_fmt (i : Instruction) : option string :=
  if bool_decide (Stype_op i ∈ [OP_BEQ; OP_BNE; OP_BLT; OP_BGE; OP_BLTU; OP_BGEU])
  then a ← abi_name (Stype_rs1 i); b ← abi_name (Stype_rs2 i);
       Some (op_name i +:+ " " +:+ a +:+ "," +:+ b +:+ "," +:+ fmt_int (Stype_immediate_s i))%string
  else b ← abi_name (Stype_rs2 i); a ← abi_name (Stype_rs1 i);
       Some (op_name i +:+ " " +:+ b +:+ "," +:+ fmt_int (Stype_immediate_s i) +:+ "(" +:+ a +:+ ")")%string.

Definition Utype_fmt (i : Instruction) : option string :=
  d ← abi_name (Utype_rd i);
  Some (op_name i +:+ " " +:+ d +:+ "," +:+ fmt_int (Utype_immediate_s i))%string.

Definition R4type_fmt (i : Instruction) : option string :=
  d ← abi_name (R4type_rd i); a ← abi_name (R4type_rs1 i); b ← abi_name (R4type_rs2 i);
  c ← abi_name (R4type_rs3 i);
  Some (op_name i +:+ " " +:+ d +:+ "," +:+ a +:+ "," +:+ b +:+ "," +:+ c)%string.

Definition R5type_fmt (i : Instruction) : option string :=
  d ← abi_name (R5type_rd i); a ← abi_name (R5type_rs1 i); b ← abi_name (R5type_rs2 i);
  c ← abi_name (R5type_rs3 i); e ← abi_name (R5type_rs4 i);
  Some (op_name i +:+ " " +:+ d +:+ "," +:+ a +:+ "," +:+ b +:+ "," +:+ c +:+ "," +:+ e)%string.

Definition TaggedInstruction_fmt (t : TaggedInstruction) : option string :=
  match t with
  | Rtype i => Rtype_fmt i
  | Itype i => Itype_fmt i
  | Stype i => Stype_fmt i
  | Utype i => Utype_fmt i
  | R4type i => R4type_fmt i
  | R5type i => R5type_fmt i
  end.
