(* ===== verification/InstsFacts.v ===== *)
(** The internal instruction format: what is packed is what is read back. *)
From S2P Require Import Prelude Outcome Insts.
From stdpp Require Import base list numbers strings sets.
From Stdlib Require Import Btauto.
Open Scope Z_scope.

(** * Bits of the fields *)

Lemma land_255 i : Z.land i 0xff = wrap 8 i.
Proof. by apply (land_ones_wrap 8). Qed.

Lemma inst_byte_bit i n j : 0 <= n < 64 -> 0 <= j ->
  Z.testbit (inst_byte i n) j = (j <? 8) && Z.testbit i (j + n).
Proof.
  intros. unfold inst_byte, wshr. by rewrite Z.mod_small, testbit_wrap, Z.shiftr_spec by lia.
Qed.

Lemma wshl64_bit v n j : 0 <= n < 64 -> 0 <= j ->
  Z.testbit (wshl 64 v n) j = (n <=? j) && (j <? 64) && Z.testbit v (j - n).
Proof.
  intros. unfold wshl. rewrite Z.mod_small, testbit_wrap, testbit_shiftl by lia.
  case_bools; try done. by rewrite Z.testbit_neg_r by lia.
Qed.

Lemma inst_op_bit i j : 0 <= j ->
  Z.testbit (inst_op i) j =
  (j <? 16) && (if j <? 8 then Z.testbit i j else Z.testbit i (j + 8)).
Proof.
  intros. unfold inst_op. rewrite land_255, testbit_wrap, Z.lor_spec, wshl64_bit, testbit_wrap by lia.
  unfold wshr. change (16 mod 64) with 16. case_bools; try lia; try btauto.
  rewrite Z.shiftr_spec, orb_false_r by lia. f_equal. lia.
Qed.

Lemma inst_imm_bit i n j : 0 <= n < 64 -> 0 <= j ->
  Z.testbit (inst_imm i n) j = Z.testbit i (Z.min 63 (Z.min 31 j + n)).
Proof.
  intros. unfold inst_imm, wshr. rewrite Z.mod_small, testbit_sign by lia.
  assert (0 <= (if j <? 32 then j else 32 - 1)) by (case_bool; lia).
  rewrite Z.shiftr_spec, testbit_sign by lia. f_equal.
  destruct (Z.ltb_spec j 32); case_bool; lia.
Qed.

Lemma field8_bit r m j : 0 <= m <= 56 -> 0 <= j ->
  Z.testbit (field8 r m) j = (m <=? j) && (j <? m + 8) && Z.testbit r (j - m).
Proof.
  intros. unfold field8. rewrite wshl64_bit, testbit_wrap by lia. case_bools; done || lia.
Qed.

Lemma field_op_bit op j : in_u 16 op -> 0 <= j ->
  Z.testbit (field_op op) j =
  if j <? 8 then Z.testbit op j else (16 <=? j) && (j <? 24) && Z.testbit op (j - 8).
Proof.
  intros. unfold field_op. rewrite Z.lor_spec, wshl64_bit, testbit_wrap by lia.
  unfold wshr. change (8 mod 64) with 8. case_bools; try lia; try btauto.
  - rewrite Z.shiftr_spec, orb_false_r by lia. f_equal. lia.
  - rewrite Z.shiftr_spec, orb_false_r by lia. apply (testbit_high 16); done || lia.
Qed.

(** * Each accessor distributes over [|] *)

Lemma inst_byte_lor a b n : 0 <= n < 64 ->
  inst_byte (Z.lor a b) n = Z.lor (inst_byte a n) (inst_byte b n).
Proof.
  intros. apply Z.bits_inj'. intros j Hj.
  rewrite Z.lor_spec, !inst_byte_bit, Z.lor_spec by lia. btauto.
Qed.

Lemma inst_op_lor a b : inst_op (Z.lor a b) = Z.lor (inst_op a) (inst_op b).
Proof.
  apply Z.bits_inj'. intros j Hj.
  rewrite Z.lor_spec, !inst_op_bit, !Z.lor_spec by lia. case_bools; btauto.
Qed.

Lemma inst_imm_lor a b n : 0 <= n < 64 ->
  inst_imm (Z.lor a b) n = Z.lor (inst_imm a n) (inst_imm b n).
Proof.
  intros. apply Z.bits_inj'. intros j Hj.
  by rewrite Z.lor_spec, !inst_imm_bit, Z.lor_spec by lia.
Qed.

Lemma extract_opcode_op i : extract_opcode i = inst_op i.
Proof.
  apply Z.bits_inj'. intros j Hj. rewrite inst_op_bit by done.
  unfold extract_opcode. rewrite land_255, testbit_wrap, Z.lor_spec, Z.land_spec, testbit_wrap by lia.
  unfold wshr. change (8 mod 64) with 8. rewrite Z.shiftr_spec by lia.
  change 0xff00 with (Z.shiftl (Z.ones 8) 8). rewrite testbit_shiftl by lia.
  case_bools; try lia; try btauto.
  - rewrite (Z.testbit_neg_r _ (j - 8)) by lia. btauto.
  - rewrite Z.testbit_ones_nonneg by lia. case_bools; try lia. btauto.
Qed.

Lemma instruction_length_byte i : instruction_length i = 2 * wrap 4 (Z.shiftr i 24).
Proof.
  unfold instruction_length, wshr, wshl. change (24 mod 64) with 24. change (1 mod 64) with 1.
  change 0x0f with (2 ^ 4 - 1). rewrite land_ones_wrap, Z.shiftl_mul_pow2 by lia.
  destruct (wrap_range 4 (Z.shiftr i 24)); [lia|].
  rewrite (wrap_small 64) by (split; lia). rewrite (wrap_small 8) by (split; lia). lia.
Qed.

Lemma instruction_length_lor a b :
  instruction_length (Z.lor a b) =
  2 * Z.lor (wrap 4 (Z.shiftr a 24)) (wrap 4 (Z.shiftr b 24)).
Proof.
  rewrite instruction_length_byte. f_equal. apply Z.bits_inj'. intros j Hj.
  rewrite Z.lor_spec, !testbit_wrap, !Z.shiftr_spec, Z.lor_spec by lia. btauto.
Qed.

(** * The accessors on each field *)

Ltac field_bits :=
  apply Z.bits_inj'; intros j ?; rewrite ?Z.testbit_0_l by lia;
  rewrite ?inst_byte_bit, ?inst_op_bit, ?inst_imm_bit by lia;
  rewrite ?field8_bit, ?field_op_bit, ?wshl64_bit, ?testbit_wrap by (lia || done).

Lemma inst_byte_field8 r m n : 0 <= m <= 56 -> 0 <= n <= 56 -> m mod 8 = 0 -> n mod 8 = 0 ->
  inst_byte (field8 r m) n = if n =? m then wrap 8 r else 0.
Proof.
  intros ? ? Hm Hn. destruct (Z.eqb_spec n m) as [->|]; field_bits.
  - replace (j + m - m) with j by lia. case_bools; done || lia.
  - case_bools; try btauto; dlia.
Qed.

Lemma inst_byte_field_op op n : in_u 16 op -> 0 <= n <= 56 -> n = 8 \/ 24 <= n ->
  inst_byte (field_op op) n = 0.
Proof. intros ? ? ?. field_bits. case_bools; try btauto; lia. Qed.

Lemma inst_byte_wshl v m n : 0 <= n -> n + 8 <= m < 64 -> inst_byte (wshl 64 v m) n = 0.
Proof. intros. field_bits. case_bools; try btauto; lia. Qed.

Lemma inst_op_field_op op : in_u 16 op -> inst_op (field_op op) = op.
Proof.
  intros. field_bits. case_bools; try lia; try done.
  - f_equal. lia.
  - symmetry. apply (testbit_high 16); done || lia.
Qed.

Lemma inst_op_field8 r m : m = 8 \/ 24 <= m <= 56 -> inst_op (field8 r m) = 0.
Proof. intros. field_bits. case_bools; try btauto; lia. Qed.

Lemma inst_op_wshl v m : 24 <= m < 64 -> inst_op (wshl 64 v m) = 0.
Proof. intros. field_bits. case_bools; try btauto; lia. Qed.

Lemma inst_imm_field8 r m n : 0 <= m -> m + 8 <= n < 64 -> inst_imm (field8 r m) n = 0.
Proof. intros. field_bits. case_bools; try btauto; lia. Qed.

Lemma inst_imm_field_op op n : in_u 16 op -> 24 <= n < 64 -> inst_imm (field_op op) n = 0.
Proof. intros ? ?. field_bits. case_bools; try btauto; lia. Qed.

(** An immediate at bit [n] keeps its low [64 - n] bits, sign-extended. *)
Lemma inst_imm_wshl v n : 32 <= n < 64 -> inst_imm (wshl 64 v n) n = sign (64 - n) v.
Proof.
  intros. field_bits. rewrite testbit_sign by lia. case_bools; try lia; f_equal; lia.
Qed.

(** The length flag does not disturb the other fields. *)
Lemma wshr4_field8 r m : 0 <= m <= 56 -> m mod 8 = 0 -> m <> 24 ->
  wrap 4 (Z.shiftr (field8 r m) 24) = 0.
Proof.
  intros. apply Z.bits_inj'. intros j Hj. rewrite testbit_wrap, Z.shiftr_spec by lia.
  rewrite field8_bit, Z.testbit_0_l by lia. case_bools; try btauto; dlia.
Qed.

Lemma wshr4_field_op op : in_u 16 op -> wrap 4 (Z.shiftr (field_op op) 24) = 0.
Proof.
  intros. apply Z.bits_inj'. intros j Hj. rewrite testbit_wrap, Z.shiftr_spec by lia.
  rewrite field_op_bit, Z.testbit_0_l by (lia || done). case_bools; try btauto; lia.
Qed.

Lemma wshr4_wshl v m : 28 <= m < 64 -> wrap 4 (Z.shiftr (wshl 64 v m) 24) = 0.
Proof.
  intros. apply Z.bits_inj'. intros j Hj. rewrite testbit_wrap, Z.shiftr_spec by lia.
  rewrite wshl64_bit, Z.testbit_0_l by lia. case_bools; try btauto; lia.
Qed.

Lemma wshr4_lor a b :
  wrap 4 (Z.shiftr (Z.lor a b) 24) =
  Z.lor (wrap 4 (Z.shiftr a 24)) (wrap 4 (Z.shiftr b 24)).
Proof.
  apply Z.bits_inj'. intros j Hj.
  rewrite Z.lor_spec, !testbit_wrap, !Z.shiftr_spec, Z.lor_spec by lia. btauto.
Qed.

Lemma set_length_2_field i : set_instruction_length_2 i = Z.lor i (field8 1 24).
Proof. done. Qed.
Lemma set_length_4_field i : set_instruction_length_4 i = Z.lor i (field8 2 24).
Proof. done. Qed.
Lemma set_length_n_field i n : 0 <= n < 32 ->
  set_instruction_length_n i n = Z.lor i (field8 (n / 2) 24).
Proof.
  intros. unfold set_instruction_length_n, field8, wshr. f_equal.
  change 0x1f with (2 ^ 5 - 1). rewrite land_ones_wrap, (wrap_small 5) by (done || lia).
  change (1 mod 64) with 1. rewrite Z.shiftr_div_pow2 by lia. change (2 ^ 1) with 2.
  rewrite (wrap_small 8); [done|]. split; dlia.
Qed.

Lemma wshr4_flag k : in_u 4 k -> wrap 4 (Z.shiftr (field8 k 24) 24) = k.
Proof.
  intros. apply Z.bits_inj'. intros j Hj. rewrite testbit_wrap, Z.shiftr_spec by lia.
  rewrite field8_bit by lia. replace (j + 24 - 24) with j by lia. case_bools; try lia; [done|].
  symmetry. apply (testbit_high 4); done || lia.
Qed.

Lemma op_small op : in_u 8 op -> in_u 16 op.
Proof. apply in_u_le; lia. Qed.

(** * Reading a packed instruction *)

Create HintDb inst_new.
Create HintDb inst_get.
#[export] Hint Unfold Rtype_new Itype_new_u Itype_new_s Stype_new_u Stype_new_s Utype_new
  Utype_new_s R4type_new R5type_new : inst_new.
#[export] Hint Unfold Rtype_op Rtype_rd Rtype_rs1 Rtype_rs2 Itype_op Itype_rd Itype_rs1
  Itype_immediate_s Itype_immediate_u Stype_op Stype_rs1 Stype_rs2 Stype_immediate_s
  Stype_immediate_u Utype_op Utype_rd Utype_immediate_s Utype_immediate_u
  R4type_op R4type_rd R4type_rs1 R4type_rs2 R4type_rs3
  R5type_op R5type_rd R5type_rs1 R5type_rs2 R5type_rs3 R5type_rs4 : inst_get.

(** Compute every accessor of an instruction built from fields. *)
Ltac read_fields :=
  autounfold with inst_get inst_new;
  rewrite ?extract_opcode_op, ?instruction_length_byte;
  rewrite ?set_length_2_field, ?set_length_4_field;
  repeat (first
    [ rewrite inst_byte_lor by lia | rewrite inst_op_lor | rewrite inst_imm_lor by lia
    | rewrite wshr4_lor ]);
  repeat (first
    [ rewrite inst_byte_field8 by (lia || reflexivity)
    | rewrite inst_byte_field_op by (done || lia)
    | rewrite inst_byte_wshl by lia
    | rewrite inst_op_field_op by done | rewrite inst_op_field8 by lia
    | rewrite inst_op_wshl by lia
    | rewrite inst_imm_field8 by lia | rewrite inst_imm_field_op by (done || lia)
    | rewrite inst_imm_wshl by lia
    | rewrite wshr4_flag by done
    | rewrite wshr4_field8 by (lia || reflexivity) | rewrite wshr4_field_op by done
    | rewrite wshr4_wshl by lia ]);
  cbn [Z.eqb Pos.eqb]; rewrite ?Z.lor_0_l, ?Z.lor_0_r.

Section packed.
Context (op d a b c e imm k : Z).
Hypothesis Hop : in_u 16 op.
Hypothesis Hk : in_u 4 k.
Local Abbreviation flag := (field8 k 24).

Lemma Rtype_fields (i := Z.lor (Rtype_new op d a b) flag) :
  extract_opcode i = op /\ instruction_length i = 2 * k /\ Rtype_op i = op /\
  Rtype_rd i = wrap 8 d /\ Rtype_rs1 i = wrap 8 a /\ Rtype_rs2 i = wrap 8 b.
Proof. subst i. read_fields. done. Qed.

Lemma Itype_fields (i := Z.lor (Itype_new_s op d a imm) flag) :
  extract_opcode i = op /\ instruction_length i = 2 * k /\ Itype_op i = op /\
  Itype_rd i = wrap 8 d /\ Itype_rs1 i = wrap 8 a /\
  Itype_immediate_s i = sign 24 (wrap 32 imm).
Proof. subst i. read_fields. done. Qed.

Lemma Itype_u_fields (i := Z.lor (Itype_new_u op d a imm) flag) :
  extract_opcode i = op /\ instruction_length i = 2 * k /\ Itype_op i = op /\
  Itype_rd i = wrap 8 d /\ Itype_rs1 i = wrap 8 a /\
  Itype_immediate_s i = sign 24 imm.
Proof. subst i. read_fields. done. Qed.

Lemma Stype_fields (i := Z.lor (Stype_new_s op imm a b) flag) :
  extract_opcode i = op /\ instruction_length i = 2 * k /\ Stype_op i = op /\
  Stype_rs1 i = wrap 8 a /\ Stype_rs2 i = wrap 8 b /\
  Stype_immediate_s i = sign 24 (wrap 32 imm).
Proof. subst i. read_fields. done. Qed.

Lemma Stype_u_fields (i := Z.lor (Stype_new_u op imm a b) flag) :
  extract_opcode i = op /\ instruction_length i = 2 * k /\ Stype_op i = op /\
  Stype_rs1 i = wrap 8 a /\ Stype_rs2 i = wrap 8 b /\
  Stype_immediate_s i = sign 24 imm.
Proof. subst i. read_fields. done. Qed.

Lemma Utype_fields (i := Z.lor (Utype_new_s op d imm) flag) :
  extract_opcode i = op /\ instruction_length i = 2 * k /\ Utype_op i = op /\
  Utype_rd i = wrap 8 d /\ Utype_immediate_s i = sign 32 (wrap 32 imm).
Proof. subst i. read_fields. done. Qed.

Lemma R4type_fields (i := Z.lor (R4type_new op d a b c) flag) :
  extract_opcode i = op /\ instruction_length i = 2 * k /\ R4type_op i = op /\
  R4type_rd i = wrap 8 d /\ R4type_rs1 i = wrap 8 a /\ R4type_rs2 i = wrap 8 b /\
  R4type_rs3 i = wrap 8 c.
Proof. subst i. read_fields. done. Qed.

Lemma R5type_fields (i := Z.lor (R5type_new op d a b c e) flag) :
  extract_opcode i = op /\ instruction_length i = 2 * k /\ R5type_op i = op /\
  R5type_rd i = wrap 8 d /\ R5type_rs1 i = wrap 8 a /\ R5type_rs2 i = wrap 8 b /\
  R5type_rs3 i = wrap 8 c /\ R5type_rs4 i = wrap 8 e.
Proof. subst i. read_fields. done. Qed.
End packed.

(** C28: every operand layout round-trips: the opcode, the length, the register
    indices and the signed immediate written by a constructor of [Rtype], [Itype],
    [Stype], [Utype], [R4type] or [R5type] are the ones the accessors read back,
    also after the length flag has been added. *)
Theorem instruction_roundtrip (op d a b c e imm uimm n : Z) :
  in_u 16 op -> 0 <= n <= 30 -> Z.even n = true ->
  in_u 8 d -> in_u 8 a -> in_u 8 b -> in_u 8 c -> in_u 8 e ->
  in_s 24 imm -> in_s 32 uimm ->
  (let i := set_instruction_length_n (Rtype_new op d a b) n in
   [extract_opcode i; instruction_length i; Rtype_op i; Rtype_rd i; Rtype_rs1 i; Rtype_rs2 i] =
   [op; n; op; d; a; b]) /\
  (let i := set_instruction_length_n (Itype_new_s op d a imm) n in
   [extract_opcode i; instruction_length i; Itype_op i; Itype_rd i; Itype_rs1 i;
    Itype_immediate_s i] = [op; n; op; d; a; imm]) /\
  (let i := set_instruction_length_n (Stype_new_s op imm a b) n in
   [extract_opcode i; instruction_length i; Stype_op i; Stype_rs1 i; Stype_rs2 i;
    Stype_immediate_s i] = [op; n; op; a; b; imm]) /\
  (let i := set_instruction_length_n (Utype_new_s op d uimm) n in
   [extract_opcode i; instruction_length i; Utype_op i; Utype_rd i; Utype_immediate_s i] =
   [op; n; op; d; uimm]) /\
  (let i := set_instruction_length_n (R4type_new op d a b c) n in
   [extract_opcode i; instruction_length i; R4type_op i; R4type_rd i; R4type_rs1 i;
    R4type_rs2 i; R4type_rs3 i] = [op; n; op; d; a; b; c]) /\
  (let i := set_instruction_length_n (R5type_new op d a b c e) n in
   [extract_opcode i; instruction_length i; R5type_op i; R5type_rd i; R5type_rs1 i;
    R5type_rs2 i; R5type_rs3 i; R5type_rs4 i] = [op; n; op; d; a; b; c; e]).
Proof.
  intros Hop Hn Heven Hd Ha Hb Hc He Himm Huimm. cbv zeta.
  rewrite Z.even_spec in Heven. destruct Heven as [k ->].
  rewrite !set_length_n_field by lia. replace (2 * k / 2) with k by dlia.
  assert (Hk : in_u 4 k) by (split; lia).
  destruct (Rtype_fields op d a b k Hop Hk) as (-> & -> & -> & -> & -> & ->).
  destruct (Itype_fields op d a imm k Hop Hk) as (-> & -> & -> & -> & -> & ->).
  destruct (Stype_fields op a b imm k Hop Hk) as (-> & -> & -> & -> & -> & ->).
  destruct (Utype_fields op d uimm k Hop Hk) as (-> & -> & -> & -> & ->).
  destruct (R4type_fields op d a b c k Hop Hk) as (-> & -> & -> & -> & -> & -> & ->).
  destruct (R5type_fields op d a b c e k Hop Hk) as (-> & -> & -> & -> & -> & -> & -> & ->).
  rewrite <- (sign_wrap 24 (wrap 32 imm)), wrap_wrap_le, sign_wrap, sign_wrap, !sign_small,
    !wrap_small by (done || lia).
  done.
Qed.

Lemma instruction_roundtrip_witness :
  let i := set_instruction_length_n (Itype_new_s OP_ADDI 10 2 (-64)) 4 in
  [extract_opcode i; instruction_length i; Itype_op i; Itype_rd i; Itype_rs1 i;
   Itype_immediate_s i] = [OP_ADDI; 4; OP_ADDI; 10; 2; -64].
Proof.
  apply (instruction_roundtrip OP_ADDI 10 2 0 0 0 (-64) 0 4);
    repeat split; vm_compute; congruence.
Defined.

(** * The tables *)

Lemma zassoc_in {A} (l : list (Z * A)) k v : zassoc l k = Some v -> (k, v) ∈ l.
Proof.
  induction l as [|[a y] l IH]; [done|]. cbn [zassoc].
  destruct (Z.eqb_spec k a) as [->|]; [intros [= ->]; set_solver|]. set_solver.
Qed.

Lemma zassoc2_in {A} (l : list (Z * Z * A)) k1 k2 v :
  zassoc2 l k1 k2 = Some v -> (k1, k2, v) ∈ l.
Proof.
  induction l as [|[[a b] y] l IH]; [done|]. cbn [zassoc2].
  destruct (Z.eqb_spec k1 a) as [->|], (Z.eqb_spec k2 b) as [->|]; simpl;
    try (intros [= ->]); set_solver.
Qed.

Lemma inst_op_range i : in_u 16 (inst_op i).
Proof. by apply wrap_range. Qed.

(** A check of a predicate on a range of integers. *)
Definition forall_range (lo : Z) (n : nat) (p : Z -> bool) : bool :=
  forallb p (seqZ lo (Z.of_nat n)).

Lemma forall_range_spec lo n p k :
  forall_range lo n p = true -> lo <= k < lo + Z.of_nat n -> p k = true.
Proof.
  unfold forall_range. rewrite forallb_forall. intros H Hk. apply H.
  apply list_elem_of_In, elem_of_seqZ. lia.
Qed.

Lemma tagged_table_range :
  forall_range MINIMAL_OPCODE 158
    (fun o => bool_decide (is_Some (zassoc tagged_table o))) = true /\
  Forall (fun op => MINIMAL_OPCODE <= op <= MAXIMUM_OPCODE) tagged_table.*1.
Proof. split; [by vm_compute|]. apply (bool_decide_unpack _). by vm_compute. Qed.

Lemma tagged_lookup op :
  if (MINIMAL_OPCODE <=? op) && (op <=? MAXIMUM_OPCODE)
  then exists t, zassoc tagged_table op = Some t else zassoc tagged_table op = None.
Proof.
  destruct tagged_table_range as [Hr Hf].
  destruct (_ && _) eqn:Hb.
  - bool_hyps. apply (forall_range_spec _ _ _ op) in Hr.
    + by apply bool_decide_eq_true in Hr.
    + change MAXIMUM_OPCODE with (MINIMAL_OPCODE + 157) in *. lia.
  - destruct (zassoc tagged_table op) eqn:E; [|done].
    apply zassoc_in, (list_elem_of_fmap_2 fst) in E.
    rewrite Forall_forall in Hf. apply Hf in E. simpl in E.
    apply andb_false_iff in Hb as [Hb|Hb]; apply Z.leb_gt in Hb; lia.
Qed.

Lemma tagged_table_into i : Forall (fun p => TaggedInstruction_into (p.2 i) = i) tagged_table.
Proof. repeat constructor. Qed.

(** C39: the opcodes are exactly the numbers from [MINIMAL_OPCODE] to
    [MAXIMUM_OPCODE], each with its own name, and [TaggedInstruction::try_from]
    accepts exactly the instructions with such an opcode, without changing them;
    all others are reported as [InvalidOp]. *)
Theorem tagged_instruction_total (i : Instruction) :
  for_each_inst.*1 = seqZ MINIMAL_OPCODE (MAXIMUM_OPCODE - MINIMAL_OPCODE + 1) /\
  NoDup (for_each_inst.*2) /\
  if (MINIMAL_OPCODE <=? extract_opcode i) && (extract_opcode i <=? MAXIMUM_OPCODE)
  then exists t, TaggedInstruction_try_from i = Ok t /\ TaggedInstruction_into t = i
  else TaggedInstruction_try_from i = Err (InvalidOp (extract_opcode i)).
Proof.
  split; [vm_compute; reflexivity|]. split; [by apply (bool_decide_unpack _); vm_compute|].
  unfold TaggedInstruction_try_from. pose proof (tagged_lookup (extract_opcode i)) as Hl.
  destruct (_ && _); [|by rewrite Hl].
  destruct Hl as [t E]. rewrite E. exists (t i). split; [done|].
  pose proof (tagged_table_into i) as Ht. rewrite Forall_forall in Ht.
  apply (Ht _ (zassoc_in _ _ _ E)).
Qed.
