(* ===== verification/Factories.v ===== *)
(** Decoding of instruction words.

    The field extractors and immediates of src/src/instructions/utils.rs and the
    instruction factories of i.rs, m.rs, a.rs, b.rs and rvc.rs.  Each factory
    maps 32 instruction bits and the VM version to the internal format, or to
    [None] when the bits are not one of its instructions.  Bit patterns are
    written in hexadecimal, the source's binary literal next to them. *)
From S2P Require Import Prelude Outcome Register Insts.
From stdpp Require Import base list numbers.
Open Scope Z_scope.

(** * Field extraction *)

(** [i32 << n] and [i32 >> n] *)
Definition ishl32 (a n : Z) : Z := sign 32 (Z.shiftl a (n mod 32)).
Definition ishr32 (a n : Z) : Z := Z.shiftr a (n mod 32).

Definition x (instruction_bits lower length shifts : Z) : Z :=
  wshl 32 (Z.land (wshr 32 instruction_bits lower) (wsub 32 (wshl 32 1 length) 1)) shifts.

Definition xs (instruction_bits lower length shifts : Z) : Z :=
  wrap 32 (ishl32 (ishr32 (ishl32 (sign 32 instruction_bits) (32 - lower - length))
                          (32 - length)) shifts).

Definition opcode (b : Z) : Z := x b 0 7 0.
Definition funct3 (b : Z) : Z := x b 12 3 0.
Definition funct7 (b : Z) : Z := x b 25 7 0.
Definition rd (b : Z) : RegisterIndex := x b 7 5 0.
Definition rs1 (b : Z) : RegisterIndex := x b 15 5 0.
Definition rs2 (b : Z) : RegisterIndex := x b 20 5 0.

Definition btype_immediate (b : Z) : Z :=
  sign 32 (Z.lor (Z.lor (Z.lor (x b 8 4 1) (x b 25 6 5)) (x b 7 1 11)) (xs b 31 1 12)).

Definition jtype_immediate (b : Z) : Z :=
  sign 32 (Z.lor (Z.lor (Z.lor (x b 21 10 1) (x b 20 1 11)) (x b 12 8 12)) (xs b 31 1 20)).

Definition itype_immediate (b : Z) : Z := sign 32 (xs b 20 12 0).

Definition stype_immediate (b : Z) : Z := sign 32 (Z.lor (x b 7 5 0) (xs b 25 7 5)).

Definition utype_immediate (b : Z) : Z := sign 32 (xs b 12 20 12).

(** * Version-dependent opcodes *)

Definition utils_jalr (version : Z) : InstructionOpcode :=
  if 1 <=? version then OP_JALR_VERSION1 else OP_JALR_VERSION0.
Definition utils_lb (version : Z) : InstructionOpcode :=
  if 1 <=? version then OP_LB_VERSION1 else OP_LB_VERSION0.
Definition utils_lbu (version : Z) : InstructionOpcode :=
  if 1 <=? version then OP_LBU_VERSION1 else OP_LBU_VERSION0.
Definition utils_ld (version : Z) : InstructionOpcode :=
  if 1 <=? version then OP_LD_VERSION1 else OP_LD_VERSION0.
Definition utils_lh (version : Z) : InstructionOpcode :=
  if 1 <=? version then OP_LH_VERSION1 else OP_LH_VERSION0.
Definition utils_lhu (version : Z) : InstructionOpcode :=
  if 1 <=? version then OP_LHU_VERSION1 else OP_LHU_VERSION0.
Definition utils_lw (version : Z) : InstructionOpcode :=
  if 1 <=? version then OP_LW_VERSION1 else OP_LW_VERSION0.
Definition utils_lwu (version : Z) : InstructionOpcode :=
  if 1 <=? version then OP_LWU_VERSION1 else OP_LWU_VERSION0.

(** * i.rs *)

Definition FenceType_new (fm pred succ : Z) : Instruction := Rtype_new OP_FENCE fm pred succ.
Definition FenceType_fm (i : Instruction) : Z := wrap 8 (Rtype_rd i).
Definition FenceType_pred (i : Instruction) : Z := wrap 8 (Rtype_rs1 i).
Definition FenceType_succ (i : Instruction) : Z := wrap 8 (Rtype_rs2 i).

Definition nop : Instruction := Itype_new_u OP_ADDI 0 0 0.

(** The closures [inst_opt.map(|inst| Rtype::new(..).0)] and its relatives. *)
Definition r_inst (b : Z) (op : InstructionOpcode) : Instruction :=
  Rtype_new op (rd b) (rs1 b) (rs2 b).
Definition i_inst (b imm : Z) (op : InstructionOpcode) : Instruction :=
  Itype_new_s op (rd b) (rs1 b) imm.
Definition s_inst (b imm : Z) (op : InstructionOpcode) : Instruction :=
  Stype_new_s op imm (rs1 b) (rs2 b).

(** [0b_0010011]: I-type ALU instructions *)
Definition i_alu (shift_mask b : Z) : option Instruction :=
  let funct3_value := funct3 b in
  if (funct3_value =? 1) || (funct3_value =? 5) then
    let top6_value := wshr 32 (funct7 b) 1 in
    i_inst b (Z.land (itype_immediate b) shift_mask) <$>
      zassoc2 [(1, 0x00, OP_SLLI); (5, 0x00, OP_SRLI);
               (5, 0x10 (* 0b_010000 *), OP_SRAI)] funct3_value top6_value
  else
    i_inst b (itype_immediate b) <$>
      zassoc [(0, OP_ADDI); (2, OP_SLTI); (3, OP_SLTIU); (4, OP_XORI);
              (6, OP_ORI); (7, OP_ANDI)] funct3_value.

(** [0b_0001111]: FENCE and FENCE.I *)
Definition i_fence (b : Z) : option Instruction :=
  if b =? 0x100f then Some (blank_instruction OP_FENCEI)
  else if Z.land b 0x000fffff =? 0x0f then
    Some (FenceType_new (wrap 8 (wshr 32 (Z.land b 0xf0000000) 28))
                        (wrap 8 (wshr 32 (Z.land b 0x0f000000) 24))
                        (wrap 8 (wshr 32 (Z.land b 0x00f00000) 20)))
  else None.

(** [0b_0011011 if rv64]: ADDIW and the word shifts by an immediate *)
Definition i_alu_w (b : Z) : option Instruction :=
  let funct3_value := funct3 b in
  if funct3_value =? 0 then Some (i_inst b (itype_immediate b) OP_ADDIW)
  else if (funct3_value =? 1) || (funct3_value =? 5) then
    let funct7_value := funct7 b in
    i_inst b (Z.land (itype_immediate b) 0x1f) <$>
      zassoc2 [(1, 0x00, OP_SLLIW); (5, 0x00, OP_SRLIW);
               (5, 0x20 (* 0b_0100000 *), OP_SRAIW)] funct3_value funct7_value
  else None.

Definition i_factory_inst (rv64 : bool) (shift_mask b version : Z) : option Instruction :=
  let op := opcode b in
  if op =? 0x37 (* 0b_0110111 *) then Some (Utype_new_s OP_LUI (rd b) (utype_immediate b))
  else if op =? 0x17 (* 0b_0010111 *) then
    Some (Utype_new_s OP_AUIPC (rd b) (utype_immediate b))
  else if op =? 0x6f (* 0b_1101111 *) then
    Some (Utype_new_s OP_JAL (rd b) (jtype_immediate b))
  else if op =? 0x67 (* 0b_1100111 *) then
    i_inst b (itype_immediate b) <$> zassoc [(0, utils_jalr version)] (funct3 b)
  else if op =? 0x03 (* 0b_0000011 *) then
    i_inst b (itype_immediate b) <$>
      zassoc ([(0, utils_lb version); (1, utils_lh version); (2, utils_lw version);
               (4, utils_lbu version); (5, utils_lhu version)] ++
              (if rv64 then [(6, utils_lwu version); (3, utils_ld version)] else []))
             (funct3 b)
  else if op =? 0x13 (* 0b_0010011 *) then i_alu shift_mask b
  else if op =? 0x63 (* 0b_1100011 *) then
    s_inst b (btype_immediate b) <$>
      zassoc [(0, OP_BEQ); (1, OP_BNE); (4, OP_BLT); (5, OP_BGE); (6, OP_BLTU);
              (7, OP_BGEU)] (funct3 b)
  else if op =? 0x23 (* 0b_0100011 *) then
    s_inst b (stype_immediate b) <$>
      zassoc ([(0, OP_SB); (1, OP_SH); (2, OP_SW)] ++
              (if rv64 then [(3, OP_SD)] else [])) (funct3 b)
  else if op =? 0x33 (* 0b_0110011 *) then
    r_inst b <$>
      zassoc2 [(0, 0x00, OP_ADD); (0, 0x20 (* 0b_0100000 *), OP_SUB); (1, 0x00, OP_SLL);
               (2, 0x00, OP_SLT); (3, 0x00, OP_SLTU); (4, 0x00, OP_XOR);
               (5, 0x00, OP_SRL); (5, 0x20 (* 0b_0100000 *), OP_SRA);
               (6, 0x00, OP_OR); (7, 0x00, OP_AND)] (funct3 b) (funct7 b)
  else if op =? 0x0f (* 0b_0001111 *) then i_fence b
  else if op =? 0x73 (* 0b_1110011 *) then
    zassoc [(0x00000073, blank_instruction OP_ECALL);
            (0x00100073, blank_instruction OP_EBREAK)] b
  else if (op =? 0x1b (* 0b_0011011 *)) && rv64 then i_alu_w b
  else if (op =? 0x3b (* 0b_0111011 *)) && rv64 then
    r_inst b <$>
      zassoc2 [(0, 0x00, OP_ADDW); (0, 0x20 (* 0b_0100000 *), OP_SUBW);
               (1, 0x00, OP_SLLW); (5, 0x00, OP_SRLW);
               (5, 0x20 (* 0b_0100000 *), OP_SRAW)] (funct3 b) (funct7 b)
  else None.

Definition i_factory (R : Register) (instruction_bits version : Z) : option Instruction :=
  let bit_length := BITS R in
  if negb (bit_length =? 32) && negb (bit_length =? 64) then None
  else
    let rv64 := bit_length =? 64 in
    set_instruction_length_4 <$>
      i_factory_inst rv64 (SHIFT_MASK R) instruction_bits version.

(** * m.rs *)

Definition m_factory (R : Register) (instruction_bits version : Z) : option Instruction :=
  let b := instruction_bits in
  let bit_length := BITS R in
  if negb (bit_length =? 32) && negb (bit_length =? 64) then None
  else
    let rv64 := bit_length =? 64 in
    if negb (funct7 b =? 1) then None
    else
      let inst_opt :=
        if opcode b =? 0x33 (* 0b_0110011 *) then
          zassoc [(0, OP_MUL); (1, OP_MULH); (2, OP_MULHSU); (3, OP_MULHU);
                  (4, OP_DIV); (5, OP_DIVU); (6, OP_REM); (7, OP_REMU)] (funct3 b)
        else if (opcode b =? 0x3b (* 0b_0111011 *)) && rv64 then
          zassoc [(0, OP_MULW); (4, OP_DIVW); (5, OP_DIVUW); (6, OP_REMW);
                  (7, OP_REMUW)] (funct3 b)
        else None in
      set_instruction_length_4 <$> (r_inst b <$> inst_opt).

(** * a.rs *)

Definition a_factory (R : Register) (instruction_bits version : Z) : option Instruction :=
  let b := instruction_bits in
  let bit_length := BITS R in
  if negb (bit_length =? 32) && negb (bit_length =? 64) then None
  else
    let rv64 := bit_length =? 64 in
    if negb (opcode b =? 0x2f (* 0b_0101111 *)) then None
    else
      let f7 := funct7 b in
      let f5 := wshr 32 f7 2 in
      let f3 := funct3 b in
      let match_rv32 :=
        if (f3 =? 2) && (f5 =? 0x02 (* 0b00010 *)) then
          if rs2 b =? 0 then Some OP_LR_W else None
        else
          zassoc2 [(2, 0x03 (* 0b00011 *), OP_SC_W); (2, 0x01 (* 0b00001 *), OP_AMOSWAP_W);
                   (2, 0x00, OP_AMOADD_W); (2, 0x04 (* 0b00100 *), OP_AMOXOR_W);
                   (2, 0x0c (* 0b01100 *), OP_AMOAND_W); (2, 0x08 (* 0b01000 *), OP_AMOOR_W);
                   (2, 0x10 (* 0b10000 *), OP_AMOMIN_W); (2, 0x14 (* 0b10100 *), OP_AMOMAX_W);
                   (2, 0x18 (* 0b11000 *), OP_AMOMINU_W);
                   (2, 0x1c (* 0b11100 *), OP_AMOMAXU_W)] f3 f5 in
      let match_rv64 :=
        if (f3 =? 3) && (f5 =? 0x02 (* 0b00010 *)) then
          if rs2 b =? 0 then Some OP_LR_D else None
        else
          zassoc2 [(3, 0x03 (* 0b00011 *), OP_SC_D); (3, 0x01 (* 0b00001 *), OP_AMOSWAP_D);
                   (3, 0x00, OP_AMOADD_D); (3, 0x04 (* 0b00100 *), OP_AMOXOR_D);
                   (3, 0x0c (* 0b01100 *), OP_AMOAND_D); (3, 0x08 (* 0b01000 *), OP_AMOOR_D);
                   (3, 0x10 (* 0b10000 *), OP_AMOMIN_D); (3, 0x14 (* 0b10100 *), OP_AMOMAX_D);
                   (3, 0x18 (* 0b11000 *), OP_AMOMINU_D);
                   (3, 0x1c (* 0b11100 *), OP_AMOMAXU_D)] f3 f5 in
      let inst_opt :=
        if rv64 then match match_rv32 with Some o => Some o | None => match_rv64 end
        else match_rv32 in
      set_instruction_length_4 <$> (r_inst b <$> inst_opt).

(** * b.rs *)

Definition b_unary_table : list (Z * Z * Z * InstructionOpcode) :=
  [(0x14 (* 0b_0010100 *), 5, 0x07 (* 0b_00111 *), OP_ORCB);
   (0x35 (* 0b_0110101 *), 5, 0x18 (* 0b_11000 *), OP_REV8);
   (0x30 (* 0b_0110000 *), 1, 0x00, OP_CLZ);
   (0x30 (* 0b_0110000 *), 1, 0x02, OP_CPOP);
   (0x30 (* 0b_0110000 *), 1, 0x01, OP_CTZ);
   (0x30 (* 0b_0110000 *), 1, 0x04, OP_SEXTB);
   (0x30 (* 0b_0110000 *), 1, 0x05, OP_SEXTH)].

(** [match (funct7_value, funct3_value, rs2_value)] *)
Fixpoint zassoc3 {A} (l : list (Z * Z * Z * A)) (k1 k2 k3 : Z) : option A :=
  match l with
  | [] => None
  | (a, b, c, v) :: l' =>
      if (k1 =? a) && (k2 =? b) && (k3 =? c) then Some v else zassoc3 l' k1 k2 k3
  end.

Definition b_op_0010011 (b : Z) : option Instruction :=
  match zassoc3 b_unary_table (funct7 b) (funct3 b) (rs2 b) with
  | Some inst => Some (r_inst b inst)
  | None =>
      (fun inst => Itype_new_u inst (rd b) (rs1 b) (x b 20 6 0)) <$>
        zassoc2 [(0x12 (* 0b_010010 *), 1, OP_BCLRI); (0x12 (* 0b_010010 *), 5, OP_BEXTI);
                 (0x1a (* 0b_011010 *), 1, OP_BINVI); (0x0a (* 0b_001010 *), 1, OP_BSETI);
                 (0x18 (* 0b_011000 *), 5, OP_RORI)] (wshr 32 (funct7 b) 1) (funct3 b)
  end.

Definition b_op_0011011 (b : Z) : option Instruction :=
  let funct3_value := funct3 b in
  let funct7_value := funct7 b in
  let rs2_value := rs2 b in
  if funct7_value =? 0x30 (* 0b_0110000 *) then
    if funct3_value =? 1 then
      (fun inst => Rtype_new inst (rd b) (rs1 b) rs2_value) <$>
        zassoc [(0, OP_CLZW); (2, OP_CPOPW); (1, OP_CTZW)] rs2_value
    else if funct3_value =? 5 then
      Some (Itype_new_u OP_RORIW (rd b) (rs1 b) (x b 20 5 0))
    else None
  else if (wshr 32 funct7_value 1 =? 0x02 (* 0b_000010 *)) && (funct3_value =? 1) then
    Some (Itype_new_u OP_SLLIUW (rd b) (rs1 b) (x b 20 6 0))
  else None.

Definition b_factory (R : Register) (instruction_bits version : Z) : option Instruction :=
  let b := instruction_bits in
  let bit_length := BITS R in
  if negb (bit_length =? 32) && negb (bit_length =? 64) then None
  else
    let rv64 := bit_length =? 64 in
    let inst :=
      if opcode b =? 0x3b (* 0b_0111011 *) then
        r_inst b <$>
          (if (funct3 b =? 4) && (funct7 b =? 0x04 (* 0b_0000100 *)) then
             if rv64 && (rs2 b =? 0) then Some OP_ZEXTH else None
           else
             zassoc2 [(0, 0x04 (* 0b_0000100 *), OP_ADDUW);
                      (1, 0x30 (* 0b_0110000 *), OP_ROLW);
                      (2, 0x10 (* 0b_0010000 *), OP_SH1ADDUW);
                      (4, 0x10 (* 0b_0010000 *), OP_SH2ADDUW);
                      (5, 0x30 (* 0b_0110000 *), OP_RORW);
                      (6, 0x10 (* 0b_0010000 *), OP_SH3ADDUW)] (funct3 b) (funct7 b))
      else if opcode b =? 0x33 (* 0b_0110011 *) then
        r_inst b <$>
          zassoc2 [(7, 0x20 (* 0b_0100000 *), OP_ANDN); (6, 0x20 (* 0b_0100000 *), OP_ORN);
                   (4, 0x20 (* 0b_0100000 *), OP_XNOR); (1, 0x30 (* 0b_0110000 *), OP_ROL);
                   (5, 0x30 (* 0b_0110000 *), OP_ROR); (1, 0x34 (* 0b_0110100 *), OP_BINV);
                   (1, 0x14 (* 0b_0010100 *), OP_BSET); (1, 0x24 (* 0b_0100100 *), OP_BCLR);
                   (5, 0x24 (* 0b_0100100 *), OP_BEXT); (2, 0x10 (* 0b_0010000 *), OP_SH1ADD);
                   (4, 0x10 (* 0b_0010000 *), OP_SH2ADD); (6, 0x10 (* 0b_0010000 *), OP_SH3ADD);
                   (1, 0x05 (* 0b_0000101 *), OP_CLMUL); (3, 0x05 (* 0b_0000101 *), OP_CLMULH);
                   (2, 0x05 (* 0b_0000101 *), OP_CLMULR); (4, 0x05 (* 0b_0000101 *), OP_MIN);
                   (5, 0x05 (* 0b_0000101 *), OP_MINU); (6, 0x05 (* 0b_0000101 *), OP_MAX);
                   (7, 0x05 (* 0b_0000101 *), OP_MAXU)] (funct3 b) (funct7 b)
      else if opcode b =? 0x13 (* 0b_0010011 *) then b_op_0010011 b
      else if opcode b =? 0x1b (* 0b_0011011 *) then b_op_0011011 b
      else None in
    set_instruction_length_4 <$> inst.

(** * rvc.rs *)

Definition c_rs2 (b : Z) : RegisterIndex := x b 2 5 0.
Definition compact_register_number (b least_bit : Z) : RegisterIndex := x b least_bit 3 0 + 8.

Definition immediate (b : Z) : Z := sign 32 (Z.lor (x b 2 5 0) (xs b 12 1 5)).
Definition uimmediate (b : Z) : Z := Z.lor (x b 2 5 0) (x b 12 1 5).
Definition j_immediate (b : Z) : Z :=
  sign 32 (Z.lor (Z.lor (Z.lor (Z.lor (Z.lor (Z.lor (Z.lor
    (x b 3 3 1) (x b 11 1 4)) (x b 2 1 5)) (x b 7 1 6)) (x b 6 1 7)) (x b 9 2 8))
    (x b 8 1 10)) (xs b 12 1 11)).
Definition fld_uimmediate (b : Z) : Z := Z.lor (x b 10 3 3) (x b 5 2 6).
Definition sw_uimmediate (b : Z) : Z := Z.lor (Z.lor (x b 6 1 2) (x b 10 3 3)) (x b 5 1 6).
Definition lwsp_uimmediate (b : Z) : Z := Z.lor (Z.lor (x b 4 3 2) (x b 12 1 5)) (x b 2 2 6).
Definition fldsp_uimmediate (b : Z) : Z := Z.lor (Z.lor (x b 5 2 3) (x b 12 1 5)) (x b 2 3 6).
Definition fsdsp_uimmediate (b : Z) : Z := Z.lor (x b 10 3 3) (x b 7 3 6).
Definition swsp_uimmediate (b : Z) : Z := Z.lor (x b 9 4 2) (x b 7 2 6).
Definition b_immediate (b : Z) : Z :=
  sign 32 (Z.lor (Z.lor (Z.lor (Z.lor (x b 3 2 1) (x b 10 2 3)) (x b 2 1 5)) (x b 5 2 6))
                 (xs b 12 1 8)).

(** Quadrant 0 *)
Definition rvc_quadrant0 (rv32 : bool) (b version f : Z) : option Instruction :=
  if f =? 0x0000 then
    let nzuimm := Z.lor (Z.lor (Z.lor (x b 6 1 2) (x b 5 1 3)) (x b 11 2 4)) (x b 7 4 6) in
    if negb (nzuimm =? 0) then
      (* C.ADDI4SPN *)
      Some (Itype_new_u OP_ADDI (compact_register_number b 2) SP nzuimm)
    else None
  else if f =? 0x4000 then
    (* C.LW *)
    Some (Itype_new_u (utils_lw version) (compact_register_number b 2)
                      (compact_register_number b 7) (sw_uimmediate b))
  else if f =? 0x6000 then
    if rv32 then None
    else (* C.LD *)
      Some (Itype_new_u (utils_ld version) (compact_register_number b 2)
                        (compact_register_number b 7) (fld_uimmediate b))
  else if f =? 0x8000 then None
  else if f =? 0xc000 then
    (* C.SW *)
    Some (Stype_new_u OP_SW (sw_uimmediate b) (compact_register_number b 7)
                      (compact_register_number b 2))
  else if f =? 0xe000 then
    if rv32 then None
    else (* C.SD *)
      Some (Stype_new_u OP_SD (fld_uimmediate b) (compact_register_number b 7)
                        (compact_register_number b 2))
  else None.

(** [0b_100_00000000000_01]: the ALU group of quadrant 1 *)
Definition rvc_alu (rv64 : bool) (shift_mask b : Z) : option Instruction :=
  let rd := compact_register_number b 7 in
  let f := Z.land b 0x1c60 (* 0b_1_11_000_11000_00 *) in
  if (f =? 0x0000) && (Z.land b 0x1c (* 0b_111_00 *) =? 0) then Some nop (* C.SRLI64 *)
  else if (f =? 0x0400) && (Z.land b 0x1c =? 0) then Some nop (* C.SRAI64 *)
  else if f =? 0x0c00 then Some (Rtype_new OP_SUB rd rd (compact_register_number b 2))
  else if f =? 0x0c20 then Some (Rtype_new OP_XOR rd rd (compact_register_number b 2))
  else if f =? 0x0c40 then Some (Rtype_new OP_OR rd rd (compact_register_number b 2))
  else if f =? 0x0c60 then Some (Rtype_new OP_AND rd rd (compact_register_number b 2))
  else if (f =? 0x1c00) && rv64 then
    Some (Rtype_new OP_SUBW rd rd (compact_register_number b 2))
  else if (f =? 0x1c20) && rv64 then
    Some (Rtype_new OP_ADDW rd rd (compact_register_number b 2))
  else if f =? 0x1c40 then None
  else if f =? 0x1c60 then None
  else
    let uimm := uimmediate b in
    let g := Z.land b 0x0c00 (* 0b_11_000_00000_00 *) in
    if (g =? 0x0000) && (uimm =? 0) then None
    else if g =? 0x0000 then
      Some (Itype_new_u OP_SRLI rd rd (Z.land uimm shift_mask)) (* C.SRLI *)
    else if (g =? 0x0400) && (uimm =? 0) then None
    else if g =? 0x0400 then
      Some (Itype_new_u OP_SRAI rd rd (Z.land uimm shift_mask)) (* C.SRAI *)
    else if g =? 0x0800 then
      Some (Itype_new_s OP_ANDI rd rd (immediate b)) (* C.ANDI *)
    else None.

(** Quadrant 1 *)
Definition rvc_quadrant1 (rv32 rv64 : bool) (shift_mask b version f : Z)
  : option Instruction :=
  if f =? 0x0001 then
    let nzimm := immediate b in
    let rd := rd b in
    if negb (rd =? 0) then
      (* C.ADDI *)
      if negb (nzimm =? 0) then Some (Itype_new_s OP_ADDI rd rd nzimm)
      else if 1 <=? version then Some nop else None
    else
      (* C.NOP *)
      if nzimm =? 0 then Some nop
      else if 1 <=? version then Some nop else None
  else if f =? 0x2001 then
    if rv32 then (* C.JAL *) Some (Utype_new_s OP_JAL 1 (j_immediate b))
    else
      let rd := rd b in
      if negb (rd =? 0) then (* C.ADDIW *) Some (Itype_new_s OP_ADDIW rd rd (immediate b))
      else None
  else if f =? 0x4001 then
    let rd := rd b in
    if negb (rd =? 0) then (* C.LI *) Some (Itype_new_s OP_ADDI rd 0 (immediate b))
    else if 1 <=? version then Some nop else None
  else if f =? 0x6001 then
    let imm := ishl32 (immediate b) 12 in
    if negb (imm =? 0) then
      let rd := rd b in
      if rd =? SP then
        (* C.ADDI16SP *)
        Some (Itype_new_s OP_ADDI SP SP
          (sign 32 (Z.lor (Z.lor (Z.lor (Z.lor (x b 6 1 4) (x b 2 1 5)) (x b 5 1 6))
                                 (x b 3 2 7)) (xs b 12 1 9))))
      else
        (* C.LUI *)
        if negb (rd =? 0) then Some (Utype_new_s OP_LUI rd imm)
        else if 1 <=? version then Some nop else None
    else None
  else if f =? 0x8001 then rvc_alu rv64 shift_mask b
  else if f =? 0xa001 then (* C.J *) Some (Utype_new_s OP_JAL 0 (j_immediate b))
  else if f =? 0xc001 then
    (* C.BEQZ *) Some (Stype_new_s OP_BEQ (b_immediate b) (compact_register_number b 7) 0)
  else if f =? 0xe001 then
    (* C.BNEZ *) Some (Stype_new_s OP_BNE (b_immediate b) (compact_register_number b 7) 0)
  else None.

(** [0b_100_00000000000_10]: jumps, moves and adds of quadrant 2.  The outer
    match is on bit 12, so its [unreachable!()] arm is not taken. *)
Definition rvc_jr_mv_add (b version : Z) : option Instruction :=
  let rd := rd b in
  let rs2 := c_rs2 b in
  if Z.land b 0x1000 =? 0 then
    if rs2 =? 0 then
      if negb (rd =? 0) then (* C.JR *) Some (Itype_new_s (utils_jalr version) 0 rd 0)
      else None
    else
      if negb (rd =? 0) then (* C.MV *) Some (Rtype_new OP_ADD rd 0 rs2)
      else if 1 <=? version then Some nop else None
  else
    if (rd =? 0) && (rs2 =? 0) then (* C.EBREAK *) Some (blank_instruction OP_EBREAK)
    else if rs2 =? 0 then (* C.JALR *) Some (Itype_new_s (utils_jalr version) 1 rd 0)
    else
      (* C.ADD *)
      if negb (rd =? 0) then Some (Rtype_new OP_ADD rd rd rs2)
      else if 1 <=? version then Some nop else None.

(** Quadrant 2 *)
Definition rvc_quadrant2 (rv32 : bool) (shift_mask b version f : Z) : option Instruction :=
  if f =? 0x0002 then
    let uimm := uimmediate b in
    let rd := rd b in
    if negb (rd =? 0) && negb (uimm =? 0) then
      (* C.SLLI *) Some (Itype_new_u OP_SLLI rd rd (Z.land uimm shift_mask))
    else if 1 <=? version then Some nop else None
  else if f =? 0x4002 then
    let rd := rd b in
    if negb (rd =? 0) then
      (* C.LWSP *) Some (Itype_new_u (utils_lw version) rd SP (lwsp_uimmediate b))
    else None
  else if f =? 0x6002 then
    if rv32 then None
    else
      let rd := rd b in
      if negb (rd =? 0) then
        (* C.LDSP *) Some (Itype_new_u (utils_ld version) rd SP (fldsp_uimmediate b))
      else None
  else if f =? 0x8002 then rvc_jr_mv_add b version
  else if f =? 0xc002 then
    (* C.SWSP *) Some (Stype_new_u OP_SW (swsp_uimmediate b) SP (c_rs2 b))
  else if f =? 0xe002 then
    if rv32 then None
    else (* C.SDSP *) Some (Stype_new_u OP_SD (fsdsp_uimmediate b) 2 (c_rs2 b))
  else None.

Definition rvc_factory (R : Register) (instruction_bits version : Z) : option Instruction :=
  let b := instruction_bits in
  let bit_length := BITS R in
  if negb (bit_length =? 32) && negb (bit_length =? 64) then None
  else
    let rv32 := bit_length =? 32 in
    let rv64 := bit_length =? 64 in
    let f := Z.land b 0xe003 (* 0b_111_00000000000_11 *) in
    set_instruction_length_2 <$>
      (if Z.land b 3 =? 0 then rvc_quadrant0 rv32 b version f
       else if Z.land b 3 =? 1 then rvc_quadrant1 rv32 rv64 (SHIFT_MASK R) b version f
       else if Z.land b 3 =? 2 then rvc_quadrant2 rv32 (SHIFT_MASK R) b version f
       else None).
