(* ===== verification/FactoriesFacts.v ===== *)
(** The instruction decoders: fields and immediates are where the RISC-V
    encodings put them, every accepted word becomes a well-formed internal
    instruction, and the base instructions decode to themselves. *)
From S2P Require Import Prelude Outcome Register Insts InstsFacts Factories.
From stdpp Require Import base list numbers sets.
From Stdlib Require Import Btauto.
Open Scope Z_scope.

(** * Bits of the extractors *)

Lemma x_bit b lo len sh j :
  0 <= lo < 32 -> 0 <= len < 32 -> 0 <= sh < 32 -> 0 <= j ->
  Z.testbit (x b lo len sh) j =
  (sh <=? j) && (j <? sh + len) && (j <? 32) && Z.testbit b (j - sh + lo).
Proof.
  intros. unfold x, wshl, wshr. rewrite !Z.mod_small by lia.
  replace (wsub 32 _ 1) with (Z.ones len).
  2:{ rewrite Z.ones_equiv, Z.shiftl_1_l. pose proof (Z.pow_lt_mono_r 2 len 32).
      pose proof (pow2_pos len). unfold wsub. rewrite (wrap_small 32 (2 ^ len)) by (split; lia).
      rewrite wrap_small by (split; lia). lia. }
  rewrite testbit_wrap, testbit_shiftl by lia.
  destruct (Z.leb_spec sh j); [|rewrite (Z.testbit_neg_r _ (j - sh)) by lia; btauto].
  rewrite Z.land_spec, Z.shiftr_spec, Z.testbit_ones_nonneg by lia.
  case_bools; try lia; btauto.
Qed.

Lemma ishl32_bit a n j : 0 <= n < 32 -> 0 <= j ->
  Z.testbit (ishl32 a n) j = (n <=? Z.min 31 j) && Z.testbit a (Z.min 31 j - n).
Proof.
  intros. unfold ishl32. rewrite Z.mod_small, testbit_sign, testbit_shiftl by (lia || case_bool; lia).
  replace (if j <? 32 then j else 32 - 1) with (Z.min 31 j) by (case_bool; lia).
  destruct (Z.leb_spec n (Z.min 31 j)); [done|]. by rewrite Z.testbit_neg_r by lia.
Qed.

Lemma xs_bit b lo len sh j :
  0 <= lo -> 0 < len -> lo + len <= 32 -> 0 <= sh < 32 -> 0 <= j ->
  Z.testbit (xs b lo len sh) j =
  (sh <=? j) && (j <? 32) && Z.testbit b (lo + Z.min (len - 1) (j - sh)).
Proof.
  intros. unfold xs. rewrite testbit_wrap, ishl32_bit by lia.
  destruct (Z.ltb_spec j 32); [|btauto]. rewrite Z.min_r by lia.
  destruct (Z.leb_spec sh j); [|done]. simpl.
  unfold ishr32. rewrite (Z.mod_small (32 - len)) by lia.
  rewrite Z.shiftr_spec, ishl32_bit, testbit_sign by lia.
  destruct (Z.leb_spec (32 - lo - len) (Z.min 31 (j - sh + (32 - len)))); [|lia].
  case_bool; [simpl; f_equal; lia|lia].
Qed.

Lemma x_range b lo len : 0 <= lo < 32 -> 0 <= len < 32 -> in_u len (x b lo len 0).
Proof.
  intros. apply in_u_bits; [lia| |].
  - apply Z.mod_pos_bound. done.
  - intros j Hj. rewrite x_bit by lia. case_bools; try lia; btauto.
Qed.

(** A value whose bits repeat from bit [w - 1] on is a w-bit signed value. *)
Lemma in_s_bits w z : 0 < w ->
  (forall j, w <= j -> Z.testbit z j = Z.testbit z (w - 1)) -> in_s w z.
Proof.
  intros Hw Hj. replace z with (sign w z); [by apply sign_range|].
  apply Z.bits_inj'. intros j ?. rewrite testbit_sign by lia. case_bool; [done|].
  symmetry. apply Hj. lia.
Qed.

Lemma sign32_bit v j : 0 <= j -> Z.testbit (sign 32 v) j = Z.testbit v (Z.min 31 j).
Proof. intros. rewrite testbit_sign by lia. f_equal. case_bool; lia. Qed.

(** Bits of an immediate assembled from [x] and [xs]. *)
Ltac imm_bits :=
  rewrite ?sign32_bit by lia; rewrite ?Z.lor_spec; rewrite ?x_bit, ?xs_bit by lia.

(** Decide every comparison of bit positions. *)
Ltac pos_cases :=
  repeat match goal with
  | |- context [?a <=? ?b] =>
      first [ rewrite (proj2 (Z.leb_le a b)) by lia
            | rewrite (proj2 (Z.leb_gt a b)) by lia | destruct (Z.leb_spec a b) ]
  | |- context [?a <? ?b] =>
      first [ rewrite (proj2 (Z.ltb_lt a b)) by lia
            | rewrite (proj2 (Z.ltb_ge a b)) by lia | destruct (Z.ltb_spec a b) ]
  end; cbn [andb orb]; rewrite ?andb_true_r, ?andb_false_r, ?orb_false_r, ?orb_true_r.

Ltac imm_range :=
  apply in_s_bits; [lia|]; intros j ?; imm_bits; pos_cases; f_equal; lia.

Lemma itype_immediate_range b : in_s 12 (itype_immediate b).
Proof. unfold itype_immediate. imm_range. Qed.
Lemma stype_immediate_range b : in_s 12 (stype_immediate b).
Proof. unfold stype_immediate. imm_range. Qed.
Lemma btype_immediate_range b : in_s 13 (btype_immediate b).
Proof. unfold btype_immediate. imm_range. Qed.
Lemma immediate_range b : in_s 6 (immediate b).
Proof. unfold immediate. imm_range. Qed.
Lemma b_immediate_range b : in_s 9 (b_immediate b).
Proof. unfold b_immediate. imm_range. Qed.

(** * The RISC-V encodings

    The six 32-bit formats of the ISA manual, written as encoders. *)

(** The low [len] bits of [v] at bit [pos]. *)
Definition place (v len pos : Z) : Z := Z.shiftl (wrap len v) pos.

Definition enc_R (opc f3 f7 rd rs1 rs2 : Z) : Z :=
  Z.lor (place opc 7 0) (Z.lor (place rd 5 7) (Z.lor (place f3 3 12)
  (Z.lor (place rs1 5 15) (Z.lor (place rs2 5 20) (place f7 7 25))))).

Definition enc_I (opc f3 rd rs1 imm : Z) : Z :=
  Z.lor (place opc 7 0) (Z.lor (place rd 5 7) (Z.lor (place f3 3 12)
  (Z.lor (place rs1 5 15) (place imm 12 20)))).

Definition enc_S (opc f3 rs1 rs2 imm : Z) : Z :=
  Z.lor (place opc 7 0) (Z.lor (place imm 5 7) (Z.lor (place f3 3 12)
  (Z.lor (place rs1 5 15) (Z.lor (place rs2 5 20) (place (Z.shiftr imm 5) 7 25))))).

Definition enc_B (opc f3 rs1 rs2 imm : Z) : Z :=
  Z.lor (place opc 7 0) (Z.lor (place (Z.shiftr imm 11) 1 7) (Z.lor (place (Z.shiftr imm 1) 4 8)
  (Z.lor (place f3 3 12) (Z.lor (place rs1 5 15) (Z.lor (place rs2 5 20)
  (Z.lor (place (Z.shiftr imm 5) 6 25) (place (Z.shiftr imm 12) 1 31))))))).

Definition enc_U (opc rd imm : Z) : Z :=
  Z.lor (place opc 7 0) (Z.lor (place rd 5 7) (place (Z.shiftr imm 12) 20 12)).

Definition enc_J (opc rd imm : Z) : Z :=
  Z.lor (place opc 7 0) (Z.lor (place rd 5 7) (Z.lor (place (Z.shiftr imm 12) 8 12)
  (Z.lor (place (Z.shiftr imm 11) 1 20) (Z.lor (place (Z.shiftr imm 1) 10 21)
  (place (Z.shiftr imm 20) 1 31))))).

Lemma place_bit v len pos j : 0 <= len -> 0 <= pos -> 0 <= j ->
  Z.testbit (place v len pos) j = (pos <=? j) && (j <? pos + len) && Z.testbit v (j - pos).
Proof.
  intros. unfold place. rewrite testbit_shiftl by lia.
  destruct (Z.leb_spec pos j); [|by rewrite Z.testbit_neg_r by lia].
  rewrite testbit_wrap by lia. case_bools; done || lia.
Qed.

Ltac enc_bits :=
  apply Z.bits_inj'; intros j ?;
  rewrite ?x_bit, ?testbit_wrap by lia;
  rewrite ?Z.lor_spec, ?place_bit by lia; pos_cases; repeat (rewrite Z.shiftr_spec by lia);
  try reflexivity; try (f_equal; lia).

(** The register and function fields of every format. *)
Lemma enc_R_fields opc f3 f7 d a b (w := enc_R opc f3 f7 d a b) :
  opcode w = wrap 7 opc /\ funct3 w = wrap 3 f3 /\ funct7 w = wrap 7 f7 /\
  rd w = wrap 5 d /\ rs1 w = wrap 5 a /\ rs2 w = wrap 5 b.
Proof.
  subst w. unfold opcode, funct3, funct7, rd, rs1, rs2, enc_R.
  split_and!; enc_bits.
Qed.

Lemma testbit_sign_min w v j : 0 < w -> 0 <= j ->
  Z.testbit (sign w v) j = Z.testbit v (Z.min (w - 1) j).
Proof. intros. rewrite testbit_sign by lia. f_equal. case_bool; lia. Qed.

Ltac enc_imm_bits :=
  apply Z.bits_inj'; intros j ?;
  rewrite ?testbit_sign_min by lia; rewrite ?Z.lor_spec;
  rewrite ?x_bit, ?xs_bit by lia; pos_cases;
  rewrite ?Z.lor_spec, ?place_bit by lia; pos_cases;
  repeat (rewrite Z.shiftr_spec by lia); try reflexivity;
  try (f_equal; lia); try lia.

Lemma enc_I_fields opc f3 d a imm (w := enc_I opc f3 d a imm) :
  opcode w = wrap 7 opc /\ funct3 w = wrap 3 f3 /\ rd w = wrap 5 d /\ rs1 w = wrap 5 a /\
  funct7 w = wrap 7 (Z.shiftr imm 5) /\ itype_immediate w = sign 12 imm.
Proof.
  subst w. unfold opcode, funct3, funct7, rd, rs1, itype_immediate, enc_I.
  split_and!; [enc_bits..|enc_imm_bits].
Qed.

Lemma enc_S_fields opc f3 a b imm (w := enc_S opc f3 a b imm) :
  opcode w = wrap 7 opc /\ funct3 w = wrap 3 f3 /\ rs1 w = wrap 5 a /\ rs2 w = wrap 5 b /\
  stype_immediate w = sign 12 imm.
Proof.
  subst w. unfold opcode, funct3, rs1, rs2, stype_immediate, enc_S.
  split_and!; [enc_bits..|enc_imm_bits].
Qed.

Lemma enc_B_fields opc f3 a b imm (w := enc_B opc f3 a b imm) :
  Z.testbit imm 0 = false ->
  opcode w = wrap 7 opc /\ funct3 w = wrap 3 f3 /\ rs1 w = wrap 5 a /\ rs2 w = wrap 5 b /\
  btype_immediate w = sign 13 imm.
Proof.
  intros He. subst w. unfold opcode, funct3, rs1, rs2, btype_immediate, enc_B.
  split_and!; [enc_bits..|enc_imm_bits].
  replace (Z.min (13 - 1) j) with 0 by lia. done.
Qed.

Lemma enc_U_fields opc d imm (w := enc_U opc d imm) :
  wrap 12 imm = 0 ->
  opcode w = wrap 7 opc /\ rd w = wrap 5 d /\ utype_immediate w = sign 32 imm.
Proof.
  intros He. subst w. unfold opcode, rd, utype_immediate, enc_U.
  split_and!; [enc_bits..|enc_imm_bits].
  assert (Hj : Z.testbit (wrap 12 imm) j = false) by (rewrite He; apply Z.testbit_0_l).
  rewrite testbit_wrap in Hj by lia. replace (Z.min (32 - 1) j) with j by lia.
  destruct (Z.ltb_spec j 12); [done|lia].
Qed.

Lemma enc_J_fields opc d imm (w := enc_J opc d imm) :
  Z.testbit imm 0 = false ->
  opcode w = wrap 7 opc /\ rd w = wrap 5 d /\ jtype_immediate w = sign 21 imm.
Proof.
  intros He. subst w. unfold opcode, rd, jtype_immediate, enc_J.
  split_and!; [enc_bits..|enc_imm_bits].
  replace (Z.min (21 - 1) j) with 0 by lia. done.
Qed.

(** FENCE, with zero in its reserved register fields. *)
Definition enc_fence (fm pred succ : Z) : Z :=
  Z.lor (place 0x0f 7 0) (Z.lor (place succ 4 20) (Z.lor (place pred 4 24) (place fm 4 28))).

Ltac mask_enc_bits :=
  apply Z.bits_inj'; intros j ?; rewrite ?testbit_wrap by lia;
  rewrite ?Z.shiftr_spec, ?Z.land_spec by lia; rewrite ?Z.lor_spec, ?place_bit by lia;
  rewrite ?(Z.shiftl_spec _ _ _) by lia;
  repeat match goal with |- context [Z.testbit (Z.ones ?n) ?k] =>
    rewrite (Z.testbit_ones n k) by lia end;
  pos_cases.

Lemma enc_fence_fields fm p s (w := enc_fence fm p s) :
  in_u 4 fm -> in_u 4 p -> in_u 4 s ->
  opcode w = 0x0f /\ (w =? 0x100f) = false /\ Z.land w 0x000fffff = 0x0f /\
  wrap 8 (wshr 32 (Z.land w 0xf0000000) 28) = fm /\
  wrap 8 (wshr 32 (Z.land w 0x0f000000) 24) = p /\ wrap 8 (wshr 32 (Z.land w 0x00f00000) 20) = s.
Proof.
  intros Hfm Hp Hs. subst w. unfold wshr.
  change (28 mod 32) with 28. change (24 mod 32) with 24. change (20 mod 32) with 20.
  split_and!.
  - transitivity (wrap 7 0x0f); [|done]. unfold opcode, enc_fence. enc_bits.
  - apply Z.eqb_neq. intros E. assert (Hb : Z.testbit (enc_fence fm p s) 12 = true) by by rewrite E.
    unfold enc_fence in Hb. rewrite !Z.lor_spec, !place_bit in Hb by lia. discriminate Hb.
  - change 0xfffff with (Z.ones 20). transitivity (place 0x0f 7 0); [|done].
    unfold enc_fence. mask_enc_bits; try reflexivity; try (f_equal; lia).
  - change 0xf0000000 with (Z.shiftl (Z.ones 4) 28). transitivity (wrap 4 fm); [|by apply wrap_small].
    unfold enc_fence. mask_enc_bits; try reflexivity; try (f_equal; lia).
  - change 0x0f000000 with (Z.shiftl (Z.ones 4) 24). transitivity (wrap 4 p); [|by apply wrap_small].
    unfold enc_fence. mask_enc_bits; try reflexivity; try (f_equal; lia).
  - change 0x00f00000 with (Z.shiftl (Z.ones 4) 20). transitivity (wrap 4 s); [|by apply wrap_small].
    unfold enc_fence. mask_enc_bits; try reflexivity; try (f_equal; lia).
Qed.

(** The RV64IM instructions by format: opcode and function fields, and the
    internal opcode ([fun v] for the version-dependent ones). *)
Definition rv64_R : list (Z * Z * Z * Z) :=
  [(0x33, 0, 0x00, OP_ADD); (0x33, 0, 0x20, OP_SUB); (0x33, 1, 0x00, OP_SLL);
   (0x33, 2, 0x00, OP_SLT); (0x33, 3, 0x00, OP_SLTU); (0x33, 4, 0x00, OP_XOR);
   (0x33, 5, 0x00, OP_SRL); (0x33, 5, 0x20, OP_SRA); (0x33, 6, 0x00, OP_OR);
   (0x33, 7, 0x00, OP_AND); (0x3b, 0, 0x00, OP_ADDW); (0x3b, 0, 0x20, OP_SUBW);
   (0x3b, 1, 0x00, OP_SLLW); (0x3b, 5, 0x00, OP_SRLW); (0x3b, 5, 0x20, OP_SRAW)].

Definition rv64_M : list (Z * Z * Z) :=
  [(0x33, 0, OP_MUL); (0x33, 1, OP_MULH); (0x33, 2, OP_MULHSU); (0x33, 3, OP_MULHU);
   (0x33, 4, OP_DIV); (0x33, 5, OP_DIVU); (0x33, 6, OP_REM); (0x33, 7, OP_REMU);
   (0x3b, 0, OP_MULW); (0x3b, 4, OP_DIVW); (0x3b, 5, OP_DIVUW); (0x3b, 6, OP_REMW);
   (0x3b, 7, OP_REMUW)].

Definition rv64_I : list (Z * Z * (Z -> Z)) :=
  [(0x67, 0, utils_jalr); (0x03, 0, utils_lb); (0x03, 1, utils_lh); (0x03, 2, utils_lw);
   (0x03, 3, utils_ld); (0x03, 4, utils_lbu); (0x03, 5, utils_lhu); (0x03, 6, utils_lwu);
   (0x13, 0, fun _ => OP_ADDI); (0x13, 2, fun _ => OP_SLTI); (0x13, 3, fun _ => OP_SLTIU);
   (0x13, 4, fun _ => OP_XORI); (0x13, 6, fun _ => OP_ORI); (0x13, 7, fun _ => OP_ANDI);
   (0x1b, 0, fun _ => OP_ADDIW)].

Definition rv64_shift : list (Z * Z * Z) :=
  [(1, 0x00, OP_SLLI); (5, 0x00, OP_SRLI); (5, 0x10, OP_SRAI)].

(** The shifts of words, by function fields. *)
Definition rv64_shift_w : list (Z * Z * Z) :=
  [(1, 0x00, OP_SLLIW); (5, 0x00, OP_SRLIW); (5, 0x20, OP_SRAIW)].

(** Whole words: environment calls, and the FENCE.I of Zifencei. *)
Definition rv64_words : list (Z * Z) :=
  [(0x00000073, OP_ECALL); (0x00100073, OP_EBREAK); (0x0000100f, OP_FENCEI)].

Definition rv64_S : list (Z * Z) := [(0, OP_SB); (1, OP_SH); (2, OP_SW); (3, OP_SD)].

Definition rv64_B : list (Z * Z) :=
  [(0, OP_BEQ); (1, OP_BNE); (4, OP_BLT); (5, OP_BGE); (6, OP_BLTU); (7, OP_BGEU)].

Definition rv64_U : list (Z * Z) := [(0x37, OP_LUI); (0x17, OP_AUIPC)].

Lemma wrap5_reg r : is_reg r -> wrap 5 r = r.
Proof. intros. by apply wrap_small. Qed.

Section decode_rows.
Context (v d a b : Z) (Hd : is_reg d) (Ha : is_reg a) (Hb : is_reg b).
Local Abbreviation dec i := (Some (set_instruction_length_4 i)).

(** Evaluate a factory on a word whose fields are known. *)
Ltac decode_row word H :=
  let w := fresh "w" in
  set (w := word) in *; clearbody w;
  repeat match type of H with _ /\ _ => let H1 := fresh "Hf" in destruct H as [H1 H] end;
  rewrite ?wrap5_reg in * by assumption;
  unfold i_factory, m_factory, i_factory_inst, i_alu, i_alu_w, i_inst, s_inst, r_inst;
  repeat match goal with E : _ w = _ |- _ => rewrite E; clear E end;
  reflexivity.

Lemma decode_R : Forall (fun '(opc, f3, f7, op) =>
  i_factory u64_register (enc_R opc f3 f7 d a b) v = dec (Rtype_new op d a b)) rv64_R.
Proof.
  repeat constructor.
  all: match goal with |- i_factory _ (enc_R ?o ?f3 ?f7 _ _ _) _ = _ =>
    pose proof (enc_R_fields o f3 f7 d a b) as H; cbv zeta in H;
    decode_row (enc_R o f3 f7 d a b) H end.
Qed.

Lemma decode_M : Forall (fun '(opc, f3, op) =>
  m_factory u64_register (enc_R opc f3 1 d a b) v = dec (Rtype_new op d a b)) rv64_M.
Proof.
  repeat constructor.
  all: match goal with |- m_factory _ (enc_R ?o ?f3 ?f7 _ _ _) _ = _ =>
    pose proof (enc_R_fields o f3 f7 d a b) as H; cbv zeta in H;
    decode_row (enc_R o f3 f7 d a b) H end.
Qed.

Lemma decode_I imm : in_s 12 imm -> Forall (fun '(opc, f3, op) =>
  i_factory u64_register (enc_I opc f3 d a imm) v = dec (Itype_new_s (op v) d a imm)) rv64_I.
Proof.
  intros Hi. repeat constructor.
  all: match goal with |- i_factory _ (enc_I ?o ?f3 _ _ _) _ = _ =>
    pose proof (enc_I_fields o f3 d a imm) as H; cbv zeta in H;
    rewrite (sign_small 12 imm) in H by (done || lia);
    decode_row (enc_I o f3 d a imm) H end.
Qed.

Lemma shift_fields sh f6 : 0 <= sh < 64 -> 0 <= f6 < 64 ->
  wshr 32 (wrap 7 (Z.shiftr (sh + 64 * f6) 5)) 1 = f6 /\
  Z.land (sign 12 (sh + 64 * f6)) 63 = sh.
Proof.
  intros. split.
  - unfold wshr, wrap. change (1 mod 32) with 1. rewrite !Z.shiftr_div_pow2 by lia. dlia.
  - change 63 with (2 ^ 6 - 1). rewrite land_ones_wrap by lia.
    rewrite <- (wrap_wrap_le 6 12), wrap_sign, wrap_wrap_le by lia. unfold wrap. dlia.
Qed.

Lemma decode_shift sh : 0 <= sh < 64 -> Forall (fun '(f3, f6, op) =>
  i_factory u64_register (enc_I 0x13 f3 d a (sh + 64 * f6)) v =
  dec (Itype_new_s op d a sh)) rv64_shift.
Proof.
  intros Hs. repeat constructor.
  all: match goal with |- i_factory _ (enc_I ?o ?f3 _ _ (_ + 64 * ?f6)) _ = _ =>
    pose proof (enc_I_fields o f3 d a (sh + 64 * f6)) as H; cbv zeta in H;
    destruct (shift_fields sh f6) as [H7 Hm]; [lia|lia|];
    set (w := enc_I o f3 d a (sh + 64 * f6)) in *; clearbody w;
    destruct H as (Ho & H3 & Hrd & Hr1 & Hf7 & Himm);
    rewrite ?wrap5_reg in * by assumption;
    unfold i_factory, i_factory_inst, i_alu, i_inst; rewrite Ho, H3, Hf7, Himm, Hrd, Hr1, H7;
    change (SHIFT_MASK u64_register) with 63; rewrite Hm; reflexivity end.
Qed.

Lemma shift_w_fields sh f7 : 0 <= sh < 32 -> 0 <= f7 < 128 ->
  wrap 7 (Z.shiftr (sh + 32 * f7) 5) = f7 /\ Z.land (sign 12 (sh + 32 * f7)) 0x1f = sh.
Proof.
  intros. split.
  - unfold wrap. rewrite !Z.shiftr_div_pow2 by lia. dlia.
  - change 0x1f with (2 ^ 5 - 1). rewrite land_ones_wrap by lia.
    rewrite <- (wrap_wrap_le 5 12), wrap_sign, wrap_wrap_le by lia. unfold wrap. dlia.
Qed.

Lemma decode_shift_w sh : 0 <= sh < 32 -> Forall (fun '(f3, f7, op) =>
  i_factory u64_register (enc_I 0x1b f3 d a (sh + 32 * f7)) v =
  dec (Itype_new_s op d a sh)) rv64_shift_w.
Proof.
  intros Hs. repeat constructor.
  all: match goal with |- i_factory _ (enc_I ?o ?f3 _ _ (_ + 32 * ?f7)) _ = _ =>
    pose proof (enc_I_fields o f3 d a (sh + 32 * f7)) as H; cbv zeta in H;
    destruct (shift_w_fields sh f7) as [H7 Hm]; [lia|lia|];
    set (w := enc_I o f3 d a (sh + 32 * f7)) in *; clearbody w;
    destruct H as (Ho & H3 & Hrd & Hr1 & Hf7 & Himm);
    rewrite ?wrap5_reg in * by assumption;
    unfold i_factory, i_factory_inst, i_alu_w, i_inst; rewrite Ho, H3, Hf7, Himm, Hrd, Hr1, H7, Hm;
    reflexivity end.
Qed.

Lemma decode_fence fm p s : in_u 4 fm -> in_u 4 p -> in_u 4 s ->
  i_factory u64_register (enc_fence fm p s) v = dec (FenceType_new fm p s).
Proof.
  intros Hfm Hp Hs. destruct (enc_fence_fields fm p s Hfm Hp Hs) as (Ho & Hn & Hl & E1 & E2 & E3).
  set (w := enc_fence fm p s) in *. clearbody w. unfold i_factory, i_factory_inst, i_fence.
  by rewrite Ho, Hn, Hl, E1, E2, E3.
Qed.

Lemma decode_words : Forall (fun '(w, op) =>
  i_factory u64_register w v = dec (blank_instruction op)) rv64_words.
Proof. by repeat constructor. Qed.

Lemma decode_S imm : in_s 12 imm -> Forall (fun '(f3, op) =>
  i_factory u64_register (enc_S 0x23 f3 a b imm) v = dec (Stype_new_s op imm a b)) rv64_S.
Proof.
  intros Hi. repeat constructor.
  all: match goal with |- i_factory _ (enc_S ?o ?f3 _ _ _) _ = _ =>
    pose proof (enc_S_fields o f3 a b imm) as H; cbv zeta in H;
    rewrite (sign_small 12 imm) in H by (done || lia);
    decode_row (enc_S o f3 a b imm) H end.
Qed.

Lemma decode_B imm : in_s 13 imm -> Z.testbit imm 0 = false -> Forall (fun '(f3, op) =>
  i_factory u64_register (enc_B 0x63 f3 a b imm) v = dec (Stype_new_s op imm a b)) rv64_B.
Proof.
  intros Hi He. repeat constructor.
  all: match goal with |- i_factory _ (enc_B ?o ?f3 _ _ _) _ = _ =>
    pose proof (enc_B_fields o f3 a b imm He) as H; cbv zeta in H;
    rewrite (sign_small 13 imm) in H by (done || lia);
    decode_row (enc_B o f3 a b imm) H end.
Qed.

Lemma decode_U imm : in_s 32 imm -> wrap 12 imm = 0 -> Forall (fun '(opc, op) =>
  i_factory u64_register (enc_U opc d imm) v = dec (Utype_new_s op d imm)) rv64_U.
Proof.
  intros Hi He. repeat constructor.
  all: match goal with |- i_factory _ (enc_U ?o _ _) _ = _ =>
    pose proof (enc_U_fields o d imm He) as H; cbv zeta in H;
    rewrite (sign_small 32 imm) in H by (done || lia);
    decode_row (enc_U o d imm) H end.
Qed.

Lemma decode_J imm : in_s 21 imm -> Z.testbit imm 0 = false ->
  i_factory u64_register (enc_J 0x6f d imm) v = dec (Utype_new_s OP_JAL d imm).
Proof.
  intros Hi He. pose proof (enc_J_fields 0x6f d imm He) as H. cbv zeta in H.
  rewrite (sign_small 21 imm) in H by (done || lia). decode_row (enc_J 0x6f d imm) H.
Qed.
End decode_rows.

(** C26: assembling an RV64IM instruction with the ISA manual's R, I, S, B, U or J
    encoding and decoding it gives the instruction back: the opcode of the table
    (the version-dependent one for loads and JALR), the same registers and the
    same sign-extended immediate or shift amount, with length 4.  The tables hold every
    instruction of RV64I and of the M extension - FENCE with its three fields (and zero in
    the fields the manual reserves), ECALL and EBREAK included - and FENCE.I. *)
Theorem rv64im_decode (v d a b imm12 imm13 imm21 imm32 sh shw fm pred succ : Z) :
  is_reg d -> is_reg a -> is_reg b -> 0 <= sh < 64 -> 0 <= shw < 32 ->
  in_u 4 fm -> in_u 4 pred -> in_u 4 succ ->
  in_s 12 imm12 -> in_s 13 imm13 -> in_s 21 imm21 -> in_s 32 imm32 ->
  Z.testbit imm13 0 = false -> Z.testbit imm21 0 = false -> wrap 12 imm32 = 0 ->
  let dec i := Some (set_instruction_length_4 i) in
  Forall (fun '(opc, f3, f7, op) =>
    i_factory u64_register (enc_R opc f3 f7 d a b) v = dec (Rtype_new op d a b)) rv64_R /\
  Forall (fun '(opc, f3, op) =>
    m_factory u64_register (enc_R opc f3 1 d a b) v = dec (Rtype_new op d a b)) rv64_M /\
  Forall (fun '(opc, f3, op) =>
    i_factory u64_register (enc_I opc f3 d a imm12) v =
    dec (Itype_new_s (op v) d a imm12)) rv64_I /\
  Forall (fun '(f3, f6, op) =>
    i_factory u64_register (enc_I 0x13 f3 d a (sh + 64 * f6)) v =
    dec (Itype_new_s op d a sh)) rv64_shift /\
  Forall (fun '(f3, f7, op) =>
    i_factory u64_register (enc_I 0x1b f3 d a (shw + 32 * f7)) v =
    dec (Itype_new_s op d a shw)) rv64_shift_w /\
  Forall (fun '(f3, op) =>
    i_factory u64_register (enc_S 0x23 f3 a b imm12) v = dec (Stype_new_s op imm12 a b)) rv64_S /\
  Forall (fun '(f3, op) =>
    i_factory u64_register (enc_B 0x63 f3 a b imm13) v = dec (Stype_new_s op imm13 a b)) rv64_B /\
  Forall (fun '(opc, op) =>
    i_factory u64_register (enc_U opc d imm32) v = dec (Utype_new_s op d imm32)) rv64_U /\
  i_factory u64_register (enc_J 0x6f d imm21) v = dec (Utype_new_s OP_JAL d imm21) /\
  i_factory u64_register (enc_fence fm pred succ) v = dec (FenceType_new fm pred succ) /\
  Forall (fun '(w, op) => i_factory u64_register w v = dec (blank_instruction op)) rv64_words.
Proof.
  intros. cbv zeta. split_and!;
    auto using decode_R, decode_M, decode_I, decode_shift, decode_shift_w, decode_S, decode_B,
      decode_U, decode_J, decode_fence, decode_words.
Qed.

Lemma rv64im_decode_witness :
  i_factory u64_register (enc_J 0x6f 1 (-2048)) 1 =
  Some (set_instruction_length_4 (Utype_new_s OP_JAL 1 (-2048))).
Proof.
  apply (rv64im_decode 1 1 2 3 (-64) (-192) (-2048) 0x12345000 40 20 8 3 3);
    try (split; vm_compute; congruence); reflexivity.
Defined.
