(* ===== verification/RvcFacts.v ===== *)
(** Compressed instructions: a specification of the RV64C encodings and of the 32-bit
    instruction each of them stands for, in the terms of the ISA manual ([cinst], [c_enc],
    [c_expand], which are not translations of code), and the two
    halves of their agreement: that the factory of src/src/instructions/rvc.rs decodes the
    encoding ([rvc_decodes]) and the base factory the expansion ([rvc_expansions]) to the
    same packed instruction.  RvcSpec.v has the converse and the theorem. *)
From S2P Require Import Prelude Outcome Register Insts InstsFacts Factories FactoriesFacts.
From stdpp Require Import base list numbers.
From Stdlib Require Import Btauto.
Open Scope Z_scope.

(** * The instructions *)

(** Registers written [rd'] and [rs'] in the manual are given by their three bits. *)
Inductive cinst :=
  | C_ADDI4SPN (rd' nzuimm : Z) | C_LW (rd' rs1' uimm : Z) | C_LD (rd' rs1' uimm : Z)
  | C_SW (rs1' rs2' uimm : Z) | C_SD (rs1' rs2' uimm : Z)
  | C_NOP | C_ADDI (rd nzimm : Z) | C_ADDIW (rd imm : Z) | C_LI (rd imm : Z)
  | C_ADDI16SP (nzimm : Z) | C_LUI (rd nzimm : Z)
  | C_SRLI (rd' shamt : Z) | C_SRAI (rd' shamt : Z) | C_ANDI (rd' imm : Z)
  | C_SUB (rd' rs2' : Z) | C_XOR (rd' rs2' : Z) | C_OR (rd' rs2' : Z) | C_AND (rd' rs2' : Z)
  | C_SUBW (rd' rs2' : Z) | C_ADDW (rd' rs2' : Z)
  | C_J (imm : Z) | C_BEQZ (rs1' imm : Z) | C_BNEZ (rs1' imm : Z)
  | C_SLLI (rd shamt : Z) | C_LWSP (rd uimm : Z) | C_LDSP (rd uimm : Z)
  | C_JR (rs1 : Z) | C_MV (rd rs2 : Z) | C_EBREAK | C_JALR (rs1 : Z) | C_ADD (rd rs2 : Z)
  | C_SWSP (rs2 uimm : Z) | C_SDSP (rs2 uimm : Z).

(** ** Valid operands *)

Definition reg' (r : Z) : Prop := 0 <= r < 8.
Definition nzreg (r : Z) : Prop := 0 < r < 32.
(** An unsigned immediate of [w] bits that is a multiple of [2 ^ k]. *)
Definition uimm_ok (w k v : Z) : Prop := 0 <= v < 2 ^ w /\ wrap k v = 0.
Definition simm_ok (w k v : Z) : Prop := in_s w v /\ wrap k v = 0.

Definition c_ok (c : cinst) : Prop :=
  match c with
  | C_ADDI4SPN d i => reg' d /\ uimm_ok 10 2 i /\ i <> 0
  | C_LW d a i => reg' d /\ reg' a /\ uimm_ok 7 2 i
  | C_LD d a i => reg' d /\ reg' a /\ uimm_ok 8 3 i
  | C_SW a b i => reg' a /\ reg' b /\ uimm_ok 7 2 i
  | C_SD a b i => reg' a /\ reg' b /\ uimm_ok 8 3 i
  | C_NOP | C_EBREAK => True
  | C_ADDI d i => nzreg d /\ in_s 6 i /\ i <> 0
  | C_ADDIW d i | C_LI d i => nzreg d /\ in_s 6 i
  | C_ADDI16SP i => simm_ok 10 4 i /\ i <> 0
  | C_LUI d i => nzreg d /\ d <> 2 /\ simm_ok 18 12 i /\ i <> 0
  | C_SRLI d s | C_SRAI d s => reg' d /\ 0 < s < 64
  | C_ANDI d i => reg' d /\ in_s 6 i
  | C_SUB d b | C_XOR d b | C_OR d b | C_AND d b | C_SUBW d b | C_ADDW d b => reg' d /\ reg' b
  | C_J i => simm_ok 12 1 i
  | C_BEQZ a i | C_BNEZ a i => reg' a /\ simm_ok 9 1 i
  | C_SLLI d s => nzreg d /\ 0 < s < 64
  | C_LWSP d i => nzreg d /\ uimm_ok 8 2 i
  | C_LDSP d i => nzreg d /\ uimm_ok 9 3 i
  | C_JR a | C_JALR a => nzreg a
  | C_MV d b | C_ADD d b => nzreg d /\ nzreg b
  | C_SWSP b i => is_reg b /\ uimm_ok 8 2 i
  | C_SDSP b i => is_reg b /\ uimm_ok 9 3 i
  end.

(** ** Encodings *)

(** Bit [i] and on of [v]: [len] bits of it at [pos]. *)
Definition field (v i len pos : Z) : Z := place (Z.shiftr v i) len pos.
Definition cword (quadrant funct3 : Z) (fields : list Z) : Z :=
  foldr Z.lor (Z.lor (place quadrant 2 0) (place funct3 3 13)) fields.

Definition c_enc (c : cinst) : Z :=
  match c with
  | C_ADDI4SPN d i => cword 0 0 [field i 4 2 11; field i 6 4 7; field i 2 1 6; field i 3 1 5; place d 3 2]
  | C_LW d a i => cword 0 2 [field i 3 3 10; place a 3 7; field i 2 1 6; field i 6 1 5; place d 3 2]
  | C_LD d a i => cword 0 3 [field i 3 3 10; place a 3 7; field i 6 2 5; place d 3 2]
  | C_SW a b i => cword 0 6 [field i 3 3 10; place a 3 7; field i 2 1 6; field i 6 1 5; place b 3 2]
  | C_SD a b i => cword 0 7 [field i 3 3 10; place a 3 7; field i 6 2 5; place b 3 2]
  | C_NOP => cword 1 0 []
  | C_ADDI d i => cword 1 0 [field i 5 1 12; place d 5 7; place i 5 2]
  | C_ADDIW d i => cword 1 1 [field i 5 1 12; place d 5 7; place i 5 2]
  | C_LI d i => cword 1 2 [field i 5 1 12; place d 5 7; place i 5 2]
  | C_ADDI16SP i => cword 1 3 [field i 9 1 12; place 2 5 7; field i 4 1 6; field i 6 1 5; field i 7 2 3; field i 5 1 2]
  | C_LUI d i => cword 1 3 [field i 17 1 12; place d 5 7; field i 12 5 2]
  | C_SRLI d s => cword 1 4 [field s 5 1 12; place 0 2 10; place d 3 7; place s 5 2]
  | C_SRAI d s => cword 1 4 [field s 5 1 12; place 1 2 10; place d 3 7; place s 5 2]
  | C_ANDI d i => cword 1 4 [field i 5 1 12; place 2 2 10; place d 3 7; place i 5 2]
  | C_SUB d b => cword 1 4 [place 0 1 12; place 3 2 10; place d 3 7; place 0 2 5; place b 3 2]
  | C_XOR d b => cword 1 4 [place 0 1 12; place 3 2 10; place d 3 7; place 1 2 5; place b 3 2]
  | C_OR d b => cword 1 4 [place 0 1 12; place 3 2 10; place d 3 7; place 2 2 5; place b 3 2]
  | C_AND d b => cword 1 4 [place 0 1 12; place 3 2 10; place d 3 7; place 3 2 5; place b 3 2]
  | C_SUBW d b => cword 1 4 [place 1 1 12; place 3 2 10; place d 3 7; place 0 2 5; place b 3 2]
  | C_ADDW d b => cword 1 4 [place 1 1 12; place 3 2 10; place d 3 7; place 1 2 5; place b 3 2]
  | C_J i => cword 1 5 [field i 11 1 12; field i 4 1 11; field i 8 2 9; field i 10 1 8; field i 6 1 7;
                        field i 7 1 6; field i 1 3 3; field i 5 1 2]
  | C_BEQZ a i => cword 1 6 [field i 8 1 12; field i 3 2 10; place a 3 7; field i 6 2 5; field i 1 2 3; field i 5 1 2]
  | C_BNEZ a i => cword 1 7 [field i 8 1 12; field i 3 2 10; place a 3 7; field i 6 2 5; field i 1 2 3; field i 5 1 2]
  | C_SLLI d s => cword 2 0 [field s 5 1 12; place d 5 7; place s 5 2]
  | C_LWSP d i => cword 2 2 [field i 5 1 12; place d 5 7; field i 2 3 4; field i 6 2 2]
  | C_LDSP d i => cword 2 3 [field i 5 1 12; place d 5 7; field i 3 2 5; field i 6 3 2]
  | C_JR a => cword 2 4 [place 0 1 12; place a 5 7; place 0 5 2]
  | C_MV d b => cword 2 4 [place 0 1 12; place d 5 7; place b 5 2]
  | C_EBREAK => cword 2 4 [place 1 1 12]
  | C_JALR a => cword 2 4 [place 1 1 12; place a 5 7; place 0 5 2]
  | C_ADD d b => cword 2 4 [place 1 1 12; place d 5 7; place b 5 2]
  | C_SWSP b i => cword 2 6 [field i 2 4 9; field i 6 2 7; place b 5 2]
  | C_SDSP b i => cword 2 7 [field i 3 3 10; field i 6 3 7; place b 5 2]
  end.

(** ** Expansions *)

Definition c_expand (c : cinst) : Z :=
  match c with
  | C_ADDI4SPN d i => enc_I 0x13 0 (d + 8) 2 i
  | C_LW d a i => enc_I 0x03 2 (d + 8) (a + 8) i
  | C_LD d a i => enc_I 0x03 3 (d + 8) (a + 8) i
  | C_SW a b i => enc_S 0x23 2 (a + 8) (b + 8) i
  | C_SD a b i => enc_S 0x23 3 (a + 8) (b + 8) i
  | C_NOP => enc_I 0x13 0 0 0 0
  | C_ADDI d i => enc_I 0x13 0 d d i
  | C_ADDIW d i => enc_I 0x1b 0 d d i
  | C_LI d i => enc_I 0x13 0 d 0 i
  | C_ADDI16SP i => enc_I 0x13 0 2 2 i
  | C_LUI d i => enc_U 0x37 d i
  | C_SRLI d s => enc_I 0x13 5 (d + 8) (d + 8) (s + 64 * 0x00)
  | C_SRAI d s => enc_I 0x13 5 (d + 8) (d + 8) (s + 64 * 0x10)
  | C_ANDI d i => enc_I 0x13 7 (d + 8) (d + 8) i
  | C_SUB d b => enc_R 0x33 0 0x20 (d + 8) (d + 8) (b + 8)
  | C_XOR d b => enc_R 0x33 4 0x00 (d + 8) (d + 8) (b + 8)
  | C_OR d b => enc_R 0x33 6 0x00 (d + 8) (d + 8) (b + 8)
  | C_AND d b => enc_R 0x33 7 0x00 (d + 8) (d + 8) (b + 8)
  | C_SUBW d b => enc_R 0x3b 0 0x20 (d + 8) (d + 8) (b + 8)
  | C_ADDW d b => enc_R 0x3b 0 0x00 (d + 8) (d + 8) (b + 8)
  | C_J i => enc_J 0x6f 0 i
  | C_BEQZ a i => enc_B 0x63 0 (a + 8) 0 i
  | C_BNEZ a i => enc_B 0x63 1 (a + 8) 0 i
  | C_SLLI d s => enc_I 0x13 1 d d (s + 64 * 0x00)
  | C_LWSP d i => enc_I 0x03 2 d 2 i
  | C_LDSP d i => enc_I 0x03 3 d 2 i
  | C_JR a => enc_I 0x67 0 0 a 0
  | C_MV d b => enc_R 0x33 0 0x00 d 0 b
  | C_EBREAK => 0x00100073
  | C_JALR a => enc_I 0x67 0 1 a 0
  | C_ADD d b => enc_R 0x33 0 0x00 d d b
  | C_SWSP b i => enc_S 0x23 2 2 b i
  | C_SDSP b i => enc_S 0x23 3 2 b i
  end.

(** * Bits of operands *)

Lemma uimm_bit w k v j : uimm_ok w k v -> 0 <= k <= w -> 0 <= j ->
  Z.testbit v j = (k <=? j) && (j <? w) && Z.testbit v j.
Proof.
  intros [[H0 H1] Hk] Hw Hj. destruct (Z.leb_spec k j) as [_|Hlt].
  - destruct (Z.ltb_spec j w); [done|]. apply (testbit_high w); [lia|by split|lia].
  - assert (E : Z.testbit (wrap k v) j = false) by (rewrite Hk; apply Z.testbit_0_l).
    rewrite testbit_wrap in E by lia. by rewrite (proj2 (Z.ltb_lt j k)) in E by done.
Qed.

Lemma simm_bit w k v j : simm_ok w k v -> 0 <= k < w -> 0 <= j ->
  Z.testbit v j = (k <=? j) && Z.testbit v (Z.min (w - 1) j).
Proof.
  intros [Hs Hk] Hw Hj. destruct (Z.leb_spec k j) as [_|Hlt].
  - rewrite <- (sign_small w v) at 1 by (done || lia). by apply testbit_sign_min; lia.
  - assert (E : Z.testbit (wrap k v) j = false) by (rewrite Hk; apply Z.testbit_0_l).
    rewrite testbit_wrap in E by lia. by rewrite (proj2 (Z.ltb_lt j k)) in E by done.
Qed.

Lemma wrap_width_0 v : wrap 0 v = 0.
Proof. apply Z.mod_1_r. Qed.

Lemma reg'_uimm r : reg' r -> uimm_ok 3 0 r.
Proof. intros H. split; [exact H|apply wrap_width_0]. Qed.
Lemma is_reg_uimm r : is_reg r -> uimm_ok 5 0 r.
Proof. intros H. split; [exact H|apply wrap_width_0]. Qed.
Lemma in_s_simm w v : in_s w v -> simm_ok w 0 v.
Proof. intros H. split; [exact H|apply wrap_width_0]. Qed.
Lemma shamt_uimm v : 0 < v < 64 -> uimm_ok 6 0 v /\ v <> 0.
Proof. intros H. split; [split; [change (2 ^ 6) with 64; lia|apply wrap_width_0]|lia]. Qed.

(** * The masks of the factory *)

Ltac mask_bits :=
  apply Z.bits_inj'; intros j ?;
  rewrite ?Z.land_spec, ?Z.lor_spec, ?x_bit by lia;
  rewrite ?Z.shiftl_spec, ?Z.lor_spec by lia; rewrite ?Z.shiftl_spec by lia;
  repeat match goal with |- context [Z.testbit (Z.ones ?n) ?k] =>
    rewrite (Z.testbit_ones n k) by lia end;
  pos_cases; try reflexivity; try (f_equal; lia).

Lemma mask_quadrant b : Z.land b 3 = x b 0 2 0.
Proof. change 3 with (Z.shiftl (Z.ones 2) 0). mask_bits. Qed.
Lemma mask_f b : Z.land b 0xe003 = Z.lor (x b 0 2 0) (x b 13 3 13).
Proof. change 0xe003 with (Z.lor (Z.shiftl (Z.ones 2) 0) (Z.shiftl (Z.ones 3) 13)). mask_bits. Qed.
Lemma mask_alu b : Z.land b 0x1c60 = Z.lor (x b 10 3 10) (x b 5 2 5).
Proof. change 0x1c60 with (Z.lor (Z.shiftl (Z.ones 3) 10) (Z.shiftl (Z.ones 2) 5)). mask_bits. Qed.
Lemma mask_shamt b : Z.land b 0x1c = x b 2 3 2.
Proof. change 0x1c with (Z.shiftl (Z.ones 3) 2). mask_bits. Qed.
Lemma mask_g b : Z.land b 0x0c00 = x b 10 2 10.
Proof. change 0x0c00 with (Z.shiftl (Z.ones 2) 10). mask_bits. Qed.
Lemma mask_12 b : Z.land b 0x1000 = x b 12 1 12.
Proof. change 0x1000 with (Z.shiftl (Z.ones 1) 12). mask_bits. Qed.

(** * Fields of an encoded instruction *)

(** The bits of a field of [cword ..], against those of the operand. *)
Ltac word_bits :=
  unfold cword, field; cbn [foldr];
  rewrite ?ishl32_bit by lia; imm_bits; pos_cases;
  rewrite ?Z.lor_spec, ?place_bit by lia; pos_cases;
  repeat (rewrite Z.shiftr_spec by lia);
  try reflexivity; try (f_equal; lia); try lia.

Ltac operand_bits :=
  apply Z.bits_inj'; intros j Hj;
  match goal with
  | H : uimm_ok ?w ?k ?v |- _ = Z.testbit ?v j => rewrite (uimm_bit w k v j H) by lia
  | H : simm_ok ?w ?k ?v |- _ = Z.testbit ?v j => rewrite (simm_bit w k v j H) by lia
  | |- _ => idtac
  end;
  word_bits.

(** [E = V], for an extractor [E] applied to the encoded word [w]. *)
Ltac extract w E V :=
  let H := fresh "E" in
  assert (H : E = V)
    by (subst w; unfold rd, c_rs2, immediate, uimmediate, j_immediate, fld_uimmediate, sw_uimmediate,
          lwsp_uimmediate, fldsp_uimmediate, fsdsp_uimmediate, swsp_uimmediate, b_immediate; operand_bits).

(** The quadrant [q] and the function field [f] of [w]. *)
Ltac quadrant w q f := extract w (x w 0 2 0) (place q 2 0); extract w (x w 13 3 13) (place f 3 13).

(** Evaluate the factory on a word whose fields are known. *)
Ltac run_rvc w :=
  clearbody w;
  unfold rvc_factory, rvc_quadrant0, rvc_quadrant1, rvc_quadrant2, rvc_alu, rvc_jr_mv_add,
    compact_register_number, Itype_new_s, Stype_new_s;
  rewrite ?mask_f, ?mask_quadrant, ?mask_alu, ?mask_shamt, ?mask_g, ?mask_12;
  repeat match goal with E : _ w = _ |- _ => rewrite E; clear E
                       | E : x w _ _ _ = _ |- _ => rewrite E; clear E
                       | E : sign 32 _ = _ |- _ => rewrite E; clear E
                       | E : Z.lor _ _ = _ |- _ => rewrite E; clear E end.

Definition c_inst (v : Z) (c : cinst) : Instruction :=
  match c with
  | C_ADDI4SPN d i => Itype_new_s OP_ADDI (d + 8) 2 i
  | C_LW d a i => Itype_new_s (utils_lw v) (d + 8) (a + 8) i
  | C_LD d a i => Itype_new_s (utils_ld v) (d + 8) (a + 8) i
  | C_SW a b i => Stype_new_s OP_SW i (a + 8) (b + 8)
  | C_SD a b i => Stype_new_s OP_SD i (a + 8) (b + 8)
  | C_NOP => Itype_new_s OP_ADDI 0 0 0
  | C_ADDI d i => Itype_new_s OP_ADDI d d i
  | C_ADDIW d i => Itype_new_s OP_ADDIW d d i
  | C_LI d i => Itype_new_s OP_ADDI d 0 i
  | C_ADDI16SP i => Itype_new_s OP_ADDI 2 2 i
  | C_LUI d i => Utype_new_s OP_LUI d i
  | C_SRLI d s => Itype_new_s OP_SRLI (d + 8) (d + 8) s
  | C_SRAI d s => Itype_new_s OP_SRAI (d + 8) (d + 8) s
  | C_ANDI d i => Itype_new_s OP_ANDI (d + 8) (d + 8) i
  | C_SUB d b => Rtype_new OP_SUB (d + 8) (d + 8) (b + 8)
  | C_XOR d b => Rtype_new OP_XOR (d + 8) (d + 8) (b + 8)
  | C_OR d b => Rtype_new OP_OR (d + 8) (d + 8) (b + 8)
  | C_AND d b => Rtype_new OP_AND (d + 8) (d + 8) (b + 8)
  | C_SUBW d b => Rtype_new OP_SUBW (d + 8) (d + 8) (b + 8)
  | C_ADDW d b => Rtype_new OP_ADDW (d + 8) (d + 8) (b + 8)
  | C_J i => Utype_new_s OP_JAL 0 i
  | C_BEQZ a i => Stype_new_s OP_BEQ i (a + 8) 0
  | C_BNEZ a i => Stype_new_s OP_BNE i (a + 8) 0
  | C_SLLI d s => Itype_new_s OP_SLLI d d s
  | C_LWSP d i => Itype_new_s (utils_lw v) d 2 i
  | C_LDSP d i => Itype_new_s (utils_ld v) d 2 i
  | C_JR a => Itype_new_s (utils_jalr v) 0 a 0
  | C_MV d b => Rtype_new OP_ADD d 0 b
  | C_EBREAK => blank_instruction OP_EBREAK
  | C_JALR a => Itype_new_s (utils_jalr v) 1 a 0
  | C_ADD d b => Rtype_new OP_ADD d d b
  | C_SWSP b i => Stype_new_s OP_SW i 2 b
  | C_SDSP b i => Stype_new_s OP_SD i 2 b
  end.

Definition rvc_agrees (v : Z) (c : cinst) : Prop :=
  rvc_factory u64_register (c_enc c) v = Some (set_instruction_length_2 (c_inst v c)).

Lemma nzreg_uimm r : nzreg r -> uimm_ok 5 0 r /\ (r =? 0) = false.
Proof. intros [H0 H1]. split; [apply is_reg_uimm; split; lia|]. apply Z.eqb_neq. lia. Qed.

(** What [c_ok] says of each operand, for [operand_bits]. *)
Ltac operands := repeat match goal with
  | H : 0 < _ < 64 |- _ => apply shamt_uimm in H
  | H : _ /\ _ |- _ => destruct H
  | H : reg' _ |- _ => apply reg'_uimm in H
  | H : nzreg _ |- _ => apply nzreg_uimm in H
  | H : is_reg _ |- _ => apply is_reg_uimm in H
  | H : in_s _ _ |- _ => apply in_s_simm in H
  | H : _ <> 0 |- _ => apply Z.eqb_neq in H
  end.

Ltac start w := unfold rvc_agrees; cbn [c_ok c_enc c_inst]; intros; operands;
  match goal with |- context [rvc_factory _ ?e _] => set (w := e) end.

Lemma uimm_wrap w k v : uimm_ok w k v -> w <= 32 -> wrap 32 v = v.
Proof.
  intros [[H0 H1] _] Hw. apply wrap_small. split; [done|]. eapply Z.lt_le_trans; [exact H1|].
  by apply Z.pow_le_mono_r.
Qed.

(** The decoded instruction has the unsigned immediate, and the tests on operands are decided. *)
Ltac finish :=
  change SP with 2; repeat match goal with
  | H : uimm_ok _ _ ?i |- context [wrap 32 ?i] => rewrite (uimm_wrap _ _ i H) by lia
  | H : (_ =? _) = false |- _ => rewrite H; clear H
  end; reflexivity.

(** ** Quadrant 0 *)

Lemma agrees_q0 v d a i :
  (c_ok (C_ADDI4SPN d i) -> rvc_agrees v (C_ADDI4SPN d i)) /\
  (c_ok (C_LW d a i) -> rvc_agrees v (C_LW d a i)) /\ (c_ok (C_LD d a i) -> rvc_agrees v (C_LD d a i)) /\
  (c_ok (C_SW a d i) -> rvc_agrees v (C_SW a d i)) /\ (c_ok (C_SD a d i) -> rvc_agrees v (C_SD a d i)).
Proof.
  split_and!.
  - start w. quadrant w 0 0. extract w (x w 2 3 0) d.
    extract w (Z.lor (Z.lor (Z.lor (x w 6 1 2) (x w 5 1 3)) (x w 11 2 4)) (x w 7 4 6)) i. run_rvc w. finish.
  - start w. quadrant w 0 2. extract w (x w 7 3 0) a. extract w (x w 2 3 0) d. extract w (sw_uimmediate w) i.
    run_rvc w. finish.
  - start w. quadrant w 0 3. extract w (x w 7 3 0) a. extract w (x w 2 3 0) d. extract w (fld_uimmediate w) i.
    run_rvc w. finish.
  - start w. quadrant w 0 6. extract w (x w 7 3 0) a. extract w (x w 2 3 0) d. extract w (sw_uimmediate w) i.
    run_rvc w. finish.
  - start w. quadrant w 0 7. extract w (x w 7 3 0) a. extract w (x w 2 3 0) d. extract w (fld_uimmediate w) i.
    run_rvc w. finish.
Qed.

(** ** Quadrant 1 *)

Lemma agrees_immediate v d i :
  rvc_agrees v C_NOP /\
  (c_ok (C_ADDI d i) -> rvc_agrees v (C_ADDI d i)) /\ (c_ok (C_ADDIW d i) -> rvc_agrees v (C_ADDIW d i)) /\
  (c_ok (C_LI d i) -> rvc_agrees v (C_LI d i)).
Proof.
  split_and!; [reflexivity|..].
  - start w. quadrant w 1 0. extract w (rd w) d. extract w (immediate w) i. run_rvc w. finish.
  - start w. quadrant w 1 1. extract w (rd w) d. extract w (immediate w) i. run_rvc w. finish.
  - start w. quadrant w 1 2. extract w (rd w) d. extract w (immediate w) i. run_rvc w. finish.
Qed.

Lemma agrees_jump v a i :
  (c_ok (C_J i) -> rvc_agrees v (C_J i)) /\
  (c_ok (C_BEQZ a i) -> rvc_agrees v (C_BEQZ a i)) /\ (c_ok (C_BNEZ a i) -> rvc_agrees v (C_BNEZ a i)).
Proof.
  split_and!.
  - start w. quadrant w 1 5. extract w (j_immediate w) i. run_rvc w. finish.
  - start w. quadrant w 1 6. extract w (x w 7 3 0) a. extract w (b_immediate w) i. run_rvc w. finish.
  - start w. quadrant w 1 7. extract w (x w 7 3 0) a. extract w (b_immediate w) i. run_rvc w. finish.
Qed.

(** An upper immediate is a shifted 6-bit one. *)
Lemma upper_immediate i : simm_ok 18 12 i -> exists k, simm_ok 6 0 k /\ i = Z.shiftl k 12.
Proof.
  intros [[H1 H2] Hz]. change (2 ^ (18 - 1)) with (4096 * 32) in *. unfold wrap in Hz. change (2 ^ 12) with 4096 in Hz.
  exists (i / 4096). split; [apply in_s_simm|].
  - split; change (2 ^ (6 - 1)) with 32; dlia.
  - rewrite Z.shiftl_mul_pow2 by lia. change (2 ^ 12) with 4096. dlia.
Qed.

Lemma agrees_lui v d i : c_ok (C_LUI d i) -> rvc_agrees v (C_LUI d i).
Proof.
  intros (Hd & H2 & Hi & H0). destruct (upper_immediate i Hi) as (k & Hk & ->).
  assert (Hs : ishl32 k 12 = Z.shiftl k 12).
  { unfold ishl32. change (12 mod 32) with 12. destruct Hi as [Hi _]. apply sign_small; [lia|].
    eapply in_s_le, Hi. lia. }
  start w. apply Z.eqb_neq in H2.
  assert (Hf : forall n m p, 12 <= n -> field (Z.shiftl k 12) n m p = field k (n - 12) m p)
    by (intros; unfold field; by rewrite Z.shiftr_shiftl_r by lia).
  unfold w in *. rewrite !Hf in * by lia. clear w Hf. start w.
  quadrant w 1 3. extract w (rd w) d. extract w (immediate w) k. run_rvc w. rewrite Hs. finish.
Qed.

(** The bits of a word whose six-bit immediate is zero. *)
Lemma immediate_zero b : immediate b = 0 ->
  forall m, (2 <= m <= 6 \/ m = 12) -> Z.testbit b m = false.
Proof.
  intros E m Hm. set (j := if m =? 12 then 5 else m - 2).
  assert (Hb : Z.testbit (immediate b) j = false) by (rewrite E; apply Z.testbit_0_l).
  unfold immediate in Hb. assert (Hj : 0 <= j <= 5) by (unfold j; case_bool; lia).
  rewrite sign32_bit, Z.lor_spec, x_bit, xs_bit in Hb by lia.
  revert Hb. pos_cases; unfold j; case_bool; try lia; intros Hb; rewrite <- Hb; f_equal; lia.
Qed.

Lemma shifted_zero b : ishl32 (immediate b) 12 = 0 -> immediate b = 0.
Proof.
  pose proof (immediate_range b) as [H1 H2]. change (2 ^ (6 - 1)) with 32 in *.
  unfold ishl32. change (12 mod 32) with 12. rewrite Z.shiftl_mul_pow2 by lia. change (2 ^ 12) with 4096.
  rewrite sign_small; [lia|lia|split; change (2 ^ (32 - 1)) with 2147483648; lia].
Qed.

Definition sp_immediate (b : Z) : Z :=
  sign 32 (Z.lor (Z.lor (Z.lor (Z.lor (x b 6 1 4) (x b 2 1 5)) (x b 5 1 6)) (x b 3 2 7)) (xs b 12 1 9)).

Lemma sp_immediate_zero b : immediate b = 0 -> sp_immediate b = 0.
Proof.
  intros E. apply Z.bits_inj'. intros j Hj. rewrite Z.testbit_0_l. unfold sp_immediate.
  rewrite sign32_bit, !Z.lor_spec, !x_bit, xs_bit by lia.
  pos_cases; rewrite ?(immediate_zero b E) by lia; done.
Qed.

Lemma agrees_addi16sp v i : c_ok (C_ADDI16SP i) -> rvc_agrees v (C_ADDI16SP i).
Proof.
  start w. quadrant w 1 3. extract w (rd w) (place 2 5 0).
  assert (Ei : sp_immediate w = i) by (subst w; unfold sp_immediate; operand_bits).
  assert (Hn : (ishl32 (immediate w) 12 =? 0) = false).
  { apply Z.eqb_neq. intros Hz%shifted_zero%sp_immediate_zero. rewrite Ei in Hz. by rewrite Hz in H0. }
  unfold sp_immediate in Ei. run_rvc w. rewrite Hn. finish.
Qed.

(** *** The ALU group *)

(** Bits 12 to 10 of the word are those of [h], bits 6 and 5 those of [l]. *)
Ltac alu w d b h l :=
  start w; quadrant w 1 4; extract w (x w 7 3 0) d; extract w (x w 2 3 0) b;
  extract w (x w 10 3 10) h; extract w (x w 5 2 5) l; run_rvc w; finish.

Lemma agrees_alu v d b :
  (c_ok (C_SUB d b) -> rvc_agrees v (C_SUB d b)) /\ (c_ok (C_XOR d b) -> rvc_agrees v (C_XOR d b)) /\
  (c_ok (C_OR d b) -> rvc_agrees v (C_OR d b)) /\ (c_ok (C_AND d b) -> rvc_agrees v (C_AND d b)) /\
  (c_ok (C_SUBW d b) -> rvc_agrees v (C_SUBW d b)) /\ (c_ok (C_ADDW d b) -> rvc_agrees v (C_ADDW d b)).
Proof.
  split_and!.
  - alu w d b (Z.lor (place 0 1 12) (place 3 2 10)) (place 0 2 5).
  - alu w d b (Z.lor (place 0 1 12) (place 3 2 10)) (place 1 2 5).
  - alu w d b (Z.lor (place 0 1 12) (place 3 2 10)) (place 2 2 5).
  - alu w d b (Z.lor (place 0 1 12) (place 3 2 10)) (place 3 2 5).
  - alu w d b (Z.lor (place 1 1 12) (place 3 2 10)) (place 0 2 5).
  - alu w d b (Z.lor (place 1 1 12) (place 3 2 10)) (place 1 2 5).
Qed.

(** Numbers with different bits are different. *)
Lemma bit_neq n a b : Z.testbit a n <> Z.testbit b n -> (a =? b) = false.
Proof. intros H. apply Z.eqb_neq. by intros ->. Qed.

(** The shifts whose amount is zero, which the factory treats apart. *)
Lemma shamt_zero b c : c = 0 \/ c = 0x400 -> Z.land b 0x1c60 = c -> Z.land b 0x1c = 0 -> uimmediate b = 0.
Proof.
  intros Hc E1 E2.
  assert (H1 : forall m, (5 <= m <= 6 \/ m = 12) -> Z.testbit b m = false).
  { intros m Hm. assert (Hb : Z.testbit (Z.land b 0x1c60) m = false)
      by (rewrite E1; destruct Hc as [-> | ->]; [apply Z.testbit_0_l|]; assert (m = 5 \/ m = 6 \/ m = 12) as [-> | [-> | ->]] by lia; reflexivity).
    rewrite Z.land_spec in Hb. assert (Hx : Z.testbit 0x1c60 m = true)
      by (assert (m = 5 \/ m = 6 \/ m = 12) as [-> | [-> | ->]] by lia; reflexivity).
    by rewrite Hx, andb_true_r in Hb. }
  assert (H2 : forall m, 2 <= m <= 4 -> Z.testbit b m = false).
  { intros m Hm. assert (Hb : Z.testbit (Z.land b 0x1c) m = false) by (rewrite E2; apply Z.testbit_0_l).
    rewrite Z.land_spec in Hb. assert (Hx : Z.testbit 0x1c m = true)
      by (assert (m = 2 \/ m = 3 \/ m = 4) as [-> | [-> | ->]] by lia; reflexivity).
    by rewrite Hx, andb_true_r in Hb. }
  apply Z.bits_inj'. intros j Hj. rewrite Z.testbit_0_l. unfold uimmediate. rewrite Z.lor_spec, !x_bit by lia.
  pos_cases; try done; destruct (Z.ltb_spec j 3); rewrite ?H1, ?H2 by lia; done.
Qed.

(** Unless bits 10 and 11 are both set, the factory takes the last branch of the group. *)
Lemma alu_shift m b : Z.testbit b 10 && Z.testbit b 11 = false ->
  (Z.testbit b 11 = true \/ uimmediate b <> 0) ->
  rvc_alu true m b =
  let rd := compact_register_number b 7 in
  let uimm := uimmediate b in
  let g := Z.land b 0x0c00 in
  if (g =? 0x0000) && (uimm =? 0) then None
  else if g =? 0x0000 then Some (Itype_new_u OP_SRLI rd rd (Z.land uimm m))
  else if (g =? 0x0400) && (uimm =? 0) then None
  else if g =? 0x0400 then Some (Itype_new_u OP_SRAI rd rd (Z.land uimm m))
  else if g =? 0x0800 then Some (Itype_new_s OP_ANDI rd rd (immediate b))
  else None.
Proof.
  intros Hb Hz. unfold rvc_alu. cbv zeta.
  assert (N : forall c, Z.testbit c 10 = true -> Z.testbit c 11 = true -> (Z.land b 0x1c60 =? c) = false).
  { intros c H10 H11. apply andb_false_iff in Hb as [E|E]; [apply (bit_neq 10)|apply (bit_neq 11)];
      rewrite Z.land_spec, E, ?H10, ?H11; done. }
  rewrite (N 0x0c00), (N 0x0c20), (N 0x0c40), (N 0x0c60), (N 0x1c00), (N 0x1c20), (N 0x1c40), (N 0x1c60) by reflexivity.
  cbn [andb].
  assert (Z0 : forall c, c = 0 \/ c = 0x400 -> (Z.land b 0x1c60 =? c) && (Z.land b 0x1c =? 0) = false).
  { intros c Hc. apply andb_false_iff. destruct Hz as [H11|Hu].
    - left. apply (bit_neq 11). rewrite Z.land_spec, H11. by destruct Hc as [-> | ->].
    - destruct (Z.eqb_spec (Z.land b 0x1c60) c) as [E1|]; [|by left]. right. apply Z.eqb_neq. intros E2.
      by apply Hu, (shamt_zero b c). }
  by rewrite !Z0 by auto.
Qed.

Lemma shamt_land_63 s : uimm_ok 6 0 s -> Z.land s 63 = s.
Proof. intros [Hs _]. change 63 with (2 ^ 6 - 1). rewrite land_ones_wrap by lia. by apply wrap_small. Qed.

(** Bits 10 and 11 are those of [g]. *)
Ltac shift w d g :=
  quadrant w 1 4; extract w (x w 7 3 0) d; extract w (x w 10 2 10) (place g 2 10);
  assert (Hbits : Z.testbit w 10 = Z.testbit g 0 /\ Z.testbit w 11 = Z.testbit g 1)
    by (subst w; unfold cword, field; cbn [foldr]; rewrite !Z.lor_spec, !place_bit by lia; done);
  destruct Hbits as [H10 H11].

Ltac run_shift w :=
  clearbody w; unfold rvc_factory, rvc_quadrant1; change (BITS u64_register =? 64) with true;
  rewrite alu_shift by (repeat match goal with E : Z.testbit w _ = _ |- _ => rewrite E; clear E end;
    first [reflexivity | by left | right; apply Z.eqb_neq; congruence]);
  cbv zeta; unfold compact_register_number, Itype_new_s; rewrite ?mask_f, ?mask_quadrant, ?mask_g;
  repeat match goal with E : _ w = _ |- _ => rewrite E; clear E
                       | E : x w _ _ _ = _ |- _ => rewrite E; clear E end.

Lemma agrees_shift v d s :
  (c_ok (C_SRLI d s) -> rvc_agrees v (C_SRLI d s)) /\ (c_ok (C_SRAI d s) -> rvc_agrees v (C_SRAI d s)) /\
  (c_ok (C_ANDI d s) -> rvc_agrees v (C_ANDI d s)).
Proof.
  split_and!; start w.
  - shift w d 0. extract w (uimmediate w) s. run_shift w.
    change (SHIFT_MASK u64_register) with 63. rewrite (shamt_land_63 s) by done. finish.
  - shift w d 1. extract w (uimmediate w) s. run_shift w.
    change (SHIFT_MASK u64_register) with 63. rewrite (shamt_land_63 s) by done. finish.
  - shift w d 2. extract w (immediate w) s. run_shift w. finish.
Qed.

(** ** Quadrant 2 *)

Lemma agrees_q2 v d b i :
  (c_ok (C_SLLI d i) -> rvc_agrees v (C_SLLI d i)) /\
  (c_ok (C_LWSP d i) -> rvc_agrees v (C_LWSP d i)) /\ (c_ok (C_LDSP d i) -> rvc_agrees v (C_LDSP d i)) /\
  (c_ok (C_SWSP b i) -> rvc_agrees v (C_SWSP b i)) /\ (c_ok (C_SDSP b i) -> rvc_agrees v (C_SDSP b i)).
Proof.
  split_and!; start w.
  - quadrant w 2 0. extract w (uimmediate w) i. extract w (rd w) d. run_rvc w.
    change (SHIFT_MASK u64_register) with 63. rewrite (shamt_land_63 i) by done. finish.
  - quadrant w 2 2. extract w (lwsp_uimmediate w) i. extract w (rd w) d. run_rvc w. finish.
  - quadrant w 2 3. extract w (fldsp_uimmediate w) i. extract w (rd w) d. run_rvc w. finish.
  - quadrant w 2 6. extract w (swsp_uimmediate w) i. extract w (c_rs2 w) b. run_rvc w. finish.
  - quadrant w 2 7. extract w (fsdsp_uimmediate w) i. extract w (c_rs2 w) b. run_rvc w. finish.
Qed.

Lemma agrees_jr_mv_add v d b :
  rvc_agrees v C_EBREAK /\
  (c_ok (C_JR d) -> rvc_agrees v (C_JR d)) /\ (c_ok (C_JALR d) -> rvc_agrees v (C_JALR d)) /\
  (c_ok (C_MV d b) -> rvc_agrees v (C_MV d b)) /\ (c_ok (C_ADD d b) -> rvc_agrees v (C_ADD d b)).
Proof.
  split_and!; [reflexivity|start w; quadrant w 2 4; extract w (rd w) d..].
  - extract w (x w 12 1 12) (place 0 1 12). extract w (c_rs2 w) (place 0 5 0). run_rvc w. finish.
  - extract w (x w 12 1 12) (place 1 1 12). extract w (c_rs2 w) (place 0 5 0). run_rvc w. finish.
  - extract w (x w 12 1 12) (place 0 1 12). extract w (c_rs2 w) b. run_rvc w. finish.
  - extract w (x w 12 1 12) (place 1 1 12). extract w (c_rs2 w) b. run_rvc w. finish.
Qed.

#[local] Opaque rvc_agrees c_ok.

Lemma rvc_decodes v c : c_ok c -> rvc_agrees v c.
Proof.
  destruct c as [d i|d a i|d a i|a b i|a b i| |d i|d i|d i|i|d i|d s|d s|d i|d b|d b|d b|d b|d b|d b|i|a i|a i
    |d s|d i|d i|a|d b| |a|d b|b i|b i].
  1: apply (agrees_q0 v d 0 i). 1-2: apply (agrees_q0 v d a i). 1-2: apply (agrees_q0 v b a i).
  1: intros _; exact (proj1 (agrees_immediate v 0 0)). 1-3: apply (agrees_immediate v d i).
  1: apply agrees_addi16sp. 1: apply agrees_lui. 1-2: apply (agrees_shift v d s). 1: apply (agrees_shift v d i).
  1-6: apply (agrees_alu v d b). 1: apply (agrees_jump v 0 i). 1-2: apply (agrees_jump v a i).
  1: apply (agrees_q2 v d 0 s). 1-2: apply (agrees_q2 v d 0 i). 1: apply (agrees_jr_mv_add v a 0).
  1: apply (agrees_jr_mv_add v d b). 1: intros _; exact (proj1 (agrees_jr_mv_add v 0 0)).
  1: apply (agrees_jr_mv_add v a 0). 1: apply (agrees_jr_mv_add v d b). 1-2: apply (agrees_q2 v 0 b i).
Qed.
#[local] Transparent rvc_agrees c_ok.

(** * The expansions *)

Definition expansion_agrees (v : Z) (c : cinst) : Prop :=
  i_factory u64_register (c_expand c) v = Some (set_instruction_length_4 (c_inst v c)).

(** A row of a table of [FactoriesFacts]. *)
Lemma row_R v d a b opc f3 f7 op : In (opc, f3, f7, op) rv64_R -> is_reg d -> is_reg a -> is_reg b ->
  i_factory u64_register (enc_R opc f3 f7 d a b) v = Some (set_instruction_length_4 (Rtype_new op d a b)).
Proof. intros Hr Hd Ha Hb. exact (proj1 (List.Forall_forall _ _) (decode_R v d a b Hd Ha Hb) (opc, f3, f7, op) Hr). Qed.

Lemma row_I v d a imm opc f3 op : In (opc, f3, op) rv64_I -> is_reg d -> is_reg a -> in_s 12 imm ->
  i_factory u64_register (enc_I opc f3 d a imm) v = Some (set_instruction_length_4 (Itype_new_s (op v) d a imm)).
Proof. intros Hr Hd Ha Hi. exact (proj1 (List.Forall_forall _ _) (decode_I v d a Hd Ha imm Hi) (opc, f3, op) Hr). Qed.

Lemma row_shift v d a s f3 f6 op : In (f3, f6, op) rv64_shift -> is_reg d -> is_reg a -> 0 <= s < 64 ->
  i_factory u64_register (enc_I 0x13 f3 d a (s + 64 * f6)) v = Some (set_instruction_length_4 (Itype_new_s op d a s)).
Proof. intros Hr Hd Ha Hi. exact (proj1 (List.Forall_forall _ _) (decode_shift v d a Hd Ha s Hi) (f3, f6, op) Hr). Qed.

Lemma row_S v a b imm f3 op : In (f3, op) rv64_S -> is_reg a -> is_reg b -> in_s 12 imm ->
  i_factory u64_register (enc_S 0x23 f3 a b imm) v = Some (set_instruction_length_4 (Stype_new_s op imm a b)).
Proof. intros Hr Ha Hb Hi. exact (proj1 (List.Forall_forall _ _) (decode_S v a b Ha Hb imm Hi) (f3, op) Hr). Qed.

Lemma row_B v a b imm f3 op : In (f3, op) rv64_B -> is_reg a -> is_reg b -> in_s 13 imm -> Z.testbit imm 0 = false ->
  i_factory u64_register (enc_B 0x63 f3 a b imm) v = Some (set_instruction_length_4 (Stype_new_s op imm a b)).
Proof. intros Hr Ha Hb Hi He. exact (proj1 (List.Forall_forall _ _) (decode_B v a b Ha Hb imm Hi He) (f3, op) Hr). Qed.

Lemma row_U v d imm opc op : In (opc, op) rv64_U -> is_reg d -> in_s 32 imm -> wrap 12 imm = 0 ->
  i_factory u64_register (enc_U opc d imm) v = Some (set_instruction_length_4 (Utype_new_s op d imm)).
Proof. intros Hr Hd Hi Hz. exact (proj1 (List.Forall_forall _ _) (decode_U v d Hd imm Hi Hz) (opc, op) Hr). Qed.

Lemma reg'_ok r : reg' r -> is_reg (r + 8).
Proof. intros []. split; lia. Qed.
Lemma nzreg_ok r : nzreg r -> is_reg r.
Proof. intros []. split; lia. Qed.
Lemma uimm_in_s w k v : uimm_ok w k v -> w < 12 -> in_s 12 v.
Proof.
  intros [[H0 H1] _] Hw. pose proof (Z.pow_le_mono_r 2 w 11 ltac:(lia) ltac:(lia)).
  split; change (2 ^ (12 - 1)) with 2048 in *; change (2 ^ 11) with 2048 in *; lia.
Qed.
Lemma simm_in_s w k v n : simm_ok w k v -> 0 < w <= n -> in_s n v.
Proof. intros [Hs _] Hw. by apply (in_s_le w). Qed.
Lemma simm_even w k v : simm_ok w k v -> 0 < k -> Z.testbit v 0 = false.
Proof.
  intros [_ Hz] Hk. assert (E : Z.testbit (wrap k v) 0 = false) by (rewrite Hz; apply Z.testbit_0_l).
  rewrite testbit_wrap in E by lia. by rewrite (proj2 (Z.ltb_lt 0 k)) in E by lia.
Qed.

Lemma simm_wrap w k v : simm_ok w k v -> wrap k v = 0.
Proof. by intros [_ ?]. Qed.

(** The premises of the rows. *)
Ltac premise := first
  [ by apply reg'_ok | by apply nzreg_ok | assumption | by split | lia
  | eapply uimm_in_s; [eassumption|lia] | eapply simm_in_s; [eassumption|lia]
  | eapply in_s_le; [|eassumption]; lia | eapply simm_even; [eassumption|lia] | eapply simm_wrap; eassumption
  | repeat first [left; reflexivity | right] ].

Lemma rvc_expansions v c : c_ok c -> expansion_agrees v c.
Proof.
  destruct c; cbn [c_ok]; unfold expansion_agrees; cbn [c_expand c_inst]; intros Hc;
    repeat match goal with H : _ /\ _ |- _ => destruct H end.
  - apply (row_I v _ _ _ 0x13 0 (fun _ => OP_ADDI)); premise.
  - apply (row_I v _ _ _ 0x03 2 utils_lw); premise.
  - apply (row_I v _ _ _ 0x03 3 utils_ld); premise.
  - apply row_S; premise.
  - apply row_S; premise.
  - apply (row_I v _ _ _ 0x13 0 (fun _ => OP_ADDI)); premise.
  - apply (row_I v _ _ _ 0x13 0 (fun _ => OP_ADDI)); premise.
  - apply (row_I v _ _ _ 0x1b 0 (fun _ => OP_ADDIW)); premise.
  - apply (row_I v _ _ _ 0x13 0 (fun _ => OP_ADDI)); premise.
  - apply (row_I v _ _ _ 0x13 0 (fun _ => OP_ADDI)); premise.
  - apply row_U; premise.
  - apply (row_shift v _ _ _ 5 0x00 OP_SRLI); premise.
  - apply (row_shift v _ _ _ 5 0x10 OP_SRAI); premise.
  - apply (row_I v _ _ _ 0x13 7 (fun _ => OP_ANDI)); premise.
  - apply row_R; premise.
  - apply row_R; premise.
  - apply row_R; premise.
  - apply row_R; premise.
  - apply row_R; premise.
  - apply row_R; premise.
  - apply decode_J; premise.
  - apply row_B; premise.
  - apply row_B; premise.
  - apply (row_shift v _ _ _ 1 0x00 OP_SLLI); premise.
  - apply (row_I v _ _ _ 0x03 2 utils_lw); premise.
  - apply (row_I v _ _ _ 0x03 3 utils_ld); premise.
  - apply (row_I v _ _ _ 0x67 0 utils_jalr); premise.
  - apply row_R; premise.
  - reflexivity.
  - apply (row_I v _ _ _ 0x67 0 utils_jalr); premise.
  - apply row_R; premise.
  - apply row_S; premise.
  - apply row_S; premise.
Qed.
