(* ===== verification/RvcSpec.v ===== *)
(** Compressed instructions, continued: whatever 16-bit word the factory of
    src/src/instructions/rvc.rs accepts is the encoding of an instruction of RvcFacts.v, or a
    hint it decodes to a nop ([rvc_accepts]), and the theorem that puts this together with the
    decoding of the encodings and of their expansions. *)
From S2P Require Import Prelude Outcome Register Insts InstsFacts Factories FactoriesFacts RvcFacts.
From stdpp Require Import base list numbers.
From Stdlib Require Import Btauto.
Open Scope Z_scope.

(** * What the factory accepts *)

Lemma foldr_lor a l : foldr Z.lor a l = Z.lor a (foldr Z.lor 0 l).
Proof.
  induction l as [|e l IH]; cbn [foldr]; [by rewrite Z.lor_0_r|].
  rewrite IH, !Z.lor_assoc. f_equal. apply Z.lor_comm.
Qed.

(** A halfword is the word of its quadrant, function field and bits 2 to 12. *)
Lemma cword_of b q f fields : in_u 16 b -> Z.land b 0xe003 = Z.lor (place q 2 0) (place f 3 13) ->
  (forall j, 0 <= j -> Z.testbit (foldr Z.lor 0 fields) j = (2 <=? j) && (j <? 13) && Z.testbit b j) ->
  b = cword q f fields.
Proof.
  intros Hb Hf Hj. unfold cword. rewrite <- Hf, foldr_lor.
  apply Z.bits_inj'. intros j ?. rewrite Z.lor_spec, Hj, mask_f, Z.lor_spec, !x_bit by lia.
  pos_cases; try (f_equal; lia); try reflexivity; try by (rewrite (testbit_high 16 b j) by (done || lia)).
Qed.

Lemma x_nonneg b lo len sh : 0 <= x b lo len sh.
Proof. apply Z.mod_pos_bound. done. Qed.

Ltac nonneg := repeat (apply Z.lor_nonneg; split); apply x_nonneg.

(** The bits of an extractor that are always zero. *)
Ltac range_bits := intros j ?; try lia; rewrite ?Z.lor_spec, ?x_bit by lia; pos_cases; reflexivity.

Lemma uimm_intro w k v : 0 <= k <= w -> 0 <= v ->
  (forall j, w <= j -> Z.testbit v j = false) -> (forall j, 0 <= j < k -> Z.testbit v j = false) -> uimm_ok w k v.
Proof.
  intros Hk Hv Hh Hl. split; [by apply in_u_bits; [lia|..]|].
  apply Z.bits_inj'. intros j Hj. rewrite testbit_wrap, Z.testbit_0_l by lia.
  destruct (Z.ltb_spec j k); [|done]. cbn. apply Hl. lia.
Qed.

Ltac uimm := apply uimm_intro; [lia|nonneg|range_bits|range_bits].

Lemma compact_ok b k : k = 2 \/ k = 7 -> reg' (x b k 3 0).
Proof. intros [-> | ->]; apply (x_range b _ 3); lia. Qed.

Lemma field_bit b lo len v : 0 <= lo -> 0 < len -> lo + len <= 31 -> x b lo len 0 = v ->
  forall j, lo <= j < lo + len -> Z.testbit b j = Z.testbit v (j - lo).
Proof.
  intros ??? <- j Hj. rewrite x_bit by lia. pos_cases. f_equal. lia.
Qed.

Lemma placed_bit b lo len v : 0 <= lo -> 0 < len -> lo + len <= 31 -> x b lo len lo = place v len lo ->
  forall j, lo <= j < lo + len -> Z.testbit b j = Z.testbit v (j - lo).
Proof.
  intros ??? E j Hj. assert (H2 : Z.testbit (x b lo len lo) j = Z.testbit (place v len lo) j) by by rewrite E.
  rewrite x_bit, place_bit in H2 by lia. revert H2. pos_cases. intros <-. f_equal. lia.
Qed.

Lemma alu_bit b h g l : Z.land b 0x1c60 = Z.lor (Z.lor (place h 1 12) (place g 2 10)) (place l 2 5) ->
  forall j, 5 <= j < 7 \/ 10 <= j < 13 ->
    Z.testbit b j = Z.testbit (if j <? 7 then l else if j <? 12 then g else h)
                              (j - if j <? 7 then 5 else if j <? 12 then 10 else 12).
Proof.
  rewrite mask_alu. intros E j Hj.
  assert (H2 : Z.testbit (Z.lor (x b 10 3 10) (x b 5 2 5)) j =
    Z.testbit (Z.lor (Z.lor (place h 1 12) (place g 2 10)) (place l 2 5)) j) by by rewrite E.
  rewrite !Z.lor_spec, !x_bit, !place_bit in H2 by lia. revert H2.
  destruct Hj; pos_cases; try lia; intros H2; rewrite <- H2; f_equal; lia.
Qed.

(** Bits 2 to 12 of the encoding are those of [b]. *)
Ltac back_bits :=
  intros j ?; cbn [foldr]; unfold field, rd, c_rs2, immediate, uimmediate, j_immediate, fld_uimmediate, sw_uimmediate,
    lwsp_uimmediate, fldsp_uimmediate, fsdsp_uimmediate, swsp_uimmediate, b_immediate, sp_immediate;
  rewrite ?Z.lor_spec, ?place_bit by lia; pos_cases;
  repeat (rewrite Z.shiftr_spec by lia); imm_bits; pos_cases;
  rewrite ?Z.testbit_0_l, ?orb_false_r; try reflexivity; try (f_equal; lia);
  match goal with H : forall j, _ -> Z.testbit ?b j = _ |- _ = Z.testbit ?b _ => rewrite H by lia end;
  pos_cases; rewrite ?Z.testbit_0_l; try reflexivity; try (f_equal; lia).

Definition accepted (b : Z) : Prop := exists c, c_ok c /\ b = c_enc c.

Ltac accept b c := exists c; split; [|cbn [c_enc]; apply cword_of; [done|done|back_bits]].

Ltac tests := repeat match goal with
  | H : (_ =? _) = true |- _ => apply Z.eqb_eq in H
  | H : (_ =? _) = false |- _ => apply Z.eqb_neq in H
  | H : negb _ = true |- _ => apply negb_true_iff in H
  | H : negb _ = false |- _ => apply negb_false_iff in H
  | H : _ && _ = true |- _ => apply andb_true_iff in H as [??]
  end.

(** The cases in which the factory returns an instruction. *)
Ltac cases := repeat (case_match; try done); tests; intros E.

(** ** Quadrant 0 *)

Lemma q0_back b v i : in_u 16 b -> rvc_quadrant0 false b v (Z.land b 0xe003) = Some i -> accepted b.
Proof.
  intros Hb. unfold rvc_quadrant0. cases.
  - accept b (C_ADDI4SPN (x b 2 3 0) (Z.lor (Z.lor (Z.lor (x b 6 1 2) (x b 5 1 3)) (x b 11 2 4)) (x b 7 4 6))).
    split_and!; [apply compact_ok; auto| |done]. uimm.
  - accept b (C_LW (x b 2 3 0) (x b 7 3 0) (sw_uimmediate b)).
    split_and!; [apply compact_ok; auto..|unfold sw_uimmediate; uimm].
  - accept b (C_LD (x b 2 3 0) (x b 7 3 0) (fld_uimmediate b)).
    split_and!; [apply compact_ok; auto..|unfold fld_uimmediate; uimm].
  - accept b (C_SW (x b 7 3 0) (x b 2 3 0) (sw_uimmediate b)).
    split_and!; [apply compact_ok; auto..|unfold sw_uimmediate; uimm].
  - accept b (C_SD (x b 7 3 0) (x b 2 3 0) (fld_uimmediate b)).
    split_and!; [apply compact_ok; auto..|unfold fld_uimmediate; uimm].
Qed.

(** ** Quadrant 1 *)

Lemma rd_ok b : is_reg (rd b).
Proof. apply (x_range b 7 5); lia. Qed.
Lemma rd_nz b : rd b <> 0 -> nzreg (rd b).
Proof. pose proof (rd_ok b) as []. intros ?. split; lia. Qed.
Lemma rs2_ok b : is_reg (c_rs2 b).
Proof. apply (x_range b 2 5); lia. Qed.
Lemma rs2_nz b : c_rs2 b <> 0 -> nzreg (c_rs2 b).
Proof. pose proof (rs2_ok b) as []. intros ?. split; lia. Qed.

Lemma simm_intro w k v : 0 <= k < w -> in_s w v -> (forall j, 0 <= j < k -> Z.testbit v j = false) -> simm_ok w k v.
Proof.
  intros Hk Hv Hl. split; [done|]. apply Z.bits_inj'. intros j Hj. rewrite testbit_wrap, Z.testbit_0_l by lia.
  destruct (Z.ltb_spec j k); [|done]. cbn. apply Hl. lia.
Qed.

Ltac low_bits := intros j ?; imm_bits; pos_cases; reflexivity.

Lemma j_immediate_ok b : simm_ok 12 1 (j_immediate b).
Proof. unfold j_immediate. apply simm_intro; [lia|imm_range|low_bits]. Qed.
Lemma b_immediate_ok b : simm_ok 9 1 (b_immediate b).
Proof. apply simm_intro; [lia|apply b_immediate_range|unfold b_immediate; low_bits]. Qed.
Lemma sp_immediate_ok b : simm_ok 10 4 (sp_immediate b).
Proof. unfold sp_immediate. apply simm_intro; [lia|imm_range|low_bits]. Qed.

(** The stack-pointer immediate permutes the bits of the six-bit one. *)
Lemma immediate_from_sp b : sp_immediate b = 0 -> immediate b = 0.
Proof.
  intros E. assert (Hz : forall m, (2 <= m <= 6 \/ m = 12) -> Z.testbit b m = false).
  { intros m Hm.
    set (j := if m =? 12 then 9 else if m =? 2 then 5 else if m =? 5 then 6 else if m =? 6 then 4 else m + 4).
    assert (Hj : Z.testbit (sp_immediate b) j = false) by (rewrite E; apply Z.testbit_0_l).
    unfold sp_immediate in Hj. assert (4 <= j <= 9) by (unfold j; repeat case_bool; lia).
    rewrite sign32_bit, !Z.lor_spec, !x_bit, xs_bit in Hj by lia.
    assert (m = 2 \/ m = 3 \/ m = 4 \/ m = 5 \/ m = 6 \/ m = 12) as [-> | [-> | [-> | [-> | [-> | ->]]]]] by lia;
      unfold j in Hj; cbn in Hj; by rewrite ?orb_false_r in Hj. }
  apply Z.bits_inj'. intros j Hj. rewrite Z.testbit_0_l. unfold immediate.
  rewrite sign32_bit, !Z.lor_spec, !x_bit, xs_bit by lia.
  pos_cases; rewrite ?Hz by lia; done.
Qed.

Lemma shifted_immediate b : ishl32 (immediate b) 12 = Z.shiftl (immediate b) 12.
Proof.
  pose proof (immediate_range b) as [H1 H2]. change (2 ^ (6 - 1)) with 32 in *.
  unfold ishl32. change (12 mod 32) with 12. rewrite Z.shiftl_mul_pow2 by lia. change (2 ^ 12) with 4096.
  apply sign_small; [lia|]. split; change (2 ^ (32 - 1)) with 2147483648; lia.
Qed.

Lemma lui_ok b : simm_ok 18 12 (ishl32 (immediate b) 12).
Proof.
  rewrite shifted_immediate. pose proof (immediate_range b) as [H1 H2]. change (2 ^ (6 - 1)) with 32 in *.
  rewrite Z.shiftl_mul_pow2 by lia.
  split; [split; change (2 ^ (18 - 1)) with 131072; change (2 ^ 12) with 4096; lia|].
  apply Z.mod_mul. done.
Qed.

Lemma lui_back b : in_u 16 b -> Z.land b 0xe003 = 0x6001 -> ishl32 (immediate b) 12 <> 0 -> rd b <> 0 -> accepted b.
Proof.
  intros Hb Hf Hn Hd. destruct (decide (rd b = 2)) as [E2|N2].
  - pose proof (field_bit b 7 5 2 ltac:(lia) ltac:(lia) ltac:(lia) E2) as Hr.
    accept b (C_ADDI16SP (sp_immediate b)).
    split; [apply sp_immediate_ok|]. intros E. apply Hn. rewrite (immediate_from_sp b E). done.
  - exists (C_LUI (rd b) (ishl32 (immediate b) 12)). split.
    { split_and!; [by apply rd_nz|done|apply lui_ok|done]. }
    cbn [c_enc]. rewrite shifted_immediate. unfold field. rewrite !Z.shiftr_shiftl_r by lia.
    apply cword_of; [done|done|back_bits].
Qed.

(** The word is an instruction, or a hint decoded as a nop. *)
Definition hint_or (b : Z) (i : Instruction) : Prop := i = nop \/ accepted b.

Lemma uimmediate_ok b : uimm_ok 6 0 (uimmediate b).
Proof. unfold uimmediate. uimm. Qed.
Lemma uimmediate_shamt b : uimmediate b <> 0 -> 0 < uimmediate b < 64.
Proof. pose proof (uimmediate_ok b) as [[H0 H1] _]. change (2 ^ 6) with 64 in *. lia. Qed.

(** An instruction of the ALU group that is not a shift. *)
Ltac accept_alu b c h g l := right;
  match goal with E : Z.land b 0x1c60 = _ |- _ => pose proof (alu_bit b h g l E) as Hm end;
  accept b c; split_and!; apply compact_ok; auto.

(** Bits 10 and 11 are [g]. *)
Lemma g_bit b g : Z.land b 0x0c00 = place g 2 10 -> forall j, 10 <= j < 12 -> Z.testbit b j = Z.testbit g (j - 10).
Proof. rewrite mask_g. intros E. by apply (placed_bit b 10 2 g). Qed.

Ltac accept_shift b c g := right;
  match goal with E : Z.land b 0x0c00 = _ |- _ => pose proof (g_bit b g E) as Hm end;
  accept b c; split; [apply compact_ok; auto|auto using uimmediate_shamt, immediate_range].

Lemma alu_back b i : in_u 16 b -> Z.land b 0xe003 = 0x8001 -> rvc_alu true 63 b = Some i -> hint_or b i.
Proof.
  intros Hb Hf. unfold rvc_alu. cases.
  - left. congruence.
  - left. congruence.
  - accept_alu b (C_SUB (x b 7 3 0) (x b 2 3 0)) 0 3 0.
  - accept_alu b (C_XOR (x b 7 3 0) (x b 2 3 0)) 0 3 1.
  - accept_alu b (C_OR (x b 7 3 0) (x b 2 3 0)) 0 3 2.
  - accept_alu b (C_AND (x b 7 3 0) (x b 2 3 0)) 0 3 3.
  - accept_alu b (C_SUBW (x b 7 3 0) (x b 2 3 0)) 1 3 0.
  - accept_alu b (C_ADDW (x b 7 3 0) (x b 2 3 0)) 1 3 1.
  - cbn [andb] in *. tests. accept_shift b (C_SRLI (x b 7 3 0) (uimmediate b)) 0.
  - cbn [andb] in *. tests. accept_shift b (C_SRAI (x b 7 3 0) (uimmediate b)) 1.
  - accept_shift b (C_ANDI (x b 7 3 0) (immediate b)) 2.
Qed.

Lemma q1_back b v i : in_u 16 b -> rvc_quadrant1 false true 63 b v (Z.land b 0xe003) = Some i -> hint_or b i.
Proof.
  intros Hb. unfold rvc_quadrant1. cases;
    try (left; congruence); try (right; by apply lui_back); try by eapply alu_back.
  - right. accept b (C_ADDI (rd b) (immediate b)). split_and!; [by apply rd_nz|apply immediate_range|done].
  - right. accept b (C_ADDIW (rd b) (immediate b)). split; [by apply rd_nz|apply immediate_range].
  - right. accept b (C_LI (rd b) (immediate b)). split; [by apply rd_nz|apply immediate_range].
  - right. apply lui_back; try done. change SP with 2 in *. lia.
  - right. accept b (C_J (j_immediate b)). apply j_immediate_ok.
  - right. accept b (C_BEQZ (x b 7 3 0) (b_immediate b)). split; [apply compact_ok; auto|apply b_immediate_ok].
  - right. accept b (C_BNEZ (x b 7 3 0) (b_immediate b)). split; [apply compact_ok; auto|apply b_immediate_ok].
Qed.

(** ** Quadrant 2 *)

Lemma bit12 b n : Z.land b 0x1000 = place n 1 12 -> forall j, 12 <= j < 13 -> Z.testbit b j = Z.testbit n (j - 12).
Proof. rewrite mask_12. intros E. by apply (placed_bit b 12 1 n). Qed.

Lemma bit12_set b : Z.land b 0x1000 <> 0 -> forall j, 12 <= j < 13 -> Z.testbit b j = Z.testbit 1 (j - 12).
Proof.
  rewrite mask_12. intros Hn j Hj. replace j with 12 by lia. destruct (Z.testbit b 12) eqn:E; [done|].
  destruct Hn. apply Z.bits_inj'. intros k Hk. rewrite x_bit, Z.testbit_0_l by lia.
  pos_cases; try done. rewrite <- E. f_equal. lia.
Qed.

Lemma rs2_bit b n : c_rs2 b = n -> forall j, 2 <= j < 7 -> Z.testbit b j = Z.testbit n (j - 2).
Proof. intros E. by apply (field_bit b 2 5 n). Qed.

Lemma rd_bit b n : rd b = n -> forall j, 7 <= j < 12 -> Z.testbit b j = Z.testbit n (j - 7).
Proof. intros E. by apply (field_bit b 7 5 n). Qed.

Lemma low_zero b : rd b = 0 -> c_rs2 b = 0 -> forall j, 2 <= j < 12 -> Z.testbit b j = Z.testbit 0 (j - 2).
Proof.
  intros Hd H2 j Hj. rewrite Z.testbit_0_l. destruct (Z.ltb_spec j 7).
  - rewrite (rs2_bit b 0 H2) by lia. apply Z.testbit_0_l.
  - rewrite (rd_bit b 0 Hd) by lia. apply Z.testbit_0_l.
Qed.

Lemma jr_mv_add_back b v i : in_u 16 b -> Z.land b 0xe003 = 0x8002 -> rvc_jr_mv_add b v = Some i -> hint_or b i.
Proof.
  intros Hb Hf. unfold rvc_jr_mv_add. cases; try (left; congruence); right.
  - pose proof (bit12 b 0 H). pose proof (rs2_bit b 0 H0). accept b (C_JR (rd b)). by apply rd_nz.
  - pose proof (bit12 b 0 H). accept b (C_MV (rd b) (c_rs2 b)). split; [by apply rd_nz|by apply rs2_nz].
  - pose proof (bit12_set b H). pose proof (low_zero b H0 H1). accept b C_EBREAK. done.
  - pose proof (bit12_set b H). pose proof (rs2_bit b 0 H1). accept b (C_JALR (rd b)).
    apply rd_nz. intros Hz. rewrite Hz in H0. done.
  - pose proof (bit12_set b H). accept b (C_ADD (rd b) (c_rs2 b)). split; [by apply rd_nz|by apply rs2_nz].
Qed.

Lemma q2_back b v i : in_u 16 b -> rvc_quadrant2 false 63 b v (Z.land b 0xe003) = Some i -> hint_or b i.
Proof.
  intros Hb. unfold rvc_quadrant2. cases; try (left; congruence); try (by eapply jr_mv_add_back); right.
  - accept b (C_SLLI (rd b) (uimmediate b)). split; [by apply rd_nz|by apply uimmediate_shamt].
  - accept b (C_LWSP (rd b) (lwsp_uimmediate b)). split; [by apply rd_nz|unfold lwsp_uimmediate; uimm].
  - accept b (C_LDSP (rd b) (fldsp_uimmediate b)). split; [by apply rd_nz|unfold fldsp_uimmediate; uimm].
  - accept b (C_SWSP (c_rs2 b) (swsp_uimmediate b)). split; [apply rs2_ok|unfold swsp_uimmediate; uimm].
  - accept b (C_SDSP (c_rs2 b) (fsdsp_uimmediate b)). split; [apply rs2_ok|unfold fsdsp_uimmediate; uimm].
Qed.

(** ** The factory *)

Lemma rvc_accepts v b i : in_u 16 b -> rvc_factory u64_register b v = Some i ->
  i = set_instruction_length_2 nop \/ accepted b.
Proof.
  intros Hb. unfold rvc_factory. change (BITS u64_register) with 64. change (SHIFT_MASK u64_register) with 63.
  cbn [negb Z.eqb andb Pos.eqb]. intros (i' & Hi & ->)%fmap_Some.
  assert (hint_or b i') as [-> | ?]; [|by left|by right].
  revert Hi. repeat case_match; intros Hi; try done;
    [right; by eapply q0_back|by eapply q1_back|by eapply q2_back].
Qed.

(** * The theorem *)

(** C27: compressed instructions are abbreviations.  For every RV64C instruction but the
    floating-point ones, with every valid choice of registers and immediate, the factory of
    rvc.rs decodes its 16-bit encoding to the packed instruction - opcode, registers and
    immediate - that the base factory decodes its 32-bit expansion to, with length 2 instead
    of 4.  Conversely a 16-bit word that the factory accepts is the encoding of one of these
    instructions, unless it is decoded to the nop (a hint): reserved encodings, the
    floating-point ones and invalid operands are refused. *)
Theorem rvc_expansion (v : Z) :
  (forall c, c_ok c ->
    exists i, i_factory u64_register (c_expand c) v = Some (set_instruction_length_4 i) /\
              rvc_factory u64_register (c_enc c) v = Some (set_instruction_length_2 i)) /\
  (forall b i, in_u 16 b -> rvc_factory u64_register b v = Some i ->
    i = set_instruction_length_2 nop \/ exists c, c_ok c /\ b = c_enc c).
Proof.
  split; [|intros; by eapply rvc_accepts].
  intros c Hc. exists (c_inst v c). split; [by apply rvc_expansions|by apply rvc_decodes].
Qed.

Lemma rvc_expansion_witness :
  (c_enc (C_ADDI16SP (-64)) = 0x7139 /\ c_expand (C_ADDI16SP (-64)) = 0xfc010113 /\
   exists i, i_factory u64_register 0xfc010113 2 = Some (set_instruction_length_4 i) /\
             rvc_factory u64_register 0x7139 2 = Some (set_instruction_length_2 i)) /\
  (rvc_factory u64_register 0x4505 2 = Some (set_instruction_length_2 (Itype_new_s OP_ADDI 10 0 1)) /\
   (Itype_new_s OP_ADDI 10 0 1 = nop \/ exists c, c_ok c /\ 0x4505 = c_enc c)).
Proof.
  split; split; [reflexivity| |reflexivity|].
  - split; [reflexivity|]. apply (proj1 (rvc_expansion 2) (C_ADDI16SP (-64))). repeat split; vm_compute; congruence.
  - destruct (proj2 (rvc_expansion 2) 0x4505 (set_instruction_length_2 (Itype_new_s OP_ADDI 10 0 1))) as [E|E];
      [by vm_compute|reflexivity| |by right].
    vm_compute in E. discriminate E.
Defined.
