(* ===== verification/Memory.v ===== *)
(** The memory interface (src/src/memory/mod.rs) and its three implementations:
    [FlatMemory] (flat.rs), [SparseMemory] (sparse.rs) and the permission layer
    [WXorXMemory] (wxorx.rs).

    A [Vec<u8>] is a list of byte values; an out-of-range index is [Panic]. *)
From S2P Require Import Prelude Outcome Bits Register Insts.
From stdpp Require Import base list numbers.
Open Scope Z_scope.

Definition round_page_down (x : Z) : Z := rounddown x RISCV_PAGESIZE.
Definition round_page_up (x : Z) : Z := roundup x RISCV_PAGESIZE.

(** * The trait *)

Class Memory (R : Register) (M : Type) := {
  mem_new : Z -> outcome M;
  init_pages : Z -> Z -> Z -> option (list Z) -> Z -> ST M unit;
  fetch_flag : Z -> ST M Z;
  set_flag : Z -> Z -> ST M unit;
  clear_flag : Z -> Z -> ST M unit;
  memory_size : M -> Z;
  store_byte : Z -> Z -> Z -> ST M unit;
  store_bytes : Z -> list Z -> ST M unit;
  load_bytes : Z -> Z -> ST M (list Z);
  execute_load16 : Z -> ST M Z;
  execute_load32 : Z -> ST M Z;
  load8 : reg R -> ST M (reg R);
  load16 : reg R -> ST M (reg R);
  load32 : reg R -> ST M (reg R);
  load64 : reg R -> ST M (reg R);
  store8 : reg R -> reg R -> ST M unit;
  store16 : reg R -> reg R -> ST M unit;
  store32 : reg R -> reg R -> ST M unit;
  store64 : reg R -> reg R -> ST M unit;
  lr : M -> reg R;
  set_lr : reg R -> ST M unit;
}.

Definition memory_pages {R M} `{Memory R M} (m : M) : Z :=
  wshr 64 (memory_size m) RISCV_PAGE_SHIFTS.

(** * The free functions of mod.rs

    They are generic in the memory; each takes the trait methods it calls. *)

Section free_functions.
Context {M : Type}.

(** [size - written_size] does not wrap: [written_size] is at most [size]. *)
Definition fill_page_data
  (store_byte : Z -> Z -> Z -> ST M unit) (store_bytes : Z -> list Z -> ST M unit)
  (addr size : Z) (source : option (list Z)) (offset_from_addr : Z) : ST M unit :=
  written_size ←
    (if 0 <? offset_from_addr then
       let real_size := Z.min size offset_from_addr in
       store_byte addr real_size 0;; mret real_size
     else mret 0);
  written_size ←
    match source with
    | Some source =>
        let real_size := Z.min (wsub 64 size written_size) (Z.of_nat (length source)) in
        if 0 <? real_size then
          store_bytes (wadd 64 addr written_size) (take (Z.to_nat real_size) source);;
          mret (wadd 64 written_size real_size)
        else mret written_size
    | None => mret written_size
    end;
  if written_size <? size then
    store_byte (wadd 64 addr written_size) (wsub 64 size written_size) 0
  else mret tt.

Definition check_no_overflow (addr size memory_size : Z) : ST M unit :=
  if memory_size <=? addr then fail (MemOutOfBound addr Memory_)
  else
    let '(addr_end, overflowed) := woverflowing_add 64 addr size in
    if overflowed || (memory_size <? addr_end)
    then fail (MemOutOfBound addr_end Memory_)
    else mret tt.

Definition get_page_indices (addr size : Z) : Z * Z :=
  let addr_end := wadd 64 addr size in
  let page := wshr 64 addr RISCV_PAGE_SHIFTS in
  let page_end := wshr 64 (wsub 64 addr_end 1) RISCV_PAGE_SHIFTS in
  (page, page_end).

(** [for page in start..=end] *)
Definition for_pages (page_indices : Z * Z) (f : Z -> ST M unit) : ST M unit :=
  for_range (Z.to_nat (page_indices.2 - page_indices.1 + 1)) page_indices.1 f.

Definition check_permission (fetch_flag : Z -> ST M Z) (page_indices : Z * Z) (flag : Z)
  : ST M unit :=
  for_pages page_indices (fun page =>
    page_flag ← fetch_flag page;
    if negb (Z.land page_flag FLAG_WXORX_BIT =? Z.land flag FLAG_WXORX_BIT)
    then fail (MemWriteOnExecutablePage page) else mret tt).

Definition set_dirty (set_flag : Z -> Z -> ST M unit) (page_indices : Z * Z) : ST M unit :=
  for_pages page_indices (fun page => set_flag page FLAG_DIRTY).
End free_functions.

(** The loop of [load_c_string_byte_by_byte]; [None] when the fuel runs out. *)
Fixpoint load_c_string_loop {R M} `{Memory R M} (fuel : nat) (addr : reg R)
  (buffer : list Z) (m : M) : option (outcome (list Z) * M) :=
  match fuel with
  | O => None
  | S fuel' =>
      match load8 addr m with
      | (Ok v, m') =>
          let byte := to_u8 v in
          if byte =? 0 then Some (Ok buffer, m')
          else load_c_string_loop fuel' (overflowing_add addr (from_u8 1))
                                  (buffer ++ [byte]) m'
      | (Err e, m') => Some (Err e, m')
      | (Panic, m') => Some (Panic, m')
      end
  end.

Definition load_c_string_byte_by_byte {R M} `{Memory R M} (fuel : nat) (addr : reg R) (m : M)
  : option (outcome (list Z) * M) := load_c_string_loop fuel addr [] m.

(** * FlatMemory *)

Record FlatMemory (R : Register) := {
  flat_data : list Z;
  flat_flags : list Z;
  flat_memory_size : Z;
  flat_riscv_pages : Z;
  flat_load_reservation_address : reg R;
}.
Arguments flat_data {R} _. Arguments flat_flags {R} _. Arguments flat_memory_size {R} _.
Arguments flat_riscv_pages {R} _. Arguments flat_load_reservation_address {R} _.

Section flat.
Context {R : Register}.
Local Abbreviation FM := (FlatMemory R).

Definition flat_set_data (d : list Z) (m : FM) : FM :=
  {| flat_data := d; flat_flags := flat_flags m; flat_memory_size := flat_memory_size m;
     flat_riscv_pages := flat_riscv_pages m;
     flat_load_reservation_address := flat_load_reservation_address m |}.
Definition flat_set_flags (f : list Z) (m : FM) : FM :=
  {| flat_data := flat_data m; flat_flags := f; flat_memory_size := flat_memory_size m;
     flat_riscv_pages := flat_riscv_pages m;
     flat_load_reservation_address := flat_load_reservation_address m |}.

Definition flat_new (memory_size : Z) : outcome FM :=
  if negb (memory_size mod RISCV_PAGESIZE =? 0) then Panic
  else Ok {| flat_data := replicate (Z.to_nat memory_size) 0;
             flat_flags := replicate (Z.to_nat (memory_size / RISCV_PAGESIZE)) 0;
             flat_memory_size := memory_size;
             flat_riscv_pages := memory_size / RISCV_PAGESIZE;
             flat_load_reservation_address := from_u64 U64_MAX |}.

Definition page_out_of_bound {A} (page : Z) : ST FM A :=
  fail (MemOutOfBound (wshl 64 page RISCV_PAGE_SHIFTS) Memory_).

Definition flat_fetch_flag (page : Z) : ST FM Z := fun m =>
  if page <? flat_riscv_pages m then unwrap (flat_flags m !! Z.to_nat page) m
  else page_out_of_bound page m.

(** [self.flags[page] = f(self.flags[page])] in range *)
Definition flat_update_flag (f : Z -> Z) (page : Z) : ST FM unit := fun m =>
  if page <? flat_riscv_pages m then
    (v ← unwrap (flat_flags m !! Z.to_nat page);
     modify (fun m => flat_set_flags (<[Z.to_nat page := f v]> (flat_flags m)) m)) m
  else page_out_of_bound page m.

Definition flat_set_flag (page flag : Z) : ST FM unit :=
  flat_update_flag (fun v => Z.lor v flag) page.
Definition flat_clear_flag (page flag : Z) : ST FM unit :=
  flat_update_flag (fun v => Z.land v (wnot 8 flag)) page.

(** [data[addr..addr+n]] and [data[addr..addr+n].copy_from_slice(bytes)] *)
Definition flat_read (addr n : Z) : ST FM (list Z) := fun m =>
  unwrap (slice_get (flat_data m) addr n) m.
Definition flat_write (addr : Z) (bytes : list Z) : ST FM unit := fun m =>
  (d ← unwrap (slice_set (flat_data m) addr bytes); modify (flat_set_data d)) m.

Definition flat_check (addr size : Z) : ST FM unit := fun m =>
  check_no_overflow addr size (flat_memory_size m) m.

Definition flat_load8 (addr : reg R) : ST FM (reg R) :=
  let addr := to_u64 addr in
  flat_check addr 1;; bs ← flat_read addr 1; mret (from_u8 (le_to_Z bs)).
Definition flat_load16 (addr : reg R) : ST FM (reg R) :=
  let addr := to_u64 addr in
  flat_check addr 2;; bs ← flat_read addr 2; mret (from_u16 (le_to_Z bs)).
Definition flat_load32 (addr : reg R) : ST FM (reg R) :=
  let addr := to_u64 addr in
  flat_check addr 4;; bs ← flat_read addr 4; mret (from_u32 (le_to_Z bs)).
Definition flat_load64 (addr : reg R) : ST FM (reg R) :=
  let addr := to_u64 addr in
  flat_check addr 8;; bs ← flat_read addr 8; mret (from_u64 (le_to_Z bs)).

Definition flat_execute_load16 (addr : Z) : ST FM Z :=
  v ← flat_load16 (from_u64 addr); mret (to_u16 v).
Definition flat_execute_load32 (addr : Z) : ST FM Z :=
  v ← flat_load32 (from_u64 addr); mret (to_u32 v).

Definition flat_store8 (addr value : reg R) : ST FM unit :=
  let addr := to_u64 addr in
  flat_check addr 1;; set_dirty flat_set_flag (get_page_indices addr 1);;
  flat_write addr [to_u8 value].
Definition flat_store16 (addr value : reg R) : ST FM unit :=
  let addr := to_u64 addr in
  flat_check addr 2;; set_dirty flat_set_flag (get_page_indices addr 2);;
  flat_write addr (Z_to_le 2 (to_u16 value)).
Definition flat_store32 (addr value : reg R) : ST FM unit :=
  let addr := to_u64 addr in
  flat_check addr 4;; set_dirty flat_set_flag (get_page_indices addr 4);;
  flat_write addr (Z_to_le 4 (to_u32 value)).
Definition flat_store64 (addr value : reg R) : ST FM unit :=
  let addr := to_u64 addr in
  flat_check addr 8;; set_dirty flat_set_flag (get_page_indices addr 8);;
  flat_write addr (Z_to_le 8 (to_u64 value)).

Definition flat_store_bytes (addr : Z) (value : list Z) : ST FM unit :=
  let size := Z.of_nat (length value) in
  if size =? 0 then mret tt
  else
    flat_check addr size;; set_dirty flat_set_flag (get_page_indices addr size);;
    flat_write addr value.

Definition flat_store_byte (addr size value : Z) : ST FM unit :=
  if size =? 0 then mret tt
  else
    flat_check addr size;; set_dirty flat_set_flag (get_page_indices addr size);;
    flat_write addr (replicate (Z.to_nat size) value).

Definition flat_load_bytes (addr size : Z) : ST FM (list Z) :=
  if size =? 0 then mret []
  else flat_check addr size;; flat_read addr size.

Definition flat_init_pages (addr size flags : Z) (source : option (list Z))
  (offset_from_addr : Z) : ST FM unit :=
  fill_page_data flat_store_byte flat_store_bytes addr size source offset_from_addr.

Definition flat_set_lr (value : reg R) : ST FM unit :=
  modify (fun m =>
    {| flat_data := flat_data m; flat_flags := flat_flags m;
       flat_memory_size := flat_memory_size m; flat_riscv_pages := flat_riscv_pages m;
       flat_load_reservation_address := value |}).
End flat.

#[export] Instance flat_memory (R : Register) : Memory R (FlatMemory R) := {
  mem_new := flat_new; init_pages := flat_init_pages;
  fetch_flag := flat_fetch_flag; set_flag := flat_set_flag; clear_flag := flat_clear_flag;
  memory_size := flat_memory_size;
  store_byte := flat_store_byte; store_bytes := flat_store_bytes;
  load_bytes := flat_load_bytes;
  execute_load16 := flat_execute_load16; execute_load32 := flat_execute_load32;
  load8 := flat_load8; load16 := flat_load16; load32 := flat_load32; load64 := flat_load64;
  store8 := flat_store8; store16 := flat_store16; store32 := flat_store32;
  store64 := flat_store64;
  lr := flat_load_reservation_address; set_lr := flat_set_lr }.

(** * SparseMemory *)

Definition INVALID_PAGE_INDEX : Z := 0xffff.

Record SparseMemory (R : Register) := {
  sp_indices : list Z;
  sp_pages : list (list Z);
  sp_flags : list Z;
  sp_memory_size : Z;
  sp_riscv_pages : Z;
  sp_load_reservation_address : reg R;
}.
Arguments sp_indices {R} _. Arguments sp_pages {R} _. Arguments sp_flags {R} _.
Arguments sp_memory_size {R} _. Arguments sp_riscv_pages {R} _.
Arguments sp_load_reservation_address {R} _.

Section sparse.
Context {R : Register}.
Local Abbreviation SM := (SparseMemory R).

Definition sp_set_indices (i : list Z) (m : SM) : SM :=
  {| sp_indices := i; sp_pages := sp_pages m; sp_flags := sp_flags m;
     sp_memory_size := sp_memory_size m; sp_riscv_pages := sp_riscv_pages m;
     sp_load_reservation_address := sp_load_reservation_address m |}.
Definition sp_set_pages (p : list (list Z)) (m : SM) : SM :=
  {| sp_indices := sp_indices m; sp_pages := p; sp_flags := sp_flags m;
     sp_memory_size := sp_memory_size m; sp_riscv_pages := sp_riscv_pages m;
     sp_load_reservation_address := sp_load_reservation_address m |}.
Definition sp_set_flags (f : list Z) (m : SM) : SM :=
  {| sp_indices := sp_indices m; sp_pages := sp_pages m; sp_flags := f;
     sp_memory_size := sp_memory_size m; sp_riscv_pages := sp_riscv_pages m;
     sp_load_reservation_address := sp_load_reservation_address m |}.

Definition sp_new (memory_size : Z) : outcome SM :=
  if negb (memory_size mod RISCV_PAGESIZE =? 0) then Panic
  else Ok {| sp_indices := replicate (Z.to_nat (memory_size / RISCV_PAGESIZE))
                                     INVALID_PAGE_INDEX;
             sp_pages := [];
             sp_flags := replicate (Z.to_nat (memory_size / RISCV_PAGESIZE)) 0;
             sp_memory_size := memory_size;
             sp_riscv_pages := memory_size / RISCV_PAGESIZE;
             sp_load_reservation_address := from_u64 U64_MAX |}.

(** [fetch_page]: allocates the page on first use.  The [&mut Page] it returns is
    the index of the page in [pages]. *)
Definition sp_fetch_page (aligned_addr : Z) : ST SM nat := fun m =>
  let page := aligned_addr / RISCV_PAGESIZE in
  if sp_riscv_pages m <=? page then fail (MemOutOfBound aligned_addr Memory_) m
  else
    (index ← unwrap (sp_indices m !! Z.to_nat page);
     if index =? INVALID_PAGE_INDEX then
       modify (fun m => sp_set_pages
         (sp_pages m ++ [replicate (Z.to_nat RISCV_PAGESIZE) 0]) m);;
       index ← gets (fun m => wrap 16 (Z.of_nat (length (sp_pages m)) - 1));
       modify (fun m => sp_set_indices (<[Z.to_nat page := index]> (sp_indices m)) m);;
       gets sp_pages ≫= (fun ps => _ ← unwrap (ps !! Z.to_nat index); mret (Z.to_nat index))
     else
       gets sp_pages ≫= (fun ps => _ ← unwrap (ps !! Z.to_nat index); mret (Z.to_nat index))) m.

(** The page at an index [fetch_page] returned. *)
Definition sp_page (index : nat) : ST SM (list Z) := fun m => unwrap (sp_pages m !! index) m.

(** [for &byte in .. { value |= u64::from(byte) << shift; shift += 8; }] *)
Definition sp_accumulate (bytes : list Z) (acc : Z * Z) : Z * Z :=
  foldl (fun '(value, shift) byte => (Z.lor value (wshl 64 byte shift), shift + 8)) acc bytes.

Definition sp_load (addr bytes : Z) : ST SM Z :=
  let page_addr := round_page_down addr in
  let first_page_bytes := Z.min bytes (RISCV_PAGESIZE - (addr - page_addr)) in
  index ← sp_fetch_page page_addr;
  page ← sp_page index;
  let '(value, shift) :=
    sp_accumulate (take (Z.to_nat first_page_bytes)
                        (drop (Z.to_nat (addr - page_addr)) page)) (0, 0) in
  let second_page_bytes := bytes - first_page_bytes in
  if 0 <? second_page_bytes then
    index ← sp_fetch_page (wadd 64 page_addr RISCV_PAGESIZE);
    second_page ← sp_page index;
    mret (sp_accumulate (take (Z.to_nat second_page_bytes) second_page) (value, shift)).1
  else mret value.

Definition sp_page_out_of_bound {A} (page : Z) : ST SM A :=
  fail (MemOutOfBound (wshl 64 page RISCV_PAGE_SHIFTS) Memory_).

Definition sp_fetch_flag (page : Z) : ST SM Z := fun m =>
  if page <? sp_riscv_pages m then unwrap (sp_flags m !! Z.to_nat page) m
  else sp_page_out_of_bound page m.

Definition sp_update_flag (f : Z -> Z) (page : Z) : ST SM unit := fun m =>
  if page <? sp_riscv_pages m then
    (v ← unwrap (sp_flags m !! Z.to_nat page);
     modify (fun m => sp_set_flags (<[Z.to_nat page := f v]> (sp_flags m)) m)) m
  else sp_page_out_of_bound page m.

Definition sp_set_flag (page flag : Z) : ST SM unit :=
  sp_update_flag (fun v => Z.lor v flag) page.
Definition sp_clear_flag (page flag : Z) : ST SM unit :=
  sp_update_flag (fun v => Z.land v (wnot 8 flag)) page.

Definition sp_load8 (addr : reg R) : ST SM (reg R) :=
  v ← sp_load (to_u64 addr) 1; mret (from_u8 (wrap 8 v)).
Definition sp_load16 (addr : reg R) : ST SM (reg R) :=
  v ← sp_load (to_u64 addr) 2; mret (from_u16 (wrap 16 v)).
Definition sp_load32 (addr : reg R) : ST SM (reg R) :=
  v ← sp_load (to_u64 addr) 4; mret (from_u32 (wrap 32 v)).
Definition sp_load64 (addr : reg R) : ST SM (reg R) :=
  v ← sp_load (to_u64 addr) 8; mret (from_u64 v).
Definition sp_execute_load16 (addr : Z) : ST SM Z := v ← sp_load addr 2; mret (wrap 16 v).
Definition sp_execute_load32 (addr : Z) : ST SM Z := v ← sp_load addr 4; mret (wrap 32 v).

(** [page[offset..offset+bytes].copy_from_slice(..)] on the page at [index] *)
Definition sp_write_page (index : nat) (offset : Z) (bytes : list Z) : ST SM unit :=
  page ← sp_page index;
  page' ← unwrap (slice_set page offset bytes);
  modify (fun m => sp_set_pages (<[index := page']> (sp_pages m)) m).

(** One page per iteration; the fuel is a bound on the number of pages. *)
Fixpoint sp_store_bytes_loop (fuel : nat) (remaining_data : list Z)
  (current_page_addr current_page_offset : Z) : ST SM unit :=
  match fuel with
  | O => mret tt
  | S fuel' =>
      if (length remaining_data =? 0)%nat then mret tt
      else
        index ← sp_fetch_page current_page_addr;
        let bytes := Z.min (RISCV_PAGESIZE - current_page_offset)
                           (Z.of_nat (length remaining_data)) in
        sp_write_page index current_page_offset (take (Z.to_nat bytes) remaining_data);;
        sp_set_flag (wshr 64 current_page_addr RISCV_PAGE_SHIFTS) FLAG_DIRTY;;
        sp_store_bytes_loop fuel' (drop (Z.to_nat bytes) remaining_data)
                            (wadd 64 current_page_addr RISCV_PAGESIZE) 0
  end.

Definition sp_store_bytes (addr : Z) (value : list Z) : ST SM unit :=
  let current_page_addr := round_page_down addr in
  sp_store_bytes_loop (length value / Z.to_nat RISCV_PAGESIZE + 2) value
                      current_page_addr (addr - current_page_addr).

Fixpoint sp_store_byte_loop (fuel : nat) (remaining_size value : Z)
  (current_page_addr current_page_offset : Z) : ST SM unit :=
  match fuel with
  | O => mret tt
  | S fuel' =>
      if 0 <? remaining_size then
        index ← sp_fetch_page current_page_addr;
        let bytes := Z.min (RISCV_PAGESIZE - current_page_offset) remaining_size in
        sp_write_page index current_page_offset (replicate (Z.to_nat bytes) value);;
        sp_set_flag (wshr 64 current_page_addr RISCV_PAGE_SHIFTS) FLAG_DIRTY;;
        sp_store_byte_loop fuel' (remaining_size - bytes) value
                           (wadd 64 current_page_addr RISCV_PAGESIZE) 0
      else mret tt
  end.

Definition sp_store_byte (addr size value : Z) : ST SM unit :=
  let current_page_addr := round_page_down addr in
  sp_store_byte_loop (Z.to_nat (size / RISCV_PAGESIZE + 2)) size value
                     current_page_addr (addr - current_page_addr).

Fixpoint sp_load_bytes_loop (fuel : nat) (need_read_len : Z) (out_value : list Z)
  (current_page_addr current_page_offset : Z) : ST SM (list Z) :=
  match fuel with
  | O => mret out_value
  | S fuel' =>
      if negb (need_read_len =? 0) then
        index ← sp_fetch_page current_page_addr;
        page ← sp_page index;
        let bytes := Z.min (RISCV_PAGESIZE - current_page_offset) need_read_len in
        chunk ← unwrap (slice_get page current_page_offset bytes);
        sp_load_bytes_loop fuel' (need_read_len - bytes) (out_value ++ chunk)
                           (wadd 64 current_page_addr RISCV_PAGESIZE) 0
      else mret out_value
  end.

Definition sp_load_bytes (addr size : Z) : ST SM (list Z) :=
  if size =? 0 then mret []
  else
    (fun m => check_no_overflow addr size (sp_memory_size m) m);;
    let current_page_addr := round_page_down addr in
    sp_load_bytes_loop (Z.to_nat (size / RISCV_PAGESIZE + 2)) size []
                       current_page_addr (addr - current_page_addr).

Definition sp_store8 (addr value : reg R) : ST SM unit :=
  sp_store_bytes (to_u64 addr) [to_u8 value].
Definition sp_store16 (addr value : reg R) : ST SM unit :=
  let value := to_u16 value in
  sp_store_bytes (to_u64 addr) [wrap 8 (Z.land value 0xff); wrap 8 (wshr 16 value 8)].
Definition sp_store32 (addr value : reg R) : ST SM unit :=
  let value := to_u32 value in
  sp_store_bytes (to_u64 addr)
    [wrap 8 (Z.land value 0xff); wrap 8 (Z.land (wshr 32 value 8) 0xff);
     wrap 8 (Z.land (wshr 32 value 16) 0xff); wrap 8 (Z.land (wshr 32 value 24) 0xff)].
Definition sp_store64 (addr value : reg R) : ST SM unit :=
  let value := to_u64 value in
  sp_store_bytes (to_u64 addr)
    [wrap 8 (Z.land value 0xff); wrap 8 (Z.land (wshr 64 value 8) 0xff);
     wrap 8 (Z.land (wshr 64 value 16) 0xff); wrap 8 (Z.land (wshr 64 value 24) 0xff);
     wrap 8 (Z.land (wshr 64 value 32) 0xff); wrap 8 (Z.land (wshr 64 value 40) 0xff);
     wrap 8 (Z.land (wshr 64 value 48) 0xff); wrap 8 (Z.land (wshr 64 value 56) 0xff)].

Definition sp_init_pages (addr size flags : Z) (source : option (list Z))
  (offset_from_addr : Z) : ST SM unit :=
  fill_page_data sp_store_byte sp_store_bytes addr size source offset_from_addr.

Definition sp_set_lr (value : reg R) : ST SM unit :=
  modify (fun m =>
    {| sp_indices := sp_indices m; sp_pages := sp_pages m; sp_flags := sp_flags m;
       sp_memory_size := sp_memory_size m; sp_riscv_pages := sp_riscv_pages m;
       sp_load_reservation_address := value |}).
End sparse.

#[export] Instance sparse_memory (R : Register) : Memory R (SparseMemory R) := {
  mem_new := sp_new; init_pages := sp_init_pages;
  fetch_flag := sp_fetch_flag; set_flag := sp_set_flag; clear_flag := sp_clear_flag;
  memory_size := sp_memory_size;
  store_byte := sp_store_byte; store_bytes := sp_store_bytes; load_bytes := sp_load_bytes;
  execute_load16 := sp_execute_load16; execute_load32 := sp_execute_load32;
  load8 := sp_load8; load16 := sp_load16; load32 := sp_load32; load64 := sp_load64;
  store8 := sp_store8; store16 := sp_store16; store32 := sp_store32; store64 := sp_store64;
  lr := sp_load_reservation_address; set_lr := sp_set_lr }.

(** * WXorXMemory *)

Record WXorXMemory (M : Type) := WXorX { wx_inner : M }.
Arguments WXorX {M} _. Arguments wx_inner {M} _.

Section wxorx.
Context {R : Register} {M : Type} `{Memory R M}.
Local Abbreviation WM := (WXorXMemory M).

(** A call on [self.inner]. *)
Definition wx_lift {A} (m : ST M A) : ST WM A := zoom wx_inner (fun i _ => WXorX i) m.

Definition wx_new (memory_size : Z) : outcome WM :=
  match mem_new memory_size with
  | Ok m => Ok (WXorX m)
  | Err e => Err e
  | Panic => Panic
  end.

Definition wx_fetch_flag (page : Z) : ST WM Z := wx_lift (fetch_flag page).
Definition wx_set_flag (page flag : Z) : ST WM unit := wx_lift (set_flag page flag).
Definition wx_clear_flag (page flag : Z) : ST WM unit := wx_lift (clear_flag page flag).
Definition wx_memory_size (m : WM) : Z := memory_size (wx_inner m).

(** One iteration of the loop of [init_pages]. *)
Definition wx_init_page_flag (page flags : Z) : ST WM unit :=
  page_flag ← wx_fetch_flag page;
  if negb (Z.land page_flag FLAG_FREEZED =? 0) then fail (MemWriteOnFreezedPage page)
  else wx_set_flag page flags.

(** The loop over [(addr..addr + size).step_by(RISCV_PAGESIZE)] *)
Definition wx_init_flags (addr size flags : Z) : ST WM unit :=
  for_range (Z.to_nat ((wadd 64 addr size - addr + RISCV_PAGESIZE - 1) / RISCV_PAGESIZE)) 0
    (fun k =>
       let page_addr := addr + k * RISCV_PAGESIZE in
       wx_init_page_flag (page_addr / RISCV_PAGESIZE) flags).

Definition wx_init_pages (addr size flags : Z) (source : option (list Z))
  (offset_from_addr : Z) : ST WM unit := fun m =>
  (if negb (round_page_down addr =? addr) then fail (MemPageUnalignedAccess addr)
   else if negb (round_page_up size =? size) then
     fail (MemPageUnalignedAccess (wadd 64 addr size))
   else if wx_memory_size m <? addr then fail (MemOutOfBound addr Memory_)
   else if (wx_memory_size m <? size) || (wx_memory_size m <? wadd 64 addr size) then
     fail (MemOutOfBound (wadd 64 addr size) Memory_)
   else if size <? offset_from_addr then fail (MemOutOfBound offset_from_addr ExternalData)
   else
     wx_init_flags addr size flags;;
     wx_lift (init_pages addr size flags source offset_from_addr)) m.

(** The checks before a fetch or a store. *)
Definition wx_check (addr size flag : Z) : ST WM unit :=
  (fun m => check_no_overflow addr size (wx_memory_size m) m);;
  check_permission wx_fetch_flag (get_page_indices addr size) flag.

Definition wx_execute_load16 (addr : Z) : ST WM Z :=
  wx_check addr 2 FLAG_EXECUTABLE;; wx_lift (execute_load16 addr).
Definition wx_execute_load32 (addr : Z) : ST WM Z :=
  wx_check addr 4 FLAG_EXECUTABLE;; wx_lift (execute_load32 addr).

Definition wx_load8 (addr : reg R) : ST WM (reg R) := wx_lift (load8 addr).
Definition wx_load16 (addr : reg R) : ST WM (reg R) := wx_lift (load16 addr).
Definition wx_load32 (addr : reg R) : ST WM (reg R) := wx_lift (load32 addr).
Definition wx_load64 (addr : reg R) : ST WM (reg R) := wx_lift (load64 addr).

Definition wx_store8 (addr value : reg R) : ST WM unit :=
  wx_check (to_u64 addr) 1 FLAG_WRITABLE;; wx_lift (store8 addr value).
Definition wx_store16 (addr value : reg R) : ST WM unit :=
  wx_check (to_u64 addr) 2 FLAG_WRITABLE;; wx_lift (store16 addr value).
Definition wx_store32 (addr value : reg R) : ST WM unit :=
  wx_check (to_u64 addr) 4 FLAG_WRITABLE;; wx_lift (store32 addr value).
Definition wx_store64 (addr value : reg R) : ST WM unit :=
  wx_check (to_u64 addr) 8 FLAG_WRITABLE;; wx_lift (store64 addr value).

Definition wx_store_bytes (addr : Z) (value : list Z) : ST WM unit :=
  if (length value =? 0)%nat then mret tt
  else wx_check addr (Z.of_nat (length value)) FLAG_WRITABLE;;
       wx_lift (store_bytes addr value).

Definition wx_store_byte (addr size value : Z) : ST WM unit :=
  if size =? 0 then mret tt
  else wx_check addr size FLAG_WRITABLE;; wx_lift (store_byte addr size value).

Definition wx_load_bytes (addr size : Z) : ST WM (list Z) := wx_lift (load_bytes addr size).
Definition wx_lr (m : WM) : reg R := lr (wx_inner m).
Definition wx_set_lr (value : reg R) : ST WM unit := wx_lift (set_lr value).
End wxorx.

#[export] Instance wxorx_memory (R : Register) (M : Type) `{Memory R M}
  : Memory R (WXorXMemory M) := {
  mem_new := wx_new; init_pages := wx_init_pages;
  fetch_flag := wx_fetch_flag; set_flag := wx_set_flag; clear_flag := wx_clear_flag;
  memory_size := wx_memory_size;
  store_byte := wx_store_byte; store_bytes := wx_store_bytes; load_bytes := wx_load_bytes;
  execute_load16 := wx_execute_load16; execute_load32 := wx_execute_load32;
  load8 := wx_load8; load16 := wx_load16; load32 := wx_load32; load64 := wx_load64;
  store8 := wx_store8; store16 := wx_store16; store32 := wx_store32; store64 := wx_store64;
  lr := wx_lr; set_lr := wx_set_lr }.
