(* ===== verification/MemoryFacts.v ===== *)
(** Bounds checks, page ranges and flags: what the helpers of
    src/src/memory/mod.rs compute, and the behaviour of [FlatMemory]. *)
From S2P Require Import Prelude Outcome Bits Register RegisterFacts Insts Memory.
From stdpp Require Import base list numbers.
Open Scope Z_scope.

(** * Bounds *)

(** The range [addr, addr + size) lies in a memory of [ms] bytes. *)
Definition in_bounds (addr size ms : Z) : Prop := addr < ms /\ addr + size <= ms.

#[export] Instance in_bounds_dec addr size ms : Decision (in_bounds addr size ms).
Proof. unfold in_bounds. solve_decision. Defined.

Lemma check_no_overflow_ok {M} addr size ms (m : M) :
  in_u 64 addr -> in_u 64 size -> in_u 64 ms -> in_bounds addr size ms ->
  check_no_overflow addr size ms m = (Ok tt, m).
Proof.
  intros [? ?] [? ?] [? ?] [? ?]. unfold check_no_overflow, woverflowing_add, wadd.
  rewrite (proj2 (Z.leb_gt _ _)) by lia. rewrite wrap_small by (split; lia).
  rewrite (proj2 (Z.leb_gt _ _)), (proj2 (Z.ltb_ge _ _)) by lia. done.
Qed.

Lemma check_no_overflow_err {M} addr size ms (m : M) :
  in_u 64 addr -> in_u 64 size -> in_u 64 ms -> ~ in_bounds addr size ms ->
  exists a, check_no_overflow addr size ms m = (Err (MemOutOfBound a Memory_), m).
Proof.
  intros [? ?] [? ?] [? ?] Hn. unfold check_no_overflow, woverflowing_add, wadd, in_bounds in *.
  destruct (Z.leb_spec ms addr); [by eexists|].
  destruct (Z.leb_spec (2 ^ 64) (addr + size)); [by eexists|].
  rewrite wrap_small by (split; lia). destruct (Z.ltb_spec ms (addr + size)); [by eexists|].
  lia.
Qed.

Lemma page_indices_eq addr size ms :
  in_u 64 addr -> 0 < size -> in_u 64 ms -> in_bounds addr size ms ->
  get_page_indices addr size = (addr / 4096, (addr + size - 1) / 4096).
Proof.
  intros [? ?] ? [? ?] [? ?]. unfold get_page_indices, wadd, wsub, wshr.
  change (RISCV_PAGE_SHIFTS mod 64) with 12.
  rewrite !Z.shiftr_div_pow2 by lia. change (2 ^ 12) with 4096.
  rewrite (wrap_small 64 (addr + size)) by (split; lia).
  rewrite wrap_small by (split; lia). done.
Qed.

(** * Page flags *)

(** Flags after marking pages [p0..=p1] with [f]. *)
Definition mark_flags (f : Z -> Z) (p0 p1 : Z) (flags : list Z) : list Z :=
  imap (fun i v => if (p0 <=? Z.of_nat i) && (Z.of_nat i <=? p1) then f v else v) flags.

Lemma mark_flags_length f p0 p1 flags : length (mark_flags f p0 p1 flags) = length flags.
Proof. apply length_imap. Qed.

Lemma mark_flags_lookup f p0 p1 flags i :
  mark_flags f p0 p1 flags !! i =
  (fun v => if (p0 <=? Z.of_nat i) && (Z.of_nat i <=? p1) then f v else v) <$> flags !! i.
Proof. apply list_lookup_imap. Qed.

Lemma mark_flags_empty f p0 p1 flags : p1 < p0 -> mark_flags f p0 p1 flags = flags.
Proof.
  intros. apply list_eq. intros i. rewrite mark_flags_lookup.
  destruct (flags !! i); simpl; [|done]. case_bools; done || lia.
Qed.

(** Marking one page and then the rest of the range. *)
Lemma mark_flags_step f p0 p1 flags v :
  0 <= p0 <= p1 -> flags !! Z.to_nat p0 = Some v ->
  mark_flags f (p0 + 1) p1 (<[Z.to_nat p0 := f v]> flags) = mark_flags f p0 p1 flags.
Proof.
  intros Hp Hv. apply list_eq. intros i. rewrite !mark_flags_lookup.
  destruct (decide (i = Z.to_nat p0)) as [->|Hne].
  - rewrite list_lookup_insert_eq by (by eapply lookup_lt_Some). rewrite Hv. simpl.
    rewrite Z2Nat.id by lia. case_bools; done || lia.
  - rewrite list_lookup_insert_ne by done. destruct (flags !! i); simpl; [|done].
    case_bools; done || lia.
Qed.

Lemma mark_flags_bytes f p0 p1 flags :
  (forall v, is_byte v -> is_byte (f v)) ->
  Forall is_byte flags -> Forall is_byte (mark_flags f p0 p1 flags).
Proof.
  intros Hf Hl. apply Forall_lookup_2. intros i v. rewrite mark_flags_lookup.
  destruct (flags !! i) as [w|] eqn:E; simpl; [|done]. intros [= <-].
  pose proof (Forall_lookup_1 _ _ _ _ Hl E). case_match; auto.
Qed.

(** * FlatMemory *)

Section flat.
Context {R : Register} {HR : RegisterOk R}.
Implicit Types m : FlatMemory R.

Record flat_ok (m : FlatMemory R) : Prop := {
  fo_size : in_u 64 (flat_memory_size m);
  fo_pages : flat_memory_size m = flat_riscv_pages m * 4096;
  fo_data : Z.of_nat (length (flat_data m)) = flat_memory_size m;
  fo_flags : Z.of_nat (length (flat_flags m)) = flat_riscv_pages m;
  fo_bytes : Forall is_byte (flat_data m);
  fo_flag_bytes : Forall is_byte (flat_flags m);
  fo_lr : reg_ok (flat_load_reservation_address m);
}.

(** Writing [bs] at [addr] and marking the pages dirty. *)
Definition flat_put (addr : Z) (bs : list Z) m : FlatMemory R :=
  {| flat_data := take (Z.to_nat addr) (flat_data m) ++ bs ++
                  drop (Z.to_nat addr + length bs) (flat_data m);
     flat_flags := mark_flags (fun v => Z.lor v FLAG_DIRTY) (addr / 4096)
                     ((addr + Z.of_nat (length bs) - 1) / 4096) (flat_flags m);
     flat_memory_size := flat_memory_size m; flat_riscv_pages := flat_riscv_pages m;
     flat_load_reservation_address := flat_load_reservation_address m |}.

(** The bytes at [addr, addr + n). *)
Definition flat_get (addr n : Z) m : list Z :=
  take (Z.to_nat n) (drop (Z.to_nat addr) (flat_data m)).

Lemma flat_update_flag_in f page m v :
  0 <= page < flat_riscv_pages m -> flat_flags m !! Z.to_nat page = Some v ->
  flat_update_flag f page m =
  (Ok tt, flat_set_flags (<[Z.to_nat page := f v]> (flat_flags m)) m).
Proof.
  intros Hp Hv. unfold flat_update_flag. rewrite (proj2 (Z.ltb_lt _ _)) by lia.
  rewrite Hv. done.
Qed.

Lemma flat_flag_lookup m page :
  flat_ok m -> 0 <= page < flat_riscv_pages m -> exists v, flat_flags m !! Z.to_nat page = Some v.
Proof. intros H ?. apply lookup_lt_is_Some. pose proof (fo_flags _ H). lia. Qed.

(** A loop that updates the flags of pages [p0..p0+n). *)
Lemma flat_mark_range f n p0 m :
  flat_ok m -> (forall v, is_byte v -> is_byte (f v)) ->
  0 <= p0 -> p0 + Z.of_nat n <= flat_riscv_pages m ->
  for_range n p0 (flat_update_flag f) m =
  (Ok tt, flat_set_flags (mark_flags f p0 (p0 + Z.of_nat n - 1) (flat_flags m)) m).
Proof.
  intros Hok Hf. revert p0 m Hok. induction n as [|n IH]; intros p0 m Hok H0 Hn.
  - simpl. rewrite mark_flags_empty by lia. by destruct m.
  - cbn [for_range]. destruct (flat_flag_lookup m p0 Hok) as [v Hv]; [lia|].
    erewrite bind_Ok by (apply flat_update_flag_in; [lia|done]).
    rewrite IH; [|split; try apply Hok; simpl|lia|simpl; lia].
    + unfold flat_set_flags. simpl. do 2 f_equal. simpl.
      replace (p0 + 1 + Z.of_nat n - 1) with (p0 + Z.of_nat (S n) - 1) by lia.
      rewrite mark_flags_step by (done || lia). done.
    + rewrite length_insert. apply Hok.
    + apply Forall_insert; [apply Hok|]. apply Hf.
      eapply Forall_lookup_1; [apply (fo_flag_bytes _ Hok)|done].
Qed.

Lemma flat_set_dirty_ok addr size m :
  flat_ok m -> in_u 64 addr -> 0 < size -> in_bounds addr size (flat_memory_size m) ->
  set_dirty flat_set_flag (get_page_indices addr size) m =
  (Ok tt, flat_set_flags (mark_flags (fun v => Z.lor v FLAG_DIRTY) (addr / 4096)
     ((addr + size - 1) / 4096) (flat_flags m)) m).
Proof.
  intros Hok Ha Hs Hb. rewrite (page_indices_eq _ _ (flat_memory_size m)) by (done || apply Hok).
  unfold set_dirty, for_pages. cbn [fst snd]. change (fun page => flat_set_flag page FLAG_DIRTY)
    with (flat_update_flag (R:=R) (fun v => Z.lor v FLAG_DIRTY)).
  destruct Ha, Hb. pose proof (fo_pages _ Hok).
  assert (addr / 4096 <= (addr + size - 1) / 4096) by (apply Z.div_le_mono; lia).
  rewrite flat_mark_range; [|done| |apply Z.div_pos; lia|].
  - do 4 f_equal. lia.
  - intros v Hv. apply lor_range; [lia|done|split; vm_compute; congruence].
  - rewrite Z2Nat.id by lia. dlia.
Qed.

(** What every store does: the bytes and the dirty flags change, or the access is
    out of bounds and nothing changes. *)
Lemma flat_store_raw_ok addr bs m :
  flat_ok m -> in_u 64 addr -> bs <> [] -> in_bounds addr (Z.of_nat (length bs)) (flat_memory_size m) ->
  (flat_check addr (Z.of_nat (length bs));;
   set_dirty flat_set_flag (get_page_indices addr (Z.of_nat (length bs)));;
   flat_write addr bs) m = (Ok tt, flat_put addr bs m).
Proof.
  intros Hok Ha Hbs Hb. assert (0 < Z.of_nat (length bs)) by (destruct bs; simpl; [done|lia]).
  assert (in_u 64 (Z.of_nat (length bs))) by (pose proof (fo_size _ Hok) as [? ?];
    destruct Ha, Hb; split; lia).
  erewrite bind_Ok by (apply check_no_overflow_ok; [done..|apply Hok|done]).
  erewrite bind_Ok by (by apply flat_set_dirty_ok).
  unfold flat_write, flat_set_flags. cbn [flat_data].
  rewrite slice_set_Some by (pose proof (fo_data _ Hok); destruct Ha, Hb; lia). done.
Qed.

Lemma flat_check_err {A} addr size m (k : unit -> ST (FlatMemory R) A) :
  flat_ok m -> in_u 64 addr -> in_u 64 size -> ~ in_bounds addr size (flat_memory_size m) ->
  exists a, (flat_check addr size ≫= k) m = (Err (MemOutOfBound a Memory_), m).
Proof.
  intros Hok Ha Hs Hb. destruct (check_no_overflow_err addr size (flat_memory_size m) m)
    as [a E]; [done..|apply Hok|done|]. exists a.
  by erewrite bind_Err by apply E.
Qed.

Lemma flat_put_ok addr bs m :
  flat_ok m -> Forall is_byte bs -> in_u 64 addr ->
  in_bounds addr (Z.of_nat (length bs)) (flat_memory_size m) -> flat_ok (flat_put addr bs m).
Proof.
  intros Hok Hbs Ha Hb. pose proof (fo_data _ Hok). destruct Ha, Hb.
  constructor; simpl; try apply Hok.
  - rewrite !length_app, length_take, length_drop. lia.
  - rewrite mark_flags_length. apply Hok.
  - rewrite !Forall_app. split_and!; [apply Forall_take|done|apply Forall_drop]; apply Hok.
  - apply mark_flags_bytes; [|apply Hok]. intros v Hv.
    apply lor_range; [lia|done|split; vm_compute; congruence].
Qed.

Lemma flat_read_ok addr n m :
  flat_ok m -> 0 <= addr -> 0 <= n -> addr + n <= flat_memory_size m ->
  flat_read addr n m = (Ok (flat_get addr n m), m).
Proof.
  intros Hok ? ? ?. unfold flat_read, flat_get.
  rewrite slice_get_Some by (pose proof (fo_data _ Hok); lia). done.
Qed.

Lemma flat_get_bytes addr n m : flat_ok m -> Forall is_byte (flat_get addr n m).
Proof. intros H. apply Forall_take, Forall_drop, (fo_bytes _ H). Qed.

Lemma flat_get_length addr n m :
  flat_ok m -> 0 <= addr -> 0 <= n -> addr + n <= flat_memory_size m ->
  length (flat_get addr n m) = Z.to_nat n.
Proof.
  intros H ? ? ?. unfold flat_get. rewrite length_take, length_drop. pose proof (fo_data _ H). lia.
Qed.

Lemma flat_get_range addr (n : nat) m :
  flat_ok m -> 0 <= addr -> addr + Z.of_nat n <= flat_memory_size m ->
  in_u (8 * Z.of_nat n) (le_to_Z (flat_get addr (Z.of_nat n) m)).
Proof.
  intros. pose proof (le_to_Z_range _ (flat_get_bytes addr (Z.of_nat n) m ltac:(done))) as Hr.
  by rewrite flat_get_length, Nat2Z.id in Hr by (done || lia).
Qed.

(** Reading what was written, and reading elsewhere. *)
Lemma flat_get_put addr bs m :
  flat_ok m -> 0 <= addr -> addr + Z.of_nat (length bs) <= flat_memory_size m ->
  flat_get addr (Z.of_nat (length bs)) (flat_put addr bs m) = bs.
Proof.
  intros H ? ?. pose proof (fo_data _ H).
  assert (Hs := slice_set_Some (flat_data m) addr bs ltac:(lia) ltac:(lia)).
  apply slice_get_set in Hs as Hg. pose proof (slice_set_length _ _ _ _ Hs) as Hl.
  rewrite slice_get_Some in Hg by lia. by injection Hg.
Qed.

Lemma flat_get_put_ne addr bs m b n :
  flat_ok m -> 0 <= addr -> addr + Z.of_nat (length bs) <= flat_memory_size m ->
  0 <= b -> 0 <= n -> b + n <= flat_memory_size m ->
  b + n <= addr \/ addr + Z.of_nat (length bs) <= b ->
  flat_get b n (flat_put addr bs m) = flat_get b n m.
Proof.
  intros H ? ? ? ? ? Hd. pose proof (fo_data _ H).
  assert (Hs := slice_set_Some (flat_data m) addr bs ltac:(lia) ltac:(lia)).
  pose proof (slice_set_length _ _ _ _ Hs) as Hl.
  apply (slice_get_set_ne _ _ _ _ b n) in Hs; [|done].
  rewrite !slice_get_Some in Hs by lia. by injection Hs.
Qed.

Lemma flat_load_ok {A} addr (n : nat) m (f : list Z -> A) :
  flat_ok m -> in_u 64 addr -> in_u 64 (Z.of_nat n) ->
  in_bounds addr (Z.of_nat n) (flat_memory_size m) ->
  (flat_check addr (Z.of_nat n);; bs ← flat_read addr (Z.of_nat n); mret (f bs)) m =
  (Ok (f (flat_get addr (Z.of_nat n) m)), m).
Proof.
  intros Hok Ha Hn Hb. erewrite bind_Ok by (apply check_no_overflow_ok; [done..|apply Hok|done]).
  erewrite bind_Ok by (apply flat_read_ok; [done|destruct Ha, Hb; lia..]). done.
Qed.

(** [op] is the load of [n] bytes: in bounds it returns their little-endian
    value, out of bounds it fails; the memory does not change. *)
Definition is_flat_load (n : nat) (from : Z -> reg R)
  (op : reg R -> ST (FlatMemory R) (reg R)) m (addr : reg R) : Prop :=
  let a := to_u64 addr in
  if decide (in_bounds a (Z.of_nat n) (flat_memory_size m))
  then op addr m = (Ok (from (le_to_Z (flat_get a (Z.of_nat n) m))), m)
  else exists b, op addr m = (Err (MemOutOfBound b Memory_), m).

(** [op] is the store of [n] bytes. *)
Definition is_flat_store (n : nat) (to : reg R -> Z)
  (op : reg R -> reg R -> ST (FlatMemory R) unit) m (addr value : reg R) : Prop :=
  let a := to_u64 addr in
  if decide (in_bounds a (Z.of_nat n) (flat_memory_size m))
  then op addr value m = (Ok tt, flat_put a (Z_to_le n (to value)) m)
  else exists b, op addr value m = (Err (MemOutOfBound b Memory_), m).

Lemma flat_load_intro (n : nat) from op m addr :
  flat_ok m -> reg_ok addr -> in_u 64 (Z.of_nat n) ->
  op addr m = (flat_check (to_u64 addr) (Z.of_nat n);;
               bs ← flat_read (to_u64 addr) (Z.of_nat n); mret (from (le_to_Z bs))) m ->
  is_flat_load n from op m addr.
Proof.
  intros Hok Ha Hn E. unfold is_flat_load. cbv zeta. rewrite E.
  case_decide; [by apply flat_load_ok; eauto with regok|].
  apply flat_check_err; eauto with regok.
Qed.

Lemma flat_store_intro (n : nat) to op m addr value bs :
  flat_ok m -> reg_ok addr -> in_u 64 (Z.of_nat n) -> (0 < n)%nat ->
  bs = Z_to_le n (to value) ->
  op addr value m =
    (flat_check (to_u64 addr) (Z.of_nat n);;
     set_dirty flat_set_flag (get_page_indices (to_u64 addr) (Z.of_nat n));;
     flat_write (to_u64 addr) bs) m ->
  is_flat_store n to op m addr value.
Proof.
  intros Hok Ha Hn Hp -> E. unfold is_flat_store. cbv zeta. rewrite E.
  pose proof (length_Z_to_le n (to value)) as Hl.
  case_decide as Hb; [|apply flat_check_err; eauto with regok].
  assert (Z_to_le n (to value) <> []) by (intros Hz; rewrite Hz in Hl; simpl in Hl; lia).
  generalize dependent (Z_to_le n (to value)). intros bs E Hl Hne. subst n.
  by apply flat_store_raw_ok; [|apply to_u64_range|..].
Qed.

Lemma u64_small n : 0 <= n < 2 ^ 64 -> in_u 64 n.
Proof. done. Qed.

(** All eight accesses. *)
Lemma flat_accesses m addr value :
  flat_ok m -> reg_ok addr -> reg_ok value ->
  is_flat_load 1 from_u8 flat_load8 m addr /\ is_flat_load 2 from_u16 flat_load16 m addr /\
  is_flat_load 4 from_u32 flat_load32 m addr /\ is_flat_load 8 from_u64 flat_load64 m addr /\
  is_flat_store 1 to_u8 flat_store8 m addr value /\
  is_flat_store 2 to_u16 flat_store16 m addr value /\
  is_flat_store 4 to_u32 flat_store32 m addr value /\
  is_flat_store 8 to_u64 flat_store64 m addr value.
Proof.
  intros Hok Ha Hv. split_and!;
    try (apply flat_load_intro; [done|done|by apply u64_small|done]);
    try (eapply flat_store_intro; [done|done|by apply u64_small|lia| |]; done).
  eapply flat_store_intro; [done|done|by apply u64_small|lia| |done].
  cbn [Z_to_le]. by rewrite wrap_small by (by apply to_u8_range).
Qed.
End flat.

(** C33: a flat memory behaves as a byte array.  An access inside the memory
    succeeds: a load returns the little-endian value of the bytes at the address
    and changes nothing, a store replaces exactly those bytes and marks exactly
    the pages it touches as dirty.  An access outside the memory fails with
    [MemOutOfBound] and changes nothing. *)
Theorem flat_load_store_spec (R : Register) (HR : RegisterOk R) (m : FlatMemory R)
  (addr value : reg R) :
  flat_ok m -> reg_ok addr -> reg_ok value ->
  is_flat_load 1 from_u8 flat_load8 m addr /\ is_flat_load 2 from_u16 flat_load16 m addr /\
  is_flat_load 4 from_u32 flat_load32 m addr /\ is_flat_load 8 from_u64 flat_load64 m addr /\
  is_flat_store 1 to_u8 flat_store8 m addr value /\
  is_flat_store 2 to_u16 flat_store16 m addr value /\
  is_flat_store 4 to_u32 flat_store32 m addr value /\
  is_flat_store 8 to_u64 flat_store64 m addr value.
Proof. apply flat_accesses. Qed.

Lemma flat_new_ok (R : Register) (HR : RegisterOk R) size m :
  in_u 64 size -> flat_new size = Ok m -> flat_ok m /\ flat_memory_size m = size.
Proof.
  intros [? ?]. unfold flat_new. change RISCV_PAGESIZE with 4096.
  destruct (Z.eqb_spec (size mod 4096) 0); simpl; [|done]. intros [= <-].
  split; [|done]. constructor; simpl; rewrite ?length_replicate; try (split; lia); try dlia.
  - by apply Forall_replicate.
  - by apply Forall_replicate.
  - apply ok_from_u64. split; vm_compute; congruence.
Qed.

Definition flat_of (size : Z) : FlatMemory u64_register :=
  match flat_new size with
  | Ok m => m
  | _ => {| flat_data := []; flat_flags := []; flat_memory_size := 0; flat_riscv_pages := 0;
            flat_load_reservation_address := (0 : reg u64_register) |}
  end.

Lemma flat_of_ok : flat_ok (flat_of 8192).
Proof. apply (flat_new_ok u64_register u64_ok 8192); [split|]; done. Qed.

Lemma flat_load_store_spec_witness :
  is_flat_store 8 to_u64 flat_store64 (flat_of 8192) 4093 0x1122334455667788.
Proof.
  apply (flat_load_store_spec u64_register u64_ok (flat_of 8192) 4093 0x1122334455667788);
    [apply flat_of_ok|split; done|split; done].
Defined.

(** Bytes back from little-endian storage. *)
Lemma le_round (n : nat) v : in_u (8 * Z.of_nat n) v -> le_to_Z (Z_to_le n v) = v.
Proof. intros. rewrite le_to_Z_to_le. by apply wrap_small. Qed.

Section store_load.
Context {R : Register} {HR : RegisterOk R}.
Implicit Types m : FlatMemory R.

(** [store] followed by [load] at the same address, and by a load elsewhere. *)
Definition store_then_load (n : nat) (to : reg R -> Z)
  (store : reg R -> reg R -> ST (FlatMemory R) unit) (from : Z -> reg R)
  (load : reg R -> ST (FlatMemory R) (reg R)) m (addr value other : reg R) : Prop :=
  in_bounds (to_u64 addr) (Z.of_nat n) (flat_memory_size m) ->
  exists m', store addr value m = (Ok tt, m') /\ flat_ok m' /\
    load addr m' = (Ok (from (to value)), m') /\
    (to_u64 other + 8 <= to_u64 addr \/ to_u64 addr + Z.of_nat n <= to_u64 other ->
     in_bounds (to_u64 other) 8 (flat_memory_size m) ->
     (flat_load64 other m').1 = (flat_load64 other m).1).

Lemma store_then_load_intro (n : nat) to store from load m addr value other :
  flat_ok m -> reg_ok addr -> reg_ok value -> reg_ok other -> in_u (8 * Z.of_nat n) (to value) ->
  is_flat_store n to store m addr value ->
  (forall m', flat_ok m' -> is_flat_load n from load m' addr) ->
  store_then_load n to store from load m addr value other.
Proof.
  intros Hok Ha Hv Ho Hr Hs Hl Hb. unfold is_flat_store in Hs.
  cbv zeta in Hs. rewrite decide_True in Hs by done.
  pose proof (length_Z_to_le n (to value)) as Hlen.
  pose proof (to_u64_range _ Ha) as [? ?]. pose proof (to_u64_range _ Ho) as [? ?].
  assert (Hput : flat_ok (flat_put (to_u64 addr) (Z_to_le n (to value)) m)).
  { apply flat_put_ok; [done|apply Z_to_le_bytes|by split|by rewrite Hlen]. }
  exists (flat_put (to_u64 addr) (Z_to_le n (to value)) m). destruct Hb as [Hb1 Hb2].
  split_and!; [done|done| |].
  - specialize (Hl _ Hput). unfold is_flat_load in Hl. cbv zeta in Hl.
    rewrite decide_True in Hl by done.
    pose proof (flat_get_put (to_u64 addr) (Z_to_le n (to value)) m Hok) as Hg.
    rewrite Hlen in Hg. rewrite Hg in Hl by lia. by rewrite le_round in Hl.
  - intros Hd [Hc1 Hc2]. 
    destruct (flat_accesses m other value Hok Ho Hv) as (_&_&_&O1&_).
    destruct (flat_accesses _ other value Hput Ho Hv) as (_&_&_&O2&_).
    unfold is_flat_load in O1, O2. cbv zeta in O1, O2.
    rewrite decide_True in O1 by done. rewrite decide_True in O2 by done.
    rewrite O1, O2. cbn [fst]. do 3 f_equal. apply flat_get_put_ne; rewrite ?Hlen; done || lia.
Qed.
End store_load.

(** C34: loads see stores.  After a store of 1, 2, 4 or 8 bytes in bounds a load
    of that width at the same address returns the stored value truncated to the
    width, and an 8-byte load at an address range that does not overlap returns
    what it returned before. *)
Theorem flat_store_load (R : Register) (HR : RegisterOk R) (m : FlatMemory R)
  (addr value other : reg R) :
  flat_ok m -> reg_ok addr -> reg_ok value -> reg_ok other ->
  store_then_load 1 to_u8 flat_store8 from_u8 flat_load8 m addr value other /\
  store_then_load 2 to_u16 flat_store16 from_u16 flat_load16 m addr value other /\
  store_then_load 4 to_u32 flat_store32 from_u32 flat_load32 m addr value other /\
  store_then_load 8 to_u64 flat_store64 from_u64 flat_load64 m addr value other.
Proof.
  intros Hok Ha Hv Ho.
  destruct (flat_accesses m addr value Hok Ha Hv) as (_ & _ & _ & _ & ? & ? & ? & ?).
  split_and!; apply store_then_load_intro; auto with regok;
    try (intros m' Hm'; apply (flat_accesses m' addr value Hm' Ha Hv)).
  - by apply to_u8_range.
  - by apply to_u16_range.
  - by apply to_u32_range.
  - by apply to_u64_range.
Qed.

Lemma flat_store_load_witness :
  store_then_load (R:=u64_register) 8 to_u64 flat_store64 from_u64 flat_load64 (flat_of 8192)
    4093 0x1122334455667788 16 /\ in_bounds 4093 8 8192.
Proof.
  split; [|split; lia].
  apply (flat_store_load u64_register u64_ok (flat_of 8192) 4093 0x1122334455667788 16);
    [apply flat_of_ok|split; done..].
Defined.
