(* ===== verification/MemoryOk.v ===== *)
(** The safety contract of a memory: no operation panics, and every operation
    keeps the memory well-formed and of the same size.  Instances for the flat
    memory and for the W^X layer over any memory with the contract. *)
From S2P Require Import Prelude Outcome Bits Register RegisterFacts Insts Memory MemoryFacts.
From stdpp Require Import base list numbers.
Open Scope Z_scope.

Definition same_size {R M} `{Memory R M} (m m' : M) : Prop := memory_size m' = memory_size m.

#[export] Instance same_size_preorder {R M} `{Memory R M} : PreOrder (@same_size R M _).
Proof. split; unfold same_size; congruence. Qed.

Class MemoryOk (R : Register) {HR : RegisterOk R} (M : Type) {HM : Memory R M} := {
  mem_ok : M -> Prop;
  mem_max : Z;  (* the largest size the memory supports *)
  mem_size_range m : mem_ok m -> in_u 64 (memory_size m);
  mem_lr_ok m : mem_ok m -> reg_ok (lr m);
  mem_set_lr v : reg_ok v -> stable mem_ok same_size (set_lr v) (fun _ => True);
  mem_load8 a : reg_ok a -> stable mem_ok same_size (load8 a) reg_ok;
  mem_load16 a : reg_ok a -> stable mem_ok same_size (load16 a) reg_ok;
  mem_load32 a : reg_ok a -> stable mem_ok same_size (load32 a) reg_ok;
  mem_load64 a : reg_ok a -> stable mem_ok same_size (load64 a) reg_ok;
  mem_store8 a v : reg_ok a -> reg_ok v -> stable mem_ok same_size (store8 a v) (fun _ => True);
  mem_store16 a v : reg_ok a -> reg_ok v -> stable mem_ok same_size (store16 a v) (fun _ => True);
  mem_store32 a v : reg_ok a -> reg_ok v -> stable mem_ok same_size (store32 a v) (fun _ => True);
  mem_store64 a v : reg_ok a -> reg_ok v -> stable mem_ok same_size (store64 a v) (fun _ => True);
  mem_execute_load16 a : in_u 64 a -> stable mem_ok same_size (execute_load16 a) (in_u 16);
  mem_execute_load32 a : in_u 64 a -> stable mem_ok same_size (execute_load32 a) (in_u 32);
  mem_load_bytes a n :
    in_u 64 a -> in_u 64 n ->
    stable mem_ok same_size (load_bytes a n)
      (fun l => Forall is_byte l /\ length l = Z.to_nat n);
  mem_store_bytes a l :
    in_u 64 a -> in_u 64 (Z.of_nat (length l)) -> Forall is_byte l ->
    stable mem_ok same_size (store_bytes a l) (fun _ => True);
  mem_store_byte a n v :
    in_u 64 a -> in_u 64 n -> is_byte v ->
    stable mem_ok same_size (store_byte a n v) (fun _ => True);
  mem_fetch_flag p : in_u 64 p -> stable mem_ok same_size (fetch_flag p) is_byte;
}.

(** What only setting a memory up relies on: creating it, and changing the flags of its
    pages directly. *)
Class MemorySetup (R : Register) {HR : RegisterOk R} (M : Type) {HM : Memory R M}
  {HMO : MemoryOk R M} := {
  mem_new_ok n m : in_u 64 n -> n <= mem_max -> mem_new n = Ok m -> mem_ok m /\ memory_size m = n;
  mem_new_total n : n mod RISCV_PAGESIZE = 0 -> exists m : M, mem_new n = Ok m;
  mem_set_flag p f : in_u 64 p -> is_byte f ->
    stable mem_ok same_size (set_flag p f) (fun _ => True);
  mem_clear_flag p f : in_u 64 p -> is_byte f ->
    stable mem_ok same_size (clear_flag p f) (fun _ => True);
  mem_init_pages a n f src off :
    in_u 64 a -> in_u 64 n -> is_byte f -> in_u 64 off ->
    match src with Some l => Forall is_byte l /\ in_u 64 (Z.of_nat (length l)) | None => True end ->
    stable mem_ok same_size (init_pages a n f src off) (fun _ => True);
}.

(** * The generic page filler keeps any invariant the stores keep *)

Section fill.
Context {M : Type} (ok : M -> Prop) (rel : M -> M -> Prop) `{!PreOrder rel}.
Context (store_byte : Z -> Z -> Z -> ST M unit) (store_bytes : Z -> list Z -> ST M unit).
Hypothesis Hbyte : forall a n v, in_u 64 a -> in_u 64 n -> is_byte v ->
  stable ok rel (store_byte a n v) (fun _ => True).
Hypothesis Hbytes : forall a l, in_u 64 a -> in_u 64 (Z.of_nat (length l)) ->
  Forall is_byte l -> stable ok rel (store_bytes a l) (fun _ => True).

Lemma fill_page_data_stable a n src off :
  in_u 64 a -> in_u 64 n -> in_u 64 off ->
  match src with Some l => Forall is_byte l /\ in_u 64 (Z.of_nat (length l)) | None => True end ->
  stable ok rel (fill_page_data store_byte store_bytes a n src off) (fun _ => True).
Proof.
  intros Ha Hn Hoff Hsrc. unfold fill_page_data.
  apply stable_bind with (P := fun w => in_u 64 w /\ w <= n); [done| |].
  - apply stable_if; intros _; [|apply stable_ret; [done|]; destruct Hn; split; [split|]; lia].
    eapply stable_bind; [done| |].
    + apply Hbyte; [done| |split; lia]. destruct Hn, Hoff; split; lia.
    + intros _ _. apply stable_ret; [done|]. destruct Hn, Hoff; split; [split|]; lia.
  - intros w [Hw Hwn].
    assert (Hsub : wsub 64 n w = n - w).
    { unfold wsub. apply wrap_small. destruct Hn, Hw; split; lia. }
    apply stable_bind with (P := fun w => in_u 64 w); [done| |].
    + destruct src as [l|]; [|by apply stable_ret]. destruct Hsrc as [Hl Hlen].
      rewrite Hsub. apply stable_if; intros Hpos; [|by apply stable_ret]. bool_hyps.
      eapply stable_bind; [done| |].
      * apply Hbytes; [by apply wadd_range| |by apply Forall_take].
        rewrite length_take. destruct Hn, Hw, Hlen; split; lia.
      * intros _ _. apply stable_ret; [done|]. by apply wadd_range.
    + intros w' Hw'. apply stable_if; intros _; [|by apply stable_ret].
      apply Hbyte; [by apply wadd_range|by apply wrap_range|split; lia].
Qed.
End fill.

(** * FlatMemory *)

Section flat_ok.
Context {R : Register} {HR : RegisterOk R}.
Local Abbreviation kept := (@same_size R (FlatMemory R) _).

(** An invariant of flat memories: writes keep it, and changes of the reservation. *)
Class FlatInv (ok : FlatMemory R -> Prop) := {
  fi_ok m : ok m -> flat_ok m;
  fi_put addr bs m : ok m -> Forall is_byte bs -> in_u 64 addr ->
    in_bounds addr (Z.of_nat (length bs)) (flat_memory_size m) -> ok (flat_put addr bs m);
  fi_lr v m : ok m -> reg_ok v -> ok (flat_set_lr v m).2;
}.
Context {ok : FlatMemory R -> Prop} {HI : FlatInv ok}.

Lemma flat_load_stable (n : nat) from (op : reg R -> ST (FlatMemory R) (reg R)) addr :
  (forall m, flat_ok m -> is_flat_load n from op m addr) -> reg_ok addr ->
  (forall v, in_u (8 * Z.of_nat n) v -> reg_ok (from v)) ->
  stable ok kept (op addr) reg_ok.
Proof.
  intros Hl Ha Hf m Hm. pose proof (fi_ok _ Hm) as Hm'. specialize (Hl m Hm'). unfold is_flat_load in Hl. cbv zeta in Hl.
  unfold wp. case_decide as Hb.
  - rewrite Hl. split_and!; [|done|done]. apply Hf.
    pose proof (to_u64_range _ Ha) as [? ?]. apply flat_get_range; [done|lia|apply Hb].
  - destruct Hl as [b ->]. done.
Qed.

Lemma flat_store_stable (n : nat) to (op : reg R -> reg R -> ST (FlatMemory R) unit) addr value :
  (forall m, flat_ok m -> is_flat_store n to op m addr value) -> reg_ok addr ->
  stable ok kept (op addr value) (fun _ => True).
Proof.
  intros Hs Ha m Hm. specialize (Hs m (fi_ok _ Hm)). unfold is_flat_store in Hs. cbv zeta in Hs.
  unfold wp. case_decide as Hb.
  - rewrite Hs. split_and!; [done| |done].
    apply fi_put; [done|apply Z_to_le_bytes|by apply to_u64_range|].
    by rewrite length_Z_to_le.
  - destruct Hs as [b ->]. done.
Qed.

(** The failing check of an access that is out of bounds. *)
Ltac flat_out_of_bounds :=
  match goal with
  | |- context [(flat_check ?a ?n ≫= ?k) ?m] =>
      let b := fresh "b" in let Hc := fresh "Hc" in
      destruct (flat_check_err a n m k) as [b Hc]; [done..|]; rewrite Hc
  end.

Lemma flat_write_stable addr bs :
  in_u 64 addr -> in_u 64 (Z.of_nat (length bs)) -> bs <> [] -> Forall is_byte bs ->
  stable ok kept
    (flat_check addr (Z.of_nat (length bs));;
     set_dirty flat_set_flag (get_page_indices addr (Z.of_nat (length bs)));;
     flat_write addr bs) (fun _ => True).
Proof.
  intros Ha Hlen Hne Hbs m Hm. pose proof (fi_ok _ Hm) as Hm'. unfold wp.
  destruct (decide (in_bounds addr (Z.of_nat (length bs)) (flat_memory_size m))) as [Hb|Hb].
  - rewrite flat_store_raw_ok by done. split_and!; [done| |done]. by apply fi_put.
  - by flat_out_of_bounds.
Qed.

Lemma flat_store_bytes_stable a l :
  in_u 64 a -> in_u 64 (Z.of_nat (length l)) -> Forall is_byte l ->
  stable ok kept (flat_store_bytes a l) (fun _ => True).
Proof.
  intros. unfold flat_store_bytes. cbv zeta. apply stable_if; intros Hz; [by apply stable_ret|].
  bool_hyps. apply flat_write_stable; [done..| |done]. by intros ->.
Qed.

Lemma flat_store_byte_stable a n v :
  in_u 64 a -> in_u 64 n -> is_byte v ->
  stable ok kept (flat_store_byte a n v) (fun _ => True).
Proof.
  intros Ha Hn Hv. unfold flat_store_byte. apply stable_if; intros Hz; [by apply stable_ret|].
  bool_hyps. destruct Hn as [? ?].
  pose proof (flat_write_stable a (replicate (Z.to_nat n) v)) as Hw.
  rewrite length_replicate, Z2Nat.id in Hw by lia.
  apply Hw; [done|split; lia| |by apply Forall_replicate].
  destruct (Z.to_nat n) eqn:E; [lia|done].
Qed.

Lemma flat_loads_stable a : reg_ok a ->
  stable ok kept (flat_load8 a) reg_ok /\ stable ok kept (flat_load16 a) reg_ok /\
  stable ok kept (flat_load32 a) reg_ok /\ stable ok kept (flat_load64 a) reg_ok.
Proof.
  intros Ha. assert (H := fun m Hm => flat_accesses m a a Hm Ha Ha).
  split_and!.
  - apply (flat_load_stable 1 from_u8); [apply H|done|]. intros. by apply ok_from_u8.
  - apply (flat_load_stable 2 from_u16); [apply H|done|]. intros. by apply ok_from_u16.
  - apply (flat_load_stable 4 from_u32); [apply H|done|]. intros. by apply ok_from_u32.
  - apply (flat_load_stable 8 from_u64); [apply H|done|]. intros. by apply ok_from_u64.
Qed.

Lemma flat_stores_stable a v : reg_ok a -> reg_ok v ->
  stable ok kept (flat_store8 a v) (fun _ => True) /\
  stable ok kept (flat_store16 a v) (fun _ => True) /\
  stable ok kept (flat_store32 a v) (fun _ => True) /\
  stable ok kept (flat_store64 a v) (fun _ => True).
Proof.
  intros Ha Hv. assert (H := fun m Hm => flat_accesses m a v Hm Ha Hv).
  split_and!; eapply flat_store_stable; try done; apply H.
Qed.

Lemma flat_load_bytes_stable a n :
  in_u 64 a -> in_u 64 n ->
  stable ok kept (flat_load_bytes a n) (fun l => Forall is_byte l /\ length l = Z.to_nat n).
Proof.
  intros Ha Hn. unfold flat_load_bytes. apply stable_if; intros Hz; bool_hyps.
  { subst. by apply stable_ret. }
  intros m Hm. pose proof (fi_ok _ Hm) as Hm'. unfold wp.
  destruct (decide (in_bounds a n (flat_memory_size m))) as [Hb|Hb].
  - erewrite bind_Ok by (apply check_no_overflow_ok; [done..|apply Hm'|done]).
    destruct Ha, Hn, Hb. rewrite flat_read_ok by (done || lia).
    split_and!; [by apply flat_get_bytes|by apply flat_get_length|done|done].
  - by flat_out_of_bounds.
Qed.

Lemma flat_fetch_flag_stable p : 0 <= p ->
  stable ok kept (flat_fetch_flag p) is_byte.
Proof.
  intros Hp m Hm. pose proof (fi_ok _ Hm) as Hm'. unfold wp, flat_fetch_flag. case_bool; [|done].
  destruct (flat_flag_lookup m p Hm') as [v Hv]; [lia|]. rewrite Hv.
  split_and!; [|done|done]. apply (Forall_lookup_1 _ _ _ _ (fo_flag_bytes _ Hm') Hv).
Qed.

Lemma lor_byte v f : is_byte v -> is_byte f -> is_byte (Z.lor v f).
Proof. by apply lor_range. Qed.

Lemma land_byte_l v f : is_byte v -> is_byte (Z.land v f).
Proof. by apply land_range_l. Qed.

(** The contract, for any such invariant. *)
Definition flat_memory_inv : MemoryOk R (FlatMemory R).
Proof.
  refine {| mem_ok := ok; mem_max := U64_MAX |}.
  - intros m Hm. apply (fi_ok _ Hm).
  - intros m Hm. apply (fi_ok _ Hm).
  - intros v Hv m Hm. split_and!; [done|by apply (fi_lr v m)|done].
  - apply flat_loads_stable.
  - apply flat_loads_stable.
  - apply flat_loads_stable.
  - apply flat_loads_stable.
  - apply flat_stores_stable.
  - apply flat_stores_stable.
  - apply flat_stores_stable.
  - apply flat_stores_stable.
  - intros a Ha. eapply stable_bind; [apply _|by apply flat_loads_stable, ok_from_u64|].
    intros v Hv. apply stable_ret; [apply _|]. by apply to_u16_range.
  - intros a Ha. eapply stable_bind; [apply _|by apply flat_loads_stable, ok_from_u64|].
    intros v Hv. apply stable_ret; [apply _|]. by apply to_u32_range.
  - apply flat_load_bytes_stable.
  - apply flat_store_bytes_stable.
  - apply flat_store_byte_stable.
  - intros p Hp. apply flat_fetch_flag_stable, Hp.
Defined.
End flat_ok.
Arguments FlatInv {R HR} ok.
Arguments flat_memory_inv {R HR} ok {HI}.

Section flat_setup.
Context {R : Register} {HR : RegisterOk R}.
Local Abbreviation kept := (@same_size R (FlatMemory R) _).

#[export] Instance flat_ok_inv : FlatInv (R := R) flat_ok.
Proof.
  split; [done|by apply flat_put_ok|]. intros v m Hm Hv. constructor; simpl; done || apply Hm.
Qed.

#[export] Instance flat_memory_ok : MemoryOk R (FlatMemory R) := flat_memory_inv flat_ok.

Lemma flat_update_flag_stable f p :
  0 <= p -> (forall v, is_byte v -> is_byte (f v)) ->
  stable flat_ok kept (flat_update_flag f p) (fun _ => True).
Proof.
  intros Hp Hf m Hm. unfold wp. destruct (Z.lt_ge_cases p (flat_riscv_pages m)).
  - destruct (flat_flag_lookup m p Hm) as [v Hv]; [lia|].
    erewrite flat_update_flag_in by (done || lia). split_and!; [done| |done].
    constructor; simpl; try apply Hm; [by rewrite length_insert; apply Hm|].
    apply Forall_insert; [apply Hm|]. apply Hf. apply (Forall_lookup_1 _ _ _ _ (fo_flag_bytes _ Hm) Hv).
  - unfold flat_update_flag. rewrite (proj2 (Z.ltb_ge _ _)) by lia. done.
Qed.

#[export] Instance flat_memory_setup : MemorySetup R (FlatMemory R).
Proof.
  constructor.
  - intros n m Hn _. by apply (flat_new_ok R HR).
  - intros n Hn. change (mem_new n) with (flat_new (R:=R) n). unfold flat_new.
    rewrite Hn. by eexists.
  - intros p f Hp Hf. apply flat_update_flag_stable; [apply Hp|]. intros. by apply lor_byte.
  - intros p f Hp Hf. apply flat_update_flag_stable; [apply Hp|]. intros. by apply land_byte_l.
  - intros a n f src off Ha Hn Hf Hoff Hsrc. apply fill_page_data_stable; try done.
    + intros. by apply (flat_store_byte_stable (ok := flat_ok)).
    + intros. by apply (flat_store_bytes_stable (ok := flat_ok)).
Qed.
End flat_setup.

(** * WXorXMemory over any memory with the contract *)

Section wxorx_ok.
Context {R : Register} {HR : RegisterOk R} {M : Type} {HM : Memory R M} {HMO : MemoryOk R M}.

Definition wx_ok (m : WXorXMemory M) : Prop := mem_ok (wx_inner m).
Local Abbreviation kept := (@same_size R (WXorXMemory M) _).

Lemma wx_lift_stable {A} (m : ST M A) Q :
  stable mem_ok same_size m Q -> stable wx_ok kept (wx_lift m) Q.
Proof. intros Hm. by apply (stable_zoom mem_ok same_size). Qed.

Lemma wx_check_no_overflow_stable a n :
  stable wx_ok kept (fun m => check_no_overflow a n (wx_memory_size m) m) (fun _ => True).
Proof.
  apply (stable_state wx_ok kept (fun m => check_no_overflow a n (wx_memory_size m))).
  intros m Hm. unfold check_no_overflow. destruct (woverflowing_add 64 a n) as [e o].
  apply stable_if; intros _; [by apply stable_fail|].
  apply stable_if; intros _; [by apply stable_fail|by apply stable_ret].
Qed.

Lemma page_index_range a n : in_u 64 a ->
  let '(p, q) := get_page_indices a n in
  in_u 64 p /\ forall i, p <= i < p + Z.of_nat (Z.to_nat (q - p + 1)) -> in_u 64 i.
Proof.
  intros Ha. unfold get_page_indices, wshr. change (RISCV_PAGE_SHIFTS mod 64) with 12.
  assert (H1 : in_u 64 (Z.shiftr a 12)) by (by apply shiftr_range).
  assert (H2 : in_u 64 (Z.shiftr (wsub 64 (wadd 64 a n) 1) 12))
    by (apply shiftr_range; [lia|lia|by apply wrap_range]).
  split; [done|]. intros i Hi. destruct H1, H2. split; lia.
Qed.

Lemma wx_check_stable a n f : in_u 64 a -> stable wx_ok kept (wx_check a n f) (fun _ => True).
Proof.
  intros Ha. unfold wx_check. eapply stable_bind; [done|apply wx_check_no_overflow_stable|].
  intros _ _. unfold check_permission, for_pages. pose proof (page_index_range a n Ha) as Hp.
  destruct (get_page_indices a n) as [p q]. destruct Hp as [_ Hp].
  apply stable_for_range; [done|]. intros i Hi. cbn [fst snd] in Hi.
  eapply stable_bind; [done|apply wx_lift_stable, mem_fetch_flag, Hp, Hi|].
  intros v Hv. apply stable_if; intros _; [by apply stable_fail|by apply stable_ret].
Qed.

Lemma wx_checked_stable {A} a n f (m : ST M A) Q :
  in_u 64 a -> stable mem_ok same_size m Q ->
  stable wx_ok kept (wx_check a n f;; wx_lift m) Q.
Proof.
  intros Ha Hm. eapply stable_bind; [done|by apply wx_check_stable|].
  intros _ _. by apply wx_lift_stable.
Qed.

#[export] Instance wxorx_memory_ok : MemoryOk R (WXorXMemory M).
Proof.
  refine {| mem_ok := wx_ok; mem_max := mem_max (M:=M) |}.
  - intros m Hm. by apply (mem_size_range (wx_inner m)).
  - intros m Hm. by apply (mem_lr_ok (wx_inner m)).
  - intros v Hv. by apply wx_lift_stable, mem_set_lr.
  - intros a Ha. by apply wx_lift_stable, mem_load8.
  - intros a Ha. by apply wx_lift_stable, mem_load16.
  - intros a Ha. by apply wx_lift_stable, mem_load32.
  - intros a Ha. by apply wx_lift_stable, mem_load64.
  - intros a v Ha Hv. by apply wx_checked_stable; [apply to_u64_range|apply mem_store8].
  - intros a v Ha Hv. by apply wx_checked_stable; [apply to_u64_range|apply mem_store16].
  - intros a v Ha Hv. by apply wx_checked_stable; [apply to_u64_range|apply mem_store32].
  - intros a v Ha Hv. by apply wx_checked_stable; [apply to_u64_range|apply mem_store64].
  - intros a Ha. by apply wx_checked_stable; [|apply mem_execute_load16].
  - intros a Ha. by apply wx_checked_stable; [|apply mem_execute_load32].
  - intros a n Ha Hn. by apply wx_lift_stable, mem_load_bytes.
  - intros a l Ha Hl Hb. change (store_bytes a l) with (wx_store_bytes (M:=M) a l).
    unfold wx_store_bytes. apply stable_if; intros _; [by apply stable_ret|].
    by apply wx_checked_stable, mem_store_bytes.
  - intros a n v Ha Hn Hv. change (store_byte a n v) with (wx_store_byte (M:=M) a n v).
    unfold wx_store_byte. apply stable_if; intros _; [by apply stable_ret|].
    by apply wx_checked_stable, mem_store_byte.
  - intros p Hp. by apply wx_lift_stable, mem_fetch_flag.
Defined.

Context {HMS : MemorySetup R M}.

Lemma wx_init_flags_stable a n f : in_u 64 a -> is_byte f -> a mod 4096 = 0 ->
  stable wx_ok kept (wx_init_flags a n f) (fun _ => True).
Proof.
  intros Ha Hf Hal. unfold wx_init_flags. apply stable_for_range; [done|]. intros k Hk.
  change RISCV_PAGESIZE with 4096 in *.
  assert (Hp : in_u 64 ((a + k * 4096) / 4096)).
  { pose proof (wadd_range 64 a n) as [? ?]; [lia|]. destruct Ha as [? ?].
    unfold in_u in *. rewrite Z.div_add by lia. split; [dlia|].
    destruct (Z.lt_ge_cases (wadd 64 a n) a); dlia. }
  cbv zeta. eapply stable_bind; [done|by apply wx_lift_stable, mem_fetch_flag|].
  intros v Hv. apply stable_if; intros _; [by apply stable_fail|].
  by apply wx_lift_stable, mem_set_flag.
Qed.

#[export] Instance wxorx_memory_setup : MemorySetup R (WXorXMemory M).
Proof.
  constructor.
  - intros n m Hn Hmax. change (mem_new n) with (wx_new (M:=M) n). unfold wx_new.
    destruct (mem_new n) eqn:E; intros [= <-]. by apply (mem_new_ok n a).
  - intros n Hn. change (mem_new n) with (wx_new (M:=M) n). unfold wx_new.
    destruct (mem_new_total n Hn) as [m ->]. by eexists.
  - intros p f Hp Hf. by apply wx_lift_stable, mem_set_flag.
  - intros p f Hp Hf. by apply wx_lift_stable, mem_clear_flag.
  - intros a n f src off Ha Hn Hf Hoff Hsrc.
    change (init_pages a n f src off) with (wx_init_pages (M:=M) a n f src off).
    unfold wx_init_pages. refine (stable_state wx_ok kept (fun m => _) _ _). intros m Hm.
    repeat (apply stable_if; intros ?; [by apply stable_fail|]). bool_hyps.
    eapply stable_bind; [done|apply wx_init_flags_stable; [done|done|]|].
    + unfold round_page_down in *. change RISCV_PAGESIZE with (2 ^ 12) in *.
      rewrite rounddown_eq in * by (done || lia). change (2 ^ 12) with 4096 in *. lia.
    + intros _ _. by apply wx_lift_stable, mem_init_pages.
Qed.
End wxorx_ok.
