(* ===== verification/WXorXFacts.v ===== *)
(** The W^X layer: a store succeeds only on writable pages and a fetch only on
    executable ones; a refused access changes nothing.  Loading a segment fills
    the pages with zeros, the segment's bytes and zeros, and respects frozen
    pages. *)
From S2P Require Import Prelude Outcome Bits Register RegisterFacts Insts Memory MemoryFacts.
From S2P Require Import MemoryOk.
From stdpp Require Import base list numbers.
Open Scope Z_scope.

(** * Page flags as a list *)

(** What the permission layer needs from the memory below: [fetch_flag] reads a
    table of page flags and changes nothing. *)
Class MemoryFlags (R : Register) {HR : RegisterOk R} (M : Type) {HM : Memory R M}
  {HO : MemoryOk R M} := {
  mem_flags : M -> list Z;
  mem_flags_length m : mem_ok m -> memory_size m = Z.of_nat (length (mem_flags m)) * 4096;
  mem_fetch_flag_in m p v :
    mem_ok m -> 0 <= p -> mem_flags m !! Z.to_nat p = Some v -> fetch_flag p m = (Ok v, m);
}.

#[export] Instance flat_flags_spec (R : Register) (HR : RegisterOk R)
  : MemoryFlags R (FlatMemory R).
Proof.
  refine {| mem_flags := flat_flags |}.
  - intros m Hm. change (memory_size m) with (flat_memory_size m).
    rewrite (fo_pages _ Hm), (fo_flags _ Hm). done.
  - intros m p v Hm Hp Hv. change (fetch_flag p m) with (flat_fetch_flag p m).
    unfold flat_fetch_flag. rewrite Hv. pose proof (fo_flags _ Hm).
    apply lookup_lt_Some in Hv. rewrite (proj2 (Z.ltb_lt _ _)) by lia. done.
Defined.

Section wxorx.
Context {R : Register} {HR : RegisterOk R} {M : Type} {HM : Memory R M} {HO : MemoryOk R M}
  {HF : MemoryFlags R M}.
Implicit Types m : WXorXMemory M.

(** The pages of [p, p + n) in order, the first whose W^X bit is not [flag]'s. *)
Fixpoint first_mismatch (flags : list Z) (flag : Z) (p : Z) (n : nat) : option Z :=
  match n with
  | O => None
  | S n' =>
      match flags !! Z.to_nat p with
      | Some v =>
          if Z.land v FLAG_WXORX_BIT =? Z.land flag FLAG_WXORX_BIT
          then first_mismatch flags flag (p + 1) n'
          else Some p
      | None => None
      end
  end.

(** The number of pages an access of [n] bytes at [a] touches. *)
Definition pages_touched (a n : Z) : nat := Z.to_nat ((a + n - 1) / 4096 - a / 4096 + 1).

Definition refused_page m (flag a n : Z) : option Z :=
  first_mismatch (mem_flags (wx_inner m)) flag (a / 4096) (pages_touched a n).

Lemma check_permission_spec flag (n : nat) p m :
  wx_ok m -> 0 <= p -> p + Z.of_nat n <= Z.of_nat (length (mem_flags (wx_inner m))) ->
  for_range n p (fun page =>
    page_flag ← wx_fetch_flag page;
    if negb (Z.land page_flag FLAG_WXORX_BIT =? Z.land flag FLAG_WXORX_BIT)
    then fail (MemWriteOnExecutablePage page) else mret tt) m =
  (match first_mismatch (mem_flags (wx_inner m)) flag p n with
   | Some q => Err (MemWriteOnExecutablePage q) | None => Ok tt end, m).
Proof.
  intros Hm. revert p. induction n as [|n IH]; intros p H0 Hn; [done|].
  cbn [for_range first_mismatch].
  destruct (lookup_lt_is_Some_2 (mem_flags (wx_inner m)) (Z.to_nat p)) as [v Hv]; [lia|].
  rewrite Hv.
  assert (E : wx_fetch_flag p m = (Ok v, m)).
  { unfold wx_fetch_flag, wx_lift, zoom. rewrite (mem_fetch_flag_in _ _ v) by done.
    by destruct m. }
  destruct (Z.land v FLAG_WXORX_BIT =? Z.land flag FLAG_WXORX_BIT) eqn:Eb.
  - erewrite bind_Ok; [apply IH; lia|]. erewrite bind_Ok by exact E. rewrite Eb. done.
  - erewrite bind_Err; [done|]. erewrite bind_Ok by exact E. rewrite Eb. done.
Qed.

Lemma wx_check_spec flag a n m :
  wx_ok m -> in_u 64 a -> in_u 64 n -> 0 < n -> in_bounds a n (wx_memory_size m) ->
  wx_check a n flag m =
  (match refused_page m flag a n with
   | Some q => Err (MemWriteOnExecutablePage q) | None => Ok tt end, m).
Proof.
  intros Hm Ha Hn Hpos Hb. pose proof (mem_size_range (wx_inner m) Hm) as Hsz.
  unfold wx_check. erewrite bind_Ok by (by apply check_no_overflow_ok).
  rewrite (page_indices_eq _ _ (wx_memory_size m)) by done.
  unfold check_permission, for_pages. cbn [fst snd].
  destruct Ha, Hb. pose proof (mem_flags_length (wx_inner m) Hm) as Hl.
  unfold wx_memory_size in *. rewrite Hl in *.
  apply check_permission_spec; [done|apply Z.div_pos; lia|].
  assert (a / 4096 <= (a + n - 1) / 4096) by (apply Z.div_le_mono; lia).
  rewrite Z2Nat.id by lia. dlia.
Qed.

Lemma wx_check_out flag a n m :
  wx_ok m -> in_u 64 a -> in_u 64 n -> ~ in_bounds a n (wx_memory_size m) ->
  exists b, wx_check a n flag m = (Err (MemOutOfBound b Memory_), m).
Proof.
  intros Hm Ha Hn Hb.
  destruct (check_no_overflow_err a n (wx_memory_size m) m) as [b E]; [done..|by apply mem_size_range|done|].
  exists b. unfold wx_check. by erewrite bind_Err by exact E.
Qed.

(** [op] runs [inner] if all pages touched carry [flag], and otherwise fails on
    the first page that does not; out of bounds it fails; a failure changes
    nothing. *)
Definition guarded {A} (flag a n : Z) (op : ST (WXorXMemory M) A) (inner : ST M A) m : Prop :=
  if decide (in_bounds a n (wx_memory_size m)) then
    match refused_page m flag a n with
    | Some q => op m = (Err (MemWriteOnExecutablePage q), m)
    | None => op m = (let (o, i) := inner (wx_inner m) in (o, WXorX i))
    end
  else exists b, op m = (Err (MemOutOfBound b Memory_), m).

Lemma guarded_intro {A} flag a n (inner : ST M A) m :
  wx_ok m -> in_u 64 a -> in_u 64 n -> 0 < n ->
  guarded flag a n (wx_check a n flag;; wx_lift inner) inner m.
Proof.
  intros Hm Ha Hn Hp. unfold guarded. case_decide as Hb.
  - pose proof (wx_check_spec flag a n m Hm Ha Hn Hp Hb) as E.
    destruct (refused_page m flag a n).
    + by erewrite bind_Err by exact E.
    + by erewrite bind_Ok by exact E.
  - destruct (wx_check_out flag a n m Hm Ha Hn Hb) as [b E]. exists b.
    by erewrite bind_Err by exact E.
Qed.
End wxorx.

(** C11: W^X.  Every store through the W^X layer (8, 16, 32, 64 bits, a byte slice,
    a memset) reaches the memory below only if all pages it touches are
    writable, and every instruction fetch only if all pages are executable; an
    access that touches another page fails with [MemWriteOnExecutablePage] of the
    first such page, one outside the memory with [MemOutOfBound], and neither
    changes the memory. *)
Theorem wxorx_guarded (R : Register) (HR : RegisterOk R) (M : Type) (HM : Memory R M)
  (HO : MemoryOk R M) (HF : MemoryFlags R M) (m : WXorXMemory M)
  (addr value : reg R) (a size byte : Z) (bytes : list Z) :
  wx_ok m -> reg_ok addr -> in_u 64 a -> in_u 64 size -> 0 < size ->
  bytes <> [] -> in_u 64 (Z.of_nat (length bytes)) ->
  let W n := guarded (A:=unit) FLAG_WRITABLE (to_u64 addr) n in
  W 1 (wx_store8 addr value) (store8 addr value) m /\
  W 2 (wx_store16 addr value) (store16 addr value) m /\
  W 4 (wx_store32 addr value) (store32 addr value) m /\
  W 8 (wx_store64 addr value) (store64 addr value) m /\
  guarded FLAG_WRITABLE a (Z.of_nat (length bytes)) (wx_store_bytes a bytes)
    (store_bytes a bytes) m /\
  guarded FLAG_WRITABLE a size (wx_store_byte a size byte) (store_byte a size byte) m /\
  guarded FLAG_EXECUTABLE a 2 (wx_execute_load16 a) (execute_load16 a) m /\
  guarded FLAG_EXECUTABLE a 4 (wx_execute_load32 a) (execute_load32 a) m.
Proof.
  intros Hm Haddr Ha Hsz Hpos Hne Hlen. cbv zeta.
  pose proof (to_u64_range _ Haddr) as Ha'.
  split_and!; try (apply guarded_intro; [done|done|split; lia|lia]).
  - unfold wx_store_bytes. destruct bytes as [|b l]; [done|].
    apply (guarded_intro FLAG_WRITABLE a (Z.of_nat (length (b :: l)))); [done..|simpl; lia].
  - unfold wx_store_byte. rewrite (proj2 (Z.eqb_neq size 0)) by lia. by apply guarded_intro.
Qed.

(** A flat memory of two pages, the first executable. *)
Definition wx_example : WXorXMemory (FlatMemory u64_register) :=
  WXorX (flat_set_flags [FLAG_EXECUTABLE; 0] (flat_of 8192)).

Lemma wx_example_ok : wx_ok wx_example.
Proof.
  unfold wx_example, wx_ok. cbn [wx_inner]. pose proof flat_of_ok as H.
  constructor; try apply H. repeat constructor; vm_compute; congruence.
Qed.

Lemma wxorx_guarded_witness :
  guarded FLAG_WRITABLE 4095 2 (wx_store16 (R:=u64_register) 4095 7) (store16 (R:=u64_register) 4095 7) wx_example /\
  refused_page wx_example FLAG_WRITABLE 4095 2 = Some 0.
Proof.
  split; [|vm_compute; reflexivity].
  apply (wxorx_guarded u64_register u64_ok (FlatMemory u64_register) _ _ _ wx_example
    4095 7 0 4 0 [1]); [apply wx_example_ok|split; done..|lia|done|split; done].
Defined.

(** * Loading a segment *)

(** What [init_pages] puts into [size] bytes: [offset] zeros, the source cut to
    the rest, and zeros. *)
Definition page_image (size : Z) (source : option (list Z)) (offset : Z) : list Z :=
  let pre := replicate (Z.to_nat (Z.min size offset)) 0 in
  let body := take (Z.to_nat size - length pre) (default [] source) in
  pre ++ body ++ replicate (Z.to_nat size - length pre - length body) 0.

Lemma page_image_length size source offset :
  0 <= size -> 0 <= offset -> length (page_image size source offset) = Z.to_nat size.
Proof.
  intros. unfold page_image. rewrite !length_app, !length_replicate, length_take. lia.
Qed.

Section init.
Context {R : Register} {HR : RegisterOk R}.
Implicit Types m : FlatMemory R.

(** [flat_put], with nothing to do for an empty write. *)
Definition flat_fill (a : Z) (bs : list Z) m : FlatMemory R :=
  match bs with [] => m | _ => flat_put a bs m end.

Lemma mark_flags_mark f p q r flags :
  (forall v, f (f v) = f v) -> p <= q -> q <= r ->
  forall q', q' = q \/ q' = q + 1 -> q' <= r ->
  mark_flags f q' r (mark_flags f p q flags) = mark_flags f p r flags.
Proof.
  intros Hf Hp Hr q' Hq' Hr'. apply list_eq. intros i. rewrite !mark_flags_lookup.
  destruct (flags !! i) as [v|]; simpl; [|done]. f_equal.
  case_bools; rewrite ?Hf; done || lia.
Qed.

Lemma flat_fill_app a l1 l2 m :
  flat_ok m -> 0 <= a -> a + Z.of_nat (length (l1 ++ l2)) <= flat_memory_size m ->
  flat_fill (a + Z.of_nat (length l1)) l2 (flat_fill a l1 m) = flat_fill a (l1 ++ l2) m.
Proof.
  intros Hm Ha Hb. rewrite length_app in Hb. pose proof (fo_data _ Hm) as Hd.
  destruct l1 as [|x1 l1]; [by rewrite Z.add_0_r|].
  destruct l2 as [|x2 l2]; [by rewrite app_nil_r|].
  unfold flat_fill. cbn [app]. change (x1 :: l1 ++ x2 :: l2) with ((x1 :: l1) ++ (x2 :: l2)).
  remember (x1 :: l1) as b1 eqn:E1. remember (x2 :: l2) as b2 eqn:E2.
  assert (Hn1 : (0 < length b1)%nat) by (subst; simpl; lia).
  assert (Hn2 : (0 < length b2)%nat) by (subst; simpl; lia). clear E1 E2 x1 l1 x2 l2.
  unfold flat_put. cbn [flat_data flat_flags flat_memory_size flat_riscv_pages
    flat_load_reservation_address]. f_equal.
  - rewrite length_app.
    replace (Z.to_nat (a + Z.of_nat (length b1))) with (Z.to_nat a + length b1)%nat by lia.
    rewrite !app_assoc. rewrite take_app_length' by (rewrite length_app, length_take; lia).
    rewrite drop_app_ge by (rewrite length_app, length_take; lia).
    rewrite drop_drop, length_app, length_take. do 2 f_equal. lia.
  - rewrite length_app, Nat2Z.inj_add, Z.add_assoc. apply mark_flags_mark.
    + intros v. rewrite <- Z.lor_assoc. done.
    + apply Z.div_le_mono; lia.
    + apply Z.div_le_mono; lia.
    + dlia.
    + apply Z.div_le_mono; lia.
Qed.

Lemma flat_fill_ok a bs m :
  flat_ok m -> Forall is_byte bs -> in_u 64 a ->
  a + Z.of_nat (length bs) <= flat_memory_size m ->
  flat_ok (flat_fill a bs m) /\ flat_memory_size (flat_fill a bs m) = flat_memory_size m.
Proof.
  intros Hm Hbs Ha Hb. destruct bs as [|x l]; [done|]. split; [|done].
  apply flat_put_ok; [done..|]. destruct Ha. split; [simpl in *; lia|done].
Qed.

Lemma flat_store_bytes_fill a bs m :
  flat_ok m -> in_u 64 a -> a + Z.of_nat (length bs) <= flat_memory_size m ->
  flat_store_bytes a bs m = (Ok tt, flat_fill a bs m).
Proof.
  intros Hm Ha Hb. destruct bs as [|x l]; [done|].
  unfold flat_store_bytes. cbv zeta. rewrite (proj2 (Z.eqb_neq _ _)) by (simpl; lia).
  rewrite flat_store_raw_ok; [done..|]. destruct Ha. split; [simpl in *; lia|done].
Qed.

Lemma flat_store_byte_fill a n v m :
  flat_ok m -> in_u 64 a -> 0 <= n -> a + n <= flat_memory_size m ->
  flat_store_byte a n v m = (Ok tt, flat_fill a (replicate (Z.to_nat n) v) m).
Proof.
  intros Hm Ha Hn Hb. rewrite <- flat_store_bytes_fill by (rewrite ?length_replicate; done || lia).
  unfold flat_store_byte, flat_store_bytes. cbv zeta. by rewrite length_replicate, Z2Nat.id by lia.
Qed.

(** The state after the bytes [l] have been written at [a], and one more write
    behind them. *)
Lemma fill_bytes_step a l bs m :
  flat_ok m -> in_u 64 a -> Forall is_byte l -> Forall is_byte bs ->
  a + Z.of_nat (length l) + Z.of_nat (length bs) <= flat_memory_size m ->
  flat_store_bytes (wadd 64 a (Z.of_nat (length l))) bs (flat_fill a l m) =
  (Ok tt, flat_fill a (l ++ bs) m).
Proof.
  intros Hm Ha Hl Hbs Hb. pose proof Ha as [Ha1 Ha2]. pose proof (fo_size _ Hm) as [_ Hmax].
  destruct (flat_fill_ok a l m) as [Hok Hsz]; [done..|lia|].
  destruct bs as [|x bs]; [by rewrite app_nil_r|].
  unfold wadd. rewrite wrap_small by (split; simpl in *; lia).
  rewrite flat_store_bytes_fill, flat_fill_app; try done; rewrite ?length_app; try lia.
  split; simpl in *; lia.
Qed.

Lemma fill_zeros_step a l n m :
  flat_ok m -> in_u 64 a -> Forall is_byte l -> 0 <= n ->
  a + Z.of_nat (length l) + n <= flat_memory_size m ->
  flat_store_byte (wadd 64 a (Z.of_nat (length l))) n 0 (flat_fill a l m) =
  (Ok tt, flat_fill a (l ++ replicate (Z.to_nat n) 0) m).
Proof.
  intros Hm Ha Hl Hn Hb.
  rewrite <- fill_bytes_step; [|done|done|done|by apply Forall_replicate|rewrite length_replicate; lia].
  unfold flat_store_byte, flat_store_bytes. cbv zeta. by rewrite length_replicate, Z2Nat.id by lia.
Qed.

Lemma take_min_length {A} k (l : list A) : take (Nat.min k (length l)) l = take k l.
Proof.
  destruct (Nat.le_ge_cases k (length l)); [by rewrite Nat.min_l|].
  by rewrite Nat.min_r, !take_ge by lia.
Qed.

Lemma wsub_small a b : in_u 64 a -> 0 <= b <= a -> wsub 64 a b = a - b.
Proof. intros [? ?] ?. unfold wsub. apply wrap_small. split; lia. Qed.

Lemma flat_init_pages_spec a size flags src off m :
  flat_ok m -> in_u 64 a -> in_u 64 size -> in_u 64 off -> a + size <= flat_memory_size m ->
  match src with Some l => Forall is_byte l | None => True end ->
  flat_init_pages a size flags src off m = (Ok tt, flat_fill a (page_image size src off) m).
Proof.
  intros Hm Ha Hsz Hoff Hb Hsrc. pose proof Ha as [Ha1 Ha2]. pose proof Hsz as [Hs1 Hs2].
  pose proof Hoff as [Ho1 Ho2]. pose proof (fo_size _ Hm) as [_ Hmax].
  unfold flat_init_pages, fill_page_data, page_image. cbv zeta.
  rewrite length_replicate. set (n := Z.to_nat (Z.min size off)).
  set (pre := replicate n 0). set (body := take (Z.to_nat size - n) (default [] src)).
  assert (Hpre : Forall is_byte pre) by (by apply Forall_replicate).
  assert (Hlen : length pre = n) by apply length_replicate.
  assert (Hbody : Forall is_byte body) by (subst body; destruct src; [by apply Forall_take|cbn [default from_option]; rewrite take_nil; constructor]).
  assert (Hblen : (length body <= Z.to_nat size - n)%nat) by (subst body; rewrite length_take; lia).
  erewrite bind_Ok with (a := Z.of_nat n) (s' := flat_fill a pre m).
  2:{ pose proof (fill_zeros_step a [] (Z.of_nat n) m) as Hz. simpl in Hz.
      destruct (Z.ltb_spec 0 off).
      - unfold wadd in Hz. rewrite Z.add_0_r, wrap_small, Nat2Z.id in Hz by done.
        subst n. rewrite Z2Nat.id in * by lia. erewrite bind_Ok by (apply Hz; done || lia). done.
      - subst pre n. replace off with 0 by lia. by rewrite Z.min_r by lia. }
  erewrite bind_Ok with (a := Z.of_nat (n + length body)) (s' := flat_fill a (pre ++ body) m).
  2:{ subst body. destruct src as [l|]; cbn [default from_option id] in *;
        [|by rewrite take_nil, app_nil_r, Nat.add_0_r].
      rewrite wsub_small by (done || lia).
      replace (Z.to_nat (Z.min (size - Z.of_nat n) (Z.of_nat (length l))))
        with (Nat.min (Z.to_nat size - n) (length l)) by lia.
      rewrite take_min_length, length_take. case_bool.
      - pose proof (fill_bytes_step a pre (take (Z.to_nat size - n) l) m) as Hy.
        rewrite Hlen, length_take in Hy.
        erewrite bind_Ok by (apply Hy; [done..|lia]). unfold wadd. rewrite wrap_small by (split; lia).
        match goal with |- mret ?x _ = (Ok ?y, _) => replace x with y by lia end. done.
      - replace (Nat.min (Z.to_nat size - n) (length l)) with 0%nat by lia.
        rewrite <- take_min_length, Nat.add_0_r.
        replace (Nat.min (Z.to_nat size - n) (length l)) with 0%nat by lia. by rewrite app_nil_r. }
  pose proof (fill_zeros_step a (pre ++ body) (size - Z.of_nat (n + length body)) m) as Hz.
  rewrite length_app, Hlen in Hz. rewrite wsub_small by (done || lia). case_bool.
  - rewrite Hz; [|done|done|by apply Forall_app|lia|lia]. rewrite <- app_assoc. do 5 f_equal. lia.
  - replace (Z.to_nat size - n - length body)%nat with 0%nat by lia. by rewrite app_nil_r.
Qed.

(** The first frozen page of [p, p + n). *)
Fixpoint first_frozen (flags : list Z) (p : Z) (n : nat) : option Z :=
  match n with
  | O => None
  | S n' =>
      match flags !! Z.to_nat p with
      | Some v => if Z.land v FLAG_FREEZED =? 0 then first_frozen flags (p + 1) n' else Some p
      | None => None
      end
  end.

Definition mark_pages (flags p q : Z) m : FlatMemory R :=
  flat_set_flags (mark_flags (fun v => Z.lor v flags) p q (flat_flags m)) m.

Lemma first_frozen_insert flags p (n : nat) q v :
  0 <= q < p -> first_frozen (<[Z.to_nat q := v]> flags) p n = first_frozen flags p n.
Proof.
  revert p. induction n as [|n IH]; intros p Hq; [done|]. cbn [first_frozen].
  rewrite list_lookup_insert_ne by lia. destruct (flags !! Z.to_nat p); [|done].
  by rewrite IH by lia.
Qed.

Lemma first_frozen_range flags p n q : first_frozen flags p n = Some q -> p <= q.
Proof.
  revert p. induction n as [|n IH]; intros p; [done|]. cbn [first_frozen].
  destruct (flags !! Z.to_nat p); [|done]. case_bool; intros H; [apply IH in H|simplify_eq]; lia.
Qed.

Lemma mark_pages_step flags p q m v :
  0 <= p <= q -> flat_flags m !! Z.to_nat p = Some v ->
  mark_pages flags (p + 1) q
    (flat_set_flags (<[Z.to_nat p := Z.lor v flags]> (flat_flags m)) m) = mark_pages flags p q m.
Proof.
  intros. unfold mark_pages. simpl.
  by rewrite (mark_flags_step (fun v => Z.lor v flags)) by done.
Qed.

Lemma wx_init_page_flag_spec flags p v m :
  flat_ok m -> 0 <= p < flat_riscv_pages m -> flat_flags m !! Z.to_nat p = Some v ->
  wx_init_page_flag p flags (WXorX m) =
  if Z.land v FLAG_FREEZED =? 0
  then (Ok tt, WXorX (flat_set_flags (<[Z.to_nat p := Z.lor v flags]> (flat_flags m)) m))
  else (Err (MemWriteOnFreezedPage p), WXorX m).
Proof.
  intros Hm Hp Hv. unfold wx_init_page_flag.
  assert (E : wx_fetch_flag p (WXorX m) = (Ok v, WXorX m)).
  { unfold wx_fetch_flag, wx_lift, zoom. cbn [wx_inner].
    rewrite (mem_fetch_flag_in m p v); [done|exact Hm|lia|exact Hv]. }
  erewrite bind_Ok by exact E. destruct (Z.land v FLAG_FREEZED =? 0); [|done]. cbn [negb].
  unfold wx_set_flag, wx_lift, zoom. cbn [wx_inner].
  change (set_flag p flags m) with (flat_update_flag (fun v => Z.lor v flags) p m).
  by rewrite (flat_update_flag_in _ _ _ v).
Qed.

Lemma wx_init_flags_loop flags a k (n : nat) m :
  flat_ok m -> is_byte flags -> 0 <= a -> a mod 4096 = 0 -> 0 <= k ->
  a / 4096 + k + Z.of_nat n <= flat_riscv_pages m ->
  for_range n k (fun k =>
    let page_addr := a + k * RISCV_PAGESIZE in
    wx_init_page_flag (page_addr / RISCV_PAGESIZE) flags) (WXorX m) =
  match first_frozen (flat_flags m) (a / 4096 + k) n with
  | Some q => (Err (MemWriteOnFreezedPage q), WXorX (mark_pages flags (a / 4096 + k) (q - 1) m))
  | None => (Ok tt, WXorX (mark_pages flags (a / 4096 + k) (a / 4096 + k + Z.of_nat n - 1) m))
  end.
Proof.
  intros Hm Hf Ha Hal. revert k m Hm. induction n as [|n IH]; intros k m Hm Hk Hn.
  - simpl. unfold mark_pages. rewrite mark_flags_empty by lia. by destruct m.
  - cbn [for_range first_frozen].
    assert (0 <= a / 4096) by (apply Z.div_pos; lia).
    destruct (flat_flag_lookup m (a / 4096 + k) Hm) as [v Hv]; [lia|]. rewrite Hv.
    assert (Hp : (a + k * RISCV_PAGESIZE) / RISCV_PAGESIZE = a / 4096 + k)
      by (change RISCV_PAGESIZE with 4096; rewrite Z.div_add by lia; lia).
    pose proof (wx_init_page_flag_spec flags (a / 4096 + k) v m Hm ltac:(lia) Hv) as E.
    destruct (Z.land v FLAG_FREEZED =? 0) eqn:Ef.
    + erewrite bind_Ok by (cbv zeta; rewrite Hp; exact E).
      rewrite IH; [|split; try apply Hm; simpl|lia|simpl; lia].
      * simpl. replace (a / 4096 + (k + 1)) with (a / 4096 + k + 1) by lia.
        rewrite first_frozen_insert by lia.
        destruct (first_frozen (flat_flags m) (a / 4096 + k + 1) n) as [q|] eqn:Eq.
        -- apply first_frozen_range in Eq. by rewrite mark_pages_step by (done || lia).
        -- rewrite mark_pages_step by (done || lia). do 3 f_equal. lia.
      * rewrite length_insert. apply Hm.
      * apply Forall_insert; [apply Hm|]. apply lor_byte; [|done].
        apply (Forall_lookup_1 _ _ _ _ (fo_flag_bytes _ Hm) Hv).
    + erewrite bind_Err by (cbv zeta; rewrite Hp; exact E). do 2 f_equal. unfold mark_pages. rewrite mark_flags_empty by lia. by destruct m.
Qed.

(** ** Reading back a filled range *)

Lemma page_image_bytes size src off : Forall is_byte src ->
  Forall is_byte (page_image size (Some src) off).
Proof.
  intros Hs. unfold page_image. cbn [default from_option].
  repeat (apply Forall_app; split); try (by apply Forall_replicate). by apply Forall_take.
Qed.

Lemma mark_pages_ok f a b m : flat_ok m -> is_byte f -> flat_ok (mark_pages f a b m).
Proof.
  intros Hm Hf. constructor; simpl; try apply Hm; [by rewrite mark_flags_length; apply Hm|].
  apply mark_flags_bytes; [intros; by apply lor_byte|apply Hm].
Qed.

Lemma get_fill a bs m : flat_ok m -> 0 <= a ->
  a + Z.of_nat (length bs) <= flat_memory_size m ->
  flat_get a (Z.of_nat (length bs)) (flat_fill a bs m) = bs.
Proof. destruct bs as [|b bs]; [done|]. by apply flat_get_put. Qed.

Lemma get_fill_ne a bs m b n : flat_ok m -> 0 <= a ->
  a + Z.of_nat (length bs) <= flat_memory_size m ->
  0 <= b -> 0 <= n -> b + n <= flat_memory_size m ->
  b + n <= a \/ a + Z.of_nat (length bs) <= b ->
  flat_get b n (flat_fill a bs m) = flat_get b n m.
Proof. destruct bs as [|x bs]; [done|]. intros. by apply flat_get_put_ne. Qed.

Lemma flat_get_sub a size k n m : 0 <= a -> 0 <= k -> 0 <= n -> k + n <= size ->
  flat_get (a + k) n m = take (Z.to_nat n) (drop (Z.to_nat k) (flat_get a size m)).
Proof.
  intros. unfold flat_get. rewrite skipn_firstn_comm, take_take, drop_drop.
  f_equal; [lia|]. f_equal. lia.
Qed.

End init.

(** [init_pages] of the W^X layer on a range inside the memory. *)
Lemma wx_init_pages_eq (R : Register) (HR : RegisterOk R) (m : FlatMemory R)
  (a size flags off : Z) (src : option (list Z)) :
  flat_ok m -> in_u 64 a -> in_u 64 size -> in_u 64 off -> is_byte flags ->
  match src with Some l => Forall is_byte l | None => True end ->
  a mod 4096 = 0 -> size mod 4096 = 0 -> a + size <= flat_memory_size m -> off <= size ->
  let p := a / 4096 in
  let n := Z.to_nat (size / 4096) in
  wx_init_pages a size flags src off (WXorX m) =
    match first_frozen (flat_flags m) p n with
    | Some q => (Err (MemWriteOnFreezedPage q), WXorX (mark_pages flags p (q - 1) m))
    | None =>
        (Ok tt, WXorX (flat_fill a (page_image size src off)
                                 (mark_pages flags p (p + Z.of_nat n - 1) m)))
    end /\
  length (page_image size src off) = Z.to_nat size.
Proof.
  intros Hm Ha Hsz Hoff Hf Hsrc Hal Hsl Hb Ho. cbv zeta.
  pose proof Ha as [Ha1 Ha2]. pose proof Hsz as [Hs1 Hs2]. pose proof (fo_size _ Hm) as [_ Hmax].
  split; [|apply page_image_length; [lia|apply Hoff]].
  assert (Hw : wadd 64 a size = a + size) by (unfold wadd; apply wrap_small; split; lia).
  unfold wx_init_pages, round_page_down, round_page_up. change (wx_memory_size (WXorX m)) with (flat_memory_size m).
  change RISCV_PAGESIZE with (2 ^ 12). rewrite rounddown_eq, roundup_eq by (done || lia).
  change (2 ^ 12) with 4096. rewrite Hw.
  rewrite (proj2 (Z.eqb_eq (a - a mod 4096) a)) by lia.
  replace ((- size) mod 4096) with 0 by (rewrite Z.mod_opp_l_z; lia).
  rewrite Z.add_0_r, (wrap_small 64 size), Z.eqb_refl by done. cbn [negb].
  rewrite !(proj2 (Z.ltb_ge _ _)) by lia. cbn [orb].
  pose proof (wx_init_flags_loop flags a 0 (Z.to_nat (size / 4096)) m Hm Hf Ha1 Hal) as Hloop.
  rewrite Z.add_0_r in Hloop.
  assert (Hcount : Z.to_nat ((a + size - a + RISCV_PAGESIZE - 1) / RISCV_PAGESIZE)
                   = Z.to_nat (size / 4096)) by (change RISCV_PAGESIZE with 4096; f_equal; dlia).
  unfold wx_init_flags. rewrite Hw, Hcount. pose proof (fo_pages _ Hm).
  rewrite (Z2Nat.id (size / 4096)) in * by (apply Z.div_pos; lia).
  destruct (first_frozen (flat_flags m) (a / 4096) (Z.to_nat (size / 4096))) as [q|];
    [erewrite bind_Err by (apply Hloop; [lia|dlia]); done|].
  erewrite bind_Ok by (apply Hloop; [lia|dlia]).
  unfold wx_lift, zoom. cbn [wx_inner].
  assert (Hmk : flat_ok (mark_pages flags (a / 4096) (a / 4096 + size / 4096 - 1) m)).
  { constructor; simpl; try apply Hm; [by rewrite mark_flags_length; apply Hm|].
    apply mark_flags_bytes; [intros; by apply lor_byte|apply Hm]. }
  change (init_pages a size flags src off ?x) with (flat_init_pages (R:=R) a size flags src off x).
  by rewrite flat_init_pages_spec.
Qed.

(** C32: loading a segment through the W^X layer.  For a page-aligned range inside
    the memory the call fails on the first frozen page, having changed only the
    flags of the pages before it, and otherwise gives all pages the new flags and
    fills the range with [offset] zeros, the source bytes cut to the range, and
    zeros up to its end; every other byte keeps its value. *)
Theorem wx_init_pages_spec (R : Register) (HR : RegisterOk R) (m : FlatMemory R)
  (a size flags off : Z) (src : option (list Z)) :
  flat_ok m -> in_u 64 a -> in_u 64 size -> in_u 64 off -> is_byte flags ->
  match src with Some l => Forall is_byte l | None => True end ->
  a mod 4096 = 0 -> size mod 4096 = 0 -> a + size <= flat_memory_size m -> off <= size ->
  let p := a / 4096 in
  let n := Z.to_nat (size / 4096) in
  wx_init_pages a size flags src off (WXorX m) =
    match first_frozen (flat_flags m) p n with
    | Some q => (Err (MemWriteOnFreezedPage q), WXorX (mark_pages flags p (q - 1) m))
    | None =>
        (Ok tt, WXorX (flat_fill a (page_image size src off)
                                 (mark_pages flags p (p + Z.of_nat n - 1) m)))
    end /\
  length (page_image size src off) = Z.to_nat size.
Proof. exact (wx_init_pages_eq R HR m a size flags off src). Qed.

Lemma wx_init_pages_spec_witness :
  wx_init_pages 4096 4096 FLAG_EXECUTABLE (Some [1; 2; 3]) 2 (WXorX (flat_of 8192)) =
  (Ok tt, WXorX (flat_fill 4096 (page_image 4096 (Some [1; 2; 3]) 2)
                           (mark_pages FLAG_EXECUTABLE 1 1 (flat_of 8192)))).
Proof.
  apply (wx_init_pages_spec u64_register u64_ok (flat_of 8192) 4096 4096 FLAG_EXECUTABLE 2
    (Some [1; 2; 3])); try (split; done); try done; try lia.
  - apply flat_of_ok.
  - repeat constructor; lia.
Defined.
