(* ===== verification/SparseFacts.v ===== *)
(** [SparseMemory] refines [FlatMemory]: its pages, allocated on demand and found
    through 16-bit indices, hold the same bytes and flags as a flat memory, and
    every access gives the same result. *)
From S2P Require Import Prelude Outcome Bits Register RegisterFacts Insts Memory MemoryFacts.
From S2P Require Import MemoryOk WXorXFacts.
From stdpp Require Import base list numbers.
Open Scope Z_scope.

(** The length of a page, kept folded. *)
Definition page_len : nat := Z.to_nat 4096.
Lemma page_len_Z : Z.of_nat page_len = 4096.
Proof. done. Qed.
#[global] Opaque page_len.

Section sparse.
Context {R : Register} {HR : RegisterOk R}.
Implicit Types m : SparseMemory R.

Definition zero_page : list Z := replicate page_len 0.

(** The content of the page with a given index. *)
Definition page_of (pages : list (list Z)) (index : Z) : list Z :=
  if index =? INVALID_PAGE_INDEX then zero_page else default zero_page (pages !! Z.to_nat index).

(** The flat memory a sparse memory stands for. *)
Definition sp_view m : FlatMemory R :=
  {| flat_data := concat (page_of (sp_pages m) <$> sp_indices m);
     flat_flags := sp_flags m; flat_memory_size := sp_memory_size m;
     flat_riscv_pages := sp_riscv_pages m;
     flat_load_reservation_address := sp_load_reservation_address m |}.

Definition is_page (p : list Z) : Prop := length p = page_len /\ Forall is_byte p.

Record sp_ok (m : SparseMemory R) : Prop := {
  so_size : in_u 64 (sp_memory_size m);
  so_pages : sp_memory_size m = sp_riscv_pages m * 4096;
  so_limit : sp_riscv_pages m <= INVALID_PAGE_INDEX;
  so_indices : Z.of_nat (length (sp_indices m)) = sp_riscv_pages m;
  so_flags : Z.of_nat (length (sp_flags m)) = sp_riscv_pages m;
  so_valid : forall i x, sp_indices m !! i = Some x -> x <> INVALID_PAGE_INDEX ->
    0 <= x < Z.of_nat (length (sp_pages m));
  so_inj : forall i j x, sp_indices m !! i = Some x -> sp_indices m !! j = Some x ->
    x <> INVALID_PAGE_INDEX -> i = j;
  so_count : length (filter (fun x => x <> INVALID_PAGE_INDEX) (sp_indices m)) =
             length (sp_pages m);
  so_content : Forall is_page (sp_pages m);
  so_flag_bytes : Forall is_byte (sp_flags m);
  so_lr : reg_ok (sp_load_reservation_address m);
}.

Lemma zero_page_ok : is_page zero_page.
Proof. split; [apply length_replicate|by apply Forall_replicate]. Qed.

Lemma page_of_ok pages x : Forall is_page pages -> is_page (page_of pages x).
Proof.
  intros H. unfold page_of. case_bool; [apply zero_page_ok|].
  destruct (pages !! Z.to_nat x) eqn:E; [|apply zero_page_ok].
  by apply (Forall_lookup_1 _ _ _ _ H E).
Qed.

(** * Lists of pages *)

Lemma concat_pages_length (l : list (list Z)) :
  Forall is_page l -> length (concat l) = (length l * page_len)%nat.
Proof. induction 1 as [|p l [Hp _] _ IH]; [done|]. cbn [concat length]. rewrite length_app, Hp, IH. lia. Qed.

Lemma concat_pages_bytes (l : list (list Z)) : Forall is_page l -> Forall is_byte (concat l).
Proof. induction 1 as [|p l [_ Hp] _ IH]; [done|]. simpl. by apply Forall_app. Qed.

Lemma concat_lookup_page (l : list (list Z)) i p :
  Forall is_page l -> l !! i = Some p -> take page_len (drop (i * page_len) (concat l)) = p.
Proof.
  intros Hl. revert i. induction Hl as [|q l [Hq _] _ IH]; intros i; [done|].
  destruct i as [|i]; cbn [lookup list_lookup concat].
  - intros [= ->]. by rewrite Nat.mul_0_l, drop_0, take_app_length'.
  - intros Hi. rewrite drop_app_ge by lia. rewrite Hq.
    replace (S i * page_len - page_len)%nat with (i * page_len)%nat by lia. by apply IH.
Qed.

(** Replacing a part of one page. *)
Lemma concat_insert_page (l : list (list Z)) i p off bs :
  Forall is_page l -> l !! i = Some p -> (off + length bs <= page_len)%nat ->
  concat (<[i := take off p ++ bs ++ drop (off + length bs) p]> l) =
  take (i * page_len + off) (concat l) ++ bs ++ drop (i * page_len + off + length bs) (concat l).
Proof.
  intros Hl. revert i. induction Hl as [|q l [Hq _] _ IH]; intros i; [done|].
  destruct i as [|i]; intros Hi Hb.
  - injection Hi as <-. cbn [insert list_insert concat]. rewrite Nat.mul_0_l, !Nat.add_0_l. rewrite take_app_le, drop_app_le by lia. by rewrite <- !app_assoc.
  - cbn [insert list_insert concat]. rewrite IH by done.
    rewrite take_app_ge, drop_app_ge by lia. rewrite Hq, app_assoc.
    f_equal; [do 2 f_equal; lia|]. do 2 f_equal; lia.
Qed.

Lemma page_of_insert pages j p (l : list Z) i x :
  Forall is_page pages -> (forall i x, l !! i = Some x -> x <> INVALID_PAGE_INDEX ->
    0 <= x < Z.of_nat (length pages)) ->
  (forall i j x, l !! i = Some x -> l !! j = Some x -> x <> INVALID_PAGE_INDEX -> i = j) ->
  l !! i = Some x -> x <> INVALID_PAGE_INDEX -> j = Z.to_nat x ->
  page_of (<[j := p]> pages) <$> l = <[i := p]> (page_of pages <$> l).
Proof.
  intros Hp Hv Hinj Hi Hx ->. apply list_eq. intros k.
  pose proof (Hv _ _ Hi Hx). rewrite list_lookup_fmap.
  destruct (decide (k = i)) as [->|Hne].
  - rewrite Hi. rewrite list_lookup_insert_eq
      by (rewrite length_fmap; by eapply lookup_lt_Some).
    simpl. unfold page_of. rewrite (proj2 (Z.eqb_neq _ _)) by done.
    by rewrite list_lookup_insert_eq by lia.
  - rewrite list_lookup_insert_ne, list_lookup_fmap by done.
    destruct (l !! k) as [y|] eqn:Hk; [|done]. simpl. f_equal. unfold page_of.
    destruct (Z.eqb_spec y INVALID_PAGE_INDEX) as [|Hy]; [done|].
    rewrite list_lookup_insert_ne; [done|]. pose proof (Hv _ _ Hk Hy).
    intros E. assert (x = y) as -> by lia. by apply Hne, (Hinj _ _ y).
Qed.

(** * Allocating a page *)

Lemma filter_insert_length (l : list Z) i y :
  l !! i = Some INVALID_PAGE_INDEX -> y <> INVALID_PAGE_INDEX ->
  length (filter (fun x => x <> INVALID_PAGE_INDEX) (<[i := y]> l)) =
  S (length (filter (fun x => x <> INVALID_PAGE_INDEX) l)).
Proof.
  intros Hi Hy. rewrite <- (take_drop_middle l i _ Hi) at 2.
  rewrite insert_take_drop by (by eapply lookup_lt_Some).
  rewrite !list.filter_app, !length_app.
  rewrite filter_cons_True by done. rewrite filter_cons_False by auto. cbn [length]. lia.
Qed.

Lemma filter_length_lt (l : list Z) i :
  l !! i = Some INVALID_PAGE_INDEX ->
  (length (filter (fun x => x <> INVALID_PAGE_INDEX) l) < length l)%nat.
Proof.
  intros Hi. pose proof (filter_insert_length l i 0 Hi ltac:(done)) as H.
  pose proof (length_filter (fun x => x <> INVALID_PAGE_INDEX) (<[i:=0]> l)) as H2.
  rewrite length_insert in H2. lia.
Qed.

(** The state after allocating the page [i]. *)
Definition sp_alloc (i : nat) m : SparseMemory R :=
  sp_set_indices (<[i := Z.of_nat (length (sp_pages m))]> (sp_indices m))
    (sp_set_pages (sp_pages m ++ [zero_page]) m).

Lemma sp_alloc_limit m i :
  sp_ok m -> sp_indices m !! i = Some INVALID_PAGE_INDEX ->
  Z.of_nat (length (sp_pages m)) < INVALID_PAGE_INDEX.
Proof.
  intros Hm Hi. pose proof (filter_length_lt _ _ Hi). pose proof (so_count _ Hm).
  pose proof (so_indices _ Hm). pose proof (so_limit _ Hm). lia.
Qed.

Lemma sp_alloc_ok m i :
  sp_ok m -> sp_indices m !! i = Some INVALID_PAGE_INDEX -> sp_ok (sp_alloc i m).
Proof.
  intros Hm Hi. pose proof (sp_alloc_limit m i Hm Hi) as Hlim.
  assert (Hl : (i < length (sp_indices m))%nat) by (by eapply lookup_lt_Some).
  constructor; simpl; try apply Hm.
  - rewrite length_insert. apply Hm.
  - intros j x Hj Hx. rewrite length_app. simpl.
    destruct (decide (j = i)) as [->|Hne].
    + rewrite list_lookup_insert_eq in Hj by done. simplify_eq. lia.
    + rewrite list_lookup_insert_ne in Hj by done. pose proof (so_valid _ Hm _ _ Hj Hx). lia.
  - intros j k x Hj Hk Hx.
    assert (Hfresh : forall j, j <> i -> sp_indices m !! j <> Some (Z.of_nat (length (sp_pages m)))).
    { intros j' _ Hj'. pose proof (so_valid _ Hm _ _ Hj' ltac:(lia)). lia. }
    destruct (decide (j = i)) as [->|Hnj], (decide (k = i)) as [->|Hnk]; [done|..];
      rewrite ?list_lookup_insert_eq, ?list_lookup_insert_ne in * by done; simplify_eq.
    + by apply Hfresh in Hk.
    + by apply Hfresh in Hj.
    + by apply (so_inj _ Hm j k x).
  - rewrite filter_insert_length by (done || lia). rewrite length_app. simpl.
    rewrite (so_count _ Hm). lia.
  - apply Forall_app. split; [apply Hm|]. constructor; [apply zero_page_ok|done].
Qed.

Lemma sp_alloc_view m i :
  sp_ok m -> sp_indices m !! i = Some INVALID_PAGE_INDEX -> sp_view (sp_alloc i m) = sp_view m.
Proof.
  intros Hm Hi. pose proof (sp_alloc_limit m i Hm Hi) as Hlim.
  unfold sp_view, sp_alloc. simpl. f_equal. f_equal. apply list_eq. intros k.
  rewrite !list_lookup_fmap. destruct (decide (k = i)) as [->|Hne].
  - rewrite list_lookup_insert_eq by (by eapply lookup_lt_Some). rewrite Hi. simpl. f_equal.
    unfold page_of. rewrite (proj2 (Z.eqb_neq _ _)) by lia. rewrite Z.eqb_refl, Nat2Z.id.
    by rewrite lookup_app_r, Nat.sub_diag by lia.
  - rewrite list_lookup_insert_ne by done. destruct (sp_indices m !! k) as [y|] eqn:Hk; [|done].
    simpl. f_equal. unfold page_of. destruct (Z.eqb_spec y INVALID_PAGE_INDEX) as [|Hy]; [done|].
    pose proof (so_valid _ Hm _ _ Hk Hy). by rewrite lookup_app_l by lia.
Qed.

(** [fetch_page] finds or allocates the page; the contents do not change. *)
Lemma sp_fetch_page_in p m :
  sp_ok m -> 0 <= p < sp_riscv_pages m ->
  exists x m', sp_fetch_page (p * 4096) m = (Ok (Z.to_nat x), m') /\
    sp_ok m' /\ sp_view m' = sp_view m /\ sp_indices m' !! Z.to_nat p = Some x /\
    x <> INVALID_PAGE_INDEX.
Proof.
  intros Hm Hp. unfold sp_fetch_page. change RISCV_PAGESIZE with 4096.
  rewrite Z.div_mul, (proj2 (Z.leb_gt _ _)) by lia.
  destruct (lookup_lt_is_Some_2 (sp_indices m) (Z.to_nat p)) as [x Hx];
    [pose proof (so_indices _ Hm); lia|].
  rewrite Hx. erewrite bind_Ok by done.
  destruct (Z.eqb_spec x INVALID_PAGE_INDEX) as [->|Hn].
  - pose proof (sp_alloc_limit m _ Hm Hx) as Hlim.
    assert (Hw : wrap 16 (Z.of_nat (length (sp_pages m ++ [zero_page])) - 1) =
                 Z.of_nat (length (sp_pages m))).
    { rewrite length_app. simpl. rewrite wrap_small; [lia|].
      split; [lia|]. change INVALID_PAGE_INDEX with 65535 in *. lia. }
    exists (Z.of_nat (length (sp_pages m))), (sp_alloc (Z.to_nat p) m).
    split_and!; [|by apply sp_alloc_ok|by apply sp_alloc_view| |lia].
    + erewrite bind_Ok by done. erewrite bind_Ok by done.
      cbn [sp_set_pages sp_pages]. change (replicate (Z.to_nat 4096) 0) with zero_page.
      rewrite Hw. erewrite bind_Ok by done. erewrite bind_Ok by done. cbn [sp_pages sp_set_indices].
      rewrite Nat2Z.id. cbn [sp_set_pages sp_pages].
      rewrite lookup_app_r, Nat.sub_diag by lia. done.
    + simpl. by rewrite list_lookup_insert_eq by (by eapply lookup_lt_Some).
  - exists x, m. pose proof (so_valid _ Hm _ _ Hx Hn).
    destruct (lookup_lt_is_Some_2 (sp_pages m) (Z.to_nat x)) as [pg Hpg]; [lia|].
    split_and!; try done. erewrite bind_Ok by done. by rewrite Hpg.
Qed.

Lemma sp_fetch_page_out p m :
  sp_riscv_pages m <= p ->
  sp_fetch_page (p * 4096) m = (Err (MemOutOfBound (p * 4096) Memory_), m).
Proof.
  intros Hp. unfold sp_fetch_page. change RISCV_PAGESIZE with 4096.
  by rewrite Z.div_mul, (proj2 (Z.leb_le _ _)) by lia.
Qed.

(** * One page: reading and writing *)

Lemma sp_pages_ok m : sp_ok m -> Forall is_page (page_of (sp_pages m) <$> sp_indices m).
Proof.
  intros Hm. apply Forall_fmap, Forall_true. intros x. apply page_of_ok, Hm.
Qed.

Lemma sp_view_ok m : sp_ok m -> flat_ok (sp_view m).
Proof.
  intros Hm. pose proof (sp_pages_ok m Hm) as Hp. constructor; simpl; try apply Hm.
  - rewrite concat_pages_length, length_fmap by done.
    pose proof (so_indices _ Hm). pose proof (so_pages _ Hm). pose proof page_len_Z. lia.
  - by apply concat_pages_bytes.
Qed.

Lemma sp_page_content p x m :
  sp_ok m -> sp_indices m !! p = Some x -> x <> INVALID_PAGE_INDEX ->
  exists pg, sp_pages m !! Z.to_nat x = Some pg /\ is_page pg /\
    (page_of (sp_pages m) <$> sp_indices m) !! p = Some pg.
Proof.
  intros Hm Hp Hx. pose proof (so_valid _ Hm _ _ Hp Hx).
  destruct (lookup_lt_is_Some_2 (sp_pages m) (Z.to_nat x)) as [pg Hpg]; [lia|].
  exists pg. split_and!; [done|by apply (Forall_lookup_1 _ _ _ _ (so_content _ Hm) Hpg)|].
  rewrite list_lookup_fmap, Hp. simpl. unfold page_of.
  by rewrite (proj2 (Z.eqb_neq _ _)), Hpg by done.
Qed.

Lemma sp_page_in p x m :
  sp_ok m -> 0 <= p -> sp_indices m !! Z.to_nat p = Some x -> x <> INVALID_PAGE_INDEX ->
  exists pg, sp_page (Z.to_nat x) m = (Ok pg, m) /\ is_page pg /\
    forall off n, 0 <= off -> 0 <= n -> off + n <= 4096 ->
      take (Z.to_nat n) (drop (Z.to_nat off) pg) = flat_get (p * 4096 + off) n (sp_view m).
Proof.
  intros Hm H0 Hp Hx. destruct (sp_page_content _ _ _ Hm Hp Hx) as (pg & Hpg & Hok & Hl).
  exists pg. unfold sp_page. rewrite Hpg. split_and!; [done|done|].
  intros off n Hoff Hn Hb. unfold flat_get. cbn [sp_view flat_data].
  rewrite <- (concat_lookup_page _ _ _ (sp_pages_ok m Hm) Hl) at 1.
  pose proof page_len_Z. rewrite List.skipn_firstn_comm, take_take, drop_drop.
  replace (Z.to_nat (p * 4096 + off)) with (Z.to_nat p * page_len + Z.to_nat off)%nat by lia.
  f_equal. lia.
Qed.

Lemma mark_one f p v flags :
  0 <= p -> flags !! Z.to_nat p = Some v ->
  mark_flags f p p flags = <[Z.to_nat p := f v]> flags.
Proof.
  intros. rewrite <- (mark_flags_step f p p flags v) by (done || lia).
  by rewrite mark_flags_empty by lia.
Qed.

(** Writing inside one page and marking it dirty is a write of the flat memory. *)
Lemma sp_write_page_view p x off bs m :
  sp_ok m -> 0 <= p -> sp_indices m !! Z.to_nat p = Some x -> x <> INVALID_PAGE_INDEX ->
  0 <= off -> off + Z.of_nat (length bs) <= 4096 -> bs <> [] -> Forall is_byte bs ->
  exists m', (sp_write_page (Z.to_nat x) off bs;; sp_set_flag p FLAG_DIRTY) m = (Ok tt, m') /\
    sp_ok m' /\ sp_view m' = flat_put (p * 4096 + off) bs (sp_view m).
Proof.
  intros Hm H0 Hp Hx Hoff Hb Hne Hbs. pose proof page_len_Z.
  destruct (sp_page_content _ _ _ Hm Hp Hx) as (pg & Hpg & [Hpl Hpb] & Hl).
  assert (Hlen : (0 < length bs)%nat) by (destruct bs; [done|simpl; lia]).
  assert (Hpn : p < sp_riscv_pages m) by (apply lookup_lt_Some in Hp; pose proof (so_indices _ Hm); lia).
  destruct (lookup_lt_is_Some_2 (sp_flags m) (Z.to_nat p)) as [v Hv]; [pose proof (so_flags _ Hm); lia|].
  set (pg' := take (Z.to_nat off) pg ++ bs ++ drop (Z.to_nat off + length bs) pg).
  assert (Hpg' : is_page pg').
  { split; [subst pg'; rewrite !length_app, length_take, length_drop; lia|].
    subst pg'. rewrite !Forall_app. auto using Forall_take, Forall_drop. }
  exists (sp_set_flags (<[Z.to_nat p := Z.lor v FLAG_DIRTY]> (sp_flags m))
           (sp_set_pages (<[Z.to_nat x := pg']> (sp_pages m)) m)).
  split_and!.
  - erewrite bind_Ok.
    2:{ unfold sp_write_page. erewrite bind_Ok by (unfold sp_page; by rewrite Hpg).
        rewrite slice_set_Some by lia. erewrite bind_Ok by done. done. }
    unfold sp_set_flag, sp_update_flag. simpl. rewrite (proj2 (Z.ltb_lt _ _)) by lia.
    rewrite Hv. done.
  - constructor; simpl; try apply Hm; rewrite ?length_insert; try apply Hm.
    + apply Forall_insert; [apply Hm|done].
    + apply Forall_insert; [apply Hm|]. apply lor_byte; [|split; vm_compute; congruence].
      apply (Forall_lookup_1 _ _ _ _ (so_flag_bytes _ Hm) Hv).
  - unfold sp_view, flat_put. cbn [sp_set_flags sp_set_pages sp_pages sp_indices sp_flags
      sp_memory_size sp_riscv_pages sp_load_reservation_address flat_data flat_flags
      flat_memory_size flat_riscv_pages flat_load_reservation_address]. f_equal.
    + rewrite (page_of_insert _ _ _ _ (Z.to_nat p) x); try done; try apply Hm.
      subst pg'. rewrite (concat_insert_page _ _ _ _ _ (sp_pages_ok m Hm) Hl) by lia.
      by replace (Z.to_nat (p * 4096 + off)) with (Z.to_nat p * page_len + Z.to_nat off)%nat by lia.
    + replace ((p * 4096 + off) / 4096) with p by dlia.
      replace ((p * 4096 + off + Z.of_nat (length bs) - 1) / 4096) with p by dlia.
      by rewrite (mark_one _ _ v) by done.
Qed.

(** * Accesses that may cross pages *)

(** Page addresses do not wrap. *)
Lemma page_addr_next p m :
  sp_ok m -> 0 <= p < sp_riscv_pages m ->
  wadd 64 (p * 4096) RISCV_PAGESIZE = (p + 1) * 4096 /\
  wshr 64 (p * 4096) RISCV_PAGE_SHIFTS = p.
Proof.
  intros Hm Hp. pose proof (so_size _ Hm) as [_ ?]. pose proof (so_pages _ Hm).
  split; [unfold wadd; change RISCV_PAGESIZE with 4096; rewrite wrap_small by (split; lia); lia|].
  unfold wshr. change (RISCV_PAGE_SHIFTS mod 64) with 12. rewrite Z.shiftr_div_pow2 by lia.
  change (2 ^ 12) with 4096. by apply Z.div_mul.
Qed.

Lemma flat_fill_nonempty a bs (m : FlatMemory R) : bs <> [] -> flat_fill a bs m = flat_put a bs m.
Proof. by destruct bs. Qed.

(** One iteration of the store loops on a page inside the memory. *)
Lemma sp_store_chunk p off chunk m :
  sp_ok m -> 0 <= p < sp_riscv_pages m -> 0 <= off ->
  off + Z.of_nat (length chunk) <= 4096 -> chunk <> [] -> Forall is_byte chunk ->
  exists m', sp_ok m' /\ sp_view m' = flat_fill (p * 4096 + off) chunk (sp_view m) /\
    forall A (k : ST (SparseMemory R) A),
      (index ← sp_fetch_page (p * 4096);
       sp_write_page index off chunk;;
       sp_set_flag (wshr 64 (p * 4096) RISCV_PAGE_SHIFTS) FLAG_DIRTY;; k) m = k m'.
Proof.
  intros Hm Hp Hoff Hb Hne Hbs.
  destruct (sp_fetch_page_in p m Hm Hp) as (x & m1 & E1 & Hm1 & Hv1 & Hx & Hxn).
  destruct (sp_write_page_view p x off chunk m1) as (m2 & E2 & Hm2 & Hv2); try done; [lia|].
  exists m2. rewrite Hv2, Hv1, flat_fill_nonempty by done. split_and!; [done|done|].
  intros A k. destruct (page_addr_next p m Hm Hp) as [_ Hsh]. rewrite Hsh.
  erewrite bind_Ok by exact E1.
  apply bind_inv_Ok in E2 as (u & m3 & E3 & E4). destruct u.
  erewrite bind_Ok by exact E3. by erewrite bind_Ok by exact E4.
Qed.

(** What a store loop does: it writes what is inside the memory, all of it exactly when
    the range is. *)
Definition store_result (a : Z) (bs : list Z) m (r : outcome unit * SparseMemory R) : Prop :=
  exists k, (k <= length bs)%nat /\ sp_ok r.2 /\
    sp_view r.2 = flat_fill a (take k bs) (sp_view m) /\
    (k = 0%nat \/ a + Z.of_nat k <= sp_memory_size m) /\
    ((r.1 = Ok tt /\ k = length bs) \/
     ((exists b, r.1 = Err (MemOutOfBound b Memory_)) /\
      sp_memory_size m < a + Z.of_nat (length bs) /\
      Z.of_nat k = Z.max 0 (sp_memory_size m - a))).

Lemma store_result_nil a m : sp_ok m -> store_result a [] m (Ok tt, m).
Proof. intros Hm. exists 0%nat. simpl. split_and!; auto. Qed.

(** A chunk, then the rest of the loop. *)
Lemma store_result_app p off chunk rest m m1 r :
  sp_ok m -> 0 <= p < sp_riscv_pages m -> 0 <= off ->
  off + Z.of_nat (length chunk) <= 4096 ->
  rest = [] \/ off + Z.of_nat (length chunk) = 4096 ->
  sp_view m1 = flat_fill (p * 4096 + off) chunk (sp_view m) ->
  store_result ((p + 1) * 4096) rest m1 r ->
  store_result (p * 4096 + off) (chunk ++ rest) m r.
Proof.
  intros Hm Hp Hoff Hb Hrest Hv (k & Hk & Hok & Hview & Hkb & Hres).
  assert (Hsz : sp_memory_size m1 = sp_memory_size m).
  { change (flat_memory_size (sp_view m1) = flat_memory_size (sp_view m)). rewrite Hv.
    by destruct chunk. }
  pose proof (so_pages _ Hm) as Hpg.
  exists (length chunk + k)%nat. rewrite length_app, take_app_add.
  split_and!; [lia|done| |lia|].
  - rewrite Hview, Hv. destruct Hrest as [->|He].
    + rewrite take_nil, app_nil_r. done.
    + replace ((p + 1) * 4096) with (p * 4096 + off + Z.of_nat (length chunk)) by lia.
      apply flat_fill_app; [by apply sp_view_ok|lia|].
      change (flat_memory_size (sp_view m)) with (sp_memory_size m).
      rewrite length_app, length_take. lia.
  - destruct Hres as [[Hr ->]|(Hr & Ho & Hke)]; [by left|right; split; [done|]].
    rewrite Hsz in Ho, Hke. destruct Hrest as [->|He]; simpl in *; lia.
Qed.

Lemma sp_store_bytes_loop_spec fuel bs p off m :
  sp_ok m -> 0 <= p -> 0 <= off < 4096 -> Forall is_byte bs ->
  off + Z.of_nat (length bs) <= Z.of_nat fuel * 4096 ->
  store_result (p * 4096 + off) bs m (sp_store_bytes_loop fuel bs (p * 4096) off m).
Proof.
  revert bs p off m. induction fuel as [|fuel IH]; intros bs p off m Hm Hp Hoff Hbs Hf.
  { destruct bs; [by apply store_result_nil|simpl in Hf; lia]. }
  cbn [sp_store_bytes_loop]. destruct bs as [|b l]; [by apply store_result_nil|].
  remember (b :: l) as bs eqn:Eb. assert (Hne : (0 < length bs)%nat) by (subst; simpl; lia).
  rewrite (proj2 (Nat.eqb_neq _ _)) by lia. cbv zeta. clear Eb b l.
  destruct (Z.lt_ge_cases p (sp_riscv_pages m)) as [Hpn|Hpn].
  - change RISCV_PAGESIZE with 4096.
    set (n := Z.to_nat (Z.min (4096 - off) (Z.of_nat (length bs)))).
    destruct (sp_store_chunk p off (take n bs) m) as (m1 & Hm1 & Hv1 & E);
      [done|lia|lia|rewrite length_take; lia|intros Hz; apply (f_equal length) in Hz;
       rewrite length_take in Hz; simpl in Hz; lia|by apply Forall_take|].
    rewrite E. destruct (page_addr_next p m Hm) as [Hw _]; [lia|].
    change RISCV_PAGESIZE with 4096 in Hw. rewrite Hw.
    match goal with |- store_result ?a _ _ ?r =>
      assert (G : store_result a (take n bs ++ drop n bs) m r); [|by rewrite take_drop in G] end.
    eapply store_result_app; try done; try lia.
    + rewrite length_take. lia.
    + rewrite length_take. destruct (decide (n < length bs)%nat); [right; lia|left].
      apply drop_ge. lia.
    + pose proof (IH (drop n bs) (p + 1) 0 m1) as IHn. rewrite Z.add_0_r in IHn.
      apply IHn; [done|lia|lia|by apply Forall_drop|]. rewrite length_drop. lia.
  - erewrite bind_Err by (by apply sp_fetch_page_out).
    exists 0%nat. simpl. split_and!; try done; try lia.
    right. split; [by eexists|]. pose proof (so_pages _ Hm). lia.
Qed.

(** The prefix, as the number of bytes that are inside. *)
Lemma store_result_prefix a bs m r : store_result a bs m r ->
  sp_view r.2 = flat_fill a (take (Z.to_nat (sp_memory_size m - a)) bs) (sp_view m).
Proof.
  intros (k & Hk & _ & -> & Hkb & [[_ ->]|(_ & _ & Hke)]); f_equal.
  - rewrite take_ge by done. destruct Hkb as [E|Hb]; [by destruct bs; rewrite ?take_nil|].
    by rewrite take_ge by lia.
  - f_equal. lia.
Qed.

Lemma round_page_down_eq a : in_u 64 a -> round_page_down a = a / 4096 * 4096.
Proof.
  intros Ha. unfold round_page_down. change RISCV_PAGESIZE with (2 ^ 12).
  rewrite rounddown_eq by (done || lia). change (2 ^ 12) with 4096. destruct Ha. dlia.
Qed.

Lemma sp_store_bytes_spec a bs m :
  sp_ok m -> in_u 64 a -> Forall is_byte bs ->
  store_result a bs m (sp_store_bytes a bs m).
Proof.
  intros Hm Ha Hbs. unfold sp_store_bytes. cbv zeta. rewrite round_page_down_eq by done.
  change RISCV_PAGESIZE with 4096. destruct Ha.
  pose proof (sp_store_bytes_loop_spec (length bs / Z.to_nat 4096 + 2) bs (a / 4096)
    (a - a / 4096 * 4096) m) as Hl.
  replace (a / 4096 * 4096 + (a - a / 4096 * 4096)) with a in Hl by lia.
  apply Hl; [done|apply Z.div_pos; lia|dlia|done|].
  rewrite Nat2Z.inj_add, Nat2Z.inj_div, Z2Nat.id by lia. dlia.
Qed.

(** [store_byte] is [store_bytes] of a repeated byte. *)
Lemma sp_store_byte_loop_eq fuel (n : nat) v cur off m :
  off <= 4096 ->
  sp_store_byte_loop (R:=R) fuel (Z.of_nat n) v cur off m =
  sp_store_bytes_loop fuel (replicate n v) cur off m.
Proof.
  revert n cur off m. induction fuel as [|fuel IH]; intros n cur off m Hoff; [done|].
  cbn [sp_store_byte_loop sp_store_bytes_loop]. rewrite length_replicate.
  destruct n as [|n]; [done|]. rewrite (proj2 (Z.ltb_lt _ _)) by lia.
  rewrite (proj2 (Nat.eqb_neq _ _)) by lia. cbv zeta. change RISCV_PAGESIZE with 4096.
  set (k := Z.min (4096 - off) (Z.of_nat (S n))).
  rewrite take_replicate, drop_replicate.
  replace (Z.to_nat k `min` S n)%nat with (Z.to_nat k) by lia.
  unfold mbind, ST_bind. destruct (sp_fetch_page cur m) as [[i|e|] m1]; [|done|done].
  destruct (sp_write_page i off _ m1) as [[[]|e|] m2]; [|done|done].
  destruct (sp_set_flag _ _ m2) as [[[]|e|] m3]; [|done|done].
  replace (Z.of_nat (S n) - k) with (Z.of_nat (S n - Z.to_nat k)) by lia. apply IH. lia.
Qed.

Lemma sp_store_byte_spec a n v m :
  sp_ok m -> in_u 64 a -> 0 <= n -> is_byte v ->
  store_result a (replicate (Z.to_nat n) v) m (sp_store_byte a n v m).
Proof.
  intros Hm Ha Hn Hv. pose proof (sp_store_bytes_spec a (replicate (Z.to_nat n) v) m Hm Ha) as H.
  unfold sp_store_bytes in H. unfold sp_store_byte. rewrite length_replicate in H.
  cbv zeta in *. rewrite <- (Z2Nat.id n) at 3 by lia. rewrite sp_store_byte_loop_eq.
  - replace (Z.to_nat (n / RISCV_PAGESIZE + 2))
      with (Z.to_nat n / Z.to_nat RISCV_PAGESIZE + 2)%nat; [by apply H, Forall_replicate|].
    change RISCV_PAGESIZE with 4096. rewrite <- Z2Nat.inj_div by lia.
    rewrite Z2Nat.inj_add by (lia || apply Z.div_pos; lia). done.
  - rewrite round_page_down_eq by done. destruct Ha. dlia.
Qed.

(** * Loads *)

Lemma sp_accumulate_spec bytes v k :
  Forall is_byte bytes -> 0 <= k -> 8 * k + 8 * Z.of_nat (length bytes) <= 64 ->
  sp_accumulate bytes (v, 8 * k) =
  (Z.lor v (Z.shiftl (le_to_Z bytes) (8 * k)), 8 * (k + Z.of_nat (length bytes))).
Proof.
  intros Hb. revert v k. induction Hb as [|b l Hb _ IH]; intros v k Hk Hlen.
  - simpl. by rewrite Z.shiftl_0_l, Z.lor_0_r, Z.add_0_r.
  - unfold sp_accumulate in *. cbn [foldl le_to_Z length] in *.
    replace (8 * k + 8) with (8 * (k + 1)) by lia. rewrite IH by lia.
    assert (Hs : wshl 64 b (8 * k) = Z.shiftl b (8 * k)).
    { unfold wshl. rewrite Z.mod_small by lia. apply wrap_small. destruct Hb.
      rewrite Z.shiftl_mul_pow2 by lia. split; [apply Z.mul_nonneg_nonneg; lia|].
      apply Z.lt_le_trans with (2 ^ (8 + 8 * k)); [|apply Z.pow_le_mono_r; lia].
      rewrite (Z.pow_add_r 2 8 (8 * k)) by lia. apply Z.mul_lt_mono_pos_r; [apply pow2_pos; lia|done]. }
    rewrite Hs, Z.shiftl_lor, Z.shiftl_shiftl, <- Z.lor_assoc by lia.
    f_equal; [do 3 f_equal; lia|lia].
Qed.

(** A load reads the bytes of the flat memory and changes no content. *)
Definition load_result {A} (a n : Z) (v : A) m (r : outcome A * SparseMemory R) : Prop :=
  sp_ok r.2 /\ sp_view r.2 = sp_view m /\
  if decide (in_bounds a n (sp_memory_size m)) then r.1 = Ok v
  else exists b, r.1 = Err (MemOutOfBound b Memory_).

(** Reading one page inside the memory. *)
Lemma sp_read_page p m :
  sp_ok m -> 0 <= p < sp_riscv_pages m ->
  exists pg m1, sp_ok m1 /\ sp_view m1 = sp_view m /\ is_page pg /\
    (forall off n, 0 <= off -> 0 <= n -> off + n <= 4096 ->
      take (Z.to_nat n) (drop (Z.to_nat off) pg) = flat_get (p * 4096 + off) n (sp_view m)) /\
    forall A (k : list Z -> ST (SparseMemory R) A),
      (index ← sp_fetch_page (p * 4096); page ← sp_page index; k page) m = k pg m1.
Proof.
  intros Hm Hp. destruct (sp_fetch_page_in p m Hm Hp) as (x & m1 & E1 & Hm1 & Hv1 & Hx & Hxn).
  destruct (sp_page_in p x m1) as (pg & Epg & Hpg & Hget); try done; [lia|].
  exists pg, m1. rewrite Hv1 in Hget. split_and!; try done.
  intros A k. erewrite bind_Ok by exact E1. by erewrite bind_Ok by exact Epg.
Qed.

(** Adjacent reads. *)
Lemma flat_get_app a n1 n2 (f : FlatMemory R) :
  0 <= a -> 0 <= n1 -> 0 <= n2 ->
  flat_get a n1 f ++ flat_get (a + n1) n2 f = flat_get a (n1 + n2) f.
Proof.
  intros. unfold flat_get. rewrite Z2Nat.inj_add, <- drop_drop, take_take_drop by lia.
  f_equal. lia.
Qed.

Lemma sp_load_spec a n m :
  sp_ok m -> in_u 64 a -> 0 < n <= 8 ->
  load_result a n (le_to_Z (flat_get a n (sp_view m))) m (sp_load a n m).
Proof.
  intros Hm Ha Hn. pose proof Ha as [Ha1 Ha2]. pose proof (so_pages _ Hm) as Hpg.
  pose proof (sp_view_ok m Hm) as Hvo.
  unfold sp_load. cbv zeta. rewrite round_page_down_eq by done. change RISCV_PAGESIZE with 4096.
  set (p := a / 4096). set (off := a - p * 4096). set (n1 := Z.min n (4096 - off)).
  assert (Hoff : 0 <= off < 4096) by (subst off p; dlia).
  assert (Hp : 0 <= p) by (apply Z.div_pos; lia).
  destruct (Z.lt_ge_cases p (sp_riscv_pages m)) as [Hpn|Hpn].
  2:{ erewrite bind_Err by (by apply sp_fetch_page_out). split_and!; [done|done|].
      rewrite decide_False by (unfold in_bounds; lia). by eexists. }
  destruct (sp_read_page p m Hm) as (pg & m1 & Hm1 & Hv1 & _ & Hget & E); [done|].
  rewrite E, Hget by lia. replace (p * 4096 + off) with a by lia.
  assert (Hlen : length (flat_get a n1 (sp_view m)) = Z.to_nat n1)
    by (apply flat_get_length; simpl; done || lia).
  rewrite (sp_accumulate_spec _ 0 0); [|by apply flat_get_bytes|lia|lia].
  rewrite Z.lor_0_l, Z.shiftl_0_r, Hlen, Z2Nat.id by lia.
  case_bool; [|replace n1 with n by lia; split_and!; try done;
               rewrite decide_True by (unfold in_bounds; lia); done].
  destruct (page_addr_next p m Hm) as [Hw _]; [lia|]. change RISCV_PAGESIZE with 4096 in Hw.
  rewrite Hw. assert (Hr1 : sp_riscv_pages m1 = sp_riscv_pages m)
    by (change (flat_riscv_pages (sp_view m1) = flat_riscv_pages (sp_view m)); by rewrite Hv1).
  destruct (Z.lt_ge_cases (p + 1) (sp_riscv_pages m)) as [Hp2|Hp2].
  2:{ erewrite bind_Err by (apply sp_fetch_page_out; lia). split_and!; [done|done|].
      rewrite decide_False by (unfold in_bounds; lia). by eexists. }
  destruct (sp_read_page (p + 1) m1 Hm1) as (pg2 & m2 & Hm2 & Hv2 & _ & Hget2 & E2); [lia|].
  rewrite E2. pose proof (Hget2 0 (n - n1)) as Hg2. rewrite drop_0 in Hg2.
  rewrite Hg2, Hv1 by lia. replace ((p + 1) * 4096 + 0) with (a + n1) by lia. rewrite Z.add_0_l.
  rewrite (sp_accumulate_spec _ _ n1);
    [|by apply flat_get_bytes|lia|rewrite flat_get_length by (simpl; done || lia); lia].
  split_and!; [done|by rewrite <- Hv1|].
  rewrite decide_True by (unfold in_bounds; lia). cbn [fst]. f_equal.
  pose proof (le_to_Z_app (flat_get a n1 (sp_view m)) (flat_get (a + n1) (n - n1) (sp_view m))) as Hle.
  rewrite Hlen, Z2Nat.id, flat_get_app in Hle by lia.
  replace (n1 + (n - n1)) with n in Hle by lia. by rewrite Hle.
Qed.

Lemma sp_load_bytes_loop_spec fuel n out p off m :
  sp_ok m -> 0 <= p -> 0 <= off < 4096 -> 0 <= n ->
  off + n <= Z.of_nat fuel * 4096 -> p * 4096 + off + n <= sp_memory_size m ->
  exists m', sp_load_bytes_loop fuel n out (p * 4096) off m =
    (Ok (out ++ flat_get (p * 4096 + off) n (sp_view m)), m') /\
    sp_ok m' /\ sp_view m' = sp_view m.
Proof.
  revert n out p off m. induction fuel as [|fuel IH]; intros n out p off m Hm Hp Hoff Hn Hf Hb.
  { exists m. replace n with 0 by lia. unfold flat_get. by rewrite app_nil_r. }
  cbn [sp_load_bytes_loop]. destruct (Z.eqb_spec n 0) as [->|Hnz].
  { exists m. unfold flat_get. by rewrite app_nil_r. }
  cbn [negb]. cbv zeta. change RISCV_PAGESIZE with 4096.
  pose proof (so_pages _ Hm). assert (Hpn : p < sp_riscv_pages m) by lia.
  set (k := Z.min (4096 - off) n).
  destruct (sp_read_page p m Hm) as (pg & m1 & Hm1 & Hv1 & [Hpl _] & Hget & E); [lia|].
  rewrite E. pose proof page_len_Z. rewrite slice_get_Some by lia. erewrite bind_Ok by done.
  destruct (page_addr_next p m Hm) as [Hw _]; [lia|]. change RISCV_PAGESIZE with 4096 in Hw.
  rewrite Hw, Hget by lia.
  assert (Hs1 : sp_memory_size m1 = sp_memory_size m)
    by (change (flat_memory_size (sp_view m1) = flat_memory_size (sp_view m)); by rewrite Hv1).
  destruct (decide (n = k)) as [He|Hne].
  - exists m1. replace (n - k) with 0 by lia. rewrite <- He. split_and!; [|done|done].
    by destruct fuel.
  - destruct (IH (n - k) (out ++ flat_get (p * 4096 + off) k (sp_view m)) (p + 1) 0 m1)
      as (m2 & E2 & Hm2 & Hv2); [done|lia..|].
    exists m2. rewrite E2, Hv2, Hv1. split_and!; [|done|done]. do 2 f_equal.
    rewrite <- app_assoc. f_equal.
    replace ((p + 1) * 4096 + 0) with (p * 4096 + off + k) by lia.
    rewrite flat_get_app by lia. f_equal. lia.
Qed.

Lemma sp_load_bytes_spec a n m :
  sp_ok m -> in_u 64 a -> in_u 64 n -> 0 < n ->
  load_result a n (flat_get a n (sp_view m)) m (sp_load_bytes a n m).
Proof.
  intros Hm Ha Hn Hpos. pose proof Ha as [Ha1 Ha2]. unfold sp_load_bytes.
  rewrite (proj2 (Z.eqb_neq n 0)) by lia. unfold load_result. case_decide as Hb.
  - erewrite bind_Ok by (apply check_no_overflow_ok; [done..|apply Hm|done]).
    cbv zeta. rewrite round_page_down_eq by done. change RISCV_PAGESIZE with 4096.
    destruct Hb. destruct (sp_load_bytes_loop_spec (Z.to_nat (n / 4096 + 2)) n [] (a / 4096)
      (a - a / 4096 * 4096) m) as (m1 & E & Hm1 & Hv1); [done|apply Z.div_pos; lia|dlia|lia| |lia|].
    + rewrite Z2Nat.id by (apply Z.add_nonneg_nonneg; [apply Z.div_pos|]; lia). dlia.
    + rewrite E. replace (a / 4096 * 4096 + (a - a / 4096 * 4096)) with a by lia. done.
  - destruct (check_no_overflow_err a n (sp_memory_size m) m) as [b E];
      [done|done|apply Hm|done|].
    erewrite bind_Err by exact E. split_and!; [done|done|by eexists].
Qed.

(** * The refinement *)

(** The sparse operation simulates the flat one: when the flat one succeeds so
    does it, with the same value and corresponding memories; when the flat one is
    out of bounds so is it.  The state stays well-formed in every case. *)
Definition simulates {A} (rs : outcome A * SparseMemory R) (rf : outcome A * FlatMemory R) : Prop :=
  sp_ok rs.2 /\ sp_memory_size rs.2 = flat_memory_size rf.2 /\
  match rf with
  | (Ok v, f) => rs.1 = Ok v /\ sp_view rs.2 = f
  | (Err (MemOutOfBound _ k), _) => exists b, rs.1 = Err (MemOutOfBound b k)
  | _ => False
  end.

Lemma simulates_load n from (op : reg R -> ST (FlatMemory R) (reg R)) addr m v rs :
  is_flat_load n from op (sp_view m) addr ->
  load_result (to_u64 addr) (Z.of_nat n) v m rs ->
  (in_bounds (to_u64 addr) (Z.of_nat n) (sp_memory_size m) ->
   v = from (le_to_Z (flat_get (to_u64 addr) (Z.of_nat n) (sp_view m)))) ->
  simulates rs (op addr (sp_view m)).
Proof.
  intros Hf (Hok & Hv & Hr) Hval. unfold is_flat_load in Hf. cbv zeta in Hf.
  change (flat_memory_size (sp_view m)) with (sp_memory_size m) in Hf.
  assert (Hs : sp_memory_size rs.2 = sp_memory_size m)
    by (change (flat_memory_size (sp_view rs.2) = flat_memory_size (sp_view m)); by rewrite Hv).
  split; [done|]. case_decide; [by rewrite Hf, <- Hval|]. by destruct Hf as [b ->].
Qed.

Lemma simulates_write a bs m rs :
  sp_ok m -> in_u 64 a -> in_u 64 (Z.of_nat (length bs)) -> bs <> [] ->
  store_result a bs m rs ->
  simulates rs
    ((flat_check a (Z.of_nat (length bs));;
      set_dirty flat_set_flag (get_page_indices a (Z.of_nat (length bs)));;
      flat_write a bs) (sp_view m)).
Proof.
  intros Hm Ha Hlen Hne (k & Hk & Hok & Hv & Hkb & Hr).
  pose proof (sp_view_ok m Hm) as Hvo. pose proof Ha as [? ?].
  assert (0 < length bs)%nat by (destruct bs; [done|simpl; lia]).
  assert (Hs : sp_memory_size rs.2 = sp_memory_size m).
  { change (flat_memory_size (sp_view rs.2) = flat_memory_size (sp_view m)). rewrite Hv.
    by destruct (take k bs). }
  destruct (decide (in_bounds a (Z.of_nat (length bs)) (flat_memory_size (sp_view m)))) as [Hb|Hb].
  - rewrite flat_store_raw_ok by done. split; [done|]. split; [done|].
    destruct Hr as [[Hr ->]|[_ Hr]]; [|destruct Hb as [? Hb]; simpl in Hb; lia].
    split; [done|]. rewrite Hv, take_ge by lia. by destruct bs.
  - split; [done|].
    match goal with |- context [(flat_check _ _ ≫= ?k) ?m] =>
      destruct (flat_check_err a (Z.of_nat (length bs)) m k) as [b Hc]; [done..|]; rewrite Hc end.
    split; [done|]. destruct Hr as [[Hr ->]|[Hr _]]; [|done]. exfalso. apply Hb. simpl. split; lia.
Qed.

Lemma simulates_store_bytes a bs m :
  sp_ok m -> in_u 64 a -> in_u 64 (Z.of_nat (length bs)) -> Forall is_byte bs ->
  simulates (sp_store_bytes a bs m) (flat_store_bytes a bs (sp_view m)).
Proof.
  intros Hm Ha Hlen Hbs. pose proof (sp_store_bytes_spec a bs m Hm Ha Hbs) as Hr.
  destruct bs as [|b l]; [done|]. by apply simulates_write.
Qed.

Lemma simulates_store_byte a n v m :
  sp_ok m -> in_u 64 a -> in_u 64 n -> is_byte v ->
  simulates (sp_store_byte a n v m) (flat_store_byte a n v (sp_view m)).
Proof.
  intros Hm Ha [Hn1 Hn2] Hv. pose proof (sp_store_byte_spec a n v m Hm Ha Hn1 Hv) as Hr.
  unfold flat_store_byte. destruct (Z.eqb_spec n 0) as [->|Hne].
  { destruct Hr as (k & Hk & Hok & Hview & _ & Hres). simpl in *. replace k with 0%nat in * by lia.
    assert (Hs : sp_memory_size (sp_store_byte a 0 v m).2 = sp_memory_size m).
    { change (flat_memory_size (sp_view (sp_store_byte a 0 v m).2) = flat_memory_size (sp_view m)).
      by rewrite Hview. }
    destruct Hres as [[Hr _]|[[b Hr] _]]; [done|]. revert Hr. done. }
  pose proof (simulates_write a (replicate (Z.to_nat n) v) m (sp_store_byte a n v m) Hm Ha) as Hs.
  rewrite length_replicate, Z2Nat.id in Hs by lia. apply Hs; [by split| |done].
  destruct (Z.to_nat n) eqn:E; [lia|done].
Qed.

Lemma byte_land w v k : 0 <= k < w ->
  wrap 8 (Z.land (wshr w v k) 0xff) = wrap 8 (Z.shiftr v k).
Proof.
  intros. change 0xff with (2 ^ 8 - 1). unfold wshr. rewrite land_ones_wrap, Z.mod_small by lia.
  apply wrap_wrap.
Qed.

Lemma sp_stores_eq addr value :
  reg_ok value ->
  sp_store8 (R:=R) addr value = sp_store_bytes (to_u64 addr) (Z_to_le 1 (to_u8 value)) /\
  sp_store16 (R:=R) addr value = sp_store_bytes (to_u64 addr) (Z_to_le 2 (to_u16 value)) /\
  sp_store32 (R:=R) addr value = sp_store_bytes (to_u64 addr) (Z_to_le 4 (to_u32 value)) /\
  sp_store64 (R:=R) addr value = sp_store_bytes (to_u64 addr) (Z_to_le 8 (to_u64 value)).
Proof.
  intros Hv. assert (Hl : forall v, wrap 8 (Z.land v 0xff) = wrap 8 v)
    by (intros; change 0xff with (2 ^ 8 - 1); rewrite land_ones_wrap by lia; apply wrap_wrap).
  unfold sp_store8, sp_store16, sp_store32, sp_store64. cbn [Z_to_le].
  rewrite !Hl, !Z.shiftr_shiftr by lia. cbn [Z.add Pos.add Pos.succ Pos.add_carry].
  split_and!; do 2 f_equal; unfold wshr; rewrite ?Z.mod_small by lia; try done.
  symmetry. by apply wrap_small, to_u8_range.
Qed.

Lemma simulates_loads addr m :
  sp_ok m -> reg_ok addr ->
  simulates (sp_load8 addr m) (flat_load8 addr (sp_view m)) /\
  simulates (sp_load16 addr m) (flat_load16 addr (sp_view m)) /\
  simulates (sp_load32 addr m) (flat_load32 addr (sp_view m)) /\
  simulates (sp_load64 addr m) (flat_load64 addr (sp_view m)).
Proof.
  intros Hm Ha. pose proof (sp_view_ok m Hm) as Hvo. pose proof (to_u64_range _ Ha) as Ha'.
  destruct (flat_accesses (sp_view m) addr addr Hvo Ha Ha) as (L1 & L2 & L4 & L8 & _).
  assert (Gen : forall (n : nat) (f : Z -> reg R), (0 < n <= 8)%nat ->
    load_result (to_u64 addr) (Z.of_nat n)
      (f (le_to_Z (flat_get (to_u64 addr) (Z.of_nat n) (sp_view m)))) m
      ((v ← sp_load (to_u64 addr) (Z.of_nat n); mret (f v)) m)).
  { intros n f Hn. destruct (sp_load_spec (to_u64 addr) (Z.of_nat n) m Hm Ha') as (H1 & H2 & H3); [lia|].
    unfold load_result. unfold mbind, ST_bind. destruct (sp_load _ _ m) as [[v|e|] m']; simpl in *;
      (split_and!; [done|done|]); case_decide; naive_solver. }
  assert (Hr : forall (n : nat), (0 < n <= 8)%nat ->
    in_bounds (to_u64 addr) (Z.of_nat n) (sp_memory_size m) ->
    wrap (8 * Z.of_nat n) (le_to_Z (flat_get (to_u64 addr) (Z.of_nat n) (sp_view m))) =
    le_to_Z (flat_get (to_u64 addr) (Z.of_nat n) (sp_view m))).
  { intros n Hn [? ?]. destruct Ha'. apply wrap_small, flat_get_range; [done|lia|simpl; lia]. }
  split_and!.
  - eapply (simulates_load 1); [done|apply (Gen 1%nat (fun v => from_u8 (wrap 8 v))); lia|].
    intros Hb. f_equal. by apply (Hr 1%nat); [lia|].
  - eapply (simulates_load 2); [done|apply (Gen 2%nat (fun v => from_u16 (wrap 16 v))); lia|].
    intros Hb. f_equal. by apply (Hr 2%nat); [lia|].
  - eapply (simulates_load 4); [done|apply (Gen 4%nat (fun v => from_u32 (wrap 32 v))); lia|].
    intros Hb. f_equal. by apply (Hr 4%nat); [lia|].
  - eapply (simulates_load 8); [done|apply (Gen 8%nat from_u64); lia|done].
Qed.

Lemma simulates_stores addr value m :
  sp_ok m -> reg_ok addr -> reg_ok value ->
  simulates (sp_store8 addr value m) (flat_store8 addr value (sp_view m)) /\
  simulates (sp_store16 addr value m) (flat_store16 addr value (sp_view m)) /\
  simulates (sp_store32 addr value m) (flat_store32 addr value (sp_view m)) /\
  simulates (sp_store64 addr value m) (flat_store64 addr value (sp_view m)).
Proof.
  intros Hm Ha Hv. pose proof (to_u64_range _ Ha) as Ha'.
  destruct (sp_stores_eq addr value Hv) as (-> & -> & -> & ->).
  assert (Gen : forall n v, (0 < n <= 8)%nat ->
    simulates (sp_store_bytes (to_u64 addr) (Z_to_le n v) m)
      ((flat_check (to_u64 addr) (Z.of_nat n);;
        set_dirty flat_set_flag (get_page_indices (to_u64 addr) (Z.of_nat n));;
        flat_write (to_u64 addr) (Z_to_le n v)) (sp_view m))).
  { intros n v Hn. pose proof (length_Z_to_le n v) as Hl.
    pose proof (simulates_write (to_u64 addr) (Z_to_le n v) m
      (sp_store_bytes (to_u64 addr) (Z_to_le n v) m) Hm Ha') as Hs. rewrite Hl in Hs.
    apply Hs; [split; lia|by intros Hz; rewrite Hz in Hl; simpl in Hl; lia|].
    apply sp_store_bytes_spec; [done|done|apply Z_to_le_bytes]. }
  split_and!.
  - pose proof (Gen 1%nat (to_u8 value) ltac:(lia)) as G. cbn [Z_to_le] in G |- *.
    rewrite wrap_small in G |- * by (by apply to_u8_range). exact G.
  - apply (Gen 2%nat). lia.
  - apply (Gen 4%nat). lia.
  - apply (Gen 8%nat). lia.
Qed.

(** A sequence of simulated operations. *)
Lemma simulates_bind {A B} (ms : ST (SparseMemory R) A) (mf : ST (FlatMemory R) A)
  (ks : A -> ST (SparseMemory R) B) (kf : A -> ST (FlatMemory R) B) s t (P : A -> Prop) :
  simulates (ms s) (mf t) -> (forall v t', mf t = (Ok v, t') -> P v) ->
  (forall v s', P v -> sp_ok s' -> simulates (ks v s') (kf v (sp_view s'))) ->
  simulates ((v ← ms; ks v) s) ((v ← mf; kf v) t).
Proof.
  intros (Hok & Hsz & Hr) HP Hk. unfold mbind, ST_bind.
  destruct (mf t) as [[v|e|] t'] eqn:E; [| |done].
  - destruct (ms s) as [o s']. cbn [fst snd] in *. destruct Hr as [-> <-].
    apply Hk; [by eapply HP|done].
  - destruct e; try done. destruct (ms s) as [o s']. cbn [fst snd] in *. destruct Hr as [b ->].
    split_and!; [done|done|by exists b].
Qed.

Lemma simulates_fetch a m : sp_ok m -> in_u 64 a -> in_u (BITS R) a ->
  simulates (sp_execute_load16 a m) (flat_execute_load16 a (sp_view m)) /\
  simulates (sp_execute_load32 a m) (flat_execute_load32 a (sp_view m)).
Proof.
  intros Hm Ha Hb.
  destruct (simulates_loads (from_u64 a) m) as (_ & L16 & L32 & _); [done|by apply ok_from_u64|].
  assert (E : forall n (f : Z -> reg R) (g : reg R -> Z) (h : Z -> Z), (forall v, g (f v) = h v) ->
    (r ← (v ← sp_load (R:=R) a n; mret (f v)); mret (g r)) m = (v ← sp_load a n; mret (h v)) m).
  { intros n f g h Hgh. unfold mbind, ST_bind. destruct (sp_load a n m) as [[v|e|] m']; [|done..].
    unfold mret, ST_ret. by rewrite Hgh. }
  split.
  - unfold sp_execute_load16. rewrite <- (E 2 (fun v => from_u16 (wrap 16 v)) to_u16 (wrap 16)).
    2:{ intros v. apply to_from_u16, wrap_range. lia. }
    rewrite <- (to_from_u64 a Hb) at 1. unfold flat_execute_load16.
    by apply (simulates_bind _ _ _ _ _ _ (fun _ => True) L16).
  - unfold sp_execute_load32. rewrite <- (E 4 (fun v => from_u32 (wrap 32 v)) to_u32 (wrap 32)).
    2:{ intros v. apply to_from_u32, wrap_range. lia. }
    rewrite <- (to_from_u64 a Hb) at 1. unfold flat_execute_load32.
    by apply (simulates_bind _ _ _ _ _ _ (fun _ => True) L32).
Qed.

Lemma simulates_flags p f m :
  sp_ok m -> in_u 64 p -> is_byte f ->
  simulates (sp_fetch_flag p m) (flat_fetch_flag p (sp_view m)) /\
  simulates (sp_set_flag p f m) (flat_set_flag p f (sp_view m)) /\
  simulates (sp_clear_flag p f m) (flat_clear_flag p f (sp_view m)).
Proof.
  intros Hm [Hp _] Hf.
  assert (Upd : forall g, (forall v, is_byte v -> is_byte (g v)) ->
    simulates (sp_update_flag g p m) (flat_update_flag g p (sp_view m))).
  { intros g Hg. unfold sp_update_flag, flat_update_flag. simpl. case_bool.
    - destruct (lookup_lt_is_Some_2 (sp_flags m) (Z.to_nat p)) as [v Hv];
        [pose proof (so_flags _ Hm); lia|]. rewrite Hv. split; [|done].
      constructor; simpl; try apply Hm; rewrite ?length_insert; try apply Hm.
      apply Forall_insert; [apply Hm|]. apply Hg, (Forall_lookup_1 _ _ _ _ (so_flag_bytes _ Hm) Hv).
    - split_and!; [done|done|by eexists]. }
  split_and!.
  - unfold sp_fetch_flag, flat_fetch_flag. simpl. case_bool; [|split_and!; [done|done|by eexists]].
    destruct (lookup_lt_is_Some_2 (sp_flags m) (Z.to_nat p)) as [v Hv];
      [pose proof (so_flags _ Hm); lia|]. by rewrite Hv.
  - apply Upd. intros. by apply lor_byte.
  - apply Upd. intros. by apply land_byte_l.
Qed.

Lemma simulates_load_bytes a n m :
  sp_ok m -> in_u 64 a -> in_u 64 n ->
  simulates (sp_load_bytes a n m) (flat_load_bytes a n (sp_view m)).
Proof.
  intros Hm Ha Hn. pose proof (sp_view_ok m Hm) as Hvo.
  destruct (Z.eqb_spec n 0) as [->|Hnz]; [done|]. destruct (Hn) as [Hn1 Hn2].
  destruct (sp_load_bytes_spec a n m Hm Ha Hn ltac:(lia)) as (H1 & H2 & H3).
  assert (Hs : sp_memory_size (sp_load_bytes a n m).2 = sp_memory_size m).
  { change (flat_memory_size (sp_view (sp_load_bytes a n m).2) = flat_memory_size (sp_view m)).
    by rewrite H2. }
  unfold flat_load_bytes. rewrite (proj2 (Z.eqb_neq n 0)) by done. split; [done|].
  case_decide as Hb.
  - erewrite bind_Ok by (apply check_no_overflow_ok; [done..|apply Hm|done]).
    destruct Ha, Hb. rewrite flat_read_ok by (simpl; done || lia). done.
  - match goal with |- context [(flat_check _ _ ≫= ?k) ?m] =>
      destruct (flat_check_err a n m k) as [b Hc]; [done..|]; rewrite Hc end. done.
Qed.

(** ** [init_pages] *)

Definition source_bytes (src : option (list Z)) : Prop :=
  match src with Some l => Forall is_byte l | None => True end.

Lemma simulates_init_pages a size flags src off m :
  sp_ok m -> in_u 64 a -> in_u 64 size -> in_u 64 off -> source_bytes src ->
  simulates (sp_init_pages a size flags src off m) (flat_init_pages a size flags src off (sp_view m)).
Proof.
  intros Hm Ha Hs Ho Hsrc. unfold sp_init_pages, flat_init_pages, fill_page_data.
  assert (Hz : is_byte 0) by done.
  apply (simulates_bind _ _ _ _ _ _ (in_u 64)).
  - case_bool; [|done]. cbv zeta.
    apply (simulates_bind _ _ _ _ _ _ (fun _ => True)); [|done..].
    apply simulates_store_byte; try done. destruct Hs, Ho. split; lia.
  - intros v t'. case_bool; [|intros [= <- _]; done]. cbv zeta.
    intros (u & t & _ & [= <- _])%bind_inv_Ok. destruct Hs, Ho. split; lia.
  - intros n1 m1 Hn1 Hm1. apply (simulates_bind _ _ _ _ _ _ (in_u 64)).
    + destruct src as [l|]; [|done]. cbv zeta. case_bool; [|done].
      apply (simulates_bind _ _ _ _ _ _ (fun _ => True)); [|done..].
      pose proof (wrap_range 64 (size - n1) ltac:(lia)) as [? ?]. unfold wsub.
      apply simulates_store_bytes; [done|by apply wrap_range| |by apply Forall_take].
      rewrite length_take. split; lia.
    + intros v t'. destruct src as [l|]; [|intros [= <- _]; done]. cbv zeta.
      case_bool; [|intros [= <- _]; done].
      intros (u & t & _ & [= <- _])%bind_inv_Ok. by apply wrap_range.
    + intros n2 m2 Hn2 Hm2. case_bool; [|done].
      apply simulates_store_byte; try done; by apply wrap_range.
Qed.

(** A store that went through, then another behind it; and a store that did not. *)
Lemma store_result_seq a l1 l2 m m1 r : sp_ok m -> 0 <= a ->
  store_result a l1 m (Ok tt, m1) -> store_result (a + Z.of_nat (length l1)) l2 m1 r ->
  store_result a (l1 ++ l2) m r.
Proof.
  intros Hm Ha (k1 & _ & Hok1 & Hv1 & Hb1 & Hr1) (k2 & Hk2 & Hok2 & Hv2 & Hb2 & Hr2).
  destruct Hr1 as [[_ ->]|[[b Hr1] _]]; [|done]. cbn [snd] in *. rewrite take_ge in Hv1 by done.
  assert (Hsz : sp_memory_size m1 = sp_memory_size m).
  { change (flat_memory_size (sp_view m1) = flat_memory_size (sp_view m)). rewrite Hv1.
    by destruct l1. }
  rewrite Hsz in *. exists (length l1 + k2)%nat. rewrite length_app, take_app_add.
  split_and!; [lia|done| |lia|].
  - rewrite Hv2, Hv1. destruct (decide (k2 = 0%nat)) as [->|Hne].
    { by rewrite take_0, app_nil_r. }
    apply flat_fill_app; [by apply sp_view_ok|done|].
    change (flat_memory_size (sp_view m)) with (sp_memory_size m).
    rewrite length_app, length_take. lia.
  - destruct Hr2 as [[Hr2 ->]|(Hr2 & Ho & Hk)]; [by left|right]. split; [done|]. lia.
Qed.

Lemma store_result_stop a l1 l2 m e m1 :
  store_result a l1 m (Err e, m1) -> store_result a (l1 ++ l2) m (Err e, m1).
Proof.
  intros (k & Hk & Hok & Hv & Hb & [[Hr _]|(Hr & Ho & Hke)]); [done|].
  exists k. rewrite length_app, take_app_le by lia. split_and!; try done; [lia|].
  right. split; [done|lia].
Qed.

(** The outcome of a step of [fill_page_data] that writes [l] and adds its length to [n0]. *)
Definition wrote (a n0 : Z) (l : list Z) m (r : outcome Z * SparseMemory R) : Prop :=
  match r with
  | (Ok n, m1) => n = n0 + Z.of_nat (length l) /\ store_result a l m (Ok tt, m1)
  | (Err e, m1) => store_result a l m (Err e, m1)
  | (Panic, _) => False
  end.

Lemma wrote_store a n0 n l m (c : ST (SparseMemory R) unit) : n = n0 + Z.of_nat (length l) ->
  store_result a l m (c m) -> wrote a n0 l m ((c;; mret n) m).
Proof.
  intros -> H. unfold mbind, ST_bind. destruct (c m) as [[[]|e|] m1]; [by split|done|].
  by destruct H as (k & _ & _ & _ & _ & [[? _]|[[b ?] _]]).
Qed.

Lemma wrote_nil a n m : sp_ok m -> wrote a n [] m (Ok n, m).
Proof. intros. split; [cbn; lia|by apply store_result_nil]. Qed.

(** Where the next step goes on. *)
Lemma wrote_next a l m m1 : sp_ok m -> in_u 64 a -> store_result a l m (Ok tt, m1) ->
  sp_ok m1 /\ wadd 64 a (Z.of_nat (length l)) = a + Z.of_nat (length l).
Proof.
  intros Hm [Ha1 Ha2] (k & _ & Hok & _ & Hb & [[_ ->]|[[b Hr] _]]); [|done]. split; [done|].
  destruct (so_size _ Hm). apply wrap_small. split; lia.
Qed.

Lemma wrote_bind a n0 l1 l2 m (c : ST (SparseMemory R) Z) (k : Z -> ST (SparseMemory R) unit) :
  sp_ok m -> in_u 64 a -> wrote a n0 l1 m (c m) ->
  (forall m1, sp_ok m1 -> wadd 64 a (Z.of_nat (length l1)) = a + Z.of_nat (length l1) ->
    store_result (wadd 64 a (Z.of_nat (length l1))) l2 m1 (k (n0 + Z.of_nat (length l1)) m1)) ->
  store_result a (l1 ++ l2) m ((n ← c; k n) m).
Proof.
  intros Hm Ha Hw Hk. unfold mbind, ST_bind.
  destruct (c m) as [[n|e|] m1]; [|by apply store_result_stop|done].
  destruct Hw as [-> Hw]. destruct (wrote_next _ _ _ _ Hm Ha Hw) as [Hm1 E].
  eapply store_result_seq; [done|apply Ha|done|]. rewrite <- E. by apply Hk.
Qed.

(** The three steps write the page image. *)
Lemma sp_init_pages_spec a size flags src off m :
  sp_ok m -> in_u 64 a -> in_u 64 size -> in_u 64 off -> source_bytes src ->
  store_result a (page_image size src off) m (sp_init_pages a size flags src off m).
Proof.
  intros Hm Ha [Hs1 Hs2] [Ho1 Ho2] Hsrc. unfold sp_init_pages, fill_page_data, page_image. cbv zeta.
  set (n1 := Z.min size off). set (pre := replicate (Z.to_nat n1) 0).
  assert (Hpl : Z.of_nat (length pre) = n1) by (subst pre n1; rewrite length_replicate; lia).
  set (body := take (Z.to_nat size - length pre) (default [] src)).
  assert (Hbl : (length body <= Z.to_nat size - length pre)%nat) by (subst body; rewrite length_take; lia).
  assert (Hn1 : 0 <= n1 <= size) by (subst n1; lia).
  apply (wrote_bind _ 0); [done|done| |].
  { destruct (Z.ltb_spec 0 off).
    - apply wrote_store; [by rewrite Hpl|]. apply sp_store_byte_spec; [done|done|lia|done].
    - assert (E : pre = []) by (subst pre n1; by replace off with 0 by lia; rewrite Z.min_r by lia).
      rewrite E. by apply wrote_nil. }
  intros m1 Hm1 E1. rewrite Hpl, Z.add_0_l in *.
  assert (Ha1 : in_u 64 (a + n1)) by (rewrite <- E1; by apply wrap_range). rewrite E1.
  assert (Hw : forall n, 0 <= n <= size -> wsub 64 size n = size - n)
    by (intros; apply wrap_small; split; lia).
  apply (wrote_bind _ n1); [done|done| |].
  - destruct src as [l|]; cbn [default from_option id] in *.
    + rewrite Hw by done. set (real := Z.min (size - n1) (Z.of_nat (length l))).
      assert (Eb : take (Z.to_nat real) l = body).
      { subst body. rewrite <- (take_min_length (Z.to_nat size - _)). f_equal. subst real. lia. }
      assert (El : Z.of_nat (length body) = real) by (rewrite <- Eb, length_take; lia).
      destruct (Z.ltb_spec 0 real).
      * apply wrote_store; [unfold wadd; rewrite wrap_small by (split; lia); lia|].
        rewrite Eb. apply sp_store_bytes_spec; [done|done|]. subst body. by apply Forall_take.
      * assert (E : body = []) by (apply nil_length_inv; lia). rewrite E. by apply wrote_nil.
    + subst body. rewrite take_nil. by apply wrote_nil.
  - intros m2 Hm2 E2. rewrite E2. set (n2 := n1 + Z.of_nat (length body)) in *.
    assert (Ea : wadd 64 a n2 = a + n1 + Z.of_nat (length body))
      by (rewrite <- E2; unfold wadd; f_equal; lia).
    assert (Hn2 : 0 <= n2 <= size) by lia.
    assert (Hr : replicate (Z.to_nat size - length pre - length body) 0 =
      replicate (Z.to_nat (size - n2)) 0) by (f_equal; lia).
    rewrite Hr, Ea, Hw by done. destruct (Z.ltb_spec n2 size).
    + apply sp_store_byte_spec; [done| |lia|done]. rewrite <- E2. by apply wrap_range.
    + replace (size - n2) with 0 by lia. by apply store_result_nil.
Qed.

(** * What stays of the flat memory, failing accesses included *)

(** An operation that only reads, and one that writes [bs] at [a]: when it fails because the
    range ends behind the memory, the part inside has been written (the flat memory checks
    the range first and writes nothing). *)
Definition reads_as {A} m (rs : outcome A * SparseMemory R) (rf : outcome A * FlatMemory R) : Prop :=
  simulates rs rf /\ sp_view rs.2 = sp_view m.
Definition writes_as (a : Z) (bs : list Z) m (rs : outcome unit * SparseMemory R)
  (rf : outcome unit * FlatMemory R) : Prop :=
  simulates rs rf /\
  sp_view rs.2 = flat_fill a (take (Z.to_nat (sp_memory_size m - a)) bs) (sp_view m).
Definition updates_as m (rs : outcome unit * SparseMemory R) (rf : outcome unit * FlatMemory R)
  : Prop := simulates rs rf /\ (rs.1 <> Ok tt -> sp_view rs.2 = sp_view m).

Lemma sp_load_view {A} a n (f : Z -> A) m : sp_ok m -> in_u 64 a -> 0 < n <= 8 ->
  sp_view ((v ← sp_load a n; mret (f v)) m).2 = sp_view m.
Proof.
  intros Hm Ha Hn. destruct (sp_load_spec a n m Hm Ha Hn) as (_ & Hv & _).
  unfold mbind, ST_bind. by destruct (sp_load a n m) as [[v|e|] m'].
Qed.

Lemma sp_load_bytes_view a n m : sp_ok m -> in_u 64 a -> in_u 64 n ->
  sp_view (sp_load_bytes a n m).2 = sp_view m.
Proof.
  intros Hm Ha Hn. destruct (Z.eqb_spec n 0) as [->|Hne]; [done|].
  by destruct (sp_load_bytes_spec a n m Hm Ha Hn ltac:(destruct Hn; lia)) as (_ & ? & _).
Qed.

Lemma sp_flag_view f p m : sp_view (sp_fetch_flag p m).2 = sp_view m /\
  ((sp_update_flag f p m).1 <> Ok tt -> sp_view (sp_update_flag f p m).2 = sp_view m).
Proof.
  unfold sp_fetch_flag, sp_update_flag. case_bool; [|done].
  by destruct (sp_flags m !! Z.to_nat p).
Qed.

Lemma writes_intro a bs m rs rf : simulates rs rf -> store_result a bs m rs -> writes_as a bs m rs rf.
Proof. intros Hs Hr. split; [done|]. by apply store_result_prefix. Qed.

Lemma sp_load_writes addr value m : sp_ok m -> reg_ok addr -> reg_ok value ->
  writes_as (to_u64 addr) (Z_to_le 1 (to_u8 value)) m
    (sp_store8 addr value m) (flat_store8 addr value (sp_view m)) /\
  writes_as (to_u64 addr) (Z_to_le 2 (to_u16 value)) m
    (sp_store16 addr value m) (flat_store16 addr value (sp_view m)) /\
  writes_as (to_u64 addr) (Z_to_le 4 (to_u32 value)) m
    (sp_store32 addr value m) (flat_store32 addr value (sp_view m)) /\
  writes_as (to_u64 addr) (Z_to_le 8 (to_u64 value)) m
    (sp_store64 addr value m) (flat_store64 addr value (sp_view m)).
Proof.
  intros Hm Ha Hv. pose proof (to_u64_range _ Ha) as Ha'.
  destruct (simulates_stores addr value m) as (? & ? & ? & ?); [done..|].
  destruct (sp_stores_eq addr value Hv) as (E1 & E2 & E4 & E8).
  assert (Hst : forall n v, store_result (to_u64 addr) (Z_to_le n v) m
    (sp_store_bytes (to_u64 addr) (Z_to_le n v) m))
    by (intros; apply sp_store_bytes_spec; [done|done|apply Z_to_le_bytes]).
  split_and!; apply writes_intro; try done; rewrite ?E1, ?E2, ?E4, ?E8; apply Hst.
Qed.

(** An instruction fetch outside what a register can address. *)
Lemma sp_fetch_beyond a m : sp_ok m -> in_u 64 a -> 2 ^ BITS R <= a ->
  (exists b, (sp_execute_load16 a m).1 = Err (MemOutOfBound b Memory_)) /\
  (exists b, (sp_execute_load32 a m).1 = Err (MemOutOfBound b Memory_)).
Proof.
  intros Hm Ha Hb. assert (Hsz : sp_memory_size m < a).
  { rewrite (so_pages _ Hm). pose proof (so_limit _ Hm). unfold INVALID_PAGE_INDEX in *.
    assert (2 ^ 32 <= 2 ^ BITS R) by (apply Z.pow_le_mono_r; [done|]; destruct (bits_width (R := R)) as [-> | ->]; done).
    change (2 ^ 32) with 4294967296 in *. lia. }
  assert (Gen : forall n (f : Z -> Z), 0 < n <= 8 ->
    exists b, ((v ← sp_load (R:=R) a n; mret (f v)) m).1 = Err (MemOutOfBound b Memory_)).
  { intros n f Hn. destruct (sp_load_spec a n m Hm Ha Hn) as (_ & _ & H).
    rewrite decide_False in H by (unfold in_bounds; lia). destruct H as [b H]. exists b.
    unfold mbind, ST_bind. destruct (sp_load a n m) as [[v|e|] m']; naive_solver. }
  split; by apply Gen.
Qed.

Lemma concat_replicate_pages k : concat (replicate k zero_page) = replicate (k * page_len) 0.
Proof.
  induction k as [|k IH]; [done|]. cbn [replicate concat]. rewrite IH. unfold zero_page.
  by rewrite <- replicate_add.
Qed.

Lemma sp_new_view size : 0 <= size ->
  match sp_new (R := R) size with
  | Ok m0 => flat_new size = Ok (sp_view m0)
  | _ => flat_new (R := R) size = Panic
  end.
Proof.
  intros Hs. unfold sp_new, flat_new. destruct (Z.eqb_spec (size mod RISCV_PAGESIZE) 0) as [Hz|]; [|done].
  cbn [negb]. f_equal. unfold sp_view. cbn [sp_indices sp_pages sp_flags sp_memory_size sp_riscv_pages
    sp_load_reservation_address]. f_equal.
  rewrite fmap_replicate. change (page_of [] INVALID_PAGE_INDEX) with zero_page.
  rewrite concat_replicate_pages. f_equal. change RISCV_PAGESIZE with 4096 in *.
  pose proof page_len_Z. apply Nat2Z.inj. rewrite Nat2Z.inj_mul, !Z2Nat.id by (lia || by apply Z.div_pos).
  dlia.
Qed.
End sparse.

Lemma sp_new_ok (R : Register) (HR : RegisterOk R) size m :
  in_u 64 size -> size <= INVALID_PAGE_INDEX * 4096 -> sp_new size = Ok m ->
  sp_ok m /\ sp_memory_size m = size.
Proof.
  intros [? ?] Hl. unfold sp_new. change RISCV_PAGESIZE with 4096.
  destruct (Z.eqb_spec (size mod 4096) 0); simpl; [|done]. intros [= <-].
  split; [|done]. constructor; simpl; rewrite ?length_replicate; try (split; lia); try dlia.
  - intros i x [-> _]%lookup_replicate_1. done.
  - intros i j x [-> _]%lookup_replicate_1. done.
  - induction (Z.to_nat (size / 4096)) as [|k IH]; [done|]. cbn [replicate].
    by rewrite filter_cons_False by auto.
  - done.
  - by apply Forall_replicate.
  - apply ok_from_u64. split; vm_compute; congruence.
Qed.

(** C10: the sparse memory refines the flat memory.  Started from corresponding
    well-formed states - at most 65535 pages, what its 16-bit indices can name - every
    operation of the memory interface ([init_pages], flags, loads, stores, fetches, memset,
    slices, the reservation address) returns what the flat memory returns, or is out of
    bounds when the flat memory is, and leaves corresponding states, page crossings and
    on-demand allocation included; a new memory stands for the new flat memory.  Failing
    operations are included: reads change nothing, and a store or [init_pages] that ends
    behind the memory has written exactly the bytes inside it, where the flat memory writes
    none.  Fetches agree for an address that fits a register; the sparse memory reports any
    other as out of bounds, where a 32-bit flat memory truncates it. *)
Theorem sparse_refines_flat (R : Register) (HR : RegisterOk R) (m : SparseMemory R)
  (addr value : reg R) (a n byte page flag off : Z) (bytes : list Z) (src : option (list Z)) :
  sp_ok m -> reg_ok addr -> reg_ok value -> in_u 64 a -> in_u 64 n -> is_byte byte ->
  in_u 64 page -> is_byte flag -> in_u 64 off ->
  Forall is_byte bytes -> in_u 64 (Z.of_nat (length bytes)) -> source_bytes src ->
  let f := sp_view m in
  reads_as m (sp_load8 addr m) (flat_load8 addr f) /\
  reads_as m (sp_load16 addr m) (flat_load16 addr f) /\
  reads_as m (sp_load32 addr m) (flat_load32 addr f) /\
  reads_as m (sp_load64 addr m) (flat_load64 addr f) /\
  writes_as (to_u64 addr) (Z_to_le 1 (to_u8 value)) m
    (sp_store8 addr value m) (flat_store8 addr value f) /\
  writes_as (to_u64 addr) (Z_to_le 2 (to_u16 value)) m
    (sp_store16 addr value m) (flat_store16 addr value f) /\
  writes_as (to_u64 addr) (Z_to_le 4 (to_u32 value)) m
    (sp_store32 addr value m) (flat_store32 addr value f) /\
  writes_as (to_u64 addr) (Z_to_le 8 (to_u64 value)) m
    (sp_store64 addr value m) (flat_store64 addr value f) /\
  reads_as m (sp_load_bytes a n m) (flat_load_bytes a n f) /\
  writes_as a bytes m (sp_store_bytes a bytes m) (flat_store_bytes a bytes f) /\
  writes_as a (replicate (Z.to_nat n) byte) m (sp_store_byte a n byte m) (flat_store_byte a n byte f) /\
  writes_as a (page_image n src off) m
    (sp_init_pages a n flag src off m) (flat_init_pages a n flag src off f) /\
  reads_as m (sp_fetch_flag page m) (flat_fetch_flag page f) /\
  updates_as m (sp_set_flag page flag m) (flat_set_flag page flag f) /\
  updates_as m (sp_clear_flag page flag m) (flat_clear_flag page flag f) /\
  (a < 2 ^ BITS R ->
    reads_as m (sp_execute_load16 a m) (flat_execute_load16 a f) /\
    reads_as m (sp_execute_load32 a m) (flat_execute_load32 a f)) /\
  (2 ^ BITS R <= a ->
    (exists b, (sp_execute_load16 a m).1 = Err (MemOutOfBound b Memory_)) /\
    (exists b, (sp_execute_load32 a m).1 = Err (MemOutOfBound b Memory_))) /\
  simulates (sp_set_lr value m) (flat_set_lr value f) /\
  sp_load_reservation_address m = flat_load_reservation_address f /\
  match sp_new (R := R) n with
  | Ok m0 => flat_new n = Ok (sp_view m0) /\ (n <= INVALID_PAGE_INDEX * 4096 -> sp_ok m0)
  | _ => flat_new (R := R) n = Panic
  end.
Proof.
  intros Hm Haddr Hval Ha Hn Hbyte Hpage Hflag Hoff Hbytes Hlen Hsrc. cbv zeta.
  pose proof (to_u64_range _ Haddr) as Ha'.
  destruct (simulates_loads addr m) as (? & ? & ? & ?); [done..|].
  destruct (sp_load_writes addr value m) as (? & ? & ? & ?); [done..|].
  destruct (simulates_flags page flag m) as (? & ? & ?); [done..|].
  pose proof (fun f => sp_flag_view f page m) as Hfv.
  split_and!; try done.
  1-4: split; [done|by apply sp_load_view].
  - split; [by apply simulates_load_bytes|by apply sp_load_bytes_view].
  - apply writes_intro; [by apply simulates_store_bytes|by apply sp_store_bytes_spec].
  - apply writes_intro; [by apply simulates_store_byte|apply sp_store_byte_spec; [done|done|apply Hn|done]].
  - apply writes_intro; [by apply simulates_init_pages|by apply sp_init_pages_spec].
  - split; [done|apply (Hfv id)].
  - split; [done|apply Hfv].
  - split; [done|apply Hfv].
  - intros Hb. destruct (simulates_fetch a m) as [? ?]; [done|done|by destruct Ha; split|].
    split; (split; [done|by apply sp_load_view]).
  - intros Hb. by apply sp_fetch_beyond.
  - split; [|done]. constructor; simpl; done || apply Hm.
  - pose proof (sp_new_view (R := R) n ltac:(apply Hn)) as Hnew.
    destruct (sp_new n) as [m0|e|] eqn:E; [|done..]. split; [done|]. intros Hl.
    by destruct (sp_new_ok R HR n m0 Hn Hl E).
Qed.

Definition sp_of (size : Z) : SparseMemory u64_register :=
  match sp_new size with
  | Ok m => m
  | _ => {| sp_indices := []; sp_pages := []; sp_flags := []; sp_memory_size := 0;
            sp_riscv_pages := 0; sp_load_reservation_address := (0 : reg u64_register) |}
  end.

Lemma sp_of_ok : sp_ok (sp_of 8192).
Proof. apply (sp_new_ok u64_register u64_ok 8192); [split|vm_compute|]; done. Qed.

Lemma sparse_refines_flat_witness :
  writes_as 4093 [0x88; 0x77; 0x66; 0x55; 0x44; 0x33; 0x22; 0x11] (sp_of 8192)
    (sp_store64 (R:=u64_register) 4093 0x1122334455667788 (sp_of 8192))
    (flat_store64 (R:=u64_register) 4093 0x1122334455667788 (sp_view (sp_of 8192))).
Proof.
  assert (H0 : in_u 64 0) by (split; vm_compute; congruence).
  assert (H8 : in_u 8 0) by (split; vm_compute; congruence).
  destruct (sparse_refines_flat u64_register u64_ok (sp_of 8192) 4093 0x1122334455667788 0 0 0 0 0 0 [] None
    sp_of_ok ltac:(split; vm_compute; congruence) ltac:(split; vm_compute; congruence)
    H0 H0 H8 H0 H8 H0 (Forall_nil_2 _) H0 I) as (_ & _ & _ & _ & _ & _ & _ & Hw & _).
  exact Hw.
Defined.

(** * The safety contract *)

Section contract.
Context {R : Register} {HR : RegisterOk R}.

(** A simulated operation inherits the contract of the flat one. *)
Lemma simulates_stable {A} (ms : ST (SparseMemory R) A) (mf : ST (FlatMemory R) A) Q :
  (forall m, sp_ok m -> simulates (ms m) (mf (sp_view m))) ->
  stable flat_ok same_size mf Q -> stable sp_ok same_size ms Q.
Proof.
  intros Hs Hf m Hm. destruct (Hs m Hm) as (Hok & Hsz & Hr).
  specialize (Hf (sp_view m) (sp_view_ok m Hm)). unfold wp, same_size in *.
  change (memory_size (sp_view m)) with (sp_memory_size m) in Hf.
  destruct (ms m) as [o m']. destruct (mf (sp_view m)) as [[v|e|] f]; simpl in *.
  - destruct Hr as [-> <-]. destruct Hf as (? & ? & Hz). split_and!; [done|done|].
    change (sp_memory_size m' = sp_memory_size m). by rewrite Hsz.
  - destruct Hf as (? & Hz). destruct e; try done. destruct Hr as [b ->].
    split; [done|]. change (sp_memory_size m' = sp_memory_size m). by rewrite Hsz.
  - done.
Qed.

Lemma sp_fetch_stable a n w : in_u 64 a -> 0 < n <= 8 -> 0 <= w ->
  stable sp_ok same_size (v ← sp_load (R:=R) a n; mret (wrap w v)) (in_u w).
Proof.
  intros Ha Hn Hw m Hm. destruct (sp_load_spec a n m Hm Ha Hn) as (H1 & H2 & H3).
  assert (Hs : sp_memory_size (sp_load a n m).2 = sp_memory_size m).
  { change (flat_memory_size (sp_view (sp_load a n m).2) = flat_memory_size (sp_view m)).
    by rewrite H2. }
  unfold wp, mbind, ST_bind. destruct (sp_load a n m) as [[v|e|] m']; simpl in *.
  - split_and!; [by apply wrap_range|done|done].
  - done.
  - case_decide; [done|]. by destruct H3.
Qed.

#[export] Instance sparse_memory_ok : MemoryOk R (SparseMemory R).
Proof.
  refine {| mem_ok := sp_ok; mem_max := INVALID_PAGE_INDEX * 4096 |}.
  - intros m Hm. apply Hm.
  - intros m Hm. apply Hm.
  - intros v Hv. apply stable_modify. intros m Hm. split; [|done].
    constructor; simpl; done || apply Hm.
  - intros a Ha. apply (simulates_stable _ (flat_load8 a)); [|by apply flat_loads_stable].
    intros m Hm. by destruct (simulates_loads a m Hm Ha) as (? & ? & ? & ?).
  - intros a Ha. apply (simulates_stable _ (flat_load16 a)); [|by apply flat_loads_stable].
    intros m Hm. by destruct (simulates_loads a m Hm Ha) as (? & ? & ? & ?).
  - intros a Ha. apply (simulates_stable _ (flat_load32 a)); [|by apply flat_loads_stable].
    intros m Hm. by destruct (simulates_loads a m Hm Ha) as (? & ? & ? & ?).
  - intros a Ha. apply (simulates_stable _ (flat_load64 a)); [|by apply flat_loads_stable].
    intros m Hm. by destruct (simulates_loads a m Hm Ha) as (? & ? & ? & ?).
  - intros a v Ha Hv. apply (simulates_stable _ (flat_store8 a v)); [|by apply flat_stores_stable].
    intros m Hm. by destruct (simulates_stores a v m Hm Ha Hv) as (? & ? & ? & ?).
  - intros a v Ha Hv. apply (simulates_stable _ (flat_store16 a v)); [|by apply flat_stores_stable].
    intros m Hm. by destruct (simulates_stores a v m Hm Ha Hv) as (? & ? & ? & ?).
  - intros a v Ha Hv. apply (simulates_stable _ (flat_store32 a v)); [|by apply flat_stores_stable].
    intros m Hm. by destruct (simulates_stores a v m Hm Ha Hv) as (? & ? & ? & ?).
  - intros a v Ha Hv. apply (simulates_stable _ (flat_store64 a v)); [|by apply flat_stores_stable].
    intros m Hm. by destruct (simulates_stores a v m Hm Ha Hv) as (? & ? & ? & ?).
  - intros a Ha. by apply sp_fetch_stable.
  - intros a Ha. by apply sp_fetch_stable.
  - intros a n Ha Hn. apply (simulates_stable _ (flat_load_bytes a n)); [intros; by apply simulates_load_bytes|by apply flat_load_bytes_stable].
  - intros a l Ha Hl Hb. eapply simulates_stable; [intros; by apply simulates_store_bytes|by apply flat_store_bytes_stable].
  - intros a n v Ha Hn Hv. eapply simulates_stable; [intros; by apply simulates_store_byte|by apply flat_store_byte_stable].
  - intros p Hp. apply (simulates_stable _ (flat_fetch_flag p)); [|apply flat_fetch_flag_stable, Hp].
    intros m Hm. by destruct (simulates_flags p 0 m Hm Hp) as (? & ? & ?).
Defined.

#[export] Instance sparse_memory_setup : MemorySetup R (SparseMemory R).
Proof.
  constructor.
  - intros n m Hn Hmax. by apply (sp_new_ok R HR).
  - intros n Hn. change (mem_new n) with (sp_new (R:=R) n). unfold sp_new.
    rewrite Hn. by eexists.
  - intros p f Hp Hf. apply (simulates_stable _ (flat_set_flag p f));
      [intros m Hm; by destruct (simulates_flags p f m Hm Hp Hf) as (? & ? & ?)|].
    apply flat_update_flag_stable; [apply Hp|]. intros. by apply lor_byte.
  - intros p f Hp Hf. apply (simulates_stable _ (flat_clear_flag p f));
      [intros m Hm; by destruct (simulates_flags p f m Hm Hp Hf) as (? & ? & ?)|].
    apply flat_update_flag_stable; [apply Hp|]. intros. by apply land_byte_l.
  - intros a n f src off Ha Hn Hf Hoff Hsrc. apply fill_page_data_stable; try done.
    + intros. eapply simulates_stable; [intros; by apply simulates_store_byte|by apply flat_store_byte_stable].
    + intros. eapply simulates_stable; [intros; by apply simulates_store_bytes|by apply flat_store_bytes_stable].
Qed.
End contract.

#[export] Instance sparse_flags_spec (R : Register) (HR : RegisterOk R)
  : MemoryFlags R (SparseMemory R).
Proof.
  refine {| mem_flags := sp_flags |}.
  - intros m Hm. change (memory_size m) with (sp_memory_size m).
    rewrite (so_pages _ Hm), (so_flags _ Hm). done.
  - intros m p v Hm Hp Hv. change (fetch_flag p m) with (sp_fetch_flag p m).
    unfold sp_fetch_flag. rewrite Hv. pose proof (so_flags _ Hm).
    apply lookup_lt_Some in Hv. rewrite (proj2 (Z.ltb_lt _ _)) by lia. done.
Defined.
