(* ===== verification/Machine.v ===== *)
(** The machine traits [CoreMachine] and [Machine] of src/src/machine/mod.rs: what
    an instruction handler can do to a machine.

    [&mut M] returned by [memory_mut] is a computation on the memory run in the
    machine; indexing the register slice out of range panics. *)
From S2P Require Import Prelude Outcome Register Insts Memory.
From stdpp Require Import base list numbers.
Open Scope Z_scope.

Definition VERSION0 : Z := 0.
Definition VERSION1 : Z := 1.
Definition VERSION2 : Z := 2.

Class CoreMachine (R : Register) (M Mac : Type) := {
  pc : Mac -> reg R;
  update_pc : reg R -> ST Mac unit;
  commit_pc : ST Mac unit;
  memory : Mac -> M;
  memory_mut : forall {A : Type}, ST M A -> ST Mac A;
  registers : Mac -> list (reg R);
  set_register : Z -> reg R -> ST Mac unit;
  version : Mac -> Z;
  isa : Mac -> Z;
}.

Class Machine (R : Register) (M Mac : Type) := {
  machine_core :: CoreMachine R M Mac;
  ecall : ST Mac unit;
  ebreak : ST Mac unit;
}.

Section access.
Context {R : Register} {M Mac : Type} `{CoreMachine R M Mac}.

(** [machine.registers()[idx]] *)
Definition register (idx : Z) : ST Mac (reg R) := fun m =>
  unwrap (registers m !! Z.to_nat idx) m.

(** [update_register] of utils.rs: x0 ignores writes. *)
Definition update_register (register_index : Z) (value : reg R) : ST Mac unit :=
  let register_index := register_index mod RISCV_GENERAL_REGISTER_NUMBER in
  if 0 <? register_index then set_register register_index value else mret tt.
End access.
