(* ===== verification/Core.v ===== *)
(** The machine state of src/src/machine/mod.rs: [DefaultCoreMachine] with the
    [SupportMachine] operations (cycles, reset, program loading, the initial
    stack), [DefaultMachine] with its syscalls and debugger (src/src/syscalls/mod.rs,
    src/src/debugger.rs), its builder, [Pause] and [FlattenedArgsReader].

    Syscall modules and debuggers are code of the embedder: their states are
    parameters [Sy] and [De], and what they do a class of operations on that state
    and the inner machine. *)
From S2P Require Import Prelude Outcome Bits Register Insts Memory Machine.
From stdpp Require Import base list numbers strings.
Open Scope Z_scope.

(** * DefaultCoreMachine *)

Record DefaultCoreMachine (R : Register) (M : Type) := {
  dc_registers : list (reg R);
  dc_pc : reg R;
  dc_next_pc : reg R;
  dc_reset_signal : bool;
  dc_memory : M;
  dc_cycles : Z;
  dc_max_cycles : Z;
  dc_running : bool;
  dc_isa : Z;
  dc_version : Z;
}.
Arguments dc_registers {R M} _. Arguments dc_pc {R M} _. Arguments dc_next_pc {R M} _.
Arguments dc_reset_signal {R M} _. Arguments dc_memory {R M} _. Arguments dc_cycles {R M} _.
Arguments dc_max_cycles {R M} _. Arguments dc_running {R M} _. Arguments dc_isa {R M} _.
Arguments dc_version {R M} _.

Section setters.
Context {R : Register} {M : Type}.
Local Abbreviation DC := (DefaultCoreMachine R M).

Definition with_registers (l : list (reg R)) (m : DC) : DC :=
  {| dc_registers := l; dc_pc := dc_pc m; dc_next_pc := dc_next_pc m;
     dc_reset_signal := dc_reset_signal m; dc_memory := dc_memory m; dc_cycles := dc_cycles m;
     dc_max_cycles := dc_max_cycles m; dc_running := dc_running m; dc_isa := dc_isa m;
     dc_version := dc_version m |}.
Definition with_pc (p n : reg R) (m : DC) : DC :=
  {| dc_registers := dc_registers m; dc_pc := p; dc_next_pc := n;
     dc_reset_signal := dc_reset_signal m; dc_memory := dc_memory m; dc_cycles := dc_cycles m;
     dc_max_cycles := dc_max_cycles m; dc_running := dc_running m; dc_isa := dc_isa m;
     dc_version := dc_version m |}.
Definition with_memory (mem : M) (m : DC) : DC :=
  {| dc_registers := dc_registers m; dc_pc := dc_pc m; dc_next_pc := dc_next_pc m;
     dc_reset_signal := dc_reset_signal m; dc_memory := mem; dc_cycles := dc_cycles m;
     dc_max_cycles := dc_max_cycles m; dc_running := dc_running m; dc_isa := dc_isa m;
     dc_version := dc_version m |}.
Definition with_cycles (c mc : Z) (m : DC) : DC :=
  {| dc_registers := dc_registers m; dc_pc := dc_pc m; dc_next_pc := dc_next_pc m;
     dc_reset_signal := dc_reset_signal m; dc_memory := dc_memory m; dc_cycles := c;
     dc_max_cycles := mc; dc_running := dc_running m; dc_isa := dc_isa m;
     dc_version := dc_version m |}.
Definition with_running (r s : bool) (m : DC) : DC :=
  {| dc_registers := dc_registers m; dc_pc := dc_pc m; dc_next_pc := dc_next_pc m;
     dc_reset_signal := s; dc_memory := dc_memory m; dc_cycles := dc_cycles m;
     dc_max_cycles := dc_max_cycles m; dc_running := r; dc_isa := dc_isa m;
     dc_version := dc_version m |}.
End setters.

#[export] Instance default_core_machine (R : Register) (M : Type)
  : CoreMachine R M (DefaultCoreMachine R M) := {
  pc := dc_pc;
  update_pc p := modify (fun m => with_pc (dc_pc m) p m);
  commit_pc := modify (fun m => with_pc (dc_next_pc m) (dc_next_pc m) m);
  memory := dc_memory;
  memory_mut A c := zoom dc_memory with_memory c;
  registers := dc_registers;
  set_register idx value := fun m =>
    (_ ← unwrap (dc_registers m !! Z.to_nat idx);
     modify (fun m => with_registers (<[Z.to_nat idx := value]> (dc_registers m)) m)) m;
  version := dc_version;
  isa := dc_isa;
}.

(** * Program metadata (src/src/elf.rs) *)

Record LoadingAction := {
  la_addr : Z;
  la_size : Z;
  la_flags : Z;
  la_source : Z * Z;
  la_offset_from_addr : Z;
}.

Record ProgramMetadata := { pm_actions : list LoadingAction; pm_entry : Z }.

(** * SupportMachine *)

Section support.
Context {R : Register} {M : Type} `{!Memory R M}.
Local Abbreviation DC := (DefaultCoreMachine R M).

Definition dc_new_with_memory (isa version max_cycles memory_size : Z) : outcome DC :=
  match mem_new memory_size with
  | Ok mem =>
      Ok {| dc_registers := replicate (Z.to_nat RISCV_GENERAL_REGISTER_NUMBER) r_zero;
            dc_pc := r_zero; dc_next_pc := r_zero; dc_reset_signal := false;
            dc_memory := mem; dc_cycles := 0; dc_max_cycles := max_cycles;
            dc_running := false; dc_isa := isa; dc_version := version |}
  | Err e => Err e
  | Panic => Panic
  end.

Definition dc_new (isa version max_cycles : Z) : outcome DC :=
  dc_new_with_memory isa version max_cycles DEFAULT_MEMORY_SIZE.

Definition set_cycles (cycles : Z) : ST DC unit :=
  modify (fun m => with_cycles cycles (dc_max_cycles m) m).
Definition set_max_cycles (max_cycles : Z) : ST DC unit :=
  modify (fun m => with_cycles (dc_cycles m) max_cycles m).
Definition set_running (running : bool) : ST DC unit :=
  modify (fun m => with_running running (dc_reset_signal m) m).

Definition reset (max_cycles : Z) : ST DC unit := fun m =>
  match mem_new (memory_size (dc_memory m)) with
  | Ok mem =>
      let m := with_registers (replicate (Z.to_nat RISCV_GENERAL_REGISTER_NUMBER) r_zero) m in
      let m := with_pc r_zero (dc_next_pc m) m in
      let m := with_memory mem m in
      let m := with_cycles 0 max_cycles m in
      let m := with_running (dc_running m) true m in
      memory_mut (set_lr (from_u64 U64_MAX)) m
  | Err e => (Err e, m)
  | Panic => (Panic, m)
  end.

(** Reads the signal and clears it. *)
Definition reset_signal : ST DC bool :=
  ret ← gets dc_reset_signal;
  modify (fun m => with_running (dc_running m) false m);;
  mret ret.

(** [u64::checked_add] *)
Definition checked_add_u64 (x y : Z) : option Z := if x + y <=? U64_MAX then Some (x + y) else None.

Definition add_cycles (cycles : Z) : ST DC unit := fun m =>
  match checked_add_u64 (dc_cycles m) cycles with
  | None => fail CyclesOverflow m
  | Some new_cycles =>
      if dc_max_cycles m <? new_cycles then fail CyclesExceeded m
      else set_cycles new_cycles m
  end.

Definition add_cycles_no_checking (cycles : Z) : ST DC unit := fun m =>
  match checked_add_u64 (dc_cycles m) cycles with
  | None => fail CyclesOverflow m
  | Some new_cycles => set_cycles new_cycles m
  end.

(** [program.slice(start..end)] *)
Definition bytes_slice (program : list Z) (source : Z * Z) : option (list Z) :=
  if source.1 <=? source.2 then slice_get program source.1 (source.2 - source.1) else None.

Fixpoint load_actions (program : list Z) (actions : list LoadingAction) (bytes : Z) : ST DC Z :=
  match actions with
  | [] => mret bytes
  | a :: actions' =>
      slice ← unwrap (bytes_slice program (la_source a));
      memory_mut (init_pages (la_addr a) (la_size a) (la_flags a) (Some slice)
                             (la_offset_from_addr a));;
      version ← gets version;
      (if version <? VERSION1
       then memory_mut (store_byte (la_addr a) (la_offset_from_addr a) 0) else mret tt);;
      match checked_add_u64 bytes (wsub 64 (la_source a).2 (la_source a).1) with
      | None => fail (Unexpected "The bytes count overflowed on loading elf")
      | Some bytes => load_actions program actions' bytes
      end
  end.

Definition load_binary_inner (program : list Z) (metadata : ProgramMetadata)
  (update_pc_flag : bool) : ST DC Z :=
  bytes ← load_actions program (pm_actions metadata) 0;
  (if update_pc_flag then update_pc (from_u64 (pm_entry metadata));; commit_pc else mret tt);;
  mret bytes.

Definition load_binary (program : list Z) (metadata : ProgramMetadata) (update_pc_flag : bool)
  : ST DC Z := load_binary_inner program metadata update_pc_flag.

(** [parse_elf] needs the goblin parser: it is the argument [parse]. *)
Definition load_elf_inner (parse : list Z -> Z -> Error + ProgramMetadata) (program : list Z)
  (update_pc_flag : bool) : ST DC Z :=
  version ← gets version;
  match parse program version with
  | inl e => fail e
  | inr metadata => load_binary program metadata update_pc_flag
  end.

Definition load_elf (parse : list Z -> Z -> Error + ProgramMetadata) (program : list Z)
  (update_pc_flag : bool) : ST DC Z := load_elf_inner parse program update_pc_flag.

(** ** initialize_stack

    The arguments are what the iterator yields, and the length it reports. *)

Definition arg : Type := Error + list Z.

Fixpoint push_args (args : list arg) (stack_start : Z) (values : list (reg R))
  : ST DC (list (reg R)) :=
  match args with
  | [] => mret values
  | inl e :: _ => fail e
  | inr arg :: args' =>
      let len := from_u64 (wadd 64 (Z.of_nat (length arg)) 1) in
      sp ← register SP;
      let address := overflowing_sub sp len in
      memory_mut (store_bytes (to_u64 address) arg);;
      memory_mut (store_byte (wadd 64 (to_u64 address) (Z.of_nat (length arg))) 1 0);;
      set_register SP address;;
      version ← gets version;
      if (VERSION2 <=? version) && (to_u64 address <? stack_start) then fail MemOutOfStack
      else push_args args' stack_start (values ++ [address])
  end.

(** [for value in values.iter().rev()], on the reversed list *)
Fixpoint push_values (values : list (reg R)) : ST DC unit :=
  match values with
  | [] => mret tt
  | value :: values' =>
      sp ← register SP;
      let address := overflowing_sub sp (from_u8 (BITS R / 8)) in
      version ← gets version;
      (if VERSION1 <=? version then
         if BITS R =? 64 then memory_mut (store64 address value)
         else memory_mut (store32 address value)
       else memory_mut (store32 address value));;
      set_register SP address;;
      push_values values'
  end.

Definition initialize_stack (args_len : Z) (args : list arg) (stack_start stack_size : Z)
  : ST DC Z :=
  version ← gets version;
  if (VERSION1 <=? version) && (args_len =? 0) then
    let argc_size := BITS R / 8 in
    let origin_sp := wadd 64 stack_start stack_size in
    let unaligned_sp_address := wsub 64 origin_sp argc_size in
    let aligned_sp_address := Z.land unaligned_sp_address (wnot 64 15) in
    let used_bytes := wsub 64 origin_sp aligned_sp_address in
    set_register SP (from_u64 aligned_sp_address);;
    mret used_bytes
  else
    set_register SP (from_u64 (wadd 64 stack_start stack_size));;
    values ← push_args args stack_start [from_u64 args_len];
    values ←
      (if VERSION1 <=? version then
         let values := values ++ [r_zero] in
         let values_bytes :=
           from_u64 (wrap 64 (BITS R / 8 * Z.of_nat (length values))) in
         sp ← register SP;
         let unaligned_sp_address := to_u64 (overflowing_sub sp values_bytes) in
         let aligned_sp_address := Z.land unaligned_sp_address (wnot 64 15) in
         let aligned_bytes := wsub 64 unaligned_sp_address aligned_sp_address in
         sp ← register SP;
         set_register SP (overflowing_sub sp (from_u64 aligned_bytes));;
         mret values
       else mret values);
    push_values (rev values);;
    sp ← register SP;
    if to_u64 sp <? stack_start then fail MemOutOfStack
    else mret (wsub 64 (wadd 64 stack_start stack_size) (to_u64 sp)).
End support.

(** * DefaultMachine *)

(** [Syscalls] and [Debugger], for an inner machine [Inner]. *)
Class Syscalls (Inner Sy : Type) := {
  syscall_initialize : ST (Sy * Inner) unit;
  syscall_ecall : ST (Sy * Inner) bool;
}.

Class Debugger (Inner De : Type) := {
  debugger_initialize : ST (De * Inner) unit;
  debugger_ebreak : ST (De * Inner) unit;
}.

(** [Pause]: the shared flag.  Another thread may set it at any time; the run loop
    takes the moments it does so as an argument. *)
Definition Pause : Type := Z.
Definition Pause_new : Pause := 0.
Definition Pause_interrupt (p : Pause) : Pause := 1.
Definition Pause_has_interrupted (p : Pause) : bool := negb (p =? 0).
Definition Pause_free (p : Pause) : Pause := 0.

Record DefaultMachine (R : Register) (M Sy De : Type) := {
  dm_inner : DefaultCoreMachine R M;
  dm_pause : Pause;
  dm_instruction_cycle_func : Instruction -> Z;
  dm_debugger : option De;
  dm_syscalls : list Sy;
  dm_exit_code : Z;
}.
Arguments dm_inner {R M Sy De} _. Arguments dm_pause {R M Sy De} _.
Arguments dm_instruction_cycle_func {R M Sy De} _. Arguments dm_debugger {R M Sy De} _.
Arguments dm_syscalls {R M Sy De} _. Arguments dm_exit_code {R M Sy De} _.

Section default_machine.
Context {R : Register} {M Sy De : Type} `{!Memory R M}.
Context `{!Syscalls (DefaultCoreMachine R M) Sy} `{!Debugger (DefaultCoreMachine R M) De}.
Local Abbreviation DC := (DefaultCoreMachine R M).
Local Abbreviation DM := (DefaultMachine R M Sy De).

Definition dm_set_inner (i : DC) (m : DM) : DM :=
  {| dm_inner := i; dm_pause := dm_pause m;
     dm_instruction_cycle_func := dm_instruction_cycle_func m;
     dm_debugger := dm_debugger m; dm_syscalls := dm_syscalls m;
     dm_exit_code := dm_exit_code m |}.
Definition dm_set_pause (p : Pause) (m : DM) : DM :=
  {| dm_inner := dm_inner m; dm_pause := p;
     dm_instruction_cycle_func := dm_instruction_cycle_func m;
     dm_debugger := dm_debugger m; dm_syscalls := dm_syscalls m;
     dm_exit_code := dm_exit_code m |}.
Definition dm_set_exit_code (c : Z) (m : DM) : DM :=
  {| dm_inner := dm_inner m; dm_pause := dm_pause m;
     dm_instruction_cycle_func := dm_instruction_cycle_func m;
     dm_debugger := dm_debugger m; dm_syscalls := dm_syscalls m; dm_exit_code := c |}.
Definition dm_set_syscalls (l : list Sy) (i : DC) (m : DM) : DM :=
  {| dm_inner := i; dm_pause := dm_pause m;
     dm_instruction_cycle_func := dm_instruction_cycle_func m;
     dm_debugger := dm_debugger m; dm_syscalls := l; dm_exit_code := dm_exit_code m |}.
Definition dm_set_debugger (d : option De) (i : DC) (m : DM) : DM :=
  {| dm_inner := i; dm_pause := dm_pause m;
     dm_instruction_cycle_func := dm_instruction_cycle_func m;
     dm_debugger := d; dm_syscalls := dm_syscalls m; dm_exit_code := dm_exit_code m |}.

(** A [SupportMachine] operation of the inner machine. *)
Definition on_inner {A} (c : ST DC A) : ST DM A := zoom dm_inner dm_set_inner c.

#[export] Instance default_machine_core : CoreMachine R M DM := {
  pc m := pc (dm_inner m);
  update_pc p := on_inner (update_pc p);
  commit_pc := on_inner commit_pc;
  memory m := memory (dm_inner m);
  memory_mut A c := on_inner (memory_mut c);
  registers m := registers (dm_inner m);
  set_register idx value := on_inner (set_register idx value);
  version m := version (dm_inner m);
  isa m := isa (dm_inner m);
}.

(** [for syscall in &mut self.syscalls]: the first module that processes the call
    ends the loop; the states of the modules that ran are kept on every path. *)
Fixpoint ecall_loop (syscalls : list Sy) : ST (list Sy * DC) bool := fun '(_, inner) =>
  match syscalls with
  | [] => (Ok false, ([], inner))
  | s :: rest =>
      match syscall_ecall (s, inner) with
      | (Ok true, (s', inner')) => (Ok true, (s' :: rest, inner'))
      | (Ok false, (s', inner')) =>
          let '(o, (rest', inner'')) := ecall_loop rest (rest, inner') in
          (o, (s' :: rest', inner''))
      | (Err e, (s', inner')) => (Err e, (s' :: rest, inner'))
      | (Panic, (s', inner')) => (Panic, (s' :: rest, inner'))
      end
  end.

Definition run_syscalls : ST DM bool := fun m =>
  let '(o, (l, inner)) := ecall_loop (dm_syscalls m) (dm_syscalls m, dm_inner m) in
  (o, dm_set_syscalls l inner m).

Definition machine_ecall : ST DM unit :=
  a7 ← register A7;
  let code := to_u64 a7 in
  if code =? 93 then
    a0 ← register A0;
    modify (dm_set_exit_code (to_i8 a0));;
    on_inner (set_running false)
  else
    processed ← run_syscalls;
    if processed : bool then
      exceeded ← gets (fun m => dc_max_cycles (dm_inner m) <? dc_cycles (dm_inner m));
      if exceeded : bool then fail CyclesExceeded else mret tt
    else fail (InvalidEcall code).

Definition machine_ebreak : ST DM unit := fun m =>
  match dm_debugger m with
  | Some d =>
      let '(o, (d', inner)) := debugger_ebreak (d, dm_inner m) in
      (o, dm_set_debugger (Some d') inner m)
  | None => (Ok tt, m)
  end.

#[export] Instance default_machine : Machine R M DM := {
  ecall := machine_ecall;
  ebreak := machine_ebreak;
}.

(** ** Loading *)

Fixpoint initialize_syscalls (syscalls : list Sy) : ST (list Sy * DC) unit := fun '(_, inner) =>
  match syscalls with
  | [] => (Ok tt, ([], inner))
  | s :: rest =>
      match syscall_initialize (s, inner) with
      | (Ok _, (s', inner')) =>
          let '(o, (rest', inner'')) := initialize_syscalls rest (rest, inner') in
          (o, (s' :: rest', inner''))
      | (Err e, (s', inner')) => (Err e, (s' :: rest, inner'))
      | (Panic, (s', inner')) => (Panic, (s' :: rest, inner'))
      end
  end.

Definition run_initialize : ST DM unit := fun m =>
  let '(o, (l, inner)) := initialize_syscalls (dm_syscalls m) (dm_syscalls m, dm_inner m) in
  (o, dm_set_syscalls l inner m).

Definition run_debugger_initialize : ST DM unit := fun m =>
  match dm_debugger m with
  | Some d =>
      let '(o, (d', inner)) := debugger_initialize (d, dm_inner m) in
      (o, dm_set_debugger (Some d') inner m)
  | None => (Ok tt, m)
  end.

(** The [debug_assert!] on the alignment of SP is not compiled in a release build. *)
Definition initialize (args_len : Z) (args : list arg) : ST DM Z :=
  run_initialize;;
  run_debugger_initialize;;
  memory_size ← gets (fun m => memory_size (memory m));
  let stack_size := memory_size / 4 in
  on_inner (initialize_stack args_len args (wsub 64 memory_size stack_size) stack_size).

Definition load_program (parse : list Z -> Z -> Error + ProgramMetadata) (program : list Z)
  (args_len : Z) (args : list arg) : ST DM Z :=
  elf_bytes ← on_inner (load_elf parse program true);
  stack_bytes ← initialize args_len args;
  match checked_add_u64 elf_bytes stack_bytes with
  | None => fail (Unexpected "The bytes count overflowed on loading program")
  | Some bytes => mret bytes
  end.

Definition load_program_with_metadata (program : list Z) (metadata : ProgramMetadata)
  (args_len : Z) (args : list arg) : ST DM Z :=
  elf_bytes ← on_inner (load_binary program metadata true);
  stack_bytes ← initialize args_len args;
  match checked_add_u64 elf_bytes stack_bytes with
  | None => fail (Unexpected "The bytes count overflowed on loading program")
  | Some bytes => mret bytes
  end.

(** ** The builder *)

Record DefaultMachineBuilder := {
  bu_inner : DC;
  bu_instruction_cycle_func : Instruction -> Z;
  bu_debugger : option De;
  bu_syscalls : list Sy;
  bu_pause : Pause;
}.

Definition builder_new (inner : DC) : DefaultMachineBuilder :=
  {| bu_inner := inner; bu_instruction_cycle_func := fun _ => 0; bu_debugger := None;
     bu_syscalls := []; bu_pause := Pause_new |}.
Definition builder_instruction_cycle_func (f : Instruction -> Z) (b : DefaultMachineBuilder)
  : DefaultMachineBuilder :=
  {| bu_inner := bu_inner b; bu_instruction_cycle_func := f; bu_debugger := bu_debugger b;
     bu_syscalls := bu_syscalls b; bu_pause := bu_pause b |}.
Definition builder_syscall (syscall : Sy) (b : DefaultMachineBuilder) : DefaultMachineBuilder :=
  {| bu_inner := bu_inner b; bu_instruction_cycle_func := bu_instruction_cycle_func b;
     bu_debugger := bu_debugger b; bu_syscalls := bu_syscalls b ++ [syscall]; bu_pause := bu_pause b |}.
Definition builder_pause (p : Pause) (b : DefaultMachineBuilder) : DefaultMachineBuilder :=
  {| bu_inner := bu_inner b; bu_instruction_cycle_func := bu_instruction_cycle_func b;
     bu_debugger := bu_debugger b; bu_syscalls := bu_syscalls b; bu_pause := p |}.
Definition builder_debugger (d : De) (b : DefaultMachineBuilder) : DefaultMachineBuilder :=
  {| bu_inner := bu_inner b; bu_instruction_cycle_func := bu_instruction_cycle_func b;
     bu_debugger := Some d; bu_syscalls := bu_syscalls b; bu_pause := bu_pause b |}.
Definition build (b : DefaultMachineBuilder) : DM :=
  {| dm_inner := bu_inner b; dm_pause := bu_pause b;
     dm_instruction_cycle_func := bu_instruction_cycle_func b; dm_debugger := bu_debugger b;
     dm_syscalls := bu_syscalls b; dm_exit_code := 0 |}.
End default_machine.

(** * FlattenedArgsReader *)

Record FlattenedArgsReader (R : Register) := {
  far_argc : reg R;
  far_argv : reg R;
  far_cidx : reg R;
}.
Arguments far_argc {R} _. Arguments far_argv {R} _. Arguments far_cidx {R} _.

Section args_reader.
Context {R : Register} {M : Type} `{!Memory R M}.

Definition far_new (argc argv : reg R) : FlattenedArgsReader R :=
  {| far_argc := argc; far_argv := argv; far_cidx := r_zero |}.

Definition far_len (r : FlattenedArgsReader R) : Z := to_u64 (far_argc r).

(** [next]: [None] ends the iteration; the string loader takes fuel.  A failing load
    is an item of the iteration and leaves the reader where it was. *)
Definition far_next (fuel : nat) (r : FlattenedArgsReader R) (m : M)
  : option (option (outcome (list Z)) * FlattenedArgsReader R * M) :=
  if to_u8 (r_ge (far_cidx r) (far_argc r)) =? 1 then Some (None, r, m)
  else
    let '(addr, m1) :=
      if BITS R =? 32 then load32 (far_argv r) m
      else if BITS R =? 64 then load64 (far_argv r) m else (Panic, m) in
    match addr with
    | Err err => Some (Some (Err err), r, m1)
    | Panic => Some (Some Panic, r, m1)
    | Ok addr =>
        match load_c_string_byte_by_byte fuel addr m1 with
        | None => None
        | Some (Err err, m2) => Some (Some (Err err), r, m2)
        | Some (Panic, m2) => Some (Some Panic, r, m2)
        | Some (Ok cstr, m2) =>
            Some (Some (Ok cstr),
                  {| far_argc := far_argc r;
                     far_argv := overflowing_add (far_argv r) (from_u8 (BITS R / 8));
                     far_cidx := overflowing_add (far_cidx r) (from_u8 1) |}, m2)
        end
    end.
End args_reader.
