(* ===== verification/Decoder.v ===== *)
(** The decoder (src/src/decoder.rs): instruction fetch, the factories, the
    instruction cache and macro-op fusion.

    A computation of the decoder runs on the decoder and the memory it fetches from.
    The fusion rules are the closures and arms of [decode_mop], one definition each. *)
From S2P Require Import Prelude Outcome Bits Register Insts Factories Memory Machine.
From stdpp Require Import base list numbers.
Open Scope Z_scope.

Definition RISCV_PAGESIZE_MASK : Z := RISCV_PAGESIZE - 1.
Definition INSTRUCTION_CACHE_SIZE : Z := 4096.

Definition InstructionFactory : Type := Z -> Z -> option Instruction.

Record DefaultDecoder := {
  dd_factories : list InstructionFactory;
  dd_mop : bool;
  dd_version : Z;
  dd_instructions_cache : list (Z * Instruction);
}.

Definition empty_cache : list (Z * Instruction) :=
  replicate (Z.to_nat INSTRUCTION_CACHE_SIZE) (U64_MAX, 0).

Definition decoder_empty (mop : bool) (version : Z) : DefaultDecoder :=
  {| dd_factories := []; dd_mop := mop; dd_version := version;
     dd_instructions_cache := empty_cache |}.

Definition add_instruction_factory (factory : InstructionFactory) (d : DefaultDecoder)
  : DefaultDecoder :=
  {| dd_factories := dd_factories d ++ [factory]; dd_mop := dd_mop d;
     dd_version := dd_version d; dd_instructions_cache := dd_instructions_cache d |}.

Definition set_cache (c : list (Z * Instruction)) (d : DefaultDecoder) : DefaultDecoder :=
  {| dd_factories := dd_factories d; dd_mop := dd_mop d; dd_version := dd_version d;
     dd_instructions_cache := c |}.

Definition decoder_new (R : Register) (isa version : Z) : DefaultDecoder :=
  let decoder := decoder_empty (negb (Z.land isa ISA_MOP =? 0)) version in
  let decoder := add_instruction_factory (rvc_factory R) decoder in
  let decoder := add_instruction_factory (i_factory R) decoder in
  let decoder := add_instruction_factory (m_factory R) decoder in
  let decoder :=
    if negb (Z.land isa ISA_B =? 0) then add_instruction_factory (b_factory R) decoder
    else decoder in
  if negb (Z.land isa ISA_A =? 0) then add_instruction_factory (a_factory R) decoder
  else decoder.

Definition reset_instructions_cache (d : DefaultDecoder) : DefaultDecoder :=
  set_cache empty_cache d.

(** The slot of a pc in the instruction cache. *)
Definition cache_key (pc : Z) : Z :=
  let pc := wshr 64 pc 1 in
  Z.lor (Z.land pc 0xff) (wshl 64 (wshr 64 pc 12) 8) mod INSTRUCTION_CACHE_SIZE.

(** [for factory in &self.factories { if let Some(instruction) = .. }] *)
Fixpoint first_factory (factories : list InstructionFactory) (instruction_bits version : Z)
  : option Instruction :=
  match factories with
  | [] => None
  | factory :: rest =>
      match factory instruction_bits version with
      | Some instruction => Some instruction
      | None => first_factory rest instruction_bits version
      end
  end.

Section decoder.
Context {R : Register} {M : Type} `{!Memory R M}.

Definition DecoderState : Type := DefaultDecoder * M.

Definition on_memory {A} (c : ST M A) : ST DecoderState A :=
  zoom snd (fun m s => (s.1, m)) c.

Definition decode_bits (pc : Z) : ST M Z :=
  if Z.land pc RISCV_PAGESIZE_MASK <? RISCV_PAGESIZE_MASK - 1 then
    instruction_bits ← execute_load32 pc;
    if negb (Z.land instruction_bits 0x3 =? 0x3)
    then mret (Z.land instruction_bits 0xffff) else mret instruction_bits
  else
    instruction_bits ← execute_load16 pc;
    if Z.land instruction_bits 0x3 =? 0x3 then
      high ← execute_load16 (wadd 64 pc 2);
      mret (Z.lor instruction_bits (wshl 32 high 16))
    else mret instruction_bits.

Definition decode_raw (pc : Z) : ST DecoderState Instruction :=
  size ← gets (fun s => memory_size s.2);
  if size <=? pc then fail (MemOutOfBound pc Memory_)
  else
    let instruction_cache_key := cache_key pc in
    cache ← gets (fun s => dd_instructions_cache s.1);
    cached_instruction ← unwrap (cache !! Z.to_nat instruction_cache_key);
    if cached_instruction.1 =? pc then mret cached_instruction.2
    else
      instruction_bits ← on_memory (decode_bits pc);
      d ← gets fst;
      match first_factory (dd_factories d) instruction_bits (dd_version d) with
      | Some instruction =>
          modify (fun s =>
            (set_cache (<[Z.to_nat instruction_cache_key := (pc, instruction)]>
                          (dd_instructions_cache s.1)) s.1, s.2));;
          mret instruction
      | None => fail (InvalidInstruction pc instruction_bits)
      end.

(** * Macro-op fusion

    [pc + size as u64] wraps in a release build. *)

Definition rule_adc (pc : Z) (head_instruction : Instruction)
  : ST DecoderState (option Instruction) :=
  let head_inst := head_instruction in
  let head_size := instruction_length head_instruction in
  if negb (Rtype_rd head_inst =? Rtype_rs1 head_inst)
     || (Rtype_rs1 head_inst =? Rtype_rs2 head_inst)
  then mret None else
  next_inst ← decode_raw (wadd 64 pc head_size);
  if negb (extract_opcode next_inst =? OP_SLTU) then mret None else
  let next_size := instruction_length next_inst in
  if negb (Rtype_rd next_inst =? Rtype_rs2 head_inst)
     || negb (Rtype_rs2 head_inst =? Rtype_rs2 next_inst)
     || negb (Rtype_rs1 next_inst =? Rtype_rs1 head_inst)
  then mret None else
  neck_inst ← decode_raw (wadd 64 (wadd 64 pc head_size) next_size);
  if negb (extract_opcode neck_inst =? OP_ADD) then mret None else
  let neck_size := instruction_length neck_inst in
  if negb (Rtype_rd neck_inst =? Rtype_rs1 neck_inst)
     || negb (Rtype_rs1 neck_inst =? Rtype_rs1 next_inst)
     || (Rtype_rs2 neck_inst =? Rtype_rs1 head_inst)
     || (Rtype_rs2 neck_inst =? Rtype_rs2 head_inst)
  then mret None else
  body_inst ← decode_raw (wadd 64 (wadd 64 (wadd 64 pc head_size) next_size) neck_size);
  if negb (extract_opcode body_inst =? OP_SLTU) then mret None else
  let body_size := instruction_length body_inst in
  if negb (Rtype_rd body_inst =? Rtype_rs2 body_inst)
     || negb (Rtype_rs2 body_inst =? Rtype_rs2 neck_inst)
     || negb (Rtype_rs1 body_inst =? Rtype_rs1 neck_inst)
  then mret None else
  tail_inst ← decode_raw
    (wadd 64 (wadd 64 (wadd 64 (wadd 64 pc head_size) next_size) neck_size) body_size);
  if negb (extract_opcode tail_inst =? OP_OR) then mret None else
  let tail_size := instruction_length tail_inst in
  if negb (Rtype_rd tail_inst =? Rtype_rs1 tail_inst)
     || negb (Rtype_rs1 tail_inst =? Rtype_rs2 head_inst)
     || negb (Rtype_rs2 tail_inst =? Rtype_rs2 body_inst)
  then mret None else
  if (Rtype_rd head_inst =? ZERO) || (Rtype_rd next_inst =? ZERO)
     || (Rtype_rd body_inst =? ZERO)
  then mret None else
  let fuze_inst :=
    Rtype_new OP_ADC (Rtype_rd head_inst) (Rtype_rd next_inst) (Rtype_rd body_inst) in
  let fuze_size :=
    wadd 8 (wadd 8 (wadd 8 (wadd 8 head_size next_size) neck_size) body_size) tail_size in
  mret (Some (set_instruction_length_n fuze_inst fuze_size)).

(** [add3a], [add3b], [add3c] of [rule_add3]: the three blocks on the decoded triple. *)
Definition add3a (i0 i1 i2 : Instruction) : option Instruction :=
  let r0 := Rtype_rd i0 in
  let r1 := Rtype_rs1 i0 in
  let r2 := Rtype_rd i1 in
  let r3 := Rtype_rd i2 in
  let r4 := Rtype_rs2 i2 in
  if (Rtype_rd i0 =? r0) && (Rtype_rs1 i0 =? r1) && (Rtype_rs2 i0 =? r0)
     && (Rtype_rd i1 =? r2) && (Rtype_rs1 i1 =? r0) && (Rtype_rs2 i1 =? r1)
     && (Rtype_rd i2 =? r3) && (Rtype_rs1 i2 =? r2) && (Rtype_rs2 i2 =? r4)
     && negb (r0 =? r1) && negb (r0 =? r4) && negb (r2 =? r4)
     && negb (r0 =? ZERO) && negb (r2 =? ZERO)
  then Some (R5type_new OP_ADD3A r0 r1 r2 r3 r4) else None.

Definition add3b (i0 i1 i2 : Instruction) : option Instruction :=
  let r0 := Rtype_rd i0 in
  let r1 := Rtype_rs1 i0 in
  let r2 := Rtype_rs2 i0 in
  let r3 := Rtype_rd i2 in
  let r4 := Rtype_rs2 i2 in
  if (Rtype_rd i0 =? r0) && (Rtype_rs1 i0 =? r1) && (Rtype_rs2 i0 =? r2)
     && (Rtype_rd i1 =? r1) && (Rtype_rs1 i1 =? r0) && (Rtype_rs2 i1 =? r1)
     && (Rtype_rd i2 =? r3) && (Rtype_rs1 i2 =? r1) && (Rtype_rs2 i2 =? r4)
     && negb (r0 =? r1) && negb (r0 =? r4) && negb (r1 =? r4)
     && negb (r0 =? ZERO) && negb (r1 =? ZERO)
  then Some (R5type_new OP_ADD3B r0 r1 r2 r3 r4) else None.

Definition add3c (i0 i1 i2 : Instruction) : option Instruction :=
  let r0 := Rtype_rd i0 in
  let r1 := Rtype_rs1 i0 in
  let r2 := Rtype_rs2 i0 in
  let r3 := Rtype_rd i1 in
  let r4 := Rtype_rs2 i2 in
  if (Rtype_rd i0 =? r0) && (Rtype_rs1 i0 =? r1) && (Rtype_rs2 i0 =? r2)
     && (Rtype_rd i1 =? r3) && (Rtype_rs1 i1 =? r0) && (Rtype_rs2 i1 =? r1)
     && (Rtype_rd i2 =? r3) && (Rtype_rs1 i2 =? r3) && (Rtype_rs2 i2 =? r4)
     && negb (r0 =? r1) && negb (r0 =? r4) && negb (r3 =? r4)
     && negb (r0 =? ZERO) && negb (r3 =? ZERO)
  then Some (R5type_new OP_ADD3C r0 r1 r2 r3 r4) else None.

Definition rule_add3 (pc : Z) (head_instruction : Instruction)
  : ST DecoderState (option Instruction) :=
  version ← gets (fun s => dd_version s.1);
  if version <? VERSION2 then mret None else
  let i0 := head_instruction in
  let i0_size := instruction_length head_instruction in
  i1 ← decode_raw (wadd 64 pc i0_size);
  if negb (extract_opcode i1 =? OP_SLTU) then mret None else
  let i1_size := instruction_length i1 in
  i2 ← decode_raw (wadd 64 (wadd 64 pc i0_size) i1_size);
  if negb (extract_opcode i2 =? OP_ADD) then mret None else
  let i2_size := instruction_length i2 in
  let fuze_size := wadd 8 (wadd 8 i0_size i1_size) i2_size in
  match add3a i0 i1 i2 with
  | Some fuze_inst => mret (Some (set_instruction_length_n fuze_inst fuze_size))
  | None =>
  match add3b i0 i1 i2 with
  | Some fuze_inst => mret (Some (set_instruction_length_n fuze_inst fuze_size))
  | None =>
  match add3c i0 i1 i2 with
  | Some fuze_inst => mret (Some (set_instruction_length_n fuze_inst fuze_size))
  | None => mret None
  end end end.

Definition rule_adcs (pc : Z) (head_instruction : Instruction)
  : ST DecoderState (option Instruction) :=
  version ← gets (fun s => dd_version s.1);
  if version <? VERSION2 then mret None else
  let i0 := head_instruction in
  let i0_size := instruction_length head_instruction in
  let i0 :=
    if (Rtype_rd i0 =? Rtype_rs1 i0) && negb (Rtype_rd i0 =? Rtype_rs2 i0)
    then Rtype_new (Rtype_op i0) (Rtype_rd i0) (Rtype_rs2 i0) (Rtype_rs1 i0) else i0 in
  i1 ← decode_raw (wadd 64 pc i0_size);
  if negb (extract_opcode i1 =? OP_SLTU) then mret None else
  let i1_size := instruction_length i1 in
  let r0 := Rtype_rd i0 in
  let r1 := Rtype_rs1 i0 in
  let r2 := Rtype_rs2 i0 in
  let r3 := Rtype_rd i1 in
  if (Rtype_rd i0 =? r0) && (Rtype_rs1 i0 =? r1) && (Rtype_rs2 i0 =? r2)
     && (Rtype_rd i1 =? r3) && (Rtype_rs1 i1 =? r0) && (Rtype_rs2 i1 =? r1)
     && negb (r0 =? r1) && negb (r0 =? ZERO)
  then
    let fuze_inst := R4type_new OP_ADCS r0 r1 r2 r3 in
    let fuze_size := wadd 8 i0_size i1_size in
    mret (Some (set_instruction_length_n fuze_inst fuze_size))
  else mret None.

(** [if let Ok(Some(i)) = rule(self, memory) { Ok(i) } else { .. }] *)
Definition try_rule (rule : ST DecoderState (option Instruction))
  (otherwise : ST DecoderState Instruction) : ST DecoderState Instruction :=
  r ← attempt rule;
  match r with
  | Some (Some i) => mret i
  | _ => otherwise
  end.

Definition mop_add (pc : Z) (head_instruction : Instruction) : ST DecoderState Instruction :=
  try_rule (rule_adc pc head_instruction)
    (try_rule (rule_add3 pc head_instruction)
       (try_rule (rule_adcs pc head_instruction) (mret head_instruction))).

(** The fourth condition on [next_inst] compares it with itself, as the code does. *)
Definition rule_sbb (pc : Z) (head_instruction : Instruction)
  : ST DecoderState (option Instruction) :=
  let head_inst := head_instruction in
  let head_size := instruction_length head_instruction in
  if negb (Rtype_rd head_inst =? Rtype_rs2 head_inst)
     || (Rtype_rs1 head_inst =? Rtype_rs2 head_inst)
  then mret None else
  next_inst ← decode_raw (wadd 64 pc head_size);
  if negb (extract_opcode next_inst =? OP_SLTU) then mret None else
  let next_size := instruction_length next_inst in
  if (Rtype_rd next_inst =? Rtype_rs1 head_inst)
     || (Rtype_rd next_inst =? Rtype_rs2 head_inst)
     || negb (Rtype_rs1 next_inst =? Rtype_rs1 head_inst)
     || negb (Rtype_rs2 next_inst =? Rtype_rs2 next_inst)
  then mret None else
  neck_inst ← decode_raw (wadd 64 (wadd 64 pc head_size) next_size);
  if negb (extract_opcode neck_inst =? OP_SUB) then mret None else
  let neck_size := instruction_length neck_inst in
  if negb (Rtype_rd neck_inst =? Rtype_rs1 head_inst)
     || negb (Rtype_rs1 neck_inst =? Rtype_rs2 head_inst)
     || (Rtype_rs2 neck_inst =? Rtype_rs1 head_inst)
     || (Rtype_rs2 neck_inst =? Rtype_rs2 head_inst)
     || (Rtype_rs2 neck_inst =? Rtype_rd next_inst)
  then mret None else
  body_inst ← decode_raw (wadd 64 (wadd 64 (wadd 64 pc head_size) next_size) neck_size);
  if negb (extract_opcode body_inst =? OP_SLTU) then mret None else
  let body_size := instruction_length body_inst in
  if negb (Rtype_rd body_inst =? Rtype_rs2 neck_inst)
     || negb (Rtype_rs1 body_inst =? Rtype_rs2 head_inst)
     || negb (Rtype_rs2 body_inst =? Rtype_rs1 head_inst)
  then mret None else
  tail_inst ← decode_raw
    (wadd 64 (wadd 64 (wadd 64 (wadd 64 pc head_size) next_size) neck_size) body_size);
  if negb (extract_opcode tail_inst =? OP_OR) then mret None else
  let tail_size := instruction_length tail_inst in
  if negb (Rtype_rd tail_inst =? Rtype_rd head_inst)
     || negb (Rtype_rs1 tail_inst =? Rtype_rs2 neck_inst)
     || negb (Rtype_rs2 tail_inst =? Rtype_rd next_inst)
  then mret None else
  let fuze_inst :=
    R4type_new OP_SBB (Rtype_rs1 head_inst) (Rtype_rs2 head_inst) (Rtype_rs2 neck_inst)
               (Rtype_rd next_inst) in
  if (Rtype_rs1 head_inst =? ZERO) || (Rtype_rs2 head_inst =? ZERO)
     || (Rtype_rs2 neck_inst =? ZERO) || (Rtype_rd next_inst =? ZERO)
  then mret None else
  let fuze_size :=
    wadd 8 (wadd 8 (wadd 8 (wadd 8 head_size next_size) neck_size) body_size) tail_size in
  mret (Some (set_instruction_length_n fuze_inst fuze_size)).

Definition rule_sbbs (pc : Z) (head_instruction : Instruction)
  : ST DecoderState (option Instruction) :=
  version ← gets (fun s => dd_version s.1);
  if version <? VERSION2 then mret None else
  let i0 := head_instruction in
  let i0_size := instruction_length head_instruction in
  i1 ← decode_raw (wadd 64 pc i0_size);
  if negb (extract_opcode i1 =? OP_SLTU) then mret None else
  let i1_size := instruction_length i1 in
  let r0 := Rtype_rd i0 in
  let r1 := Rtype_rs1 i0 in
  let r2 := Rtype_rs2 i0 in
  let r3 := Rtype_rd i1 in
  if (Rtype_rd i0 =? r0) && (Rtype_rs1 i0 =? r1) && (Rtype_rs2 i0 =? r2)
     && (Rtype_rd i1 =? r3) && (Rtype_rs1 i1 =? r1) && (Rtype_rs2 i1 =? r2)
     && negb (r0 =? r1) && negb (r0 =? r2)
  then
    let fuze_inst := R4type_new OP_SBBS r0 r1 r2 r3 in
    let fuze_size := wadd 8 i0_size i1_size in
    mret (Some (set_instruction_length_n fuze_inst fuze_size))
  else mret None.

Definition mop_sub (pc : Z) (head_instruction : Instruction) : ST DecoderState Instruction :=
  try_rule (rule_sbb pc head_instruction)
    (try_rule (rule_sbbs pc head_instruction) (mret head_instruction)).

(** [match self.decode_raw(..) { Ok(ni) => ni, Err(_) => return Ok(head_instruction) }] *)
Definition with_next (pc : Z) (head_instruction : Instruction)
  (k : Instruction -> ST DecoderState Instruction) : ST DecoderState Instruction :=
  r ← attempt (decode_raw (wadd 64 pc (instruction_length head_instruction)));
  match r with
  | Some next_instruction => k next_instruction
  | None => mret head_instruction
  end.

(** [i32::checked_add] *)
Definition checked_add_i32 (x y : Z) : option Z :=
  if (-2147483648 <=? x + y) && (x + y <=? 2147483647) then Some (x + y) else None.

Definition fuze (inst head_instruction next_instruction : Instruction) : Instruction :=
  set_instruction_length_n inst
    (wadd 8 (instruction_length head_instruction) (instruction_length next_instruction)).

Definition mop_lui (pc : Z) (head_instruction : Instruction) : ST DecoderState Instruction :=
  with_next pc head_instruction (fun next_instruction =>
    version ← gets (fun s => dd_version s.1);
    let head_inst := head_instruction in
    let next_inst := next_instruction in
    let next_opcode := extract_opcode next_instruction in
    if next_opcode =? OP_JALR_VERSION1 then
      let test_condition :=
        if VERSION2 <=? version then
          (Itype_rs1 next_inst =? Utype_rd head_inst) && (Itype_rd next_inst =? RA)
          && (Itype_rs1 next_inst =? RA)
        else (Itype_rs1 next_inst =? Utype_rd head_inst) && (Itype_rd next_inst =? RA) in
      if test_condition then
        let fuze_imm :=
          sign 32 (Utype_immediate_s head_inst + Itype_immediate_s next_inst) in
        mret (fuze (Utype_new_s OP_FAR_JUMP_ABS RA fuze_imm) head_instruction next_instruction)
      else mret head_instruction
    else if next_opcode =? OP_ADDIW then
      if (Itype_rs1 next_inst =? Itype_rd next_inst)
         && (Itype_rd next_inst =? Utype_rd head_inst) then
        let fuze_imm :=
          sign 32 (Utype_immediate_s head_inst + Itype_immediate_s next_inst) in
        mret (fuze (Utype_new_s OP_CUSTOM_LOAD_IMM (Utype_rd head_inst) fuze_imm)
                   head_instruction next_instruction)
      else mret head_instruction
    else mret head_instruction).

Definition mop_auipc (pc : Z) (head_instruction : Instruction) : ST DecoderState Instruction :=
  with_next pc head_instruction (fun next_instruction =>
    version ← gets (fun s => dd_version s.1);
    let head_inst := head_instruction in
    let next_inst := next_instruction in
    let next_opcode := extract_opcode next_instruction in
    if next_opcode =? OP_JALR_VERSION1 then
      if VERSION2 <=? version then
        if (Itype_rs1 next_inst =? Utype_rd head_inst) && (Itype_rd next_inst =? RA)
           && (Itype_rs1 next_inst =? RA) then
          match checked_add_i32 (Utype_immediate_s head_inst) (Itype_immediate_s next_inst) with
          | Some fuze_imm =>
              mret (fuze (Utype_new_s OP_FAR_JUMP_REL RA fuze_imm)
                         head_instruction next_instruction)
          | None => mret head_instruction
          end
        else mret head_instruction
      else
        if (Itype_rs1 next_inst =? Utype_rd head_inst) && (Itype_rd next_inst =? RA) then
          let fuze_imm :=
            sign 32 (Utype_immediate_s head_inst + Itype_immediate_s next_inst) in
          mret (fuze (Utype_new_s OP_FAR_JUMP_REL RA fuze_imm) head_instruction next_instruction)
        else mret head_instruction
    else if (next_opcode =? OP_ADDI) && (VERSION2 <=? version) then
      if (Itype_rs1 next_inst =? Itype_rd next_inst)
         && (Itype_rd next_inst =? Utype_rd head_inst) then
        if pc <=? 2147483647 then (* i32::try_from(pc) *)
          match s ← checked_add_i32 (Utype_immediate_s head_inst) (Itype_immediate_s next_inst);
                checked_add_i32 s pc with
          | Some fuze_imm =>
              mret (fuze (Utype_new_s OP_CUSTOM_LOAD_IMM (Utype_rd head_inst) fuze_imm)
                         head_instruction next_instruction)
          | None => mret head_instruction
          end
        else mret head_instruction
      else mret head_instruction
    else mret head_instruction).

(** The arms of OP_MULH, OP_MULHU, OP_MULHSU, OP_DIV and OP_DIVU differ in the second
    opcode and the fused one. *)
Definition mop_wide (next_op fuze_op : InstructionOpcode) (pc : Z)
  (head_instruction : Instruction) : ST DecoderState Instruction :=
  with_next pc head_instruction (fun next_instruction =>
    let head_inst := head_instruction in
    let next_inst := next_instruction in
    if extract_opcode next_instruction =? next_op then
      if negb (Rtype_rd head_inst =? Rtype_rs1 head_inst)
         && negb (Rtype_rd head_inst =? Rtype_rs2 head_inst)
         && (Rtype_rs1 head_inst =? Rtype_rs1 next_inst)
         && (Rtype_rs2 head_inst =? Rtype_rs2 next_inst)
         && negb (Rtype_rd head_inst =? Rtype_rd next_inst) then
        mret (fuze (R4type_new fuze_op (Rtype_rd head_inst) (Rtype_rs1 head_inst)
                               (Rtype_rs2 head_inst) (Rtype_rd next_inst))
                   head_instruction next_instruction)
      else mret head_instruction
    else mret head_instruction).

Definition mop_mulh := mop_wide OP_MUL OP_WIDE_MUL.
Definition mop_mulhu := mop_wide OP_MUL OP_WIDE_MULU.
Definition mop_mulhsu := mop_wide OP_MUL OP_WIDE_MULSU.
Definition mop_div := mop_wide OP_REM OP_WIDE_DIV.
Definition mop_divu := mop_wide OP_REMU OP_WIDE_DIVU.

Definition decode_mop (pc : Z) : ST DecoderState Instruction :=
  head_instruction ← decode_raw pc;
  let head_opcode := extract_opcode head_instruction in
  if head_opcode =? OP_ADD then mop_add pc head_instruction
  else if head_opcode =? OP_SUB then mop_sub pc head_instruction
  else if head_opcode =? OP_LUI then mop_lui pc head_instruction
  else if head_opcode =? OP_AUIPC then mop_auipc pc head_instruction
  else if head_opcode =? OP_MULH then mop_mulh pc head_instruction
  else if head_opcode =? OP_MULHU then mop_mulhu pc head_instruction
  else if head_opcode =? OP_MULHSU then mop_mulhsu pc head_instruction
  else if head_opcode =? OP_DIV then mop_div pc head_instruction
  else if head_opcode =? OP_DIVU then mop_divu pc head_instruction
  else mret head_instruction.

Definition decode (pc : Z) : ST DecoderState Instruction :=
  mop ← gets (fun s => dd_mop s.1);
  if mop : bool then decode_mop pc else decode_raw pc.
End decoder.
