(* ===== verification/Execute.v ===== *)
(** The instruction semantics: src/src/instructions/common.rs and
    src/src/instructions/execute.rs, one definition per function.

    A handler reads its operands from the packed instruction, reads and writes the
    machine through the [Machine] trait, and returns an error or panics as the code
    does.  [handle_table] is the arms of the [for_each_inst_match2!] dispatch (and
    the entries of the [for_each_inst_array1!] thread table), in order. *)
From S2P Require Import Prelude Outcome Register Insts Memory Machine.
From stdpp Require Import base list numbers.
Open Scope Z_scope.

Section execute.
Context {R : Register} {M Mac : Type} `{!Memory R M} `{!Machine R M Mac}.

(** * common.rs *)

Definition check_load_boundary (version0 : bool) (address : reg R) (bytes memory_size : Z)
  : ST Mac unit :=
  if version0 then
    let address := to_u64 address in
    let '(end_, overflow) := woverflowing_add 64 address bytes in
    if overflow || (end_ =? memory_size) then fail (MemOutOfBound end_ Memory_) else mret tt
  else mret tt.

Definition common_add (rd rs1 rs2 : Z) : ST Mac unit :=
  rs1_value ← register rs1;
  rs2_value ← register rs2;
  let value := overflowing_add rs1_value rs2_value in
  update_register rd value.

Definition common_addw (rd rs1 rs2 : Z) : ST Mac unit :=
  rs1_value ← register rs1;
  rs2_value ← register rs2;
  let value := overflowing_add rs1_value rs2_value in
  update_register rd (sign_extend value (from_u8 32)).

Definition common_sub (rd rs1 rs2 : Z) : ST Mac unit :=
  rs1_value ← register rs1;
  rs2_value ← register rs2;
  let value := overflowing_sub rs1_value rs2_value in
  update_register rd value.

Definition common_subw (rd rs1 rs2 : Z) : ST Mac unit :=
  rs1_value ← register rs1;
  rs2_value ← register rs2;
  let value := overflowing_sub rs1_value rs2_value in
  update_register rd (sign_extend value (from_u8 32)).

Definition common_addi (rd rs1 imm : Z) : ST Mac unit :=
  r ← register rs1;
  let value := overflowing_add r (from_i32 imm) in
  update_register rd value.

Definition common_addiw (rd rs1 imm : Z) : ST Mac unit :=
  r ← register rs1;
  let value := overflowing_add r (from_i32 imm) in
  update_register rd (sign_extend value (from_u8 32)).

Definition common_lb (rd rs1 imm : Z) (version0 : bool) : ST Mac unit :=
  r ← register rs1;
  let address := overflowing_add r (from_i32 imm) in
  size ← gets (fun m => memory_size (memory m));
  check_load_boundary version0 address 1 size;;
  value ← memory_mut (load8 address);
  update_register rd (sign_extend value (from_u8 8)).

Definition common_lh (rd rs1 imm : Z) (version0 : bool) : ST Mac unit :=
  r ← register rs1;
  let address := overflowing_add r (from_i32 imm) in
  size ← gets (fun m => memory_size (memory m));
  check_load_boundary version0 address 2 size;;
  value ← memory_mut (load16 address);
  update_register rd (sign_extend value (from_u8 16)).

Definition common_lw (rd rs1 imm : Z) (version0 : bool) : ST Mac unit :=
  r ← register rs1;
  let address := overflowing_add r (from_i32 imm) in
  size ← gets (fun m => memory_size (memory m));
  check_load_boundary version0 address 4 size;;
  value ← memory_mut (load32 address);
  update_register rd (sign_extend value (from_u8 32)).

Definition common_ld (rd rs1 imm : Z) (version0 : bool) : ST Mac unit :=
  r ← register rs1;
  let address := overflowing_add r (from_i32 imm) in
  size ← gets (fun m => memory_size (memory m));
  check_load_boundary version0 address 8 size;;
  value ← memory_mut (load64 address);
  update_register rd (sign_extend value (from_u8 64)).

Definition common_lbu (rd rs1 imm : Z) (version0 : bool) : ST Mac unit :=
  r ← register rs1;
  let address := overflowing_add r (from_i32 imm) in
  size ← gets (fun m => memory_size (memory m));
  check_load_boundary version0 address 1 size;;
  value ← memory_mut (load8 address);
  update_register rd value.

Definition common_lhu (rd rs1 imm : Z) (version0 : bool) : ST Mac unit :=
  r ← register rs1;
  let address := overflowing_add r (from_i32 imm) in
  size ← gets (fun m => memory_size (memory m));
  check_load_boundary version0 address 2 size;;
  value ← memory_mut (load16 address);
  update_register rd value.

Definition common_lwu (rd rs1 imm : Z) (version0 : bool) : ST Mac unit :=
  r ← register rs1;
  let address := overflowing_add r (from_i32 imm) in
  size ← gets (fun m => memory_size (memory m));
  check_load_boundary version0 address 4 size;;
  value ← memory_mut (load32 address);
  update_register rd value.

Definition common_sb (rs1 rs2 imm : Z) : ST Mac unit :=
  r ← register rs1;
  let address := overflowing_add r (from_i32 imm) in
  value ← register rs2;
  memory_mut (store8 address value).

Definition common_sh (rs1 rs2 imm : Z) : ST Mac unit :=
  r ← register rs1;
  let address := overflowing_add r (from_i32 imm) in
  value ← register rs2;
  memory_mut (store16 address value).

Definition common_sw (rs1 rs2 imm : Z) : ST Mac unit :=
  r ← register rs1;
  let address := overflowing_add r (from_i32 imm) in
  value ← register rs2;
  memory_mut (store32 address value).

Definition common_sd (rs1 rs2 imm : Z) : ST Mac unit :=
  r ← register rs1;
  let address := overflowing_add r (from_i32 imm) in
  value ← register rs2;
  memory_mut (store64 address value).

Definition common_and (rd rs1 rs2 : Z) : ST Mac unit :=
  rs1_value ← register rs1;
  rs2_value ← register rs2;
  let value := r_and rs1_value rs2_value in
  update_register rd value.

Definition common_xor (rd rs1 rs2 : Z) : ST Mac unit :=
  rs1_value ← register rs1;
  rs2_value ← register rs2;
  let value := r_xor rs1_value rs2_value in
  update_register rd value.

Definition common_or (rd rs1 rs2 : Z) : ST Mac unit :=
  rs1_value ← register rs1;
  rs2_value ← register rs2;
  let value := r_or rs1_value rs2_value in
  update_register rd value.

Definition common_andi (rd rs1 imm : Z) : ST Mac unit :=
  r ← register rs1;
  let value := r_and r (from_i32 imm) in
  update_register rd value.

Definition common_xori (rd rs1 imm : Z) : ST Mac unit :=
  r ← register rs1;
  let value := r_xor r (from_i32 imm) in
  update_register rd value.

Definition common_ori (rd rs1 imm : Z) : ST Mac unit :=
  r ← register rs1;
  let value := r_or r (from_i32 imm) in
  update_register rd value.

Definition common_slli (rd rs1 shamt : Z) : ST Mac unit :=
  r ← register rs1;
  let value := r_shl r (from_u32 shamt) in
  update_register rd value.

Definition common_srli (rd rs1 shamt : Z) : ST Mac unit :=
  r ← register rs1;
  let value := r_shr r (from_u32 shamt) in
  update_register rd value.

Definition common_srai (rd rs1 shamt : Z) : ST Mac unit :=
  r ← register rs1;
  let value := signed_shr r (from_u32 shamt) in
  update_register rd value.

Definition common_slliw (rd rs1 shamt : Z) : ST Mac unit :=
  r ← register rs1;
  let value := r_shl r (from_u32 shamt) in
  update_register rd (sign_extend value (from_u8 32)).

Definition common_srliw (rd rs1 shamt : Z) : ST Mac unit :=
  r ← register rs1;
  let value := r_shr (zero_extend r (from_u8 32)) (from_u32 shamt) in
  update_register rd (sign_extend value (from_u8 32)).

Definition common_sraiw (rd rs1 shamt : Z) : ST Mac unit :=
  r ← register rs1;
  let value := signed_shr (sign_extend r (from_u8 32)) (from_u32 shamt) in
  update_register rd (sign_extend value (from_u8 32)).

Definition common_jal (rd imm xbytes : Z) : ST Mac unit :=
  pc0 ← gets pc;
  let link := overflowing_add pc0 (from_u8 xbytes) in
  update_register rd link;;
  pc02 ← gets pc;
  update_pc (overflowing_add pc02 (from_i32 imm)).

(** * execute.rs *)

Definition handle_invalid_op (inst : Instruction) : ST Mac unit :=
  fail (InvalidOp (extract_opcode inst)).

Definition handle_sub (inst : Instruction) : ST Mac unit :=
  common_sub (Rtype_rd inst) (Rtype_rs1 inst) (Rtype_rs2 inst).

Definition handle_subw (inst : Instruction) : ST Mac unit :=
  common_subw (Rtype_rd inst) (Rtype_rs1 inst) (Rtype_rs2 inst).

Definition handle_add (inst : Instruction) : ST Mac unit :=
  common_add (Rtype_rd inst) (Rtype_rs1 inst) (Rtype_rs2 inst).

Definition handle_addw (inst : Instruction) : ST Mac unit :=
  common_addw (Rtype_rd inst) (Rtype_rs1 inst) (Rtype_rs2 inst).

Definition handle_xor (inst : Instruction) : ST Mac unit :=
  common_xor (Rtype_rd inst) (Rtype_rs1 inst) (Rtype_rs2 inst).

Definition handle_or (inst : Instruction) : ST Mac unit :=
  common_or (Rtype_rd inst) (Rtype_rs1 inst) (Rtype_rs2 inst).

Definition handle_and (inst : Instruction) : ST Mac unit :=
  common_and (Rtype_rd inst) (Rtype_rs1 inst) (Rtype_rs2 inst).

Definition handle_sll (inst : Instruction) : ST Mac unit :=
  r ← register (Rtype_rs2 inst);
  let shift_value := r_and r (from_u8 (SHIFT_MASK R)) in
  r2 ← register (Rtype_rs1 inst);
  let value := r_shl r2 shift_value in
  update_register (Rtype_rd inst) value.

Definition handle_sllw (inst : Instruction) : ST Mac unit :=
  r ← register (Rtype_rs2 inst);
  let shift_value := r_and r (from_u8 0x1f) in
  r2 ← register (Rtype_rs1 inst);
  let value := r_shl r2 shift_value in
  update_register (Rtype_rd inst) (sign_extend value (from_u8 32)).

Definition handle_srl (inst : Instruction) : ST Mac unit :=
  r ← register (Rtype_rs2 inst);
  let shift_value := r_and r (from_u8 (SHIFT_MASK R)) in
  r2 ← register (Rtype_rs1 inst);
  let value := r_shr r2 shift_value in
  update_register (Rtype_rd inst) value.

Definition handle_srlw (inst : Instruction) : ST Mac unit :=
  r ← register (Rtype_rs2 inst);
  let shift_value := r_and r (from_u8 0x1f) in
  r2 ← register (Rtype_rs1 inst);
  let value := r_shr (zero_extend r2 (from_u8 32)) shift_value in
  update_register (Rtype_rd inst) (sign_extend value (from_u8 32)).

Definition handle_sra (inst : Instruction) : ST Mac unit :=
  r ← register (Rtype_rs2 inst);
  let shift_value := r_and r (from_u8 (SHIFT_MASK R)) in
  r2 ← register (Rtype_rs1 inst);
  let value := signed_shr r2 shift_value in
  update_register (Rtype_rd inst) value.

Definition handle_sraw (inst : Instruction) : ST Mac unit :=
  r ← register (Rtype_rs2 inst);
  let shift_value := r_and r (from_u8 0x1f) in
  r2 ← register (Rtype_rs1 inst);
  let value := signed_shr (sign_extend r2 (from_u8 32)) shift_value in
  update_register (Rtype_rd inst) (sign_extend value (from_u8 32)).

Definition handle_slt (inst : Instruction) : ST Mac unit :=
  rs1_value ← register (Rtype_rs1 inst);
  rs2_value ← register (Rtype_rs2 inst);
  let value := r_lt_s rs1_value rs2_value in
  update_register (Rtype_rd inst) value.

Definition handle_sltu (inst : Instruction) : ST Mac unit :=
  rs1_value ← register (Rtype_rs1 inst);
  rs2_value ← register (Rtype_rs2 inst);
  let value := r_lt rs1_value rs2_value in
  update_register (Rtype_rd inst) value.

Definition handle_lb_version0 (inst : Instruction) : ST Mac unit :=
  common_lb (Itype_rd inst) (Itype_rs1 inst) (Itype_immediate_s inst) true.

Definition handle_lb_version1 (inst : Instruction) : ST Mac unit :=
  common_lb (Itype_rd inst) (Itype_rs1 inst) (Itype_immediate_s inst) false.

Definition handle_lh_version0 (inst : Instruction) : ST Mac unit :=
  common_lh (Itype_rd inst) (Itype_rs1 inst) (Itype_immediate_s inst) true.

Definition handle_lh_version1 (inst : Instruction) : ST Mac unit :=
  common_lh (Itype_rd inst) (Itype_rs1 inst) (Itype_immediate_s inst) false.

Definition handle_lw_version0 (inst : Instruction) : ST Mac unit :=
  common_lw (Itype_rd inst) (Itype_rs1 inst) (Itype_immediate_s inst) true.

Definition handle_lw_version1 (inst : Instruction) : ST Mac unit :=
  common_lw (Itype_rd inst) (Itype_rs1 inst) (Itype_immediate_s inst) false.

Definition handle_ld_version0 (inst : Instruction) : ST Mac unit :=
  common_ld (Itype_rd inst) (Itype_rs1 inst) (Itype_immediate_s inst) true.

Definition handle_ld_version1 (inst : Instruction) : ST Mac unit :=
  common_ld (Itype_rd inst) (Itype_rs1 inst) (Itype_immediate_s inst) false.

Definition handle_lbu_version0 (inst : Instruction) : ST Mac unit :=
  common_lbu (Itype_rd inst) (Itype_rs1 inst) (Itype_immediate_s inst) true.

Definition handle_lbu_version1 (inst : Instruction) : ST Mac unit :=
  common_lbu (Itype_rd inst) (Itype_rs1 inst) (Itype_immediate_s inst) false.

Definition handle_lhu_version0 (inst : Instruction) : ST Mac unit :=
  common_lhu (Itype_rd inst) (Itype_rs1 inst) (Itype_immediate_s inst) true.

Definition handle_lhu_version1 (inst : Instruction) : ST Mac unit :=
  common_lhu (Itype_rd inst) (Itype_rs1 inst) (Itype_immediate_s inst) false.

Definition handle_lwu_version0 (inst : Instruction) : ST Mac unit :=
  common_lwu (Itype_rd inst) (Itype_rs1 inst) (Itype_immediate_s inst) true.

Definition handle_lwu_version1 (inst : Instruction) : ST Mac unit :=
  common_lwu (Itype_rd inst) (Itype_rs1 inst) (Itype_immediate_s inst) false.

Definition handle_addi (inst : Instruction) : ST Mac unit :=
  common_addi (Itype_rd inst) (Itype_rs1 inst) (Itype_immediate_s inst).

Definition handle_addiw (inst : Instruction) : ST Mac unit :=
  common_addiw (Itype_rd inst) (Itype_rs1 inst) (Itype_immediate_s inst).

Definition handle_xori (inst : Instruction) : ST Mac unit :=
  common_xori (Itype_rd inst) (Itype_rs1 inst) (Itype_immediate_s inst).

Definition handle_lr_w (inst : Instruction) : ST Mac unit :=
  address ← register (Rtype_rs1 inst);
  value ← memory_mut (load32 address);
  update_register (Rtype_rd inst) (sign_extend value (from_u8 32));;
  memory_mut (set_lr address).

Definition handle_sc_w (inst : Instruction) : ST Mac unit :=
  address ← register (Rtype_rs1 inst);
  lr0 ← gets (fun m => lr (memory m));
  let condition := r_eq address lr0 in
  r ← register (Rtype_rs2 inst);
  v ← memory_mut (load32 address);
  let mem_value := cond condition r v in
  let rd_value := cond condition (from_u8 0) (from_u8 1) in
  memory_mut (store32 address mem_value);;
  update_register (Rtype_rd inst) rd_value;;
  memory_mut (set_lr (from_u64 U64_MAX)).

Definition handle_amoswap_w (inst : Instruction) : ST Mac unit :=
  rs1_value ← register (Rtype_rs1 inst);
  rs2_value ← register (Rtype_rs2 inst);
  mem_value ← memory_mut (load32 rs1_value);
  let mem_value := sign_extend mem_value (from_u8 32) in
  update_register (Rtype_rd inst) mem_value;;
  memory_mut (store32 rs1_value rs2_value).

Definition handle_amoadd_w (inst : Instruction) : ST Mac unit :=
  rs1_value ← register (Rtype_rs1 inst);
  rs2_value ← register (Rtype_rs2 inst);
  mem_value ← memory_mut (load32 rs1_value);
  let mem_value := sign_extend mem_value (from_u8 32) in
  update_register (Rtype_rd inst) mem_value;;
  let mem_value := overflowing_add rs2_value mem_value in
  memory_mut (store32 rs1_value mem_value).

Definition handle_amoxor_w (inst : Instruction) : ST Mac unit :=
  rs1_value ← register (Rtype_rs1 inst);
  rs2_value ← register (Rtype_rs2 inst);
  mem_value ← memory_mut (load32 rs1_value);
  let mem_value := sign_extend mem_value (from_u8 32) in
  update_register (Rtype_rd inst) mem_value;;
  let mem_value := r_xor rs2_value mem_value in
  memory_mut (store32 rs1_value mem_value).

Definition handle_amoand_w (inst : Instruction) : ST Mac unit :=
  rs1_value ← register (Rtype_rs1 inst);
  rs2_value ← register (Rtype_rs2 inst);
  mem_value ← memory_mut (load32 rs1_value);
  let mem_value := sign_extend mem_value (from_u8 32) in
  update_register (Rtype_rd inst) mem_value;;
  let mem_value := r_and rs2_value mem_value in
  memory_mut (store32 rs1_value mem_value).

Definition handle_amoor_w (inst : Instruction) : ST Mac unit :=
  rs1_value ← register (Rtype_rs1 inst);
  rs2_value ← register (Rtype_rs2 inst);
  mem_value ← memory_mut (load32 rs1_value);
  let mem_value := sign_extend mem_value (from_u8 32) in
  update_register (Rtype_rd inst) mem_value;;
  let mem_value := r_or rs2_value mem_value in
  memory_mut (store32 rs1_value mem_value).

Definition handle_amomin_w (inst : Instruction) : ST Mac unit :=
  rs1_value ← register (Rtype_rs1 inst);
  r ← register (Rtype_rs2 inst);
  let rs2_value := sign_extend r (from_u8 32) in
  mem_value ← memory_mut (load32 rs1_value);
  let mem_value := sign_extend mem_value (from_u8 32) in
  update_register (Rtype_rd inst) mem_value;;
  let mem_value := cond (r_lt_s rs2_value mem_value) rs2_value mem_value in
  memory_mut (store32 rs1_value mem_value).

Definition handle_amomax_w (inst : Instruction) : ST Mac unit :=
  rs1_value ← register (Rtype_rs1 inst);
  r ← register (Rtype_rs2 inst);
  let rs2_value := sign_extend r (from_u8 32) in
  mem_value ← memory_mut (load32 rs1_value);
  let mem_value := sign_extend mem_value (from_u8 32) in
  update_register (Rtype_rd inst) mem_value;;
  let mem_value := cond (r_ge_s rs2_value mem_value) rs2_value mem_value in
  memory_mut (store32 rs1_value mem_value).

Definition handle_amominu_w (inst : Instruction) : ST Mac unit :=
  rs1_value ← register (Rtype_rs1 inst);
  r ← register (Rtype_rs2 inst);
  let rs2_value := zero_extend r (from_u8 32) in
  mem_value ← memory_mut (load32 rs1_value);
  let mem_value_sext := sign_extend mem_value (from_u8 32) in
  update_register (Rtype_rd inst) mem_value_sext;;
  let mem_value := cond (r_lt rs2_value mem_value) rs2_value mem_value in
  memory_mut (store32 rs1_value mem_value).

Definition handle_amomaxu_w (inst : Instruction) : ST Mac unit :=
  rs1_value ← register (Rtype_rs1 inst);
  r ← register (Rtype_rs2 inst);
  let rs2_value := zero_extend r (from_u8 32) in
  mem_value ← memory_mut (load32 rs1_value);
  let mem_value_sext := sign_extend mem_value (from_u8 32) in
  update_register (Rtype_rd inst) mem_value_sext;;
  let mem_value := cond (r_ge rs2_value mem_value) rs2_value mem_value in
  memory_mut (store32 rs1_value mem_value).

Definition handle_lr_d (inst : Instruction) : ST Mac unit :=
  address ← register (Rtype_rs1 inst);
  value ← memory_mut (load64 address);
  update_register (Rtype_rd inst) value;;
  memory_mut (set_lr address).

Definition handle_sc_d (inst : Instruction) : ST Mac unit :=
  address ← register (Rtype_rs1 inst);
  lr0 ← gets (fun m => lr (memory m));
  let condition := r_eq address lr0 in
  r ← register (Rtype_rs2 inst);
  v ← memory_mut (load64 address);
  let mem_value := cond condition r v in
  let rd_value := cond condition (from_u8 0) (from_u8 1) in
  memory_mut (store64 address mem_value);;
  update_register (Rtype_rd inst) rd_value;;
  memory_mut (set_lr (from_u64 U64_MAX)).

Definition handle_amoswap_d (inst : Instruction) : ST Mac unit :=
  rs1_value ← register (Rtype_rs1 inst);
  rs2_value ← register (Rtype_rs2 inst);
  mem_value ← memory_mut (load64 rs1_value);
  update_register (Rtype_rd inst) mem_value;;
  memory_mut (store64 rs1_value rs2_value).

Definition handle_amoadd_d (inst : Instruction) : ST Mac unit :=
  rs1_value ← register (Rtype_rs1 inst);
  rs2_value ← register (Rtype_rs2 inst);
  mem_value ← memory_mut (load64 rs1_value);
  update_register (Rtype_rd inst) mem_value;;
  let mem_value := overflowing_add rs2_value mem_value in
  memory_mut (store64 rs1_value mem_value).

Definition handle_amoxor_d (inst : Instruction) : ST Mac unit :=
  rs1_value ← register (Rtype_rs1 inst);
  rs2_value ← register (Rtype_rs2 inst);
  mem_value ← memory_mut (load64 rs1_value);
  update_register (Rtype_rd inst) mem_value;;
  let mem_value := r_xor rs2_value mem_value in
  memory_mut (store64 rs1_value mem_value).

Definition handle_amoand_d (inst : Instruction) : ST Mac unit :=
  rs1_value ← register (Rtype_rs1 inst);
  rs2_value ← register (Rtype_rs2 inst);
  mem_value ← memory_mut (load64 rs1_value);
  update_register (Rtype_rd inst) mem_value;;
  let mem_value := r_and rs2_value mem_value in
  memory_mut (store64 rs1_value mem_value).

Definition handle_amoor_d (inst : Instruction) : ST Mac unit :=
  rs1_value ← register (Rtype_rs1 inst);
  rs2_value ← register (Rtype_rs2 inst);
  mem_value ← memory_mut (load64 rs1_value);
  update_register (Rtype_rd inst) mem_value;;
  let mem_value := r_or rs2_value mem_value in
  memory_mut (store64 rs1_value mem_value).

Definition handle_amomin_d (inst : Instruction) : ST Mac unit :=
  rs1_value ← register (Rtype_rs1 inst);
  rs2_value ← register (Rtype_rs2 inst);
  mem_value ← memory_mut (load64 rs1_value);
  update_register (Rtype_rd inst) mem_value;;
  let mem_value := cond (r_lt_s rs2_value mem_value) rs2_value mem_value in
  memory_mut (store64 rs1_value mem_value).

Definition handle_amomax_d (inst : Instruction) : ST Mac unit :=
  rs1_value ← register (Rtype_rs1 inst);
  rs2_value ← register (Rtype_rs2 inst);
  mem_value ← memory_mut (load64 rs1_value);
  update_register (Rtype_rd inst) mem_value;;
  let mem_value := cond (r_ge_s rs2_value mem_value) rs2_value mem_value in
  memory_mut (store64 rs1_value mem_value).

Definition handle_amominu_d (inst : Instruction) : ST Mac unit :=
  rs1_value ← register (Rtype_rs1 inst);
  rs2_value ← register (Rtype_rs2 inst);
  mem_value ← memory_mut (load64 rs1_value);
  update_register (Rtype_rd inst) mem_value;;
  let mem_value := cond (r_lt rs2_value mem_value) rs2_value mem_value in
  memory_mut (store64 rs1_value mem_value).

Definition handle_amomaxu_d (inst : Instruction) : ST Mac unit :=
  rs1_value ← register (Rtype_rs1 inst);
  rs2_value ← register (Rtype_rs2 inst);
  mem_value ← memory_mut (load64 rs1_value);
  update_register (Rtype_rd inst) mem_value;;
  let mem_value := cond (r_ge rs2_value mem_value) rs2_value mem_value in
  memory_mut (store64 rs1_value mem_value).

Definition handle_ori (inst : Instruction) : ST Mac unit :=
  common_ori (Itype_rd inst) (Itype_rs1 inst) (Itype_immediate_s inst).

Definition handle_andi (inst : Instruction) : ST Mac unit :=
  common_andi (Itype_rd inst) (Itype_rs1 inst) (Itype_immediate_s inst).

Definition handle_slti (inst : Instruction) : ST Mac unit :=
  rs1_value ← register (Itype_rs1 inst);
  let imm_value := from_i32 (Itype_immediate_s inst) in
  let value := r_lt_s rs1_value imm_value in
  update_register (Itype_rd inst) value.

Definition handle_sltiu (inst : Instruction) : ST Mac unit :=
  rs1_value ← register (Itype_rs1 inst);
  let imm_value := from_i32 (Itype_immediate_s inst) in
  let value := r_lt rs1_value imm_value in
  update_register (Itype_rd inst) value.

Definition handle_jalr_version0 (inst : Instruction) : ST Mac unit :=
  let size := instruction_length inst in
  pc0 ← gets pc;
  let link := overflowing_add pc0 (from_u8 size) in
  update_register (Itype_rd inst) link;;
  r ← register (Itype_rs1 inst);
  let next_pc := overflowing_add r (from_i32 (Itype_immediate_s inst)) in
  let next_pc := r_and next_pc (r_not r_one) in
  update_pc next_pc.

Definition handle_jalr_version1 (inst : Instruction) : ST Mac unit :=
  let size := instruction_length inst in
  pc0 ← gets pc;
  let link := overflowing_add pc0 (from_u8 size) in
  r ← register (Itype_rs1 inst);
  let next_pc := overflowing_add r (from_i32 (Itype_immediate_s inst)) in
  let next_pc := r_and next_pc (r_not r_one) in
  update_register (Itype_rd inst) link;;
  update_pc next_pc.

Definition handle_slli (inst : Instruction) : ST Mac unit :=
  common_slli (Itype_rd inst) (Itype_rs1 inst) (Itype_immediate_u inst).

Definition handle_srli (inst : Instruction) : ST Mac unit :=
  common_srli (Itype_rd inst) (Itype_rs1 inst) (Itype_immediate_u inst).

Definition handle_srai (inst : Instruction) : ST Mac unit :=
  common_srai (Itype_rd inst) (Itype_rs1 inst) (Itype_immediate_u inst).

Definition handle_slliw (inst : Instruction) : ST Mac unit :=
  common_slliw (Itype_rd inst) (Itype_rs1 inst) (Itype_immediate_u inst).

Definition handle_srliw (inst : Instruction) : ST Mac unit :=
  common_srliw (Itype_rd inst) (Itype_rs1 inst) (Itype_immediate_u inst).

Definition handle_sraiw (inst : Instruction) : ST Mac unit :=
  common_sraiw (Itype_rd inst) (Itype_rs1 inst) (Itype_immediate_u inst).

Definition handle_sb (inst : Instruction) : ST Mac unit :=
  common_sb (Stype_rs1 inst) (Stype_rs2 inst) (Stype_immediate_s inst).

Definition handle_sh (inst : Instruction) : ST Mac unit :=
  common_sh (Stype_rs1 inst) (Stype_rs2 inst) (Stype_immediate_s inst).

Definition handle_sw (inst : Instruction) : ST Mac unit :=
  common_sw (Stype_rs1 inst) (Stype_rs2 inst) (Stype_immediate_s inst).

Definition handle_sd (inst : Instruction) : ST Mac unit :=
  common_sd (Stype_rs1 inst) (Stype_rs2 inst) (Stype_immediate_s inst).

Definition handle_beq (inst : Instruction) : ST Mac unit :=
  pc ← gets pc;
  rs1_value ← register (Stype_rs1 inst);
  rs2_value ← register (Stype_rs2 inst);
  let condition := r_eq rs1_value rs2_value in
  let new_pc := cond condition
    (overflowing_add (from_i32 (Stype_immediate_s inst)) pc)
    (overflowing_add (from_u8 (instruction_length inst)) pc) in
  update_pc new_pc.

Definition handle_bne (inst : Instruction) : ST Mac unit :=
  pc ← gets pc;
  rs1_value ← register (Stype_rs1 inst);
  rs2_value ← register (Stype_rs2 inst);
  let condition := r_ne rs1_value rs2_value in
  let new_pc := cond condition
    (overflowing_add (from_i32 (Stype_immediate_s inst)) pc)
    (overflowing_add (from_u8 (instruction_length inst)) pc) in
  update_pc new_pc.

Definition handle_blt (inst : Instruction) : ST Mac unit :=
  pc ← gets pc;
  rs1_value ← register (Stype_rs1 inst);
  rs2_value ← register (Stype_rs2 inst);
  let condition := r_lt_s rs1_value rs2_value in
  let new_pc := cond condition
    (overflowing_add (from_i32 (Stype_immediate_s inst)) pc)
    (overflowing_add (from_u8 (instruction_length inst)) pc) in
  update_pc new_pc.

Definition handle_bge (inst : Instruction) : ST Mac unit :=
  pc ← gets pc;
  rs1_value ← register (Stype_rs1 inst);
  rs2_value ← register (Stype_rs2 inst);
  let condition := r_ge_s rs1_value rs2_value in
  let new_pc := cond condition
    (overflowing_add (from_i32 (Stype_immediate_s inst)) pc)
    (overflowing_add (from_u8 (instruction_length inst)) pc) in
  update_pc new_pc.

Definition handle_bltu (inst : Instruction) : ST Mac unit :=
  pc ← gets pc;
  rs1_value ← register (Stype_rs1 inst);
  rs2_value ← register (Stype_rs2 inst);
  let condition := r_lt rs1_value rs2_value in
  let new_pc := cond condition
    (overflowing_add (from_i32 (Stype_immediate_s inst)) pc)
    (overflowing_add (from_u8 (instruction_length inst)) pc) in
  update_pc new_pc.

Definition handle_bgeu (inst : Instruction) : ST Mac unit :=
  pc ← gets pc;
  rs1_value ← register (Stype_rs1 inst);
  rs2_value ← register (Stype_rs2 inst);
  let condition := r_ge rs1_value rs2_value in
  let new_pc := cond condition
    (overflowing_add (from_i32 (Stype_immediate_s inst)) pc)
    (overflowing_add (from_u8 (instruction_length inst)) pc) in
  update_pc new_pc.

Definition handle_lui (inst : Instruction) : ST Mac unit :=
  update_register (Utype_rd inst) (from_i32 (Utype_immediate_s inst)).

Definition handle_auipc (inst : Instruction) : ST Mac unit :=
  pc0 ← gets pc;
  let value := overflowing_add pc0 (from_i32 (Utype_immediate_s inst)) in
  update_register (Utype_rd inst) value.

Definition handle_ecall (inst : Instruction) : ST Mac unit :=
  ecall.

Definition handle_ebreak (inst : Instruction) : ST Mac unit :=
  ebreak.

Definition handle_fencei (inst : Instruction) : ST Mac unit :=
  mret tt.

Definition handle_fence (inst : Instruction) : ST Mac unit :=
  mret tt.

Definition handle_jal (inst : Instruction) : ST Mac unit :=
  common_jal (Utype_rd inst) (Utype_immediate_s inst) (instruction_length inst).

Definition handle_mul (inst : Instruction) : ST Mac unit :=
  rs1_value ← register (Rtype_rs1 inst);
  rs2_value ← register (Rtype_rs2 inst);
  let value := overflowing_mul rs1_value rs2_value in
  update_register (Rtype_rd inst) value.

Definition handle_mulw (inst : Instruction) : ST Mac unit :=
  rs1_value ← register (Rtype_rs1 inst);
  rs2_value ← register (Rtype_rs2 inst);
  let value := overflowing_mul
    (zero_extend rs1_value (from_u8 32))
    (zero_extend rs2_value (from_u8 32)) in
  update_register (Rtype_rd inst) (sign_extend value (from_u8 32)).

Definition handle_mulh (inst : Instruction) : ST Mac unit :=
  rs1_value ← register (Rtype_rs1 inst);
  rs2_value ← register (Rtype_rs2 inst);
  let value := overflowing_mul_high_signed rs1_value rs2_value in
  update_register (Rtype_rd inst) value.

Definition handle_mulhsu (inst : Instruction) : ST Mac unit :=
  rs1_value ← register (Rtype_rs1 inst);
  rs2_value ← register (Rtype_rs2 inst);
  let value := overflowing_mul_high_signed_unsigned rs1_value rs2_value in
  update_register (Rtype_rd inst) value.

Definition handle_mulhu (inst : Instruction) : ST Mac unit :=
  rs1_value ← register (Rtype_rs1 inst);
  rs2_value ← register (Rtype_rs2 inst);
  let value := overflowing_mul_high_unsigned rs1_value rs2_value in
  update_register (Rtype_rd inst) value.

Definition handle_div (inst : Instruction) : ST Mac unit :=
  rs1_value ← register (Rtype_rs1 inst);
  rs2_value ← register (Rtype_rs2 inst);
  let value := overflowing_div_signed rs1_value rs2_value in
  update_register (Rtype_rd inst) value.

Definition handle_divw (inst : Instruction) : ST Mac unit :=
  rs1_value ← register (Rtype_rs1 inst);
  rs2_value ← register (Rtype_rs2 inst);
  let rs1_value := sign_extend rs1_value (from_u8 32) in
  let rs2_value := sign_extend rs2_value (from_u8 32) in
  let value := overflowing_div_signed rs1_value rs2_value in
  update_register (Rtype_rd inst) (sign_extend value (from_u8 32)).

Definition handle_divu (inst : Instruction) : ST Mac unit :=
  rs1_value ← register (Rtype_rs1 inst);
  rs2_value ← register (Rtype_rs2 inst);
  let value := overflowing_div rs1_value rs2_value in
  update_register (Rtype_rd inst) value.

Definition handle_divuw (inst : Instruction) : ST Mac unit :=
  rs1_value ← register (Rtype_rs1 inst);
  rs2_value ← register (Rtype_rs2 inst);
  let rs1_value := zero_extend rs1_value (from_u8 32) in
  let rs2_value := zero_extend rs2_value (from_u8 32) in
  let value := overflowing_div rs1_value rs2_value in
  update_register (Rtype_rd inst) (sign_extend value (from_u8 32)).

Definition handle_rem (inst : Instruction) : ST Mac unit :=
  rs1_value ← register (Rtype_rs1 inst);
  rs2_value ← register (Rtype_rs2 inst);
  let value := overflowing_rem_signed rs1_value rs2_value in
  update_register (Rtype_rd inst) value.

Definition handle_remw (inst : Instruction) : ST Mac unit :=
  rs1_value ← register (Rtype_rs1 inst);
  rs2_value ← register (Rtype_rs2 inst);
  let rs1_value := sign_extend rs1_value (from_u8 32) in
  let rs2_value := sign_extend rs2_value (from_u8 32) in
  let value := overflowing_rem_signed rs1_value rs2_value in
  update_register (Rtype_rd inst) (sign_extend value (from_u8 32)).

Definition handle_remu (inst : Instruction) : ST Mac unit :=
  rs1_value ← register (Rtype_rs1 inst);
  rs2_value ← register (Rtype_rs2 inst);
  let value := overflowing_rem rs1_value rs2_value in
  update_register (Rtype_rd inst) value.

Definition handle_remuw (inst : Instruction) : ST Mac unit :=
  rs1_value ← register (Rtype_rs1 inst);
  rs2_value ← register (Rtype_rs2 inst);
  let rs1_value := zero_extend rs1_value (from_u8 32) in
  let rs2_value := zero_extend rs2_value (from_u8 32) in
  let value := overflowing_rem rs1_value rs2_value in
  update_register (Rtype_rd inst) (sign_extend value (from_u8 32)).

Definition handle_adduw (inst : Instruction) : ST Mac unit :=
  rs1_value ← register (Rtype_rs1 inst);
  rs2_value ← register (Rtype_rs2 inst);
  let rs1_u := zero_extend rs1_value (from_u8 32) in
  let value := overflowing_add rs2_value rs1_u in
  update_register (Rtype_rd inst) value.

Definition handle_andn (inst : Instruction) : ST Mac unit :=
  rs1_value ← register (Rtype_rs1 inst);
  rs2_value ← register (Rtype_rs2 inst);
  let value := r_and rs1_value (r_not rs2_value) in
  update_register (Rtype_rd inst) value.

Definition handle_bclr (inst : Instruction) : ST Mac unit :=
  rs1_value ← register (Rtype_rs1 inst);
  rs2_value ← register (Rtype_rs2 inst);
  let shamt := r_and rs2_value (from_u8 (SHIFT_MASK R)) in
  let value := r_and rs1_value (r_not (r_shl r_one shamt)) in
  update_register (Rtype_rd inst) value.

Definition handle_bclri (inst : Instruction) : ST Mac unit :=
  rs1_value ← register (Itype_rs1 inst);
  let rs2_value := from_u32 (Itype_immediate_u inst) in
  let shamt := r_and rs2_value (from_u8 (SHIFT_MASK R)) in
  let value := r_and rs1_value (r_not (r_shl r_one shamt)) in
  update_register (Itype_rd inst) value.

Definition handle_bext (inst : Instruction) : ST Mac unit :=
  rs1_value ← register (Rtype_rs1 inst);
  rs2_value ← register (Rtype_rs2 inst);
  let shamt := r_and rs2_value (from_u8 (SHIFT_MASK R)) in
  let value := r_and r_one (r_shr rs1_value shamt) in
  update_register (Rtype_rd inst) value.

Definition handle_bexti (inst : Instruction) : ST Mac unit :=
  rs1_value ← register (Itype_rs1 inst);
  let rs2_value := from_u32 (Itype_immediate_u inst) in
  let shamt := r_and rs2_value (from_u8 (SHIFT_MASK R)) in
  let value := r_and r_one (r_shr rs1_value shamt) in
  update_register (Itype_rd inst) value.

Definition handle_binv (inst : Instruction) : ST Mac unit :=
  rs1_value ← register (Rtype_rs1 inst);
  rs2_value ← register (Rtype_rs2 inst);
  let shamt := r_and rs2_value (from_u8 (SHIFT_MASK R)) in
  let value := r_xor rs1_value (r_shl r_one shamt) in
  update_register (Rtype_rd inst) value.

Definition handle_binvi (inst : Instruction) : ST Mac unit :=
  rs1_value ← register (Itype_rs1 inst);
  let rs2_value := from_u32 (Itype_immediate_u inst) in
  let shamt := r_and rs2_value (from_u8 (SHIFT_MASK R)) in
  let value := r_xor rs1_value (r_shl r_one shamt) in
  update_register (Itype_rd inst) value.

Definition handle_bset (inst : Instruction) : ST Mac unit :=
  rs1_value ← register (Rtype_rs1 inst);
  rs2_value ← register (Rtype_rs2 inst);
  let shamt := r_and rs2_value (from_u8 (SHIFT_MASK R)) in
  let value := r_or rs1_value (r_shl r_one shamt) in
  update_register (Rtype_rd inst) value.

Definition handle_bseti (inst : Instruction) : ST Mac unit :=
  rs1_value ← register (Itype_rs1 inst);
  let rs2_value := from_u32 (Itype_immediate_u inst) in
  let shamt := r_and rs2_value (from_u8 (SHIFT_MASK R)) in
  let value := r_or rs1_value (r_shl r_one shamt) in
  update_register (Itype_rd inst) value.

Definition handle_clmul (inst : Instruction) : ST Mac unit :=
  rs1_value ← register (Rtype_rs1 inst);
  rs2_value ← register (Rtype_rs2 inst);
  let value := clmul rs1_value rs2_value in
  update_register (Rtype_rd inst) value.

Definition handle_clmulh (inst : Instruction) : ST Mac unit :=
  rs1_value ← register (Rtype_rs1 inst);
  rs2_value ← register (Rtype_rs2 inst);
  let value := clmulh rs1_value rs2_value in
  update_register (Rtype_rd inst) value.

Definition handle_clmulr (inst : Instruction) : ST Mac unit :=
  rs1_value ← register (Rtype_rs1 inst);
  rs2_value ← register (Rtype_rs2 inst);
  let value := clmulr rs1_value rs2_value in
  update_register (Rtype_rd inst) value.

Definition handle_clz (inst : Instruction) : ST Mac unit :=
  rs1_value ← register (Rtype_rs1 inst);
  let value := clz rs1_value in
  update_register (Rtype_rd inst) value.

Definition handle_clzw (inst : Instruction) : ST Mac unit :=
  rs1_value ← register (Rtype_rs1 inst);
  let value := overflowing_sub (clz (zero_extend rs1_value (from_u8 32))) (from_u8 32) in
  update_register (Rtype_rd inst) value.

Definition handle_cpop (inst : Instruction) : ST Mac unit :=
  rs1_value ← register (Rtype_rs1 inst);
  let value := cpop rs1_value in
  update_register (Rtype_rd inst) value.

Definition handle_cpopw (inst : Instruction) : ST Mac unit :=
  rs1_value ← register (Rtype_rs1 inst);
  let value := cpop (zero_extend rs1_value (from_u8 32)) in
  update_register (Rtype_rd inst) value.

Definition handle_ctz (inst : Instruction) : ST Mac unit :=
  rs1_value ← register (Rtype_rs1 inst);
  let value := ctz rs1_value in
  update_register (Rtype_rd inst) value.

Definition handle_ctzw (inst : Instruction) : ST Mac unit :=
  rs1_value ← register (Rtype_rs1 inst);
  let value := ctz (r_or rs1_value (from_u64 0xffffffff00000000)) in
  update_register (Rtype_rd inst) value.

Definition handle_max (inst : Instruction) : ST Mac unit :=
  rs1_value ← register (Rtype_rs1 inst);
  rs2_value ← register (Rtype_rs2 inst);
  let value := cond (r_ge_s rs1_value rs2_value) rs1_value rs2_value in
  update_register (Rtype_rd inst) value.

Definition handle_maxu (inst : Instruction) : ST Mac unit :=
  rs1_value ← register (Rtype_rs1 inst);
  rs2_value ← register (Rtype_rs2 inst);
  let value := cond (r_ge rs1_value rs2_value) rs1_value rs2_value in
  update_register (Rtype_rd inst) value.

Definition handle_min (inst : Instruction) : ST Mac unit :=
  rs1_value ← register (Rtype_rs1 inst);
  rs2_value ← register (Rtype_rs2 inst);
  let value := cond (r_lt_s rs1_value rs2_value) rs1_value rs2_value in
  update_register (Rtype_rd inst) value.

Definition handle_minu (inst : Instruction) : ST Mac unit :=
  rs1_value ← register (Rtype_rs1 inst);
  rs2_value ← register (Rtype_rs2 inst);
  let value := cond (r_lt rs1_value rs2_value) rs1_value rs2_value in
  update_register (Rtype_rd inst) value.

Definition handle_orcb (inst : Instruction) : ST Mac unit :=
  rs1_value ← register (Rtype_rs1 inst);
  let value := orcb rs1_value in
  update_register (Rtype_rd inst) value.

Definition handle_orn (inst : Instruction) : ST Mac unit :=
  rs1_value ← register (Rtype_rs1 inst);
  rs2_value ← register (Rtype_rs2 inst);
  let value := r_or rs1_value (r_not rs2_value) in
  update_register (Rtype_rd inst) value.

Definition handle_rev8 (inst : Instruction) : ST Mac unit :=
  rs1_value ← register (Rtype_rs1 inst);
  let value := rev8 rs1_value in
  update_register (Rtype_rd inst) value.

Definition handle_rol (inst : Instruction) : ST Mac unit :=
  rs1_value ← register (Rtype_rs1 inst);
  rs2_value ← register (Rtype_rs2 inst);
  let shamt := r_and rs2_value (from_u8 (SHIFT_MASK R)) in
  let value := rol rs1_value shamt in
  update_register (Rtype_rd inst) value.

Definition handle_rolw (inst : Instruction) : ST Mac unit :=
  rs1_value ← register (Rtype_rs1 inst);
  rs2_value ← register (Rtype_rs2 inst);
  let shamt := r_and rs2_value (from_u8 31) in
  let twins := overflowing_mul
    (zero_extend rs1_value (from_u8 32))
    (from_u64 0x0000000100000001) in
  let value := sign_extend (rol twins shamt) (from_u8 32) in
  update_register (Rtype_rd inst) value.

Definition handle_ror (inst : Instruction) : ST Mac unit :=
  rs1_value ← register (Rtype_rs1 inst);
  rs2_value ← register (Rtype_rs2 inst);
  let shamt := r_and rs2_value (from_u8 (SHIFT_MASK R)) in
  let value := ror rs1_value shamt in
  update_register (Rtype_rd inst) value.

Definition handle_rori (inst : Instruction) : ST Mac unit :=
  rs1_value ← register (Itype_rs1 inst);
  let rs2_value := from_u32 (Itype_immediate_u inst) in
  let shamt := r_and rs2_value (from_u8 (SHIFT_MASK R)) in
  let value := ror rs1_value shamt in
  update_register (Itype_rd inst) value.

Definition handle_roriw (inst : Instruction) : ST Mac unit :=
  rs1_value ← register (Itype_rs1 inst);
  let rs2_value := from_u32 (Itype_immediate_u inst) in
  let shamt := r_and rs2_value (from_u8 31) in
  let twins := overflowing_mul
    (zero_extend rs1_value (from_u8 32))
    (from_u64 0x0000000100000001) in
  let value := sign_extend (ror twins shamt) (from_u8 32) in
  update_register (Itype_rd inst) value.

Definition handle_rorw (inst : Instruction) : ST Mac unit :=
  rs1_value ← register (Rtype_rs1 inst);
  rs2_value ← register (Rtype_rs2 inst);
  let shamt := r_and rs2_value (from_u8 31) in
  let twins := overflowing_mul
    (zero_extend rs1_value (from_u8 32))
    (from_u64 0x0000000100000001) in
  let value := sign_extend (ror twins shamt) (from_u8 32) in
  update_register (Rtype_rd inst) value.

Definition handle_sextb (inst : Instruction) : ST Mac unit :=
  rs1_value ← register (Rtype_rs1 inst);
  let shift := from_u8 (wsub 8 (BITS R) 8) in
  let value := signed_shr (signed_shl rs1_value shift) shift in
  update_register (Rtype_rd inst) value.

Definition handle_sexth (inst : Instruction) : ST Mac unit :=
  rs1_value ← register (Rtype_rs1 inst);
  let shift := from_u8 (wsub 8 (BITS R) 16) in
  let value := signed_shr (signed_shl rs1_value shift) shift in
  update_register (Rtype_rd inst) value.

Definition handle_sh1add (inst : Instruction) : ST Mac unit :=
  rs1_value ← register (Rtype_rs1 inst);
  rs2_value ← register (Rtype_rs2 inst);
  let value := overflowing_add (r_shl rs1_value (from_u32 1)) rs2_value in
  update_register (Rtype_rd inst) value.

Definition handle_sh1adduw (inst : Instruction) : ST Mac unit :=
  rs1_value ← register (Rtype_rs1 inst);
  rs2_value ← register (Rtype_rs2 inst);
  let rs1_z := zero_extend rs1_value (from_u8 32) in
  let value := overflowing_add (r_shl rs1_z (from_u32 1)) rs2_value in
  update_register (Rtype_rd inst) value.

Definition handle_sh2add (inst : Instruction) : ST Mac unit :=
  rs1_value ← register (Rtype_rs1 inst);
  rs2_value ← register (Rtype_rs2 inst);
  let value := overflowing_add (r_shl rs1_value (from_u32 2)) rs2_value in
  update_register (Rtype_rd inst) value.

Definition handle_sh2adduw (inst : Instruction) : ST Mac unit :=
  rs1_value ← register (Rtype_rs1 inst);
  rs2_value ← register (Rtype_rs2 inst);
  let rs1_z := zero_extend rs1_value (from_u8 32) in
  let value := overflowing_add (r_shl rs1_z (from_u32 2)) rs2_value in
  update_register (Rtype_rd inst) value.

Definition handle_sh3add (inst : Instruction) : ST Mac unit :=
  rs1_value ← register (Rtype_rs1 inst);
  rs2_value ← register (Rtype_rs2 inst);
  let value := overflowing_add (r_shl rs1_value (from_u32 3)) rs2_value in
  update_register (Rtype_rd inst) value.

Definition handle_sh3adduw (inst : Instruction) : ST Mac unit :=
  rs1_value ← register (Rtype_rs1 inst);
  rs2_value ← register (Rtype_rs2 inst);
  let rs1_z := zero_extend rs1_value (from_u8 32) in
  let value := overflowing_add (r_shl rs1_z (from_u32 3)) rs2_value in
  update_register (Rtype_rd inst) value.

Definition handle_slliuw (inst : Instruction) : ST Mac unit :=
  rs1_value ← register (Itype_rs1 inst);
  let rs2_value := from_u32 (Itype_immediate_u inst) in
  let rs1_u := zero_extend rs1_value (from_u8 32) in
  let shamt := r_and rs2_value (from_u8 (SHIFT_MASK R)) in
  let value := r_shl rs1_u shamt in
  update_register (Itype_rd inst) value.

Definition handle_xnor (inst : Instruction) : ST Mac unit :=
  rs1_value ← register (Rtype_rs1 inst);
  rs2_value ← register (Rtype_rs2 inst);
  let value := r_xor rs1_value (r_not rs2_value) in
  update_register (Rtype_rd inst) value.

Definition handle_zexth (inst : Instruction) : ST Mac unit :=
  rs1_value ← register (Rtype_rs1 inst);
  let value := zero_extend rs1_value (from_u8 16) in
  update_register (Rtype_rd inst) value.

Definition handle_wide_mul (inst : Instruction) : ST Mac unit :=
  rs1_value ← register (R4type_rs1 inst);
  rs2_value ← register (R4type_rs2 inst);
  let value_h := overflowing_mul_high_signed rs1_value rs2_value in
  let value_l := overflowing_mul rs1_value rs2_value in
  update_register (R4type_rd inst) value_h;;
  update_register (R4type_rs3 inst) value_l.

Definition handle_wide_mulu (inst : Instruction) : ST Mac unit :=
  rs1_value ← register (R4type_rs1 inst);
  rs2_value ← register (R4type_rs2 inst);
  let value_h := overflowing_mul_high_unsigned rs1_value rs2_value in
  let value_l := overflowing_mul rs1_value rs2_value in
  update_register (R4type_rd inst) value_h;;
  update_register (R4type_rs3 inst) value_l.

Definition handle_wide_mulsu (inst : Instruction) : ST Mac unit :=
  rs1_value ← register (R4type_rs1 inst);
  rs2_value ← register (R4type_rs2 inst);
  let value_h := overflowing_mul_high_signed_unsigned rs1_value rs2_value in
  let value_l := overflowing_mul rs1_value rs2_value in
  update_register (R4type_rd inst) value_h;;
  update_register (R4type_rs3 inst) value_l.

Definition handle_wide_div (inst : Instruction) : ST Mac unit :=
  rs1_value ← register (R4type_rs1 inst);
  rs2_value ← register (R4type_rs2 inst);
  let value_h := overflowing_div_signed rs1_value rs2_value in
  let value_l := overflowing_rem_signed rs1_value rs2_value in
  update_register (R4type_rd inst) value_h;;
  update_register (R4type_rs3 inst) value_l.

Definition handle_wide_divu (inst : Instruction) : ST Mac unit :=
  rs1_value ← register (R4type_rs1 inst);
  rs2_value ← register (R4type_rs2 inst);
  let value_h := overflowing_div rs1_value rs2_value in
  let value_l := overflowing_rem rs1_value rs2_value in
  update_register (R4type_rd inst) value_h;;
  update_register (R4type_rs3 inst) value_l.

Definition handle_far_jump_rel (inst : Instruction) : ST Mac unit :=
  let size := instruction_length inst in
  pc0 ← gets pc;
  let link := overflowing_add pc0 (from_u8 size) in
  pc02 ← gets pc;
  let next_pc := r_and (overflowing_add pc02 (from_i32 (Utype_immediate_s inst))) (r_not r_one) in
  update_register RA link;;
  update_pc next_pc.

Definition handle_far_jump_abs (inst : Instruction) : ST Mac unit :=
  let size := instruction_length inst in
  pc0 ← gets pc;
  let link := overflowing_add pc0 (from_u8 size) in
  let next_pc := r_and (from_i32 (Utype_immediate_s inst)) (r_not r_one) in
  update_register RA link;;
  update_pc next_pc.

Definition handle_adc (inst : Instruction) : ST Mac unit :=
  rd_value ← register (Rtype_rd inst);
  rs1_value ← register (Rtype_rs1 inst);
  let r := overflowing_add rd_value rs1_value in
  update_register (Rtype_rd inst) r;;
  rd_value ← register (Rtype_rd inst);
  rs1_value ← register (Rtype_rs1 inst);
  let r := r_lt rd_value rs1_value in
  update_register (Rtype_rs1 inst) r;;
  rd_value ← register (Rtype_rd inst);
  rs2_value ← register (Rtype_rs2 inst);
  let r := overflowing_add rd_value rs2_value in
  update_register (Rtype_rd inst) r;;
  rd_value ← register (Rtype_rd inst);
  rs2_value ← register (Rtype_rs2 inst);
  let r := r_lt rd_value rs2_value in
  update_register (Rtype_rs2 inst) r;;
  rs1_value ← register (Rtype_rs1 inst);
  rs2_value ← register (Rtype_rs2 inst);
  let r := r_or rs1_value rs2_value in
  update_register (Rtype_rs1 inst) r.

Definition handle_sbb (inst : Instruction) : ST Mac unit :=
  rd_value ← register (R4type_rd inst);
  rs1_value ← register (R4type_rs1 inst);
  let r := overflowing_sub rd_value rs1_value in
  update_register (R4type_rs1 inst) r;;
  rd_value ← register (R4type_rd inst);
  rs1_value ← register (R4type_rs1 inst);
  let r := r_lt rd_value rs1_value in
  update_register (R4type_rs3 inst) r;;
  rs1_value ← register (R4type_rs1 inst);
  rs2_value ← register (R4type_rs2 inst);
  let r := overflowing_sub rs1_value rs2_value in
  update_register (R4type_rd inst) r;;
  rd_value ← register (R4type_rd inst);
  rs1_value ← register (R4type_rs1 inst);
  let r := r_lt rs1_value rd_value in
  update_register (R4type_rs2 inst) r;;
  rs2_value ← register (R4type_rs2 inst);
  rs3_value ← register (R4type_rs3 inst);
  let r := r_or rs2_value rs3_value in
  update_register (R4type_rs1 inst) r.

Definition handle_adcs (inst : Instruction) : ST Mac unit :=
  rs1_value ← register (R4type_rs1 inst);
  rs2_value ← register (R4type_rs2 inst);
  let r := overflowing_add rs1_value rs2_value in
  update_register (R4type_rd inst) r;;
  let r := r_lt r rs1_value in
  update_register (R4type_rs3 inst) r.

Definition handle_sbbs (inst : Instruction) : ST Mac unit :=
  rs1_value ← register (R4type_rs1 inst);
  rs2_value ← register (R4type_rs2 inst);
  let r := overflowing_sub rs1_value rs2_value in
  update_register (R4type_rd inst) r;;
  let r := r_lt rs1_value rs2_value in
  update_register (R4type_rs3 inst) r.

Definition handle_add3a (inst : Instruction) : ST Mac unit :=
  rd_value ← register (R5type_rd inst);
  rs1_value ← register (R5type_rs1 inst);
  let r := overflowing_add rd_value rs1_value in
  update_register (R5type_rd inst) r;;
  rd_value ← register (R5type_rd inst);
  rs1_value ← register (R5type_rs1 inst);
  let r := r_lt rd_value rs1_value in
  update_register (R5type_rs2 inst) r;;
  rs2_value ← register (R5type_rs2 inst);
  rs4_value ← register (R5type_rs4 inst);
  let r := overflowing_add rs2_value rs4_value in
  update_register (R5type_rs3 inst) r.

Definition handle_add3b (inst : Instruction) : ST Mac unit :=
  rs1_value ← register (R5type_rs1 inst);
  rs2_value ← register (R5type_rs2 inst);
  let r := overflowing_add rs1_value rs2_value in
  update_register (R5type_rd inst) r;;
  rd_value ← register (R5type_rd inst);
  rs1_value ← register (R5type_rs1 inst);
  let r := r_lt rd_value rs1_value in
  update_register (R5type_rs1 inst) r;;
  rs1_value ← register (R5type_rs1 inst);
  rs4_value ← register (R5type_rs4 inst);
  let r := overflowing_add rs1_value rs4_value in
  update_register (R5type_rs3 inst) r.

Definition handle_add3c (inst : Instruction) : ST Mac unit :=
  rs1_value ← register (R5type_rs1 inst);
  rs2_value ← register (R5type_rs2 inst);
  let r := overflowing_add rs1_value rs2_value in
  update_register (R5type_rd inst) r;;
  rd_value ← register (R5type_rd inst);
  rs1_value ← register (R5type_rs1 inst);
  rs4_value ← register (R5type_rs4 inst);
  let r := r_lt rd_value rs1_value in
  let r := overflowing_add r rs4_value in
  update_register (R5type_rs3 inst) r.

Definition handle_custom_load_uimm (inst : Instruction) : ST Mac unit :=
  update_register (Utype_rd inst) (from_u32 (Utype_immediate_u inst)).

Definition handle_custom_load_imm (inst : Instruction) : ST Mac unit :=
  let value := from_i32 (Utype_immediate_s inst) in
  update_register (Utype_rd inst) value.

Definition handle_unloaded (inst : Instruction) : ST Mac unit :=
  handle_invalid_op inst.

Definition handle_custom_trace_end (inst : Instruction) : ST Mac unit :=
  handle_invalid_op inst.

Definition handle_custom_asm_trace_jump (inst : Instruction) : ST Mac unit :=
  handle_invalid_op inst.

(** * Dispatch *)

Definition handle_table : list (InstructionOpcode * (Instruction -> ST Mac unit)) :=
  [(OP_UNLOADED, handle_unloaded); (OP_ADD, handle_add); (OP_ADDI, handle_addi);
   (OP_ADDIW, handle_addiw); (OP_ADDW, handle_addw); (OP_AND, handle_and);
   (OP_ANDI, handle_andi); (OP_DIV, handle_div); (OP_DIVU, handle_divu);
   (OP_DIVUW, handle_divuw); (OP_DIVW, handle_divw); (OP_LB_VERSION0, handle_lb_version0);
   (OP_LB_VERSION1, handle_lb_version1); (OP_LBU_VERSION0, handle_lbu_version0);
   (OP_LBU_VERSION1, handle_lbu_version1); (OP_LD_VERSION0, handle_ld_version0);
   (OP_LD_VERSION1, handle_ld_version1); (OP_LH_VERSION0, handle_lh_version0);
   (OP_LH_VERSION1, handle_lh_version1); (OP_LHU_VERSION0, handle_lhu_version0);
   (OP_LHU_VERSION1, handle_lhu_version1); (OP_LUI, handle_lui);
   (OP_LW_VERSION0, handle_lw_version0); (OP_LW_VERSION1, handle_lw_version1);
   (OP_LWU_VERSION0, handle_lwu_version0); (OP_LWU_VERSION1, handle_lwu_version1);
   (OP_MUL, handle_mul); (OP_MULH, handle_mulh); (OP_MULHSU, handle_mulhsu);
   (OP_MULHU, handle_mulhu); (OP_MULW, handle_mulw); (OP_OR, handle_or);
   (OP_ORI, handle_ori); (OP_REM, handle_rem); (OP_REMU, handle_remu);
   (OP_REMUW, handle_remuw); (OP_REMW, handle_remw); (OP_SB, handle_sb); (OP_SD, handle_sd);
   (OP_SH, handle_sh); (OP_SLL, handle_sll); (OP_SLLI, handle_slli);
   (OP_SLLIW, handle_slliw); (OP_SLLW, handle_sllw); (OP_SLT, handle_slt);
   (OP_SLTI, handle_slti); (OP_SLTIU, handle_sltiu); (OP_SLTU, handle_sltu);
   (OP_SRA, handle_sra); (OP_SRAI, handle_srai); (OP_SRAIW, handle_sraiw);
   (OP_SRAW, handle_sraw); (OP_SRL, handle_srl); (OP_SRLI, handle_srli);
   (OP_SRLIW, handle_srliw); (OP_SRLW, handle_srlw); (OP_SUB, handle_sub);
   (OP_SUBW, handle_subw); (OP_SW, handle_sw); (OP_XOR, handle_xor); (OP_XORI, handle_xori);
   (OP_LR_W, handle_lr_w); (OP_SC_W, handle_sc_w); (OP_AMOSWAP_W, handle_amoswap_w);
   (OP_AMOADD_W, handle_amoadd_w); (OP_AMOXOR_W, handle_amoxor_w);
   (OP_AMOAND_W, handle_amoand_w); (OP_AMOOR_W, handle_amoor_w);
   (OP_AMOMIN_W, handle_amomin_w); (OP_AMOMAX_W, handle_amomax_w);
   (OP_AMOMINU_W, handle_amominu_w); (OP_AMOMAXU_W, handle_amomaxu_w);
   (OP_LR_D, handle_lr_d); (OP_SC_D, handle_sc_d); (OP_AMOSWAP_D, handle_amoswap_d);
   (OP_AMOADD_D, handle_amoadd_d); (OP_AMOXOR_D, handle_amoxor_d);
   (OP_AMOAND_D, handle_amoand_d); (OP_AMOOR_D, handle_amoor_d);
   (OP_AMOMIN_D, handle_amomin_d); (OP_AMOMAX_D, handle_amomax_d);
   (OP_AMOMINU_D, handle_amominu_d); (OP_AMOMAXU_D, handle_amomaxu_d);
   (OP_ADDUW, handle_adduw); (OP_ANDN, handle_andn); (OP_BCLR, handle_bclr);
   (OP_BCLRI, handle_bclri); (OP_BEXT, handle_bext); (OP_BEXTI, handle_bexti);
   (OP_BINV, handle_binv); (OP_BINVI, handle_binvi); (OP_BSET, handle_bset);
   (OP_BSETI, handle_bseti); (OP_CLMUL, handle_clmul); (OP_CLMULH, handle_clmulh);
   (OP_CLMULR, handle_clmulr); (OP_CLZ, handle_clz); (OP_CLZW, handle_clzw);
   (OP_CPOP, handle_cpop); (OP_CPOPW, handle_cpopw); (OP_CTZ, handle_ctz);
   (OP_CTZW, handle_ctzw); (OP_MAX, handle_max); (OP_MAXU, handle_maxu);
   (OP_MIN, handle_min); (OP_MINU, handle_minu); (OP_ORCB, handle_orcb);
   (OP_ORN, handle_orn); (OP_REV8, handle_rev8); (OP_ROL, handle_rol);
   (OP_ROLW, handle_rolw); (OP_ROR, handle_ror); (OP_RORI, handle_rori);
   (OP_RORIW, handle_roriw); (OP_RORW, handle_rorw); (OP_SEXTB, handle_sextb);
   (OP_SEXTH, handle_sexth); (OP_SH1ADD, handle_sh1add); (OP_SH1ADDUW, handle_sh1adduw);
   (OP_SH2ADD, handle_sh2add); (OP_SH2ADDUW, handle_sh2adduw); (OP_SH3ADD, handle_sh3add);
   (OP_SH3ADDUW, handle_sh3adduw); (OP_SLLIUW, handle_slliuw); (OP_XNOR, handle_xnor);
   (OP_ZEXTH, handle_zexth); (OP_WIDE_MUL, handle_wide_mul);
   (OP_WIDE_MULU, handle_wide_mulu); (OP_WIDE_MULSU, handle_wide_mulsu);
   (OP_WIDE_DIV, handle_wide_div); (OP_WIDE_DIVU, handle_wide_divu); (OP_ADC, handle_adc);
   (OP_SBB, handle_sbb); (OP_ADCS, handle_adcs); (OP_SBBS, handle_sbbs);
   (OP_ADD3A, handle_add3a); (OP_ADD3B, handle_add3b); (OP_ADD3C, handle_add3c);
   (OP_CUSTOM_LOAD_UIMM, handle_custom_load_uimm);
   (OP_CUSTOM_LOAD_IMM, handle_custom_load_imm); (OP_AUIPC, handle_auipc);
   (OP_BEQ, handle_beq); (OP_BGE, handle_bge); (OP_BGEU, handle_bgeu); (OP_BLT, handle_blt);
   (OP_BLTU, handle_bltu); (OP_BNE, handle_bne); (OP_EBREAK, handle_ebreak);
   (OP_ECALL, handle_ecall); (OP_FENCE, handle_fence); (OP_FENCEI, handle_fencei);
   (OP_JAL, handle_jal); (OP_JALR_VERSION0, handle_jalr_version0);
   (OP_JALR_VERSION1, handle_jalr_version1); (OP_FAR_JUMP_REL, handle_far_jump_rel);
   (OP_FAR_JUMP_ABS, handle_far_jump_abs);
   (OP_CUSTOM_ASM_TRACE_JUMP, handle_custom_asm_trace_jump);
   (OP_CUSTOM_TRACE_END, handle_custom_trace_end)].

Definition execute_instruction (inst : Instruction) : ST Mac unit :=
  let op := extract_opcode inst in
  match zassoc handle_table op with
  | Some handle => handle inst
  | None => handle_invalid_op inst
  end.

(** [let r = ..; machine.commit_pc(); r]: the pc is committed whatever the result. *)
Definition then_commit_pc (r : ST Mac unit) : ST Mac unit := fun m =>
  match r m with
  | (Panic, m') => (Panic, m')
  | (o, m') =>
      match commit_pc m' with
      | (Ok _, m'') => (o, m'')
      | (o', m'') => (o', m'')
      end
  end.

Definition execute (inst : Instruction) : ST Mac unit :=
  let instruction_size := instruction_length inst in
  pc0 ← gets pc;
  let next_pc := overflowing_add pc0 (from_u8 instruction_size) in
  update_pc next_pc;;
  then_commit_pc (execute_instruction inst).

Definition Thread : Type := Instruction -> ST Mac unit.

Definition execute_with_thread (inst : Instruction) (thread : Thread) : ST Mac unit :=
  let instruction_size := instruction_length inst in
  pc0 ← gets pc;
  let next_pc := overflowing_add pc0 (from_u8 instruction_size) in
  update_pc next_pc;;
  then_commit_pc (thread inst).

(** [ThreadFactory]: the handlers as an array indexed from [MINIMAL_OPCODE]. *)
Definition ThreadFactory_create : list Thread := map snd handle_table.

Definition ThreadFactory_get (threads : list Thread) (op : InstructionOpcode)
  : option Thread :=
  threads !! Z.to_nat (wsub 64 op MINIMAL_OPCODE).
End execute.
