(* ===== verification/Elf.v ===== *)
(** ELF loading (src/src/elf.rs).

    The headers are read by two versions of the goblin crate, which is not part of the
    repository: what [parse_elf] uses of it is the record [Goblin], an argument of the
    definitions.  goblin's errors carry a message, which [From] turns into
    [ElfParseError]. *)
From S2P Require Import Prelude Outcome Bits Register Insts Memory Machine Core.
From stdpp Require Import base list numbers strings.
Open Scope Z_scope.

(** * What the code uses of goblin *)

Record Goblin := {
  g_PF_R : Z; g_PF_W : Z; g_PF_X : Z; g_PT_LOAD : Z;
  g_Header : Type;
  g_Container : Type;
  g_Endian : Type;
  g_Ctx : Type;
  g_ProgramHeader : Type;
  (* [program.pread::<Header>(0)] *)
  g_pread : list Z -> string + g_Header;
  (* [header.container()], [header.endianness()] *)
  g_container : g_Header -> option g_Container;
  g_endianness : g_Header -> option g_Endian;
  g_is_big : g_Container -> bool;
  g_e_phoff : g_Header -> Z;
  g_e_phnum : g_Header -> Z;
  g_e_entry : g_Header -> Z;
  g_Ctx_new : g_Container -> g_Endian -> g_Ctx;
  (* [GoblinProgramHeader::parse(program, offset, count, ctx)] *)
  g_parse : list Z -> Z -> Z -> g_Ctx -> string + list g_ProgramHeader;
  g_p_type : g_ProgramHeader -> Z;
  g_p_flags : g_ProgramHeader -> Z;
  g_p_offset : g_ProgramHeader -> Z;
  g_p_vaddr : g_ProgramHeader -> Z;
  g_p_paddr : g_ProgramHeader -> Z;
  g_p_filesz : g_ProgramHeader -> Z;
  g_p_memsz : g_ProgramHeader -> Z;
  g_p_align : g_ProgramHeader -> Z;
}.

(** * Flags *)

Definition convert_flags (g : Goblin) (p_flags : Z) (allow_freeze_writable : bool) (vaddr : Z)
  : Error + Z :=
  let readable := negb (Z.land p_flags (g_PF_R g) =? 0) in
  let writable := negb (Z.land p_flags (g_PF_W g) =? 0) in
  let executable := negb (Z.land p_flags (g_PF_X g) =? 0) in
  if negb readable then inl (ElfSegmentUnreadable vaddr)
  else if writable && executable then inl (ElfSegmentWritableAndExecutable vaddr)
  else if executable then inr (Z.lor FLAG_EXECUTABLE FLAG_FREEZED)
  else if writable && negb allow_freeze_writable then inr 0
  else inr FLAG_FREEZED.

(** * Headers *)

Record ProgramHeader := {
  p_type : Z;
  p_flags : Z;
  p_offset : Z;
  p_vaddr : Z;
  p_paddr : Z;
  p_filesz : Z;
  p_memsz : Z;
  p_align : Z;
}.

(** [from_v0] and [from_v1] are the same copy, from either version's header. *)
Definition ProgramHeader_from (g : Goblin) (header : g_ProgramHeader g) : ProgramHeader := {|
  p_type := g_p_type g header;
  p_flags := g_p_flags g header;
  p_offset := g_p_offset g header;
  p_vaddr := g_p_vaddr g header;
  p_paddr := g_p_paddr g header;
  p_filesz := g_p_filesz g header;
  p_memsz := g_p_memsz g header;
  p_align := g_p_align g header;
|}.

(** [SectionHeader], which the library only re-exports: [s] reads a section header of
    goblin's type. *)
Record GoblinSections := {
  g_SectionHeader : Type;
  g_sh_name : g_SectionHeader -> Z; g_sh_type : g_SectionHeader -> Z; g_sh_flags : g_SectionHeader -> Z;
  g_sh_addr : g_SectionHeader -> Z; g_sh_offset : g_SectionHeader -> Z; g_sh_size : g_SectionHeader -> Z;
  g_sh_link : g_SectionHeader -> Z; g_sh_info : g_SectionHeader -> Z;
  g_sh_addralign : g_SectionHeader -> Z; g_sh_entsize : g_SectionHeader -> Z;
}.

Record SectionHeader := {
  sh_name : Z; sh_type : Z; sh_flags : Z; sh_addr : Z; sh_offset : Z; sh_size : Z;
  sh_link : Z; sh_info : Z; sh_addralign : Z; sh_entsize : Z;
}.

(** [from_v0] and [from_v1] *)
Definition SectionHeader_from (s : GoblinSections) (header : g_SectionHeader s) : SectionHeader := {|
  sh_name := g_sh_name s header; sh_type := g_sh_type s header; sh_flags := g_sh_flags s header;
  sh_addr := g_sh_addr s header; sh_offset := g_sh_offset s header; sh_size := g_sh_size s header;
  sh_link := g_sh_link s header; sh_info := g_sh_info s header;
  sh_addralign := g_sh_addralign s header; sh_entsize := g_sh_entsize s header;
|}.

(** * parse_elf *)

(** The entry point and the program headers, by one version of goblin. *)
Definition read_headers (R : Register) (g : Goblin) (program : list Z)
  : Error + (Z * list ProgramHeader) :=
  match g_pread g program with
  | inl msg => inl (ElfParseError msg)
  | inr header =>
  match g_container g header with
  | None => inl ElfBits
  | Some container =>
  match g_endianness g header with
  | None => inl ElfBits
  | Some endianness =>
  if negb (BITS R =? if g_is_big g container then 64 else 32) then inl ElfBits else
  let ctx := g_Ctx_new g container endianness in
  match g_parse g program (g_e_phoff g header) (g_e_phnum g header) ctx with
  | inl msg => inl (ElfParseError msg)
  | inr headers => inr (g_e_entry g header, map (ProgramHeader_from g) headers)
  end end end end.

(** One iteration for a loadable segment: its action, and its length in the file. *)
Definition segment_action (g : Goblin) (program_len version : Z) (program_header : ProgramHeader)
  : Error + (LoadingAction * Z) :=
  let aligned_start := round_page_down (p_vaddr program_header) in
  let padding_start := wsub 64 (p_vaddr program_header) aligned_start in
  let size := round_page_up (wadd 64 (p_memsz program_header) padding_start) in
  let slice_start := p_offset program_header in
  let slice_end := wadd 64 (p_offset program_header) (p_filesz program_header) in
  if (slice_end <? slice_start) || (program_len <? slice_end)
  then inl (ElfSegmentAddrOrSizeError (p_vaddr program_header))
  else
    match convert_flags g (p_flags program_header) (version <? VERSION1)
                        (p_vaddr program_header) with
    | inl e => inl e
    | inr flags =>
        inr ({| la_addr := aligned_start; la_size := size; la_flags := flags;
                la_source := (slice_start, slice_end);
                la_offset_from_addr := padding_start |}, slice_end - slice_start)
    end.

(** [for program_header in program_headers] *)
Fixpoint parse_segments (g : Goblin) (program_len version : Z) (headers : list ProgramHeader)
  (bytes : Z) (actions : list LoadingAction) : Error + list LoadingAction :=
  match headers with
  | [] => inr actions
  | program_header :: headers' =>
      if p_type program_header =? g_PT_LOAD g then
        match segment_action g program_len version program_header with
        | inl e => inl e
        | inr (action, len) =>
            match checked_add_u64 bytes len with
            | None => inl (Unexpected "The bytes count overflowed on loading elf")
            | Some bytes =>
                parse_segments g program_len version headers' bytes (actions ++ [action])
            end
        end
      else parse_segments g program_len version headers' bytes actions
  end.

(** goblin 0.2.3 before version 1 of the VM, goblin 0.4.0 since. *)
Definition parse_elf (R : Register) (g0 g1 : Goblin) (program : list Z) (version : Z)
  : Error + ProgramMetadata :=
  match read_headers R (if version <? VERSION1 then g0 else g1) program with
  | inl e => inl e
  | inr (entry, program_headers) =>
      match parse_segments g0 (Z.of_nat (length program)) version program_headers 0 [] with
      | inl e => inl e
      | inr actions => inr {| pm_actions := actions; pm_entry := entry |}
      end
  end.
