(* ===== verification/Ast.v ===== *)
(** Symbolic registers (src/src/instructions/ast.rs): a register whose values are
    expressions, so that running the instruction handlers builds the expressions of what
    they compute.  Operations on two immediates are folded.

    [Rc] is transparent, and a conversion of a symbolic value to a number is 0, as in the
    code. *)
From S2P Require Import Prelude Register.
From stdpp Require Import base list numbers.
Open Scope Z_scope.

Inductive ActionOp1 : Type := Not | LogicalNot | Clz | Ctz | Cpop | Orcb | Rev8.

Inductive ActionOp2 : Type :=
  | Add | Sub | Mul | Mulhsu | Bitand | Bitor | Bitxor | Shl | Eq
  | Clmul | Clmulh | Clmulr | Rol | Ror.

Inductive SignActionOp2 : Type := Mulh | Div | Rem | Shr | Lt | Extend.

Inductive Value : Type :=
  | Lr
  | Imm (imm : Z)
  | Reg (index : Z)
  | Op1 (op : ActionOp1 ) (v : Value)
  | Op2 (op : ActionOp2) (v1 v2 : Value)
  | SignOp2 (op : SignActionOp2) (v1 v2 : Value) (signed : bool)
  | Cond (condition true_value false_value : Value)
  | Load (address : Value) (size : Z)
  | External (v : Value) (id : Z).

Definition Value_zero : Value := Imm 0.
Definition Value_one : Value := Imm 1.
Definition Value_min_value : Value := Imm 0.
Definition Value_max_value : Value := Imm U64_MAX.

Definition Value_default : Value := Value_zero.

(** * The operators *)

Definition Value_not (self : Value) : Value :=
  match self with Imm imm => Imm (wnot 64 imm) | _ => Op1 Not self end.

Definition Value_bitand (self rhs : Value) : Value :=
  match self, rhs with
  | Imm imm1, Imm imm2 => Imm (Z.land imm1 imm2)
  | _, _ => Op2 Bitand self rhs
  end.

Definition Value_bitor (self rhs : Value) : Value :=
  match self, rhs with
  | Imm imm1, Imm imm2 => Imm (Z.lor imm1 imm2)
  | _, _ => Op2 Bitor self rhs
  end.

Definition Value_bitxor (self rhs : Value) : Value :=
  match self, rhs with
  | Imm imm1, Imm imm2 => Imm (Z.lxor imm1 imm2)
  | _, _ => Op2 Bitxor self rhs
  end.

Definition Value_shl (self rhs : Value) : Value :=
  match self, rhs with
  | Imm imm1, Imm imm2 => Imm (wshl 64 imm1 imm2)
  | _, _ => Op2 Shl self rhs
  end.

Definition Value_shr (self rhs : Value) : Value :=
  match self, rhs with
  | Imm imm1, Imm imm2 => Imm (wshr 64 imm1 imm2)
  | _, _ => SignOp2 Shr self rhs false
  end.

(** * [impl Register for Value] *)

Definition Value_BITS : Z := 64.
Definition Value_SHIFT_MASK : Z := 0x3F.

Definition Value_eq (self other : Value) : Value := Op2 Eq self other.
Definition Value_lt (self other : Value) : Value := SignOp2 Lt self other false.
Definition Value_lt_s (self other : Value) : Value := SignOp2 Lt self other true.
Definition Value_logical_not (self : Value) : Value := Op1 LogicalNot self.
Definition Value_cond (self true_value false_value : Value) : Value :=
  Cond self true_value false_value.

Definition Value_overflowing_add (self rhs : Value) : Value :=
  match self, rhs with
  | Imm imm1, Imm imm2 => Imm (wadd 64 imm1 imm2)
  | _, _ => Op2 Add self rhs
  end.

Definition Value_overflowing_sub (self rhs : Value) : Value :=
  match self, rhs with
  | Imm imm1, Imm imm2 => Imm (wsub 64 imm1 imm2)
  | _, _ => Op2 Sub self rhs
  end.

Definition Value_overflowing_mul (self rhs : Value) : Value := Op2 Mul self rhs.
Definition Value_overflowing_div (self rhs : Value) : Value := SignOp2 Div self rhs false.
Definition Value_overflowing_rem (self rhs : Value) : Value := SignOp2 Rem self rhs false.
Definition Value_overflowing_div_signed (self rhs : Value) : Value := SignOp2 Div self rhs true.
Definition Value_overflowing_rem_signed (self rhs : Value) : Value := SignOp2 Rem self rhs true.
Definition Value_overflowing_mul_high_signed (self rhs : Value) : Value :=
  SignOp2 Mulh self rhs true.
Definition Value_overflowing_mul_high_unsigned (self rhs : Value) : Value :=
  SignOp2 Mulh self rhs false.
Definition Value_overflowing_mul_high_signed_unsigned (self rhs : Value) : Value :=
  Op2 Mulhsu self rhs.

Definition Value_clz (self : Value) : Value := Op1 Clz self.
Definition Value_ctz (self : Value) : Value := Op1 Ctz self.
Definition Value_cpop (self : Value) : Value := Op1 Cpop self.

Definition Value_clmul (self rhs : Value) : Value :=
  match self, rhs with
  | Imm imm1, Imm imm2 => Imm (u64_clmul imm1 imm2)
  | _, _ => Op2 Clmul self rhs
  end.

Definition Value_clmulh (self rhs : Value) : Value :=
  match self, rhs with
  | Imm imm1, Imm imm2 => Imm (u64_clmulh imm1 imm2)
  | _, _ => Op2 Clmulh self rhs
  end.

Definition Value_clmulr (self rhs : Value) : Value :=
  match self, rhs with
  | Imm imm1, Imm imm2 => Imm (u64_clmulr imm1 imm2)
  | _, _ => Op2 Clmulr self rhs
  end.

Definition Value_orcb (self : Value) : Value :=
  match self with Imm imm1 => Imm (u64_orcb imm1) | _ => Op1 Orcb self end.

Definition Value_rev8 (self : Value) : Value :=
  match self with Imm imm1 => Imm (u64_rev8 imm1) | _ => Op1 Rev8 self end.

Definition Value_rol (self rhs : Value) : Value :=
  match self, rhs with
  | Imm imm1, Imm imm2 => Imm (rotate_left 64 imm1 (wrap 32 imm2))
  | _, _ => Op2 Rol self rhs
  end.

Definition Value_ror (self rhs : Value) : Value :=
  match self, rhs with
  | Imm imm1, Imm imm2 => Imm (rotate_right 64 imm1 (wrap 32 imm2))
  | _, _ => Op2 Ror self rhs
  end.

Definition Value_signed_shl (self rhs : Value) : Value := Value_shl self rhs.

Definition Value_signed_shr (self rhs : Value) : Value :=
  match self, rhs with
  | Imm imm1, Imm imm2 => Imm (wrap 64 (Z.shiftr (sign 64 imm1) (imm2 mod 64)))
  | _, _ => SignOp2 Shr self rhs true
  end.

Definition Value_zero_extend (self start_bit : Value) : Value := SignOp2 Extend self start_bit false.
Definition Value_sign_extend (self start_bit : Value) : Value := SignOp2 Extend self start_bit true.

Definition Value_to_i8 (self : Value) : Z := 0.
Definition Value_to_i16 (self : Value) : Z := 0.
Definition Value_to_i32 (self : Value) : Z := 0.
Definition Value_to_i64 (self : Value) : Z := 0.
Definition Value_to_u8 (self : Value) : Z := 0.
Definition Value_to_u16 (self : Value) : Z := 0.
Definition Value_to_u32 (self : Value) : Z := 0.
Definition Value_to_u64 (self : Value) : Z := 0.

Definition Value_from_i8 (v : Z) : Value := Imm (wrap 64 v).
Definition Value_from_i16 (v : Z) : Value := Imm (wrap 64 v).
Definition Value_from_i32 (v : Z) : Value := Imm (wrap 64 v).
Definition Value_from_i64 (v : Z) : Value := Imm (wrap 64 v).
Definition Value_from_u8 (v : Z) : Value := Imm v.
Definition Value_from_u16 (v : Z) : Value := Imm v.
Definition Value_from_u32 (v : Z) : Value := Imm v.
Definition Value_from_u64 (v : Z) : Value := Imm v.

Definition Value_register : Register := {|
  reg := Value;
  r_not := Value_not; r_and := Value_bitand; r_or := Value_bitor; r_xor := Value_bitxor;
  r_shl := Value_shl; r_shr := Value_shr;
  BITS := Value_BITS;
  SHIFT_MASK := Value_SHIFT_MASK;
  r_zero := Value_zero;
  r_one := Value_one;
  min_value := Value_min_value;
  max_value := Value_max_value;
  r_eq := Value_eq;
  r_lt := Value_lt;
  r_lt_s := Value_lt_s;
  logical_not := Value_logical_not;
  cond := Value_cond;
  overflowing_add := Value_overflowing_add;
  overflowing_sub := Value_overflowing_sub;
  overflowing_mul := Value_overflowing_mul;
  overflowing_div := Value_overflowing_div;
  overflowing_rem := Value_overflowing_rem;
  overflowing_div_signed := Value_overflowing_div_signed;
  overflowing_rem_signed := Value_overflowing_rem_signed;
  overflowing_mul_high_signed := Value_overflowing_mul_high_signed;
  overflowing_mul_high_unsigned := Value_overflowing_mul_high_unsigned;
  overflowing_mul_high_signed_unsigned := Value_overflowing_mul_high_signed_unsigned;
  clz := Value_clz;
  ctz := Value_ctz;
  cpop := Value_cpop;
  clmul := Value_clmul;
  clmulh := Value_clmulh;
  clmulr := Value_clmulr;
  orcb := Value_orcb;
  rev8 := Value_rev8;
  signed_shl := Value_signed_shl;
  signed_shr := Value_signed_shr;
  rol := Value_rol;
  ror := Value_ror;
  zero_extend := Value_zero_extend;
  sign_extend := Value_sign_extend;
  to_i8 := Value_to_i8;
  to_i16 := Value_to_i16;
  to_i32 := Value_to_i32;
  to_i64 := Value_to_i64;
  to_u8 := Value_to_u8;
  to_u16 := Value_to_u16;
  to_u32 := Value_to_u32;
  to_u64 := Value_to_u64;
  from_i8 := Value_from_i8;
  from_i16 := Value_from_i16;
  from_i32 := Value_from_i32;
  from_i64 := Value_from_i64;
  from_u8 := Value_from_u8;
  from_u16 := Value_from_u16;
  from_u32 := Value_from_u32;
  from_u64 := Value_from_u64
|}.
