(* ===== verification/Asm.v ===== *)
(** The memory of the assembly machine (src/src/machine/asm/mod.rs,
    src/definitions/src/asm.rs).

    [AsmMemory] holds the fields of [AsmCoreMachine] that the memory operations use; the
    other fields are those of [DefaultCoreMachine], so the machine is a
    [DefaultCoreMachine] over this memory.  The blocks that the raw pointers address are
    lists: an access out of a block, undefined in the code, is a panic here (and is proved
    not to happen).  Memory comes uninitialized, and a frame of 64 pages is filled when
    it is first touched. *)
From S2P Require Import Prelude Outcome Bits Register Insts Memory Machine Core.
From stdpp Require Import base list numbers.
Open Scope Z_scope.

Definition MEMORY_FRAME_PAGE_SHIFTS : Z := MEMORY_FRAME_SHIFTS - RISCV_PAGE_SHIFTS.

Record AsmMemory := {
  asm_chaos_mode : Z;
  asm_chaos_seed : Z;
  asm_load_reservation_address : Z;
  asm_error_arg0 : Z;
  asm_memory_size : Z;
  asm_frames_size : Z;
  asm_flags_size : Z;
  asm_last_read_frame : Z;
  asm_last_write_page : Z;
  (* what memory_ptr, flags_ptr and frames_ptr point to *)
  asm_memory : list Z;
  asm_flags : list Z;
  asm_frames : list Z;
}.

Definition AsmCoreMachine : Type := DefaultCoreMachine u64_register AsmMemory.

(** * Updates of fields *)

Local Abbreviation AM := AsmMemory.

Definition asm_set_blocks (seed : Z) (memory flags frames : list Z) (m : AM) : AM :=
  {| asm_chaos_mode := asm_chaos_mode m; asm_chaos_seed := seed;
     asm_load_reservation_address := asm_load_reservation_address m;
     asm_error_arg0 := asm_error_arg0 m; asm_memory_size := asm_memory_size m;
     asm_frames_size := asm_frames_size m; asm_flags_size := asm_flags_size m;
     asm_last_read_frame := asm_last_read_frame m; asm_last_write_page := asm_last_write_page m;
     asm_memory := memory; asm_flags := flags; asm_frames := frames |}.

Definition asm_set_memory (memory : list Z) (m : AM) : AM :=
  asm_set_blocks (asm_chaos_seed m) memory (asm_flags m) (asm_frames m) m.
Definition asm_set_frames (frames : list Z) (m : AM) : AM :=
  asm_set_blocks (asm_chaos_seed m) (asm_memory m) (asm_flags m) frames m.
Definition asm_set_flags (flags : list Z) (m : AM) : AM :=
  asm_set_blocks (asm_chaos_seed m) (asm_memory m) flags (asm_frames m) m.

(** The last frame read and the last page written, which the assembly code caches, and
    the reservation. *)
Definition asm_set_caches (read write lr : Z) (m : AM) : AM :=
  {| asm_chaos_mode := asm_chaos_mode m; asm_chaos_seed := asm_chaos_seed m;
     asm_load_reservation_address := lr;
     asm_error_arg0 := asm_error_arg0 m; asm_memory_size := asm_memory_size m;
     asm_frames_size := asm_frames_size m; asm_flags_size := asm_flags_size m;
     asm_last_read_frame := read; asm_last_write_page := write;
     asm_memory := asm_memory m; asm_flags := asm_flags m; asm_frames := asm_frames m |}.

(** * Creating a machine

    [alloc] leaves the memory uninitialized: [garbage] is what it holds. *)
Definition AsmCoreMachine_new (chaos_mode_by_default : bool) (garbage : list Z)
  (isa version max_cycles memory_size : Z) : outcome AsmCoreMachine :=
  if memory_size =? 0 then Panic
  else if negb (memory_size mod RISCV_PAGESIZE =? 0) then Panic
  else if negb (memory_size mod Z.shiftl 1 MEMORY_FRAME_SHIFTS =? 0) then Panic
  else
    Ok {| dc_registers := replicate (Z.to_nat RISCV_GENERAL_REGISTER_NUMBER) (0 : reg u64_register);
          dc_pc := (0 : reg u64_register); dc_next_pc := (0 : reg u64_register);
          dc_reset_signal := false;
          dc_memory := {|
            asm_chaos_mode := if chaos_mode_by_default then 1 else 0; asm_chaos_seed := 0;
            asm_load_reservation_address := U64_MAX; asm_error_arg0 := 0;
            asm_memory_size := memory_size; asm_frames_size := memory_size / MEMORY_FRAMESIZE;
            asm_flags_size := memory_size / RISCV_PAGESIZE;
            asm_last_read_frame := U64_MAX; asm_last_write_page := U64_MAX;
            asm_memory := garbage;
            asm_flags := replicate (Z.to_nat (memory_size / RISCV_PAGESIZE)) 0;
            asm_frames := replicate (Z.to_nat (memory_size / MEMORY_FRAMESIZE)) 0 |};
          dc_cycles := 0; dc_max_cycles := max_cycles; dc_running := false;
          dc_isa := isa; dc_version := version |}.

(** * Raw accesses *)

Definition asm_read (addr n : Z) : ST AM (list Z) := fun m =>
  unwrap (slice_get (asm_memory m) addr n) m.
Definition asm_write (addr : Z) (bytes : list Z) : ST AM unit := fun m =>
  (d ← unwrap (slice_set (asm_memory m) addr bytes); modify (asm_set_memory d)) m.

Definition asm_memory_pages (m : AM) : Z := wshr 64 (asm_memory_size m) RISCV_PAGE_SHIFTS.

(** * Lazy initialization *)

Definition inited_memory (frame_index : Z) : ST AM unit := fun m =>
  let addr_from := wshl 64 frame_index MEMORY_FRAME_SHIFTS in
  match slice_get (asm_memory m) addr_from (Z.shiftl 1 MEMORY_FRAME_SHIFTS) with
  | None => (Panic, m)
  | Some slice =>
      if negb (asm_chaos_mode m =? 0) then
        let '(bytes, seed) := rng_fill (asm_chaos_seed m) slice in
        (d ← unwrap (slice_set (asm_memory m) addr_from bytes);
         modify (fun m => asm_set_blocks (wrap 32 seed) d (asm_flags m) (asm_frames m) m)) m
      else asm_write addr_from (replicate (length slice) 0) m
  end.

Definition asm_set_frame (frame_index : Z) : ST AM unit := fun m =>
  (_ ← unwrap (asm_frames m !! Z.to_nat frame_index);
   modify (fun m => asm_set_frames (<[Z.to_nat frame_index := 1]> (asm_frames m)) m)) m.

Definition check_memory (page : Z) : ST AM unit := fun m =>
  let frame_index := wshr 64 page MEMORY_FRAME_PAGE_SHIFTS in
  match asm_frames m !! Z.to_nat frame_index with
  | None => (Panic, m)
  | Some frame_flag =>
      if frame_flag =? 0 then (inited_memory frame_index;; asm_set_frame frame_index) m
      else (Ok tt, m)
  end.

(** * Page flags *)

Definition asm_page_out_of_bound {A} (page : Z) : ST AM A :=
  fail (MemOutOfBound (wshl 64 page RISCV_PAGE_SHIFTS) Memory_).

Definition asm_fetch_flag (page : Z) : ST AM Z := fun m =>
  if page <? asm_memory_pages m then unwrap (asm_flags m !! Z.to_nat page) m
  else asm_page_out_of_bound page m.

Definition asm_update_flag (f : Z -> Z) (page : Z) : ST AM unit := fun m =>
  if page <? asm_memory_pages m then
    (v ← unwrap (asm_flags m !! Z.to_nat page);
     modify (fun m => asm_set_flags (<[Z.to_nat page := f v]> (asm_flags m)) m);;
     modify (fun m => asm_set_caches (asm_last_read_frame m) U64_MAX
                        (asm_load_reservation_address m) m)) m
  else asm_page_out_of_bound page m.

Definition asm_set_flag (page flag : Z) : ST AM unit :=
  asm_update_flag (fun v => Z.lor v flag) page.
Definition asm_clear_flag (page flag : Z) : ST AM unit :=
  asm_update_flag (fun v => Z.land v (wnot 8 flag)) page.

Definition asm_check_permission (page flag : Z) : ST AM unit :=
  page_flag ← asm_fetch_flag page;
  if negb (Z.land page_flag FLAG_WXORX_BIT =? Z.land flag FLAG_WXORX_BIT)
  then fail (MemWriteOnExecutablePage page) else mret tt.

(** * The checks of an access of 1, 2, 4 or 8 bytes

    [check_page] is what is done to the page of [addr] and, when the access crosses into
    it, to the next one. *)
Definition check_pages (check_page : Z -> ST AM unit) (addr size : Z) : ST AM unit :=
  let page := wshr 64 addr RISCV_PAGE_SHIFTS in
  pages ← gets asm_memory_pages;
  if pages <=? page then fail (MemOutOfBound addr Memory_)
  else
    check_page page;;
    let page_offset := addr mod RISCV_PAGESIZE in
    if RISCV_PAGESIZE <? page_offset + size then
      let page := page + 1 in
      if pages <=? page then fail (MemOutOfBound (wadd 64 addr size) Memory_)
      else check_page page
    else mret tt.

Definition writable_page (page : Z) : ST AM unit :=
  asm_check_permission page FLAG_WRITABLE;; check_memory page;; asm_set_flag page FLAG_DIRTY.

Definition check_memory_writable (addr size : Z) : ST AM unit :=
  check_pages writable_page addr size.

Definition executable_page (page : Z) : ST AM unit :=
  asm_check_permission page FLAG_EXECUTABLE;; check_memory page.

Definition check_memory_executable (addr size : Z) : ST AM unit :=
  check_pages executable_page addr size.

Definition check_memory_inited (addr size : Z) : ST AM unit :=
  check_pages check_memory addr size.

(** * FastMemory: filling pages without permission checks *)

Definition asm_check_no_overflow (addr size : Z) : ST AM unit := fun m =>
  check_no_overflow addr size (asm_memory_size m) m.

Definition prepare_memory (addr size : Z) : ST AM unit :=
  asm_check_no_overflow addr size;;
  let frame_start := wshl 64 (wshr 64 addr MEMORY_FRAME_SHIFTS) MEMORY_FRAME_SHIFTS in
  (if frame_start <? addr then check_memory (wshr 64 addr RISCV_PAGE_SHIFTS) else mret tt);;
  let end_ := wadd 64 addr size in
  (if 0 <? end_ then
     let aligned_end := round_page_down (end_ - 1) in
     let frame_next_start :=
       wshl 64 (wadd 64 (wshr 64 (end_ - 1) MEMORY_FRAME_SHIFTS) 1) MEMORY_FRAME_SHIFTS in
     if wadd 64 aligned_end RISCV_PAGESIZE <? frame_next_start
     then check_memory (wshr 64 aligned_end RISCV_PAGE_SHIFTS) else mret tt
   else mret tt);;
  for_pages (get_page_indices addr size) (fun page =>
    asm_set_frame (wshr 64 page MEMORY_FRAME_PAGE_SHIFTS);;
    asm_set_flag page FLAG_DIRTY).

Definition fast_store_bytes (addr : Z) (value : list Z) : ST AM unit :=
  if (length value =? 0)%nat then mret tt
  else prepare_memory addr (Z.of_nat (length value));; asm_write addr value.

Definition fast_store_byte (addr size value : Z) : ST AM unit :=
  if size =? 0 then mret tt
  else prepare_memory addr size;; asm_write addr (replicate (Z.to_nat size) value).

(** [impl Memory for FastMemory], over the memory it borrows: a memory that can only be
    stored to; everything else is [unreachable!()], also where the trait has no failing value
    ([memory_size], [lr]). *)
Definition fast_memory : Memory u64_register AM := {|
  mem_new _ := Panic;
  init_pages _ _ _ _ _ m := (Panic, m);
  fetch_flag _ m := (Panic, m); set_flag _ _ m := (Panic, m); clear_flag _ _ m := (Panic, m);
  memory_size _ := 0;
  store_byte := fast_store_byte; store_bytes := fast_store_bytes;
  load_bytes _ _ m := (Panic, m);
  execute_load16 _ m := (Panic, m); execute_load32 _ m := (Panic, m);
  load8 _ m := (Panic, m); load16 _ m := (Panic, m); load32 _ m := (Panic, m); load64 _ m := (Panic, m);
  store8 _ _ m := (Panic, m); store16 _ _ m := (Panic, m);
  store32 _ _ m := (Panic, m); store64 _ _ m := (Panic, m);
  lr _ := (0 : reg u64_register); set_lr _ m := (Panic, m) |}.

(** * The Memory trait *)

(** The loops [while current_addr < addr + size], over pages. *)
Definition asm_for_addresses (addr size : Z) (f : Z -> ST AM unit) : ST AM unit :=
  for_range (Z.to_nat ((wadd 64 addr size - addr + RISCV_PAGESIZE - 1) / RISCV_PAGESIZE)) 0
    (fun k => f ((addr + k * RISCV_PAGESIZE) / RISCV_PAGESIZE)).

Definition asm_not_freezed (page : Z) : ST AM unit :=
  page_flag ← asm_fetch_flag page;
  if negb (Z.land page_flag FLAG_FREEZED =? 0) then fail (MemWriteOnFreezedPage page) else mret tt.

Definition asm_init_pages (addr size flags : Z) (source : option (list Z)) (offset_from_addr : Z)
  : ST AM unit := fun m =>
  (if negb (round_page_down addr =? addr) then fail (MemPageUnalignedAccess addr)
   else if negb (round_page_up size =? size) then
     fail (MemPageUnalignedAccess (wadd 64 addr size))
   else if asm_memory_size m <? addr then fail (MemOutOfBound addr Memory_)
   else if (asm_memory_size m <? size) || (asm_memory_size m <? wadd 64 addr size) then
     fail (MemOutOfBound (wadd 64 addr size) Memory_)
   else if size <? offset_from_addr then fail (MemOutOfBound offset_from_addr ExternalData)
   else
     asm_for_addresses addr size asm_not_freezed;;
     fill_page_data (store_byte (Memory := fast_memory)) (store_bytes (Memory := fast_memory)) addr size source offset_from_addr;;
     asm_for_addresses addr size (fun page => asm_set_flag page flags);;
     modify (fun m => asm_set_caches U64_MAX U64_MAX (asm_load_reservation_address m) m)) m.

Definition asm_store_bytes (addr : Z) (value : list Z) : ST AM unit :=
  if (length value =? 0)%nat then mret tt
  else
    asm_check_no_overflow addr (Z.of_nat (length value));;
    for_pages (get_page_indices addr (Z.of_nat (length value))) writable_page;;
    asm_write addr value.

Definition asm_store_byte (addr size value : Z) : ST AM unit :=
  if size =? 0 then mret tt
  else
    asm_check_no_overflow addr size;;
    for_pages (get_page_indices addr size) writable_page;;
    asm_write addr (replicate (Z.to_nat size) value).

Definition asm_load_bytes (addr size : Z) : ST AM (list Z) :=
  if size =? 0 then mret []
  else
    asm_check_no_overflow addr size;;
    for_pages (get_page_indices addr size) check_memory;;
    asm_read addr size.

Definition asm_execute_load16 (addr : Z) : ST AM Z :=
  check_memory_executable addr 2;; bytes ← asm_read addr 2; mret (le_to_Z bytes).
Definition asm_execute_load32 (addr : Z) : ST AM Z :=
  check_memory_executable addr 4;; bytes ← asm_read addr 4; mret (le_to_Z bytes).

Definition asm_load8 (addr : Z) : ST AM Z :=
  check_memory_inited addr 1;; bytes ← asm_read addr 1; mret (le_to_Z bytes).
Definition asm_load16 (addr : Z) : ST AM Z :=
  check_memory_inited addr 2;; bytes ← asm_read addr 2; mret (le_to_Z bytes).
Definition asm_load32 (addr : Z) : ST AM Z :=
  check_memory_inited addr 4;; bytes ← asm_read addr 4; mret (le_to_Z bytes).
Definition asm_load64 (addr : Z) : ST AM Z :=
  check_memory_inited addr 8;; bytes ← asm_read addr 8; mret (le_to_Z bytes).

Definition asm_store8 (addr value : Z) : ST AM unit :=
  check_memory_writable addr 1;; asm_write addr [wrap 8 value].
Definition asm_store16 (addr value : Z) : ST AM unit :=
  check_memory_writable addr 2;; asm_write addr (Z_to_le 2 (wrap 16 value)).
Definition asm_store32 (addr value : Z) : ST AM unit :=
  check_memory_writable addr 4;; asm_write addr (Z_to_le 4 (wrap 32 value)).
Definition asm_store64 (addr value : Z) : ST AM unit :=
  check_memory_writable addr 8;; asm_write addr (Z_to_le 8 value).

Definition asm_set_lr (value : Z) : ST AM unit :=
  modify (fun m => asm_set_caches (asm_last_read_frame m) (asm_last_write_page m) value m).

(** [Memory::new] is [unreachable!()]. *)
#[export] Instance asm_memory_instance : Memory u64_register AsmMemory := {
  mem_new _ := Panic; init_pages := asm_init_pages;
  fetch_flag := asm_fetch_flag; set_flag := asm_set_flag; clear_flag := asm_clear_flag;
  memory_size := asm_memory_size;
  store_byte := asm_store_byte; store_bytes := asm_store_bytes; load_bytes := asm_load_bytes;
  execute_load16 := asm_execute_load16; execute_load32 := asm_execute_load32;
  load8 := asm_load8; load16 := asm_load16; load32 := asm_load32; load64 := asm_load64;
  store8 := asm_store8; store16 := asm_store16; store32 := asm_store32; store64 := asm_store64;
  lr := asm_load_reservation_address; set_lr := asm_set_lr }.

(** * reset *)

Definition asm_reset_memory (m : AM) : AM :=
  let m := asm_set_caches U64_MAX U64_MAX U64_MAX m in
  let m := asm_set_flags (replicate (Z.to_nat (asm_flags_size m)) 0) m in
  asm_set_frames (replicate (Z.to_nat (asm_frames_size m)) 0) m.

Definition asm_reset (max_cycles : Z) : ST AsmCoreMachine unit := modify (fun m =>
  let m := with_registers (replicate (Z.to_nat RISCV_GENERAL_REGISTER_NUMBER) (0 : reg u64_register)) m in
  let m := with_pc (0 : reg u64_register) (dc_next_pc m) m in
  let m := with_cycles 0 max_cycles m in
  let m := with_running (dc_running m) true m in
  with_memory (asm_reset_memory (dc_memory m)) m).
