(* ===== verification/Snapshot.v ===== *)
(** Snapshots, first version (src/src/snapshot.rs): the registers, the pc, the load
    reservation and the dirty pages of a machine, and resuming from them. *)
From S2P Require Import Prelude Outcome Register Insts Memory Machine.
From stdpp Require Import base list numbers.
Open Scope Z_scope.

Record Snapshot := {
  sn_version : Z;
  sn_registers : list Z;
  sn_pc : Z;
  sn_page_indices : list Z;
  sn_page_flags : list Z;
  sn_pages : list (list Z);
  sn_load_reservation_address : Z;
}.

Section snapshot.
Context {R : Register} {M Mac : Type} `{!Memory R M} `{!CoreMachine R M Mac}.

(** The eight bytes of a word, [v64 as u8], [(v64 >> 8) as u8], ... *)
Definition word_bytes (v64 : Z) : list Z :=
  [wrap 8 v64; wrap 8 (wshr 64 v64 8); wrap 8 (wshr 64 v64 16); wrap 8 (wshr 64 v64 24);
   wrap 8 (wshr 64 v64 32); wrap 8 (wshr 64 v64 40); wrap 8 (wshr 64 v64 48);
   wrap 8 (wshr 64 v64 56)].

(** [for i in (addr_from..addr_to).step_by(8)], [n] words from [addr] on. *)
Fixpoint read_words (n : nat) (addr : Z) : ST Mac (list Z) :=
  match n with
  | O => mret []
  | S n' =>
      v ← memory_mut (load64 (from_u64 addr));
      rest ← read_words n' (addr + 8);
      mret (word_bytes (to_u64 v) ++ rest)
  end.

Definition read_page (i : Z) : ST Mac (list Z) :=
  let addr_from := wshl 64 i RISCV_PAGE_SHIFTS in
  read_words (Z.to_nat (RISCV_PAGESIZE / 8)) addr_from.

(** [snap.page_indices.push(..)], [snap.page_flags.push(..)], [snap.pages.push(..)] *)
Definition push_page (i flag : Z) (page : list Z) (snap : Snapshot) : Snapshot :=
  {| sn_version := sn_version snap; sn_registers := sn_registers snap; sn_pc := sn_pc snap;
     sn_page_indices := sn_page_indices snap ++ [i];
     sn_page_flags := sn_page_flags snap ++ [flag];
     sn_pages := sn_pages snap ++ [page];
     sn_load_reservation_address := sn_load_reservation_address snap |}.

(** [for i in 0..machine.memory().memory_pages()], the last [n] of them. *)
Fixpoint snapshot_pages (n : nat) (i : Z) (snap : Snapshot) : ST Mac Snapshot :=
  match n with
  | O => mret snap
  | S n' =>
      flag ← memory_mut (fetch_flag i);
      if negb (Z.land flag FLAG_DIRTY =? 0) then
        page ← read_page i;
        snapshot_pages n' (i + 1) (push_page i flag page snap)
      else snapshot_pages n' (i + 1) snap
  end.

Definition make_snapshot : ST Mac Snapshot :=
  version ← gets version;
  pc ← gets pc;
  mem ← gets memory;
  regs ← gets registers;
  let snap :=
    {| sn_version := version; sn_registers := to_u64 <$> regs; sn_pc := to_u64 pc;
       sn_page_indices := []; sn_page_flags := []; sn_pages := [];
       sn_load_reservation_address := to_u64 (lr mem) |} in
  snapshot_pages (Z.to_nat (memory_pages mem)) 0 snap.

(** [for (i, v) in snapshot.registers.iter().enumerate()] *)
Fixpoint restore_registers (i : Z) (regs : list Z) : ST Mac unit :=
  match regs with
  | [] => mret tt
  | v :: regs' => set_register i (from_u64 v);; restore_registers (i + 1) regs'
  end.

(** [for i in 0..snapshot.page_indices.len()]: the other two vectors are indexed. *)
Fixpoint restore_pages (i : nat) (page_indices : list Z) (snapshot : Snapshot) : ST Mac unit :=
  match page_indices with
  | [] => mret tt
  | page_index :: rest =>
      page_flag ← unwrap (sn_page_flags snapshot !! i);
      page ← unwrap (sn_pages snapshot !! i);
      let addr_from := wshl 64 page_index RISCV_PAGE_SHIFTS in
      memory_mut (store_bytes addr_from page);;
      memory_mut (set_flag page_index page_flag);;
      restore_pages (S i) rest snapshot
  end.

Definition resume (snapshot : Snapshot) : ST Mac unit :=
  v ← gets version;
  if negb (v =? sn_version snapshot) then fail InvalidVersion else
  restore_registers 0 (sn_registers snapshot);;
  update_pc (from_u64 (sn_pc snapshot));;
  commit_pc;;
  restore_pages 0 (sn_page_indices snapshot) snapshot;;
  memory_mut (set_lr (from_u64 (sn_load_reservation_address snapshot))).
End snapshot.
