(* ===== verification/Snapshot2.v ===== *)
(** Snapshots, second version (src/src/snapshot2.rs): pages whose content comes from a
    stable data source are recorded by where they come from, the dirty ones by content.

    [DataSource] is the embedder's: a class.  The context's page table is a finite map,
    as the code's [HashMap] is, and the context and the machine it works on are one
    state. *)
From S2P Require Import Prelude Outcome Bits Register Insts Memory Machine Core Snapshot.
From stdpp Require Import base list numbers gmap sorting.
Open Scope Z_scope.

Definition PAGE_SIZE : Z := RISCV_PAGESIZE.

Class DataSource (I D : Type) := {
  source_load_data : D -> I -> Z -> Z -> option (list Z * Z);
}.

(** page index -> (id, offset, flag) *)
Record Snapshot2Context (I D : Type) := {
  sc_pages : gmap Z (I * Z * Z);
  sc_data_source : D;
}.
Arguments sc_pages {I D} _. Arguments sc_data_source {I D} _.

Record Snapshot2 (I : Type) := {
  (* (address, flag, id, source offset, source length) *)
  s2_pages_from_source : list (Z * Z * I * Z * Z);
  (* (address, flag, content) *)
  s2_dirty_pages : list (Z * Z * list Z);
  s2_version : Z;
  s2_registers : list Z;
  s2_pc : Z;
  s2_cycles : Z;
  s2_max_cycles : Z;
  s2_load_reservation_address : Z;
}.
Arguments s2_pages_from_source {I} _. Arguments s2_dirty_pages {I} _. Arguments s2_version {I} _.
Arguments s2_registers {I} _. Arguments s2_pc {I} _. Arguments s2_cycles {I} _.
Arguments s2_max_cycles {I} _. Arguments s2_load_reservation_address {I} _.

Section context.
Context {R : Register} {M I D : Type} `{!Memory R M} `{!EqDecision I} `{!DataSource I D}.
Local Abbreviation DC := (DefaultCoreMachine R M).
Local Abbreviation Ctx := (Snapshot2Context I D).

Definition S2State : Type := Ctx * DC.

Definition context_new (data_source : D) : Ctx :=
  {| sc_pages := ∅; sc_data_source := data_source |}.

Definition set_pages (pages : gmap Z (I * Z * Z)) (c : Ctx) : Ctx :=
  {| sc_pages := pages; sc_data_source := sc_data_source c |}.

(** A computation of the machine, of its memory, and on the page table. *)
Definition on_machine {A} (c : ST DC A) : ST S2State A := zoom snd (fun m s => (s.1, m)) c.
Definition on_mem {A} (c : ST M A) : ST S2State A := on_machine (memory_mut c).
Definition update_pages (f : gmap Z (I * Z * Z) -> gmap Z (I * Z * Z)) : ST S2State unit :=
  modify (fun s => (set_pages (f (sc_pages s.1)) s.1, s.2)).

Definition load_data (id : I) (offset length : Z) : ST S2State (list Z * Z) := fun s =>
  match source_load_data (sc_data_source s.1) id offset length with
  | Some r => (Ok r, s)
  | None => (Err SnapshotDataLoadError, s)
  end.

(** [while length >= PAGE_SIZE], [n] iterations *)
Fixpoint track_loop (n : nat) (aligned_start : Z) (id : I) (offset : Z) : ST S2State unit :=
  match n with
  | O => mret tt
  | S n' =>
      let page := aligned_start / PAGE_SIZE in
      on_mem (clear_flag page FLAG_DIRTY);;
      flag ← on_mem (fetch_flag page);
      update_pages <[page := (id, offset, flag)]>;;
      track_loop n' (wadd 64 aligned_start PAGE_SIZE) id (wadd 64 offset PAGE_SIZE)
  end.

Definition track_pages (start length : Z) (id : I) (offset : Z) : ST S2State unit :=
  let aligned_start := roundup start PAGE_SIZE in
  let aligned_bytes := wsub 64 aligned_start start in
  if length <? aligned_bytes then mret tt
  else
    let offset := wadd 64 offset aligned_bytes in
    let length := length - aligned_bytes in
    track_loop (Z.to_nat (length / PAGE_SIZE)) aligned_start id offset.

Definition untrack_pages (start length : Z) : ST S2State unit :=
  if length =? 0 then mret tt
  else for_pages (get_page_indices start length) (fun page =>
    on_mem (set_flag page FLAG_DIRTY);;
    update_pages (delete page)).

(** [for i in 0..(data.len() as u64 / PAGE_SIZE) { .. set_flag(page, *flag)?; }] *)
Definition set_flags (address flag : Z) (data : list Z) : ST S2State unit :=
  for_range (Z.to_nat (Z.of_nat (length data) / PAGE_SIZE)) (address / PAGE_SIZE)
    (fun page => on_mem (set_flag page flag)).

Fixpoint resume_from_source (l : list (Z * Z * I * Z * Z)) : ST S2State unit :=
  match l with
  | [] => mret tt
  | (address, flag, id, offset, length_) :: l' =>
      if negb (address mod PAGE_SIZE =? 0) then fail (MemPageUnalignedAccess address) else
      r ← load_data id offset length_;
      let data := r.1 in
      if negb (Z.of_nat (length data) mod PAGE_SIZE =? 0)
      then fail (MemPageUnalignedAccess (wadd 64 address (Z.of_nat (length data)))) else
      on_mem (store_bytes address data);;
      set_flags address flag data;;
      track_pages address (Z.of_nat (length data)) id offset;;
      resume_from_source l'
  end.

Fixpoint resume_dirty (l : list (Z * Z * list Z)) : ST S2State unit :=
  match l with
  | [] => mret tt
  | (address, flag, content) :: l' =>
      if negb (address mod PAGE_SIZE =? 0) then fail (MemPageUnalignedAccess address) else
      if negb (Z.of_nat (length content) mod PAGE_SIZE =? 0)
      then fail (MemPageUnalignedAccess (wadd 64 address (Z.of_nat (length content)))) else
      on_mem (store_bytes address content);;
      set_flags address flag content;;
      resume_dirty l'
  end.

Definition resume2 (snapshot : Snapshot2 I) : ST S2State unit :=
  v ← gets (fun s => version s.2);
  if negb (v =? s2_version snapshot) then fail InvalidVersion else
  update_pages (fun _ => ∅);;
  on_machine (restore_registers 0 (s2_registers snapshot));;
  on_machine (update_pc (from_u64 (s2_pc snapshot)));;
  on_machine commit_pc;;
  on_machine (set_cycles (s2_cycles snapshot));;
  on_machine (set_max_cycles (s2_max_cycles snapshot));;
  resume_from_source (s2_pages_from_source snapshot);;
  resume_dirty (s2_dirty_pages snapshot);;
  on_mem (set_lr (from_u64 (s2_load_reservation_address snapshot))).

(** The actual length written, and the full length of the data from [offset] on. *)
Definition context_store_bytes (addr : Z) (id : I) (offset length_ size_addr : Z)
  : ST S2State (Z * Z) :=
  r ← load_data id offset length_;
  let '(data, full_length) := r in
  on_mem (store64 (from_u64 size_addr) (from_u64 full_length));;
  untrack_pages addr (Z.of_nat (length data));;
  on_mem (store_bytes addr data);;
  track_pages addr (Z.of_nat (length data)) id offset;;
  mret (Z.of_nat (length data), full_length).

Definition context_init_pages (action : LoadingAction) (id : I) (offset : Z) : ST S2State unit :=
  let start := wadd 64 (la_addr action) (la_offset_from_addr action) in
  let length := Z.min (wsub 64 (la_source action).2 (la_source action).1)
                      (wsub 64 (la_size action) (la_offset_from_addr action)) in
  track_pages start length id (wadd 64 offset (la_source action).1).

Fixpoint mark_actions (actions : list LoadingAction) (id : I) (offset : Z) : ST S2State unit :=
  match actions with
  | [] => mret tt
  | action :: actions' => context_init_pages action id offset;; mark_actions actions' id offset
  end.

Definition mark_program (metadata : ProgramMetadata) (id : I) (offset : Z) : ST S2State unit :=
  mark_actions (pm_actions metadata) id offset.

(** ** Taking a snapshot *)

(** A dirty page is appended to the last run when it continues it with the same flag
    (which leaves [data] empty), and pushed otherwise. *)
Definition push_dirty (address flag : Z) (data : list Z) (dirty_pages : list (Z * Z * list Z))
  : list (Z * Z * list Z) :=
  match last dirty_pages with
  | Some (a, f, content) =>
      if (wadd 64 a (Z.of_nat (length content)) =? address) && (f =? flag)
      then take (length dirty_pages - 1) dirty_pages ++ [(a, f, content ++ data)]
      else match data with [] => dirty_pages | _ => dirty_pages ++ [(address, flag, data)] end
  | None => match data with [] => dirty_pages | _ => dirty_pages ++ [(address, flag, data)] end
  end.

(** [for i in 0..machine.memory().memory_pages() as u64], the last [n] of them *)
Fixpoint collect_dirty (n : nat) (i : Z) (dirty_pages : list (Z * Z * list Z))
  : ST DC (list (Z * Z * list Z)) :=
  match n with
  | O => mret dirty_pages
  | S n' =>
      flag ← memory_mut (fetch_flag i);
      if Z.land flag FLAG_DIRTY =? 0 then collect_dirty n' (i + 1) dirty_pages
      else
        let address := wmul 64 i PAGE_SIZE in
        data ← memory_mut (load_bytes address PAGE_SIZE);
        collect_dirty n' (i + 1) (push_dirty address flag data dirty_pages)
  end.

Definition push_source (address flag : Z) (id : I) (offset : Z)
  (pages_from_source : list (Z * Z * I * Z * Z)) : list (Z * Z * I * Z * Z) :=
  let pushed := pages_from_source ++ [(address, flag, id, offset, PAGE_SIZE)] in
  match last pages_from_source with
  | Some (last_address, last_flag, last_id, last_offset, last_length) =>
      if (wadd 64 last_address last_length =? address) && (last_flag =? flag)
         && bool_decide (last_id = id) && (wadd 64 last_offset last_length =? offset)
      then take (length pages_from_source - 1) pages_from_source ++
           [(last_address, last_flag, last_id, last_offset, wadd 64 last_length PAGE_SIZE)]
      else pushed
  | None => pushed
  end.

(** [for page in pages], over the sorted keys; [self.pages[&page]] panics without entry *)
Fixpoint collect_source (ctx : Ctx) (pages : list Z)
  (pages_from_source : list (Z * Z * I * Z * Z)) : ST DC (list (Z * Z * I * Z * Z)) :=
  match pages with
  | [] => mret pages_from_source
  | page :: pages' =>
      f ← memory_mut (fetch_flag page);
      if negb (Z.land f FLAG_DIRTY =? 0) then collect_source ctx pages' pages_from_source
      else
        let address := wmul 64 page PAGE_SIZE in
        entry ← unwrap (sc_pages ctx !! page);
        let '(id, offset, flag) := entry in
        collect_source ctx pages' (push_source address flag id offset pages_from_source)
  end.

Definition sorted_keys (ctx : Ctx) : list Z := merge_sort Z.le (map_to_list (sc_pages ctx)).*1.

Definition make_snapshot2 (ctx : Ctx) : ST DC (Snapshot2 I) :=
  n ← gets (fun m => memory_pages (dc_memory m));
  dirty_pages ← collect_dirty (Z.to_nat n) 0 [];
  pages_from_source ← collect_source ctx (sorted_keys ctx) [];
  m ← gets id;
  mret {| s2_pages_from_source := pages_from_source; s2_dirty_pages := dirty_pages;
          s2_version := version m; s2_registers := to_u64 <$> registers m;
          s2_pc := to_u64 (pc m); s2_cycles := dc_cycles m; s2_max_cycles := dc_max_cycles m;
          s2_load_reservation_address := to_u64 (lr (dc_memory m)) |}.
End context.
