(* ===== verification/Exec.v ===== *)
(** Running an instruction of a [DefaultMachine]: registers and pc as functions of the
    machine, and the effect of each statement a handler is made of, so that the result
    of a handler is computed by rewriting. *)
From S2P Require Import Prelude Outcome Register RegisterFacts Insts Memory.
From S2P Require Import Machine Core Execute.
From stdpp Require Import base list numbers.
Open Scope Z_scope.

(** * Registers, pc and memory of a machine *)

Section state.
Context {R : Register} {M Sy De : Type}.
Local Abbreviation DM := (DefaultMachine R M Sy De).

Definition xreg (m : DM) (r : Z) : reg R :=
  default r_zero (dc_registers (dm_inner m) !! Z.to_nat r).

Definition set_x (r : Z) (v : reg R) (m : DM) : DM :=
  if r =? 0 then m
  else dm_set_inner (with_registers (<[Z.to_nat r := v]> (dc_registers (dm_inner m)))
                                    (dm_inner m)) m.
Definition set_pc (p : reg R) (m : DM) : DM := dm_set_inner (with_pc p p (dm_inner m)) m.
Definition set_memory (mem : M) (m : DM) : DM := dm_set_inner (with_memory mem (dm_inner m)) m.

(** The machine while a handler runs: the next pc is set, not committed. *)
Definition at_next (next : reg R) (m : DM) : DM :=
  dm_set_inner (with_pc (dc_pc (dm_inner m)) next (dm_inner m)) m.
End state.

(** * Running a handler *)

Section exec.
Context {R : Register} {HR : RegisterOk R} {M Sy De : Type} `{!Memory R M}.
Context `{!Syscalls (DefaultCoreMachine R M) Sy} `{!Debugger (DefaultCoreMachine R M) De}.
Local Abbreviation DM := (DefaultMachine R M Sy De).
Local Abbreviation regs m := (dc_registers (dm_inner m)).

(** A register file of 32 words whose first is zero. *)
Definition regs_ok (m : DM) : Prop :=
  length (regs m) = 32%nat /\ Forall reg_ok (regs m) /\ regs m !! 0%nat = Some r_zero.

(** Running a handler only needs the length. *)
Definition regs32 (m : DM) : Prop := length (regs m) = 32%nat.

Lemma regs_ok_32 m : regs_ok m -> regs32 m.
Proof. by intros [? _]. Qed.
Lemma set_x_32 d v m : regs32 m -> regs32 (set_x d v m).
Proof. unfold regs32, set_x. intros. case_match; [done|]. cbn. by rewrite length_insert. Qed.
Lemma set_pc_32 p m : regs32 m -> regs32 (set_pc p m).
Proof. done. Qed.
Lemma at_next_32 p m : regs32 m -> regs32 (at_next p m).
Proof. done. Qed.
Lemma set_memory_32 mem m : regs32 m -> regs32 (set_memory mem m).
Proof. done. Qed.

Lemma xreg_lookup m r : regs32 m -> is_reg r -> regs m !! Z.to_nat r = Some (xreg m r).
Proof.
  intros Hl ?. unfold regs32, xreg in *. destruct (lookup_lt_is_Some_2 (regs m) (Z.to_nat r)) as [v Hv];
    [unfold is_reg in *; lia|]. by rewrite Hv.
Qed.

Lemma xreg_ok m r : regs_ok m -> is_reg r -> reg_ok (xreg m r).
Proof.
  intros Hm Hr. pose proof (xreg_lookup m r (regs_ok_32 m Hm) Hr) as Hx. destruct Hm as (_ & Hf & _).
  by apply (Forall_lookup_1 _ _ _ _ Hf Hx).
Qed.

Lemma bind_register {A} r (k : reg R -> ST DM A) m :
  regs32 m -> is_reg r -> (register r ≫= k) m = k (xreg m r) m.
Proof.
  intros. unfold mbind, ST_bind, register. cbn [registers default_machine_core default_core_machine].
  by rewrite xreg_lookup.
Qed.

Lemma update_register_eq d (v : reg R) m :
  regs32 m -> is_reg d -> update_register d v m = (Ok tt, set_x d v m).
Proof.
  intros Hm Hd. unfold update_register, RISCV_GENERAL_REGISTER_NUMBER.
  rewrite Z.mod_small by done. unfold set_x.
  destruct (Z.eqb_spec d 0) as [->|]; [done|].
  destruct (Z.ltb_spec 0 d); [|unfold is_reg in *; lia].
  cbn [set_register default_machine_core default_core_machine]. unfold on_inner, zoom.
  by rewrite xreg_lookup.
Qed.

Lemma bind_update_register {A} d (v : reg R) (k : unit -> ST DM A) m :
  regs32 m -> is_reg d -> (update_register d v ≫= k) m = k tt (set_x d v m).
Proof. intros. unfold mbind, ST_bind. by rewrite update_register_eq. Qed.

Lemma at_next_ok next m : regs_ok m -> regs_ok (at_next next m).
Proof. done. Qed.

(** The result of [execute] from the result of the handler. *)
Definition committed (r : outcome unit * DM) : outcome unit * DM :=
  match r with
  | (Panic, m) => (Panic, m)
  | (o, m) => (o, set_pc (dc_next_pc (dm_inner m)) m)
  end.

Lemma execute_eq i m h :
  zassoc (handle_table (Mac := DM)) (extract_opcode i) = Some h ->
  execute i m =
  committed (h i (at_next (overflowing_add (dc_pc (dm_inner m))
                                           (from_u8 (instruction_length i))) m)).
Proof.
  intros Hh. unfold execute, execute_instruction. rewrite Hh.
  unfold then_commit_pc, committed, mbind, ST_bind, gets.
  cbn [update_pc commit_pc pc default_machine machine_core default_machine_core
       default_core_machine]. unfold on_inner, zoom, modify.
  by destruct (h i _) as [[[]|e|] m'].
Qed.

Lemma bind_gets {A B} (f : DM -> A) (k : A -> ST DM B) m : (gets f ≫= k) m = k (f m) m.
Proof. done. Qed.

Lemma update_pc_eq (p : reg R) (m : DM) :
  update_pc p m = (Ok tt, at_next p m).
Proof. done. Qed.

Lemma bind_check {A} (a : reg R) n size (k : unit -> ST DM A) m :
  (check_load_boundary false a n size ≫= k) m = k tt m.
Proof. done. Qed.

Lemma memory_mut_eq {A} (c : ST M A) (m : DM) :
  memory_mut c m =
  let (o, mem) := c (dc_memory (dm_inner m)) in (o, set_memory mem m).
Proof.
  cbn [memory_mut default_machine machine_core default_machine_core default_core_machine].
  unfold on_inner, zoom. by destruct (c _).
Qed.

Lemma bind_memory_mut {A B} (c : ST M A) (k : A -> ST DM B) m :
  (memory_mut c ≫= k) m =
  match c (dc_memory (dm_inner m)) with
  | (Ok a, mem) => k a (set_memory mem m)
  | (Err e, mem) => (Err e, set_memory mem m)
  | (Panic, mem) => (Panic, set_memory mem m)
  end.
Proof. unfold mbind, ST_bind. rewrite memory_mut_eq. by destruct (c _). Qed.

Lemma set_x_eq d v v' (m : DM) : v = v' -> (@Ok unit tt, set_x d v m) = (Ok tt, set_x d v' m).
Proof. by intros ->. Qed.
Lemma at_next_eq p p' (m : DM) : p = p' -> (@Ok unit tt, at_next p m) = (Ok tt, at_next p' m).
Proof. by intros ->. Qed.

(** Committing the pc after a handler that has run to the end. *)
Lemma committed_set_x d v next (m : DM) :
  committed (Ok tt, set_x d v (at_next next m)) = (Ok tt, set_pc next (set_x d v m)).
Proof. unfold set_x, committed. by case_match. Qed.

Lemma committed_jump d v p next (m : DM) :
  committed (Ok tt, at_next p (set_x d v (at_next next m))) = (Ok tt, set_pc p (set_x d v m)).
Proof. unfold set_x, committed. by case_match. Qed.

(** A write to a register does not move the pc. *)
Lemma set_x_pc d v (m : DM) : dc_pc (dm_inner (set_x d v m)) = dc_pc (dm_inner m).
Proof. unfold set_x. by case_match. Qed.
End exec.

Create HintDb regs discriminated.
#[export] Hint Resolve regs_ok_32 set_x_32 set_pc_32 at_next_32 set_memory_32 : regs.

(** The definition at the head of a computation. *)
Ltac unfold_head t :=
  lazymatch t with ?f _ => unfold_head f | ?h => unfold h end.

(** Unfold the head of the computation on the left. *)
Ltac unfold_run :=
  lazymatch goal with |- ?c _ = _ => unfold_head c end.
Ltac run_step :=
  cbv zeta;
  lazymatch goal with
  | |- mbind _ (@register ?R ?M (DefaultMachine _ _ ?Sy ?De) _ ?r) _ = _ =>
      rewrite (bind_register (R := R) (M := M) (Sy := Sy) (De := De) r) by eauto 10 with regs nocore
  | |- mbind _ (gets _) _ = _ => rewrite bind_gets
  | |- mbind _ (check_load_boundary _ _ _ _) _ = _ => rewrite bind_check
  | |- mbind _ (@memory_mut ?R ?M (DefaultMachine _ _ ?Sy ?De) _ _ ?c) _ = _ =>
      rewrite (bind_memory_mut (R := R) (M := M) (Sy := Sy) (De := De) c)
  | |- @memory_mut ?R ?M (DefaultMachine _ _ ?Sy ?De) _ _ ?c _ = _ =>
      rewrite (memory_mut_eq (R := R) (M := M) (Sy := Sy) (De := De) c)
  | |- mbind _ (@update_register ?R ?M (DefaultMachine _ _ ?Sy ?De) _ ?d ?v) _ = _ =>
      rewrite (bind_update_register (R := R) (M := M) (Sy := Sy) (De := De) d v) by eauto 10 with regs nocore
  | |- @update_register ?R ?M (DefaultMachine _ _ ?Sy ?De) _ ?d ?v _ = _ =>
      rewrite (update_register_eq (R := R) (M := M) (Sy := Sy) (De := De) d v) by eauto 10 with regs nocore
  | |- @update_pc ?R ?M (DefaultMachine _ _ ?Sy ?De) _ ?p _ = _ =>
      rewrite (update_pc_eq (R := R) (M := M) (Sy := Sy) (De := De) p)
  | |- (Ok _, _) = _ => fail
  | |- match _ with (_, _) => _ end = _ => fail
  | |- _ => unfold_run
  end.
Ltac result_eq := first [apply set_x_eq | apply at_next_eq].
