(* ===== verification/Run.v ===== *)
(** Running a program: [DefaultMachine::step] and [run_with_decoder]
    (src/src/machine/mod.rs), the trace machine (src/src/machine/trace.rs), the cost
    models (src/src/cost_model.rs) and the entry points of src/src/lib.rs.

    The run loops take fuel ([None] when it runs out) and the interrupts other
    threads raise: [interrupts k] says that [Pause::interrupt] is called before the
    loop looks at the flag for the [k]-th time. *)
From S2P Require Import Prelude Outcome Bits Register Insts Memory Machine Core Execute Decoder.
From stdpp Require Import base list numbers strings.
Open Scope Z_scope.

(** * Cost models *)

Definition constant_cycles (i : Instruction) : Z := 1.

Definition estimate_cycles (i : Instruction) : Z :=
  match zassoc
    [(OP_JALR_VERSION0, 3); (OP_JALR_VERSION1, 3); (OP_LD_VERSION0, 2); (OP_LD_VERSION1, 2);
     (OP_LW_VERSION0, 3); (OP_LW_VERSION1, 3); (OP_LH_VERSION0, 3); (OP_LH_VERSION1, 3);
     (OP_LB_VERSION0, 3); (OP_LB_VERSION1, 3); (OP_LWU_VERSION0, 3); (OP_LWU_VERSION1, 3);
     (OP_LHU_VERSION0, 3); (OP_LHU_VERSION1, 3); (OP_LBU_VERSION0, 3); (OP_LBU_VERSION1, 3);
     (OP_SB, 3); (OP_SH, 3); (OP_SW, 3); (OP_SD, 2);
     (OP_BEQ, 3); (OP_BGE, 3); (OP_BGEU, 3); (OP_BLT, 3); (OP_BLTU, 3); (OP_BNE, 3);
     (OP_EBREAK, 500); (OP_ECALL, 500); (OP_JAL, 3);
     (OP_MUL, 5); (OP_MULW, 5); (OP_MULH, 5); (OP_MULHU, 5); (OP_MULHSU, 5);
     (OP_DIV, 32); (OP_DIVW, 32); (OP_DIVU, 32); (OP_DIVUW, 32);
     (OP_REM, 32); (OP_REMW, 32); (OP_REMU, 32); (OP_REMUW, 32);
     (OP_LR_W, 4); (OP_SC_W, 4); (OP_AMOSWAP_W, 4); (OP_AMOADD_W, 4); (OP_AMOXOR_W, 4);
     (OP_AMOAND_W, 4); (OP_AMOOR_W, 4); (OP_AMOMIN_W, 4); (OP_AMOMAX_W, 4);
     (OP_AMOMINU_W, 4); (OP_AMOMAXU_W, 4);
     (OP_LR_D, 3); (OP_SC_D, 3); (OP_AMOSWAP_D, 3); (OP_AMOADD_D, 3); (OP_AMOXOR_D, 3);
     (OP_AMOAND_D, 3); (OP_AMOOR_D, 3); (OP_AMOMIN_D, 3); (OP_AMOMAX_D, 3);
     (OP_AMOMINU_D, 3); (OP_AMOMAXU_D, 3);
     (OP_WIDE_MUL, 5); (OP_WIDE_MULU, 5); (OP_WIDE_MULSU, 5); (OP_WIDE_DIV, 32);
     (OP_WIDE_DIVU, 32); (OP_FAR_JUMP_REL, 3); (OP_FAR_JUMP_ABS, 3)] (extract_opcode i)
  with Some c => c | None => 1 end.

(** * DefaultMachine *)

Section run.
Context {R : Register} {M Sy De : Type} `{!Memory R M}.
Context `{!Syscalls (DefaultCoreMachine R M) Sy} `{!Debugger (DefaultCoreMachine R M) De}.
Local Abbreviation DM := (DefaultMachine R M Sy De).

(** The decoder the loop drives, and the machine. *)
Definition RunState : Type := DefaultDecoder * DM.

Definition on_machine {A} (c : ST DM A) : ST RunState A := zoom snd (fun m s => (s.1, m)) c.

(** [decoder.decode(self.memory_mut(), pc)] *)
Definition on_decoder {A} (c : ST (DefaultDecoder * M) A) : ST RunState A :=
  zoom (fun s => (s.1, memory s.2))
       (fun t s => (t.1, dm_set_inner (with_memory t.2 (dm_inner s.2)) s.2)) c.

Definition step : ST RunState unit :=
  pc0 ← gets (fun s => to_u64 (pc s.2));
  instruction ← on_decoder (decode pc0);
  cycles ← gets (fun s => dm_instruction_cycle_func s.2 instruction);
  on_machine (on_inner (add_cycles cycles));;
  on_machine (execute instruction).

(** [if self.reset_signal() { decoder.reset_instructions_cache()?; }] *)
Definition handle_reset : ST RunState unit :=
  signal ← on_machine (on_inner reset_signal);
  if signal : bool then modify (fun s => (reset_instructions_cache s.1, s.2)) else mret tt.

(** Another thread's [Pause::interrupt]. *)
Definition interrupted (b : bool) (s : RunState) : RunState :=
  if b then (s.1, dm_set_pause (Pause_interrupt (dm_pause s.2)) s.2) else s.

Fixpoint run_loop (fuel : nat) (interrupts : nat -> bool) (s : RunState)
  : option (outcome Z * RunState) :=
  if dc_running (dm_inner s.2) then
    match fuel with
    | O => None
    | S fuel' =>
        let s := interrupted (interrupts O) s in
        if Pause_has_interrupted (dm_pause s.2) then
          Some (Err Pause_, (s.1, dm_set_pause (Pause_free (dm_pause s.2)) s.2))
        else
          match (handle_reset;; step) s with
          | (Ok _, s') => run_loop fuel' (fun k => interrupts (S k)) s'
          | (Err e, s') => Some (Err e, s')
          | (Panic, s') => Some (Panic, s')
          end
    end
  else Some (Ok (dm_exit_code s.2), s).

Definition run_with_decoder (fuel : nat) (interrupts : nat -> bool) (s : RunState)
  : option (outcome Z * RunState) :=
  if negb (Z.land (isa s.2) ISA_MOP =? 0) && (version s.2 =? VERSION0)
  then Some (Err InvalidVersion, s)
  else
    let s := (s.1, dm_set_inner (with_running true (dc_reset_signal (dm_inner s.2))
                                              (dm_inner s.2)) s.2) in
    run_loop fuel interrupts s.

(** [DefaultMachineRunner::run]: a fresh decoder for the machine's isa and version. *)
Definition run (fuel : nat) (interrupts : nat -> bool) (m : DM)
  : option (outcome Z * RunState) :=
  run_with_decoder fuel interrupts (decoder_new R (isa m) (version m), m).

(** * The trace machine *)

Definition TRACE_SIZE : Z := 8192.
Definition TRACE_MASK : Z := TRACE_SIZE - 1.
Definition TRACE_ITEM_LENGTH : Z := 16.
Definition TRACE_ADDRESS_SHIFTS : Z := 2.

Record Trace := {
  tr_address : Z;
  tr_length : Z;
  tr_instruction_count : Z;
  tr_instructions : list Instruction;
  tr_threads : list (Thread (Mac := DM));
}.

Definition Trace_default : Trace :=
  {| tr_address := 0; tr_length := 0; tr_instruction_count := 0;
     tr_instructions := replicate (Z.to_nat TRACE_ITEM_LENGTH) 0;
     tr_threads := replicate (Z.to_nat TRACE_ITEM_LENGTH) handle_invalid_op |}.

Definition calculate_slot (addr : Z) : Z :=
  Z.land (wshr 64 addr TRACE_ADDRESS_SHIFTS) TRACE_MASK.

(** [self.traces[slot].instructions[i] = ..; self.traces[slot].threads[i] = ..;] *)
Definition trace_put (i : nat) (instruction : Instruction) (thread : Thread (Mac := DM))
  (t : Trace) : Trace :=
  {| tr_address := tr_address t; tr_length := tr_length t;
     tr_instruction_count := tr_instruction_count t;
     tr_instructions := <[i := instruction]> (tr_instructions t);
     tr_threads := <[i := thread]> (tr_threads t) |}.

Record TraceState := {
  ts_run : RunState;
  ts_factory : list (Thread (Mac := DM));
  ts_traces : list Trace;
}.

Definition ts_set_run (r : RunState) (s : TraceState) : TraceState :=
  {| ts_run := r; ts_factory := ts_factory s; ts_traces := ts_traces s |}.
Definition ts_set_traces (t : list Trace) (s : TraceState) : TraceState :=
  {| ts_run := ts_run s; ts_factory := ts_factory s; ts_traces := t |}.

Definition on_run {A} (c : ST RunState A) : ST TraceState A := zoom ts_run ts_set_run c.

Definition trace_at (slot : Z) : ST TraceState Trace := fun s =>
  unwrap (ts_traces s !! Z.to_nat slot) s.
Definition trace_set (slot : Z) (t : Trace) : ST TraceState unit :=
  modify (fun s => ts_set_traces (<[Z.to_nat slot := t]> (ts_traces s)) s).

(** [while i < TRACE_ITEM_LENGTH], [n] iterations left; returns [i] and [current_pc]. *)
Fixpoint build_trace (n : nat) (slot : Z) (i : nat) (current_pc : Z)
  : ST TraceState (nat * Z) :=
  match n with
  | O => mret (i, current_pc)
  | S n' =>
      instruction ← on_run (on_decoder (decode current_pc));
      let end_instruction := is_basic_block_end_instruction instruction in
      let current_pc := wadd 64 current_pc (instruction_length instruction) in
      t ← trace_at slot;
      factory ← gets ts_factory;
      thread ← unwrap (ThreadFactory_get factory (extract_opcode instruction));
      trace_set slot (trace_put i instruction thread t);;
      if end_instruction : bool then mret (S i, current_pc)
      else build_trace n' slot (S i) current_pc
  end.

Definition new_trace (slot pc : Z) : ST TraceState unit :=
  trace_set slot Trace_default;;
  r ← build_trace (Z.to_nat TRACE_ITEM_LENGTH) slot 0 pc;
  t ← trace_at slot;
  trace_set slot
    {| tr_address := pc; tr_length := wsub 64 r.2 pc;
       tr_instruction_count := wrap 8 (Z.of_nat r.1);
       tr_instructions := tr_instructions t; tr_threads := tr_threads t |}.

(** [for i in 0..self.traces[slot].instruction_count], [n] iterations left *)
Fixpoint run_trace (n : nat) (slot : Z) (i : nat) : ST TraceState unit :=
  match n with
  | O => mret tt
  | S n' =>
      t ← trace_at slot;
      inst ← unwrap (tr_instructions t !! i);
      cycles ← gets (fun s => dm_instruction_cycle_func (ts_run s).2 inst);
      on_run (on_machine (on_inner (add_cycles cycles)));;
      thread ← unwrap (tr_threads t !! i);
      on_run (on_machine (execute_with_thread inst thread));;
      run_trace n' slot (S i)
  end.

Definition trace_reset : ST TraceState unit :=
  signal ← on_run (on_machine (on_inner reset_signal));
  if signal : bool then
    on_run (modify (fun s => (reset_instructions_cache s.1, s.2)));;
    modify (fun s => ts_set_traces (map (fun _ => Trace_default) (ts_traces s)) s)
  else mret tt.

Definition trace_iteration : ST TraceState unit :=
  trace_reset;;
  pc0 ← gets (fun s => to_u64 (pc (ts_run s).2));
  let slot := calculate_slot pc0 in
  t ← trace_at slot;
  version ← gets (fun s => version (ts_run s).2);
  let address_match :=
    if version <? VERSION2 then wrap 32 pc0 =? tr_address t else pc0 =? tr_address t in
  (if negb address_match || (tr_instruction_count t =? 0) then new_trace slot pc0 else mret tt);;
  t ← trace_at slot;
  run_trace (Z.to_nat (tr_instruction_count t)) slot 0.

Fixpoint trace_loop (fuel : nat) (interrupts : nat -> bool) (s : TraceState)
  : option (outcome Z * TraceState) :=
  if dc_running (dm_inner (ts_run s).2) then
    match fuel with
    | O => None
    | S fuel' =>
        let s := ts_set_run (interrupted (interrupts O) (ts_run s)) s in
        if Pause_has_interrupted (dm_pause (ts_run s).2) then
          Some (Err Pause_,
                ts_set_run ((ts_run s).1,
                            dm_set_pause (Pause_free (dm_pause (ts_run s).2)) (ts_run s).2) s)
        else
          match trace_iteration s with
          | (Ok _, s') => trace_loop fuel' (fun k => interrupts (S k)) s'
          | (Err e, s') => Some (Err e, s')
          | (Panic, s') => Some (Panic, s')
          end
    end
  else Some (Ok (dm_exit_code (ts_run s).2), s).

(** [self.traces.resize_with(TRACE_SIZE, Trace::default)] *)
Definition resize_traces (l : list Trace) : list Trace :=
  take (Z.to_nat TRACE_SIZE) l ++ replicate (Z.to_nat TRACE_SIZE - length l) Trace_default.

Definition trace_run_with_decoder (fuel : nat) (interrupts : nat -> bool) (s : TraceState)
  : option (outcome Z * TraceState) :=
  let m := (ts_run s).2 in
  let s := ts_set_run ((ts_run s).1,
             dm_set_inner (with_running true (dc_reset_signal (dm_inner m)) (dm_inner m)) m) s in
  let s := ts_set_traces (resize_traces (ts_traces s)) s in
  trace_loop fuel interrupts s.

Definition TraceMachine_new (d : DefaultDecoder) (m : DM) : TraceState :=
  {| ts_run := (d, m); ts_factory := ThreadFactory_create; ts_traces := [] |}.

Definition trace_run (fuel : nat) (interrupts : nat -> bool) (m : DM)
  : option (outcome Z * TraceState) :=
  trace_run_with_decoder fuel interrupts
    (TraceMachine_new (decoder_new R (isa m) (version m)) m).
End run.

(** * lib.rs *)

Section lib.
Context {R : Register} {M : Type} `{!Memory R M}.
Local Abbreviation WM := (WXorXMemory M).

(** No syscall module and no debugger. *)
#[local] Instance no_syscalls : Syscalls (DefaultCoreMachine R WM) Empty_set := {
  syscall_initialize := fun '(s, _) => match s with end;
  syscall_ecall := fun '(s, _) => match s with end }.
#[local] Instance no_debugger : Debugger (DefaultCoreMachine R WM) Empty_set := {
  debugger_initialize := fun '(s, _) => match s with end;
  debugger_ebreak := fun '(s, _) => match s with end }.

Definition lib_run_with_memory (fuel : nat) (interrupts : nat -> bool)
  (parse : list Z -> Z -> Error + ProgramMetadata) (program : list Z) (args : list (list Z))
  (memory_size : Z) : option (outcome Z) :=
  match dc_new_with_memory (Z.lor (Z.lor ISA_IMC ISA_B) ISA_MOP) VERSION2 U64_MAX memory_size with
  | Ok core_machine =>
      match load_program parse program (Z.of_nat (length args)) (map inr args)
              (build (Sy := Empty_set) (De := Empty_set) (builder_new core_machine)) with
      | (Ok _, machine) => fst <$> trace_run fuel interrupts machine
      | (Err e, _) => Some (Err e)
      | (Panic, _) => Some Panic
      end
  | Err e => Some (Err e)
  | Panic => Some Panic
  end.

Definition lib_run (fuel : nat) (interrupts : nat -> bool)
  (parse : list Z -> Z -> Error + ProgramMetadata) (program : list Z) (args : list (list Z))
  : option (outcome Z) :=
  lib_run_with_memory fuel interrupts parse program args DEFAULT_MEMORY_SIZE.
End lib.
