(* ===== verification/Traces.v ===== *)
(** The Rust driver of the assembly interpreter (src/src/machine/asm/traces.rs, the run
    loop of src/src/machine/asm/mod.rs, src/definitions/src/asm.rs).

    The interpreter itself, [ckb_vm_asm_execute], is written in assembly: here it is a
    parameter, a function of what it is given and of the machine, with the table of label
    offsets it exports.  The addresses of boxed dynamic traces are the allocator's choice
    and a parameter too.  [dynamic_loop] and the run loop take fuel. *)
From S2P Require Import Prelude Outcome Bits Register Insts Memory Machine Core Execute Decoder Run Asm.
From stdpp Require Import base list numbers gmap.
Open Scope Z_scope.

Definition ASM_TRACE_SIZE : Z := 8192.
Definition ASM_TRACE_ITEM_LENGTH : Z := 16.

Definition RET_DECODE_TRACE : Z := 1.
Definition RET_ECALL : Z := 2.
Definition RET_EBREAK : Z := 3.
Definition RET_DYNAMIC_JUMP : Z := 4.
Definition RET_MAX_CYCLES_EXCEEDED : Z := 5.
Definition RET_CYCLES_OVERFLOW : Z := 6.
Definition RET_OUT_OF_BOUND : Z := 7.
Definition RET_INVALID_PERMISSION : Z := 8.
Definition RET_SLOWPATH : Z := 9.
Definition RET_PAUSE : Z := 10.

Definition asm_calculate_slot (addr : Z) : Z := Z.land (Z.shiftr addr 2) (ASM_TRACE_SIZE - 1).

(** * Traces *)

Record FixedTrace := {
  ft_address : Z;
  ft_length : Z;
  ft_cycles : Z;
  ft_threads : list Z;
}.

Definition FixedTrace_default : FixedTrace :=
  {| ft_address := 0; ft_length := 0; ft_cycles := 0;
     ft_threads := replicate (Z.to_nat (2 * (ASM_TRACE_ITEM_LENGTH + 1))) 0 |}.

(** The instruction and the label of a thread; the indices are in the array. *)
Definition ft_thread (idx : Z) (t : FixedTrace) : option (Instruction * Z) :=
  if idx <? ASM_TRACE_ITEM_LENGTH + 1 then
    instruction ← ft_threads t !! Z.to_nat (idx * 2 + 1);
    label ← ft_threads t !! Z.to_nat (idx * 2);
    Some (instruction, label)
  else None.

Definition set_thread (idx : Z) (instruction : Instruction) (thread : Z) (t : FixedTrace) : FixedTrace :=
  if idx <? ASM_TRACE_ITEM_LENGTH + 1 then
    {| ft_address := ft_address t; ft_length := ft_length t; ft_cycles := ft_cycles t;
       ft_threads := <[Z.to_nat (idx * 2 + 1) := instruction]>
                       (<[Z.to_nat (idx * 2) := thread]> (ft_threads t)) |}
  else t.

Definition ft_add_cycles (cycles : Z) (t : FixedTrace) : FixedTrace :=
  {| ft_address := ft_address t; ft_length := ft_length t;
     ft_cycles := wadd 64 (ft_cycles t) cycles; ft_threads := ft_threads t |}.
Definition ft_set_range (address length : Z) (t : FixedTrace) : FixedTrace :=
  {| ft_address := address; ft_length := length; ft_cycles := ft_cycles t;
     ft_threads := ft_threads t |}.

(** [threads]: the labels and instructions behind the three fields. *)
Record DynamicTrace := {
  dt_address : Z;
  dt_length : Z;
  dt_cycles : Z;
  dt_threads : list Z;
}.

Record DynamicTraceBuilder := {
  db_start_address : Z;
  db_length : Z;
  db_cycles : Z;
  db_insts : list (Instruction * Z);
}.

Definition builder_start (start_address : Z) : DynamicTraceBuilder :=
  {| db_start_address := start_address; db_length := 0; db_cycles := 0; db_insts := [] |}.

Definition builder_next_pc (b : DynamicTraceBuilder) : Z :=
  wadd 64 (db_start_address b) (db_length b).

(** * Decoders *)

Class InstDecoder (M D : Type) := {
  inst_new : Register -> Z -> Z -> D;
  inst_decode : Z -> ST (D * M) Instruction;
  inst_reset_cache : D -> D;
}.

#[export] Instance default_inst_decoder {M} `{!Memory u64_register M} : InstDecoder M DefaultDecoder := {
  inst_new := decoder_new; inst_decode := Decoder.decode; inst_reset_cache := reset_instructions_cache }.

(** [D] is part of a larger state [T]. *)
Definition with_decoder {T M D A} (get : T -> D) (set : D -> T -> T) (c : ST (D * M) A) : ST (T * M) A :=
  zoom (fun s => (get s.1, s.2)) (fun t s => (set t.1 s.1, t.2)) c.

(** What the pointers handed to the interpreter address: the pause flag, the traces, and
    the boxed traces that these point to. *)
Record InvokeData := {
  iv_pause : Z;
  iv_fixed_traces : list FixedTrace;
  iv_fixed_trace_mask : Z;
  iv_boxed_traces : gmap Z (Z * DynamicTrace);
}.

Section traces.
(** The label table, the address of [ckb_vm_asm_execute] and that of a new box, given
    the boxes there are. *)
Context (asm_labels : Z -> Z) (asm_execute_address : Z)
  (box_address : gmap Z (Z * DynamicTrace) -> DynamicTrace -> Z).
Context {Sy De : Type} `{!Syscalls AsmCoreMachine Sy} `{!Debugger AsmCoreMachine De}.
Local Abbreviation DM := (DefaultMachine u64_register AsmMemory Sy De).

(** The table is indexed by the low byte of the opcode. *)
Definition label_from_fastpath_opcode (opcode : InstructionOpcode) : Z :=
  wadd 64 (asm_labels (wrap 8 opcode)) asm_execute_address.

Definition builder_push (inst : Instruction) (cycles : Z) (b : DynamicTraceBuilder)
  : DynamicTraceBuilder :=
  let label := label_from_fastpath_opcode (extract_opcode inst) in
  {| db_start_address := db_start_address b;
     db_length := wadd 32 (db_length b) (instruction_length inst);
     db_cycles := wadd 64 (db_cycles b) cycles;
     db_insts := db_insts b ++ [(inst, label)] |}.

Definition trace_end : Instruction * Z :=
  (blank_instruction OP_CUSTOM_TRACE_END, label_from_fastpath_opcode OP_CUSTOM_TRACE_END).

(** What is written behind the fields: label and instruction of every thread. *)
Definition thread_words (insts : list (Instruction * Z)) : list Z :=
  concat (map (fun '(inst, label) => [label; inst]) insts).

Definition builder_build (b : DynamicTraceBuilder) : DynamicTrace :=
  {| dt_address := db_start_address b; dt_length := db_length b; dt_cycles := db_cycles b;
     dt_threads := thread_words (db_insts b ++ [trace_end]) |}.

(** ** decode_fixed_trace *)

Section decode_fixed.
Context {D : Type} `{!InstDecoder AsmMemory D}.

(** [decoder.decode(machine.memory_mut(), pc)] *)
Definition trace_decode (pc : Z) : ST (D * DM) Instruction :=
  zoom (fun s => (s.1, memory s.2))
       (fun t s => (t.1, dm_set_inner (with_memory t.2 (dm_inner s.2)) s.2)) (inst_decode pc).

(** [while i < size], [n] iterations left: the trace, [i] and [current_pc]. *)
Fixpoint fill_trace (n : nat) (i current_pc : Z) (trace : FixedTrace)
  : ST (D * DM) (FixedTrace * Z * Z) :=
  match n with
  | O => mret (trace, i, current_pc)
  | S n' =>
      instruction ← trace_decode current_pc;
      let end_instruction := is_basic_block_end_instruction instruction in
      let current_pc := wadd 64 current_pc (instruction_length instruction) in
      cycles ← gets (fun s => dm_instruction_cycle_func s.2 instruction);
      let trace := ft_add_cycles cycles trace in
      let opcode := extract_opcode instruction in
      let trace := set_thread i instruction (label_from_fastpath_opcode opcode) trace in
      if end_instruction then mret (trace, i + 1, current_pc)
      else fill_trace n' (i + 1) current_pc trace
  end.

Definition decode_fixed_trace (maximum_insts : option Z) : ST (D * DM) (FixedTrace * Z) :=
  pc ← gets (fun s => pc s.2);
  let size :=
    match maximum_insts with
    | Some items => Z.min items ASM_TRACE_ITEM_LENGTH
    | None => ASM_TRACE_ITEM_LENGTH
    end in
  r ← fill_trace (Z.to_nat size) 0 pc FixedTrace_default;
  let '(trace, i, current_pc) := r in
  let trace := set_thread i trace_end.1 trace_end.2 trace in
  mret (ft_set_range pc (wrap 32 (wsub 64 current_pc pc)) trace, i + 1).
End decode_fixed.

(** ** Trace decoders *)

Class TraceDecoder (T : Type) := {
  td_decoder :: InstDecoder AsmMemory T;
  fixed_traces : T -> list FixedTrace;
  fixed_trace_size : T -> Z;
  (* the boxed traces that threads point to, with their addresses *)
  boxed_traces : T -> gmap Z (Z * DynamicTrace);
  (* with fuel; [None] when it runs out *)
  prepare_traces : nat -> T * DM -> option (outcome unit * (T * DM));
  td_reset : T -> T;
}.

Definition clear_fixed_traces : list FixedTrace :=
  replicate (Z.to_nat ASM_TRACE_SIZE) FixedTrace_default.

Section trace_decoders.
Context {D : Type} `{!InstDecoder AsmMemory D}.

(** *** SimpleFixedTraceDecoder *)

Record SimpleFixedTraceDecoder := {
  sf_traces : list FixedTrace;
  sf_decoder : D;
}.
Definition sf_set_decoder (d : D) (t : SimpleFixedTraceDecoder) : SimpleFixedTraceDecoder :=
  {| sf_traces := sf_traces t; sf_decoder := d |}.

Definition sf_clear_traces (t : SimpleFixedTraceDecoder) : SimpleFixedTraceDecoder :=
  {| sf_traces := clear_fixed_traces; sf_decoder := sf_decoder t |}.

(** [self.traces[slot] = trace] *)
Definition sf_put (slot : Z) (trace : FixedTrace) (t : SimpleFixedTraceDecoder)
  : outcome SimpleFixedTraceDecoder :=
  match sf_traces t !! Z.to_nat slot with
  | Some _ => Ok {| sf_traces := <[Z.to_nat slot := trace]> (sf_traces t); sf_decoder := sf_decoder t |}
  | None => Panic
  end.

Definition sf_new (R : Register) (isa version : Z) : SimpleFixedTraceDecoder :=
  {| sf_traces := clear_fixed_traces; sf_decoder := inst_new R isa version |}.

#[export] Instance sf_inst_decoder : InstDecoder AsmMemory SimpleFixedTraceDecoder := {
  inst_new := sf_new;
  inst_decode pc := with_decoder sf_decoder sf_set_decoder (inst_decode pc);
  inst_reset_cache t := sf_set_decoder (inst_reset_cache (sf_decoder t)) t }.

(** A computation on the decoder [D] inside [t] and the machine. *)
Definition on_sf {A} (c : ST (D * DM) A) : ST (SimpleFixedTraceDecoder * DM) A :=
  with_decoder sf_decoder sf_set_decoder c.

Definition sf_put_here (trace : FixedTrace) : ST (SimpleFixedTraceDecoder * DM) unit := fun s =>
  match sf_put (asm_calculate_slot (pc s.2)) trace s.1 with
  | Ok t => (Ok tt, (t, s.2))
  | Err e => (Err e, s)
  | Panic => (Panic, s)
  end.

Definition sf_prepare_traces : ST (SimpleFixedTraceDecoder * DM) unit :=
  r ← on_sf (decode_fixed_trace None);
  sf_put_here r.1.

Definition sf_reset (t : SimpleFixedTraceDecoder) : SimpleFixedTraceDecoder :=
  inst_reset_cache (sf_clear_traces t).

#[export] Instance sf_trace_decoder : TraceDecoder SimpleFixedTraceDecoder := {
  fixed_traces := sf_traces; fixed_trace_size _ := ASM_TRACE_SIZE; boxed_traces _ := ∅;
  prepare_traces _ s := Some (sf_prepare_traces s); td_reset := sf_reset }.

(** *** MemoizedFixedTraceDecoder *)

Record MemoizedFixedTraceDecoder := {
  mf_inner : SimpleFixedTraceDecoder;
  mf_cache : gmap Z FixedTrace;
}.
Definition mf_set_inner (i : SimpleFixedTraceDecoder) (t : MemoizedFixedTraceDecoder)
  : MemoizedFixedTraceDecoder := {| mf_inner := i; mf_cache := mf_cache t |}.
Definition mf_clear_traces (t : MemoizedFixedTraceDecoder) : MemoizedFixedTraceDecoder :=
  mf_set_inner (sf_clear_traces (mf_inner t)) t.

Definition mf_new (R : Register) (isa version : Z) : MemoizedFixedTraceDecoder :=
  {| mf_inner := sf_new R isa version; mf_cache := ∅ |}.

#[export] Instance mf_inst_decoder : InstDecoder AsmMemory MemoizedFixedTraceDecoder := {
  inst_new := mf_new;
  inst_decode pc := with_decoder mf_inner mf_set_inner (inst_decode pc);
  inst_reset_cache t := mf_set_inner (inst_reset_cache (mf_inner t)) t }.

Definition on_mf {A} (c : ST (SimpleFixedTraceDecoder * DM) A)
  : ST (MemoizedFixedTraceDecoder * DM) A := with_decoder mf_inner mf_set_inner c.

Definition mf_insert (pc : Z) (trace : FixedTrace) : ST (MemoizedFixedTraceDecoder * DM) unit :=
  modify (fun s => ({| mf_inner := mf_inner s.1; mf_cache := <[pc := trace]> (mf_cache s.1) |}, s.2)).

Definition mf_prepare_traces : ST (MemoizedFixedTraceDecoder * DM) unit :=
  pc ← gets (fun s => pc s.2);
  cached ← gets (fun s => mf_cache s.1 !! pc);
  trace ←
    match cached with
    | Some trace => mret trace
    | None =>
        r ← on_mf (on_sf (decode_fixed_trace None));
        mf_insert pc r.1;;
        mret r.1
    end;
  on_mf (sf_put_here trace).

Definition mf_reset (t : MemoizedFixedTraceDecoder) : MemoizedFixedTraceDecoder :=
  {| mf_inner := sf_reset (mf_inner t); mf_cache := ∅ |}.

#[export] Instance mf_trace_decoder : TraceDecoder MemoizedFixedTraceDecoder := {
  fixed_traces t := sf_traces (mf_inner t); fixed_trace_size _ := ASM_TRACE_SIZE;
  boxed_traces _ := ∅; prepare_traces _ s := Some (mf_prepare_traces s); td_reset := mf_reset }.

(** *** MemoizedDynamicTraceDecoder *)

Record MemoizedDynamicTraceDecoder := {
  md_inner : SimpleFixedTraceDecoder;
  md_fixed_cache : gmap Z FixedTrace;
  md_dynamic_cache : gmap Z (Z * DynamicTrace);
}.
Definition md_set_inner (i : SimpleFixedTraceDecoder) (t : MemoizedDynamicTraceDecoder)
  : MemoizedDynamicTraceDecoder :=
  {| md_inner := i; md_fixed_cache := md_fixed_cache t; md_dynamic_cache := md_dynamic_cache t |}.
Definition md_clear_traces (t : MemoizedDynamicTraceDecoder) : MemoizedDynamicTraceDecoder :=
  md_set_inner (sf_clear_traces (md_inner t)) t.

Definition md_new (R : Register) (isa version : Z) : MemoizedDynamicTraceDecoder :=
  {| md_inner := sf_new R isa version; md_fixed_cache := ∅; md_dynamic_cache := ∅ |}.

#[export] Instance md_inst_decoder : InstDecoder AsmMemory MemoizedDynamicTraceDecoder := {
  inst_new := md_new;
  inst_decode pc := with_decoder md_inner md_set_inner (inst_decode pc);
  inst_reset_cache t := md_set_inner (inst_reset_cache (md_inner t)) t }.

Definition on_md {A} (c : ST (SimpleFixedTraceDecoder * DM) A)
  : ST (MemoizedDynamicTraceDecoder * DM) A := with_decoder md_inner md_set_inner c.

Definition md_insert_fixed (pc : Z) (trace : FixedTrace) (t : MemoizedDynamicTraceDecoder)
  : MemoizedDynamicTraceDecoder :=
  {| md_inner := md_inner t; md_fixed_cache := <[pc := trace]> (md_fixed_cache t);
     md_dynamic_cache := md_dynamic_cache t |}.

(** The trace is boxed where the allocator puts it. *)
Definition md_insert_dynamic (pc : Z) (trace : DynamicTrace) (t : MemoizedDynamicTraceDecoder)
  : Z * MemoizedDynamicTraceDecoder :=
  let p := box_address (md_dynamic_cache t) trace in
  (p, {| md_inner := md_inner t; md_fixed_cache := md_fixed_cache t;
         md_dynamic_cache := <[pc := (p, trace)]> (md_dynamic_cache t) |}).

(** One iteration of the loop: whether it ends, and the builder. *)
Definition dynamic_iteration (b : DynamicTraceBuilder)
  : ST (MemoizedDynamicTraceDecoder * DM) (bool * DynamicTraceBuilder) :=
  instruction ← trace_decode (builder_next_pc b);
  let end_instruction := is_basic_block_end_instruction instruction in
  cycles ← gets (fun s => dm_instruction_cycle_func s.2 instruction);
  mret (end_instruction, builder_push instruction cycles b).

Fixpoint dynamic_loop (fuel : nat) (b : DynamicTraceBuilder) (s : MemoizedDynamicTraceDecoder * DM)
  : option (outcome DynamicTraceBuilder * (MemoizedDynamicTraceDecoder * DM)) :=
  match fuel with
  | O => None
  | S fuel' =>
      match dynamic_iteration b s with
      | (Ok (true, b'), s') => Some (Ok b', s')
      | (Ok (false, b'), s') => dynamic_loop fuel' b' s'
      | (Err e, s') => Some (Err e, s')
      | (Panic, s') => Some (Panic, s')
      end
  end.

Definition find_or_build_dynamic_trace (fuel : nat) (pc : Z) (s : MemoizedDynamicTraceDecoder * DM)
  : option (outcome Z * (MemoizedDynamicTraceDecoder * DM)) :=
  match md_dynamic_cache s.1 !! pc with
  | Some (p, _) => Some (Ok p, s)
  | None =>
      match dynamic_loop fuel (builder_start pc) s with
      | Some (Ok b, s') =>
          let (p, t) := md_insert_dynamic pc (builder_build b) s'.1 in
          Some (Ok p, (t, s'.2))
      | Some (Err e, s') => Some (Err e, s')
      | Some (Panic, s') => Some (Panic, s')
      | None => None
      end
  end.

(** The trace that continues a block of more than 16 instructions. *)
Definition extend_trace (fuel : nat) (pc : Z) (trace : FixedTrace) (count : Z)
  (s : MemoizedDynamicTraceDecoder * DM)
  : option (outcome FixedTrace * (MemoizedDynamicTraceDecoder * DM)) :=
  match ft_thread (wsub 64 count 2) trace with
  | Some (inst, _) =>
      if is_basic_block_end_instruction inst then Some (Ok trace, s)
      else
        match find_or_build_dynamic_trace fuel (wadd 64 pc (ft_length trace)) s with
        | Some (Ok dynamic_trace, s') =>
            Some (Ok (set_thread (wsub 64 count 1) dynamic_trace
                        (label_from_fastpath_opcode OP_CUSTOM_ASM_TRACE_JUMP) trace), s')
        | Some (Err e, s') => Some (Err e, s')
        | Some (Panic, s') => Some (Panic, s')
        | None => None
        end
  | None => Some (Ok trace, s)
  end.

Definition md_prepare_traces (fuel : nat) (s : MemoizedDynamicTraceDecoder * DM)
  : option (outcome unit * (MemoizedDynamicTraceDecoder * DM)) :=
  let pc := pc s.2 in
  match md_fixed_cache s.1 !! pc with
  | Some trace => Some (on_md (sf_put_here trace) s)
  | None =>
      match on_md (on_sf (decode_fixed_trace None)) s with
      | (Ok (trace, count), s') =>
          match extend_trace fuel pc trace count s' with
          | Some (Ok trace, s') =>
              Some (on_md (sf_put_here trace) (md_insert_fixed pc trace s'.1, s'.2))
          | Some (Err e, s') => Some (Err e, s')
          | Some (Panic, s') => Some (Panic, s')
          | None => None
          end
      | (Err e, s') => Some (Err e, s')
      | (Panic, s') => Some (Panic, s')
      end
  end.

Definition md_reset (t : MemoizedDynamicTraceDecoder) : MemoizedDynamicTraceDecoder :=
  {| md_inner := sf_reset (md_inner t); md_fixed_cache := ∅; md_dynamic_cache := ∅ |}.

#[export] Instance md_trace_decoder : TraceDecoder MemoizedDynamicTraceDecoder := {
  fixed_traces t := sf_traces (md_inner t); fixed_trace_size _ := ASM_TRACE_SIZE;
  boxed_traces := md_dynamic_cache; prepare_traces := md_prepare_traces; td_reset := md_reset }.
End trace_decoders.

(** * AbstractAsmMachine *)

Section driver.
Context (ckb_vm_asm_execute : InvokeData -> AsmCoreMachine -> Z * AsmCoreMachine).
Context {T : Type} `{!TraceDecoder T}.

Definition asm_invoke (data : InvokeData) : ST (T * DM) Z := fun s =>
  let (result, inner) := ckb_vm_asm_execute data (dm_inner s.2) in
  (Ok result, (s.1, dm_set_inner inner s.2)).

Definition on_asm {A} (c : ST DM A) : ST (T * DM) A := zoom snd (fun m s => (s.1, m)) c.

(** RET_SLOWPATH: the assembly code has moved the pc past the instruction. *)
Definition slow_path : ST (T * DM) unit :=
  pc ← gets (fun s => wsub 64 (pc s.2 : reg u64_register) 4);
  instruction ← trace_decode pc;
  on_asm (execute_instruction instruction).

Definition error_arg0 (s : T * DM) : Z := asm_error_arg0 (dc_memory (dm_inner s.2)).

(** [match result], for the results but RET_DECODE_TRACE. *)
Definition handle_result (result : Z) : ST (T * DM) unit :=
  if result =? RET_ECALL then on_asm ecall
  else if result =? RET_EBREAK then on_asm ebreak
  else if result =? RET_DYNAMIC_JUMP then mret tt
  else if result =? RET_MAX_CYCLES_EXCEEDED then fail CyclesExceeded
  else if result =? RET_CYCLES_OVERFLOW then fail CyclesOverflow
  else if result =? RET_OUT_OF_BOUND then
    arg ← gets error_arg0; fail (MemOutOfBound arg Memory_)
  else if result =? RET_INVALID_PERMISSION then
    arg ← gets error_arg0; fail (MemWriteOnExecutablePage arg)
  else if result =? RET_SLOWPATH then slow_path
  else if result =? RET_PAUSE then
    on_asm (modify (fun m => dm_set_pause (Pause_free (dm_pause m)) m));; fail Pause_
  else fail (Asm result).

(** [if self.machine.reset_signal() { decoder.reset()?; }] *)
Definition asm_handle_reset : ST (T * DM) unit :=
  signal ← on_asm (on_inner reset_signal);
  if signal : bool then modify (fun s => (td_reset s.1, s.2)) else mret tt.

Definition asm_invoke_traces : ST (T * DM) Z :=
  data ← gets (fun s =>
    {| iv_pause := dm_pause s.2; iv_fixed_traces := fixed_traces s.1;
       iv_fixed_trace_mask := wsub 64 (fixed_trace_size s.1) 1;
       iv_boxed_traces := boxed_traces s.1 |});
  asm_invoke data.

Definition asm_iteration (trace_fuel : nat) (s : T * DM) : option (outcome unit * (T * DM)) :=
  match (asm_handle_reset;; asm_invoke_traces) s with
  | (Ok result, s') =>
      if result =? RET_DECODE_TRACE then prepare_traces trace_fuel s'
      else Some (handle_result result s')
  | (Err e, s') => Some (Err e, s')
  | (Panic, s') => Some (Panic, s')
  end.

Definition asm_interrupted (b : bool) (s : T * DM) : T * DM :=
  if b then (s.1, dm_set_pause (Pause_interrupt (dm_pause s.2)) s.2) else s.

(** [interrupts k]: another thread interrupts the machine before the [k]-th call of the
    interpreter. *)
Fixpoint asm_run_loop (fuel trace_fuel : nat) (interrupts : nat -> bool) (s : T * DM)
  : option (outcome Z * (T * DM)) :=
  if dc_running (dm_inner s.2) then
    match fuel with
    | O => None
    | S fuel' =>
        match asm_iteration trace_fuel (asm_interrupted (interrupts O) s) with
        | Some (Ok _, s') => asm_run_loop fuel' trace_fuel (fun k => interrupts (S k)) s'
        | Some (Err e, s') => Some (Err e, s')
        | Some (Panic, s') => Some (Panic, s')
        | None => None
        end
    end
  else Some (Ok (dm_exit_code s.2), s).

Definition asm_run_with_decoder (fuel trace_fuel : nat) (interrupts : nat -> bool) (s : T * DM)
  : option (outcome Z * (T * DM)) :=
  if negb (Z.land (isa s.2) ISA_MOP =? 0) && (version s.2 =? VERSION0)
  then Some (Err InvalidVersion, s)
  else
    let s := (s.1, dm_set_inner (with_running true (dc_reset_signal (dm_inner s.2))
                                              (dm_inner s.2)) s.2) in
    asm_run_loop fuel trace_fuel interrupts s.

Definition asm_run (fuel trace_fuel : nat) (interrupts : nat -> bool) (m : DM)
  : option (outcome Z * (T * DM)) :=
  asm_run_with_decoder fuel trace_fuel interrupts
    (inst_new u64_register (isa m) (version m), m).

(** The results [step] tells apart. *)
Definition asm_step_result (result : Z) : ST (T * DM) unit :=
  if result =? RET_DECODE_TRACE then mret tt
  else if result =? RET_ECALL then on_asm ecall
  else if result =? RET_EBREAK then on_asm ebreak
  else if result =? RET_MAX_CYCLES_EXCEEDED then fail CyclesExceeded
  else if result =? RET_OUT_OF_BOUND then
    arg ← gets error_arg0; fail (MemOutOfBound arg Memory_)
  else if result =? RET_INVALID_PERMISSION then
    arg ← gets error_arg0; fail (MemWriteOnExecutablePage arg)
  else if result =? RET_SLOWPATH then slow_path
  else fail (Asm result).

Definition asm_step : ST (T * DM) unit :=
  r ← decode_fixed_trace (Some 1);
  data ← gets (fun s =>
    {| iv_pause := dm_pause s.2; iv_fixed_traces := [r.1]; iv_fixed_trace_mask := 0;
       iv_boxed_traces := boxed_traces s.1 |});
  result ← asm_invoke data;
  asm_step_result result.
End driver.
End traces.
