(* ===== verification/Support.v ===== *)
(** The trait [SupportMachine] of src/src/machine/mod.rs with its implementations: the
    core machine's, the assembly core machine's (src/src/machine/asm/mod.rs) and
    [DefaultMachine]'s, which hands every operation to the machine inside it; the trace
    machine as a machine (src/src/machine/trace.rs); and [Display].

    [Core] has the operations themselves, on the core machine; here they are the methods
    of a class, and the methods the trait defines by default are written against it.
    [DefaultMachine] gets them from the trait, on its own methods: that is what the machine
    inside it does ([add_cycles_inner]). *)
From S2P Require Import Prelude Outcome Bits Register Insts Memory Machine Core Execute Decoder Run Asm.
From stdpp Require Import base list numbers strings.
Open Scope Z_scope.

(** * The trait *)

Class SupportMachine (R : Register) (M Mac : Type) {HC : CoreMachine R M Mac} := {
  new_with_memory : Z -> Z -> Z -> Z -> outcome Mac;
  m_cycles : Mac -> Z;
  m_set_cycles : Z -> ST Mac unit;
  m_max_cycles : Mac -> Z;
  m_set_max_cycles : Z -> ST Mac unit;
  m_running : Mac -> bool;
  m_set_running : bool -> ST Mac unit;
  m_reset : Z -> ST Mac unit;
  m_reset_signal : ST Mac bool;
}.

Section defaults.
Context {R : Register} {M Mac : Type} {HC : CoreMachine R M Mac} {HS : SupportMachine R M Mac}.

(** The methods with a body in the trait. *)
Definition m_add_cycles (cycles : Z) : ST Mac unit := fun m =>
  match checked_add_u64 (m_cycles m) cycles with
  | None => fail CyclesOverflow m
  | Some new_cycles =>
      if m_max_cycles m <? new_cycles then fail CyclesExceeded m
      else m_set_cycles new_cycles m
  end.

Definition m_add_cycles_no_checking (cycles : Z) : ST Mac unit := fun m =>
  match checked_add_u64 (m_cycles m) cycles with
  | None => fail CyclesOverflow m
  | Some new_cycles => m_set_cycles new_cycles m
  end.
End defaults.

(** * The core machine *)

#[export] Instance default_core_support (R : Register) (M : Type) {HM : Memory R M}
  : SupportMachine R M (DefaultCoreMachine R M) := {
  new_with_memory := dc_new_with_memory;
  m_cycles := dc_cycles;
  m_set_cycles := set_cycles;
  m_max_cycles := dc_max_cycles;
  m_set_max_cycles := set_max_cycles;
  m_running := dc_running;
  m_set_running := set_running;
  m_reset := reset;
  m_reset_signal := reset_signal;
}.

(** [impl CoreMachine] for the assembly machine: it is its own memory. *)
Definition asm_core_machine : CoreMachine u64_register AsmMemory AsmCoreMachine := {|
  pc := dc_pc;
  update_pc p := modify (fun m => with_pc (dc_pc m) p m);
  commit_pc := modify (fun m => with_pc (dc_next_pc m) (dc_next_pc m) m);
  memory := dc_memory;
  memory_mut A c := zoom dc_memory with_memory c;
  registers := dc_registers;
  set_register idx value m :=
    match dc_registers m !! Z.to_nat idx with
    | Some _ => (Ok tt, with_registers (<[Z.to_nat idx := value]> (dc_registers m)) m)
    | None => (Panic, m)
    end;
  version := dc_version;
  isa := dc_isa;
|}.

(** The assembly machine's: the same fields, another memory to create and to reset. *)
Definition asm_support (chaos_mode_by_default : bool) (garbage : list Z)
  : SupportMachine u64_register AsmMemory AsmCoreMachine := {|
  new_with_memory := AsmCoreMachine_new chaos_mode_by_default garbage;
  m_cycles := dc_cycles;
  m_set_cycles cycles := modify (fun m => with_cycles cycles (dc_max_cycles m) m);
  m_max_cycles := dc_max_cycles;
  m_set_max_cycles max_cycles := modify (fun m => with_cycles (dc_cycles m) max_cycles m);
  m_running := dc_running;
  m_set_running running := modify (fun m => with_running running (dc_reset_signal m) m);
  m_reset := asm_reset;
  m_reset_signal := fun m => (Ok (dc_reset_signal m), with_running (dc_running m) false m);
|}.

Definition take_memory {R M} (m : DefaultCoreMachine R M) : M := dc_memory m.

(** * DefaultMachine and the trace machine *)

Section machine.
Context {R : Register} {M Sy De : Type} {HM : Memory R M}.
Context {HSy : Syscalls (DefaultCoreMachine R M) Sy} {HDe : Debugger (DefaultCoreMachine R M) De}.
Local Abbreviation DM := (DefaultMachine R M Sy De).
Local Abbreviation TS := (@TraceState R M Sy De).

#[export] Instance default_machine_support : SupportMachine R M DM := {
  new_with_memory _ _ _ _ := Panic;
  m_cycles m := m_cycles (dm_inner m);
  m_set_cycles cycles := on_inner (m_set_cycles cycles);
  m_max_cycles m := m_max_cycles (dm_inner m);
  m_set_max_cycles max_cycles := on_inner (m_set_max_cycles max_cycles);
  m_running m := m_running (dm_inner m);
  m_set_running running := on_inner (m_set_running running);
  m_reset max_cycles := on_inner (m_reset max_cycles);
  m_reset_signal := on_inner m_reset_signal;
}.

Definition m_load_binary (program : list Z) (metadata : ProgramMetadata) (update_pc_flag : bool) : ST DM Z :=
  on_inner (load_binary program metadata update_pc_flag).
Definition m_load_elf (parse : list Z -> Z -> Error + ProgramMetadata) (program : list Z) (update_pc_flag : bool)
  : ST DM Z := on_inner (load_elf parse program update_pc_flag).

Definition take_inner (m : DM) : DefaultCoreMachine R M := dm_inner m.

(** [self.machine], of the trace machine *)
Definition trace_inner {A} (c : ST DM A) : ST TS A := on_run (on_machine c).

#[export] Instance trace_machine_core : CoreMachine R M TS := {
  pc s := pc (ts_run s).2;
  update_pc p := trace_inner (update_pc p);
  commit_pc := trace_inner commit_pc;
  memory s := memory (ts_run s).2;
  memory_mut A c := trace_inner (memory_mut c);
  registers s := registers (ts_run s).2;
  set_register idx value := trace_inner (set_register idx value);
  version s := version (ts_run s).2;
  isa s := isa (ts_run s).2;
}.

#[export] Instance trace_machine_machine : Machine R M TS := {
  ecall := trace_inner ecall;
  ebreak := trace_inner ebreak;
}.

Definition trace_load_program (parse : list Z -> Z -> Error + ProgramMetadata) (program : list Z)
  (args_len : Z) (args : list arg) : ST TS Z := trace_inner (load_program parse program args_len args).
Definition trace_load_program_with_metadata (program : list Z) (metadata : ProgramMetadata)
  (args_len : Z) (args : list arg) : ST TS Z :=
  trace_inner (load_program_with_metadata program metadata args_len args).
Definition trace_set_max_cycles (cycles : Z) : ST TS unit := trace_inner (on_inner (set_max_cycles cycles)).
End machine.

(** * Display *)

(** One upper-case hexadecimal digit. *)
Definition hex_digit (d : Z) : Ascii.ascii := Ascii.ascii_of_nat (Z.to_nat (if d <? 10 then 48 + d else 55 + d)).

(** The hexadecimal digits of a u64, without leading zeros: at most 16. *)
Fixpoint hex_digits (fuel : nat) (z : Z) (acc : string) : string :=
  match fuel with
  | O => acc
  | S fuel' =>
      let acc := String.String (hex_digit (z mod 16)) acc in
      if z / 16 =? 0 then acc else hex_digits fuel' (z / 16) acc
  end.

Fixpoint spaces (n : nat) : string :=
  match n with O => ""%string | S n' => String.String (Ascii.ascii_of_nat 32) (spaces n') end.

(** [{:16X}] and [{:4}] *)
Definition fmt_hex16 (z : Z) : string :=
  let digits := hex_digits 16 z "" in (spaces (16 - String.length digits) +:+ digits)%string.
Definition fmt_name4 (name : string) : string := (name +:+ spaces (4 - String.length name))%string.

Definition newline : string := String.String (Ascii.ascii_of_nat 10) ""%string.

Section display.
Context {R : Register} {M Sy De : Type} {HM : Memory R M}.

(** [for (i, name) in REGISTER_ABI_NAMES.iter().enumerate()]; [None] is a panic. *)
Fixpoint fmt_registers (i : nat) (names : list string) (regs : list (reg R)) : option string :=
  match names with
  | [] => Some ""%string
  | name :: names' =>
      value ← regs !! i;
      rest ← fmt_registers (S i) names' regs;
      let separator := if (S i mod 4 =? 0)%nat then newline else " "%string in
      Some (fmt_name4 name +:+ ": 0x" +:+ fmt_hex16 (to_u64 value) +:+ separator +:+ rest)%string
  end.

Definition DefaultMachine_fmt (m : DefaultMachine R M Sy De) : option string :=
  regs ← fmt_registers 0 REGISTER_ABI_NAMES (dc_registers (dm_inner m));
  Some ("pc  : 0x" +:+ fmt_hex16 (to_u64 (dc_pc (dm_inner m))) +:+ newline +:+ regs)%string.
End display.

(** * Delegation *)

Section delegation.
Context {R : Register} {M Sy De : Type} {HM : Memory R M}.
Context {HSy : Syscalls (DefaultCoreMachine R M) Sy} {HDe : Debugger (DefaultCoreMachine R M) De}.
Local Abbreviation DM := (DefaultMachine R M Sy De).

(** The trait's own methods, on [DefaultMachine] and on the machine inside it. *)
Lemma add_cycles_inner c (m : DM) : m_add_cycles c m = on_inner (add_cycles c) m.
Proof.
  unfold m_add_cycles, on_inner, zoom, add_cycles. cbn [m_cycles m_max_cycles m_set_cycles default_machine_support default_core_support].
  destruct (checked_add_u64 _ _); [|by destruct m].
  destruct (_ <? _); [by destruct m|done].
Qed.

Lemma add_cycles_no_checking_inner c (m : DM) : m_add_cycles_no_checking c m = on_inner (add_cycles_no_checking c) m.
Proof.
  unfold m_add_cycles_no_checking, on_inner, zoom, add_cycles_no_checking.
  cbn [m_cycles m_set_cycles default_machine_support default_core_support].
  destruct (checked_add_u64 _ _); [done|by destruct m].
Qed.

(** The assembly machine's registers and pc move like the core machine's. *)
Lemma asm_core_same (i : Z) (v : reg u64_register) (A : Type) (c : ST AsmMemory A) (m : AsmCoreMachine) :
  let A_ := asm_core_machine in
  update_pc (CoreMachine := A_) v m = update_pc v m /\ commit_pc (CoreMachine := A_) m = commit_pc m /\
  memory_mut (CoreMachine := A_) c m = memory_mut c m /\
  set_register (CoreMachine := A_) i v m = set_register i v m.
Proof.
  split; [done|]. split; [done|]. split; [done|].
  cbn [set_register asm_core_machine default_core_machine]. unfold mbind, ST_bind.
  by destruct (dc_registers m !! Z.to_nat i).
Qed.

(** The assembly machine's operations on the common fields are the core machine's. *)
Lemma asm_support_same chaos garbage (c : Z) (b : bool) (m : AsmCoreMachine) :
  let A := asm_support chaos garbage in
  m_set_cycles (SupportMachine := A) c m = set_cycles c m /\
  m_set_max_cycles (SupportMachine := A) c m = set_max_cycles c m /\
  m_set_running (SupportMachine := A) b m = set_running b m /\
  m_reset_signal (SupportMachine := A) m = reset_signal m.
Proof. done. Qed.

(** [Display] of a machine with all its registers does not panic. *)
Lemma fmt_registers_total i names (regs : list (reg R)) : (i + length names <= length regs)%nat ->
  is_Some (fmt_registers i names regs).
Proof.
  revert i. induction names as [|name names IH]; intros i Hl; [done|]. cbn [fmt_registers length] in *.
  destruct (lookup_lt_is_Some_2 regs i) as [v ->]; [lia|]. cbn [mbind option_bind].
  destruct (IH (S i)) as [rest ->]; [lia|done].
Qed.

Lemma machine_fmt_total (m : DM) : (32 <= length (dc_registers (dm_inner m)))%nat -> is_Some (DefaultMachine_fmt m).
Proof.
  intros Hl. unfold DefaultMachine_fmt. destruct (fmt_registers_total 0 REGISTER_ABI_NAMES (dc_registers (dm_inner m))) as [s ->].
  - exact Hl.
  - done.
Qed.
End delegation.

Example fmt_pc : fmt_hex16 0x1f40 = "            1F40"%string.
Proof. reflexivity. Qed.
