(* ===== verification/Runner.v ===== *)
(** The trait [DefaultMachineRunner] of src/src/machine/mod.rs, which drives a
    [DefaultMachine] with a decoder, and its three implementations: [DefaultMachine] itself
    (the interpreter), the trace machine (src/src/machine/trace.rs) and the assembly machine
    (src/src/machine/asm/mod.rs).

    The trait promises access to the machine inside ([RunnerLaws]); the methods it defines
    by default - [run], [load_program] - are written and specified against it. *)
From S2P Require Import Prelude Outcome Bits Register Insts Memory Machine Core Execute Decoder Run Asm Traces.
From stdpp Require Import base list numbers.
Open Scope Z_scope.

(** * The trait *)

(** [Self] keeps no decoder; [run_with_decoder] borrows one. Fuel and interrupts as in [Run]. *)
Class DefaultMachineRunner (R : Register) (M Sy De : Type) (Decoder Self : Type) := {
  runner_decoder :: InstDecoder M Decoder;
  runner_new : DefaultMachine R M Sy De -> Self;
  machine : Self -> DefaultMachine R M Sy De;
  machine_mut : forall A, ST (DefaultMachine R M Sy De) A -> ST Self A;
  runner_run_with_decoder : nat -> (nat -> bool) -> Decoder * Self -> option (outcome Z * (Decoder * Self));
}.

(** [machine_mut] borrows what [machine] shows. *)
Class RunnerLaws {R : Register} {M Sy De Decoder Self : Type}
  (HR : DefaultMachineRunner R M Sy De Decoder Self) := {
  machine_new m : machine (runner_new m) = m;
  machine_mut_result A (c : ST (DefaultMachine R M Sy De) A) s : (machine_mut A c s).1 = (c (machine s)).1;
  machine_mut_state A (c : ST (DefaultMachine R M Sy De) A) s : machine (machine_mut A c s).2 = (c (machine s)).2;
}.

Section defaults.
Context {R : Register} {M Sy De Decoder Self : Type} {HM : Memory R M}.
Context {HSy : Syscalls (DefaultCoreMachine R M) Sy} {HDe : Debugger (DefaultCoreMachine R M) De}.
Context {HR : DefaultMachineRunner R M Sy De Decoder Self}.

(** A new decoder for the machine's isa and version. *)
Definition runner_run (fuel : nat) (interrupts : nat -> bool) (s : Self) : option (outcome Z * (Decoder * Self)) :=
  runner_run_with_decoder fuel interrupts (inst_new R (isa (machine s)) (version (machine s)), s).

Definition runner_inner_mut {A} (c : ST (DefaultCoreMachine R M) A) : ST Self A := machine_mut A (on_inner c).

Definition runner_load_program (parse : list Z -> Z -> Error + ProgramMetadata) (program : list Z)
  (args_len : Z) (args : list arg) : ST Self Z :=
  machine_mut Z (load_program parse program args_len args).

Definition runner_load_program_with_metadata (program : list Z) (metadata : ProgramMetadata)
  (args_len : Z) (args : list arg) : ST Self Z :=
  machine_mut Z (load_program_with_metadata program metadata args_len args).
End defaults.

(** * The interpreter and the trace machine *)

Section machines.
Context {R : Register} {M Sy De : Type} {HM : Memory R M}.
Context {HSy : Syscalls (DefaultCoreMachine R M) Sy} {HDe : Debugger (DefaultCoreMachine R M) De}.
Local Abbreviation DM := (DefaultMachine R M Sy De).

#[local] Instance default_decoder : InstDecoder M DefaultDecoder := {
  inst_new := decoder_new; inst_decode := Decoder.decode; inst_reset_cache := reset_instructions_cache }.

#[export] Instance default_machine_runner : DefaultMachineRunner R M Sy De DefaultDecoder DM := {
  runner_new m := m;
  machine m := m;
  machine_mut A c := c;
  runner_run_with_decoder := run_with_decoder;
}.

#[export] Instance default_machine_laws : RunnerLaws default_machine_runner.
Proof. by split. Qed.

(** The decoder that [TraceState] carries is the one that is borrowed. *)
Record AbstractTraceMachine := {
  tm_machine : DM;
  tm_factory : list (Thread (Mac := DM));
  tm_traces : list (Trace (R := R) (M := M) (Sy := Sy) (De := De));
}.

Definition tm_state (s : DefaultDecoder * AbstractTraceMachine) : TraceState :=
  {| ts_run := (s.1, tm_machine s.2); ts_factory := tm_factory s.2; ts_traces := tm_traces s.2 |}.
Definition state_tm (s : TraceState) : DefaultDecoder * AbstractTraceMachine :=
  ((ts_run s).1, {| tm_machine := (ts_run s).2; tm_factory := ts_factory s; tm_traces := ts_traces s |}).

#[export] Instance trace_machine_runner : DefaultMachineRunner R M Sy De DefaultDecoder AbstractTraceMachine := {
  runner_new m := {| tm_machine := m; tm_factory := ThreadFactory_create; tm_traces := [] |};
  machine := tm_machine;
  machine_mut A := zoom tm_machine (fun m s =>
    {| tm_machine := m; tm_factory := tm_factory s; tm_traces := tm_traces s |});
  runner_run_with_decoder fuel interrupts s :=
    '(o, s') ← trace_run_with_decoder fuel interrupts (tm_state s); Some (o, state_tm s');
}.

Lemma zoom_result {S T A} (get : S -> T) set (c : ST T A) s : (zoom get set c s).1 = (c (get s)).1.
Proof. unfold zoom. by destruct (c (get s)). Qed.

Lemma zoom_state {S T A} (get : S -> T) set (c : ST T A) s : (forall t s', get (set t s') = t) ->
  get (zoom get set c s).2 = (c (get s)).2.
Proof. intros H. unfold zoom. destruct (c (get s)). apply H. Qed.

#[export] Instance trace_machine_laws : RunnerLaws trace_machine_runner.
Proof. split; [done|intros; apply zoom_result|intros; by apply zoom_state]. Qed.

(** ** What the default methods of the trait are on them *)

Lemma default_runner_run fuel interrupts (m : DM) : runner_run fuel interrupts m = Run.run fuel interrupts m.
Proof. done. Qed.

(** A new trace machine runs as [trace_run] says. *)
Lemma trace_runner_run fuel interrupts (m : DM) :
  runner_run fuel interrupts (runner_new m : AbstractTraceMachine) =
  '(o, s) ← trace_run fuel interrupts m; Some (o, state_tm s).
Proof. done. Qed.
End machines.

(** * The assembly machine *)

Section asm.
Context {Sy De : Type} {HSy : Syscalls AsmCoreMachine Sy} {HDe : Debugger AsmCoreMachine De}.
Context (ckb_vm_asm_execute : InvokeData -> AsmCoreMachine -> Z * AsmCoreMachine).
Context {T : Type} {HT : TraceDecoder (Sy := Sy) (De := De) T}.
Local Abbreviation DM := (DefaultMachine u64_register AsmMemory Sy De).

Record AbstractAsmMachine := { am_machine : DM }.

(** [trace_fuel] bounds the length of a dynamic trace. *)
#[export] Instance asm_machine_runner (trace_fuel : nat) :
  DefaultMachineRunner u64_register AsmMemory Sy De T AbstractAsmMachine := {
  runner_new m := {| am_machine := m |};
  machine := am_machine;
  machine_mut A := zoom am_machine (fun m _ => {| am_machine := m |});
  runner_run_with_decoder fuel interrupts s :=
    '(o, s') ← asm_run_with_decoder ckb_vm_asm_execute fuel trace_fuel interrupts (s.1, am_machine s.2);
    Some (o, (s'.1, {| am_machine := s'.2 |}));
}.

#[export] Instance asm_machine_laws trace_fuel : RunnerLaws (asm_machine_runner trace_fuel).
Proof. split; [done|intros; apply zoom_result|intros; by apply zoom_state]. Qed.

Definition asm_load_program (parse : list Z -> Z -> Error + ProgramMetadata) (program : list Z)
  (args_len : Z) (args : list arg) : ST AbstractAsmMachine Z :=
  zoom am_machine (fun m _ => {| am_machine := m |}) (load_program parse program args_len args).
Definition asm_load_program_with_metadata (program : list Z) (metadata : ProgramMetadata)
  (args_len : Z) (args : list arg) : ST AbstractAsmMachine Z :=
  zoom am_machine (fun m _ => {| am_machine := m |}) (load_program_with_metadata program metadata args_len args).
Definition asm_set_max_cycles (cycles : Z) : ST AbstractAsmMachine unit :=
  modify (fun s => {| am_machine :=
    dm_set_inner (with_cycles (dc_cycles (dm_inner (am_machine s))) cycles (dm_inner (am_machine s))) (am_machine s) |}).
End asm.

(** * Loading, against the interface *)

Section loading.
Context {R : Register} {M Sy De Decoder Self : Type} {HM : Memory R M}.
Context {HSy : Syscalls (DefaultCoreMachine R M) Sy} {HDe : Debugger (DefaultCoreMachine R M) De}.
Context {HR : DefaultMachineRunner R M Sy De Decoder Self} {HL : RunnerLaws HR}.

(** Loading a program through any runner loads it into the machine inside. *)
Lemma runner_load_new parse program n args (m : DefaultMachine R M Sy De) :
  let r := runner_load_program (HR := HR) parse program n args (runner_new m) in
  r.1 = (load_program parse program n args m).1 /\ machine r.2 = (load_program parse program n args m).2.
Proof. unfold runner_load_program. cbv zeta. by rewrite machine_mut_result, machine_mut_state, machine_new. Qed.
End loading.

(** * The library's entry point, through the runner of the trace machine *)

Section entry.
Context {R : Register} {M : Type} {HM : Memory R M}.
Local Abbreviation WM := (WXorXMemory M).
#[local] Existing Instance no_syscalls.
#[local] Existing Instance no_debugger.

Lemma lib_run_runner fuel interrupts parse program args memory_size :
  lib_run_with_memory (M := M) fuel interrupts parse program args memory_size =
  match dc_new_with_memory (M := WM) (Z.lor (Z.lor ISA_IMC ISA_B) ISA_MOP) VERSION2 U64_MAX memory_size with
  | Ok core =>
      match runner_load_program (HR := trace_machine_runner) parse program (Z.of_nat (length args)) (map inr args)
              (runner_new (build (Sy := Empty_set) (De := Empty_set) (builder_new core))) with
      | (Ok _, runner) => fst <$> runner_run (HR := trace_machine_runner) fuel interrupts runner
      | (Err e, _) => Some (Err e)
      | (Panic, _) => Some Panic
      end
  | Err e => Some (Err e)
  | Panic => Some Panic
  end.
Proof.
  unfold lib_run_with_memory. destruct (dc_new_with_memory _ _ _ _) as [core|e|]; [|done..].
  unfold runner_load_program. cbn [machine_mut trace_machine_runner]. unfold zoom. cbn [runner_new trace_machine_runner tm_machine].
  destruct (load_program _ _ _ _ _) as [[b|e|] m]; [|done..].
  unfold trace_run, runner_run, runner_run_with_decoder. cbn [trace_machine_runner machine tm_machine].
  unfold TraceMachine_new, tm_state. cbn [fst snd tm_machine tm_factory tm_traces].
  change (inst_new R) with (decoder_new R).
  by destruct (trace_run_with_decoder _ _ _) as [[o s]|].
Qed.
End entry.
