(* ===== verification/Demo.v ===== *)
(** A concrete machine: 64-bit, on a flat memory, without syscall modules or debugger.
    Its program is [addi a0, x0, 5; addi a7, x0, 93; ecall], which exits with code 5. *)
From S2P Require Import Prelude Outcome Register Insts Memory MemoryFacts Machine Core Run.
From stdpp Require Import base list numbers.
Open Scope Z_scope.

#[export] Instance none_syscalls {Inner} : Syscalls Inner Empty_set := {
  syscall_initialize := fun '(s, _) => match s with end;
  syscall_ecall := fun '(s, _) => match s with end }.
#[export] Instance none_debugger {Inner} : Debugger Inner Empty_set := {
  debugger_initialize := fun '(s, _) => match s with end;
  debugger_ebreak := fun '(s, _) => match s with end }.

Definition program : list Z :=
  [0x13; 0x05; 0x50; 0x00;  0x93; 0x08; 0xd0; 0x05;  0x73; 0x00; 0x00; 0x00].

Definition memory0 : FlatMemory u64_register :=
  flat_set_data (program ++ replicate 4084 0) (flat_of 4096).

Definition core0 : DefaultCoreMachine u64_register (FlatMemory u64_register) :=
  {| dc_registers := replicate 32 (0 : reg u64_register); dc_pc := (0 : reg u64_register);
     dc_next_pc := (0 : reg u64_register); dc_reset_signal := false;
     dc_memory := memory0; dc_cycles := 0; dc_max_cycles := 1000; dc_running := false;
     dc_isa := ISA_IMC; dc_version := VERSION2 |}.

Definition machine0 : DefaultMachine u64_register (FlatMemory u64_register) Empty_set Empty_set :=
  build (builder_instruction_cycle_func estimate_cycles (builder_new core0)).

Example demo_run :
  match run 10 (fun _ => false) machine0 with
  | Some (o, s) => o = Ok 5 /\ dc_cycles (dm_inner s.2) = 502
  | None => False
  end.
Proof. vm_compute. done. Qed.
