(* ===== verification/AsmFacts.v ===== *)
(** The memory of the assembly machine is the W^X flat memory of the interpreter: the
    frames that have not been touched read as zeros. *)
From S2P Require Import Prelude Outcome Bits Register RegisterFacts Insts Memory MemoryFacts.
From S2P Require Import MemoryOk WXorXFacts Machine Core Asm.
From stdpp Require Import base list numbers.
Open Scope Z_scope.

Local Abbreviation AM := AsmMemory.
Local Abbreviation FM := (FlatMemory u64_register).

(** * The view of an assembly memory as a flat memory *)

Definition FRAME : Z := 262144.

Definition frame_inited (frames : list Z) (frame : Z) : bool :=
  match frames !! Z.to_nat frame with Some f => negb (f =? 0) | None => false end.

Definition view_data (frames memory : list Z) : list Z :=
  imap (fun i b => if frame_inited frames (Z.of_nat i / FRAME) then b else 0) memory.

Definition asm_view (m : AM) : FM :=
  {| flat_data := view_data (asm_frames m) (asm_memory m); flat_flags := asm_flags m;
     flat_memory_size := asm_memory_size m; flat_riscv_pages := asm_memory_size m / 4096;
     flat_load_reservation_address := asm_load_reservation_address m : reg u64_register |}.

(** A well-formed memory, not in chaos mode. *)
Record asm_ok (m : AM) : Prop := {
  ao_size : in_u 64 (asm_memory_size m);
  ao_frames : asm_memory_size m = Z.of_nat (length (asm_frames m)) * FRAME;
  ao_flags : asm_memory_size m = Z.of_nat (length (asm_flags m)) * 4096;
  ao_memory : asm_memory_size m = Z.of_nat (length (asm_memory m));
  ao_bytes : Forall is_byte (asm_memory m);
  ao_flag_bytes : Forall is_byte (asm_flags m);
  ao_lr : in_u 64 (asm_load_reservation_address m);
  ao_flags_size : asm_flags_size m = Z.of_nat (length (asm_flags m));
  ao_frames_size : asm_frames_size m = Z.of_nat (length (asm_frames m));
  ao_chaos : asm_chaos_mode m = 0;
}.

Definition asm_pages (m : AM) : Z := asm_memory_size m / 4096.

(** The frame of page [q] has been filled. *)
Definition touched (m : AM) (q : Z) : Prop := frame_inited (asm_frames m) (q / 64) = true.

(** What every operation keeps. *)
Definition evolves (m m' : AM) : Prop :=
  asm_memory_size m' = asm_memory_size m /\ forall q, touched m q -> touched m' q.

#[export] Instance evolves_preorder : PreOrder evolves.
Proof. split; unfold evolves; [done|]. intros ??? [] []. split; [congruence|auto]. Qed.

Implicit Types m : AM.

Lemma view_length frames memory : length (view_data frames memory) = length memory.
Proof. apply length_imap. Qed.

Lemma view_lookup frames memory (i : nat) : view_data frames memory !! i =
  (fun b => if frame_inited frames (Z.of_nat i / FRAME) then b else 0) <$> memory !! i.
Proof. apply list_lookup_imap. Qed.

Lemma asm_view_ok m : asm_ok m -> flat_ok (asm_view m).
Proof.
  intros [? ? ? ? Hb ? ? ? ? ?]. constructor; cbn [asm_view flat_data flat_flags flat_memory_size
    flat_riscv_pages flat_load_reservation_address]; try done.
  - dlia.
  - by rewrite view_length.
  - dlia.
  - apply Forall_lookup_2. intros i b. rewrite view_lookup.
    destruct (asm_memory m !! i) as [b'|] eqn:E; [|done]. cbn. intros [= <-].
    destruct (frame_inited _ _); [exact (Forall_lookup_1 _ _ _ _ Hb E)|split; lia].
Qed.

Lemma asm_pages_eq m : asm_ok m -> asm_memory_pages m = asm_pages m /\ asm_memory_size m = asm_pages m * 4096.
Proof.
  intros []. unfold asm_memory_pages, asm_pages, wshr. change (RISCV_PAGE_SHIFTS mod 64) with 12.
  rewrite Z.shiftr_div_pow2 by lia. change (2 ^ 12) with 4096. split; [done|dlia].
Qed.

Lemma page_frame page : wshr 64 page MEMORY_FRAME_PAGE_SHIFTS = page / 64.
Proof.
  unfold wshr. change (MEMORY_FRAME_PAGE_SHIFTS mod 64) with 6. by rewrite Z.shiftr_div_pow2.
Qed.

Lemma frame_address m frame : asm_ok m -> 0 <= frame < Z.of_nat (length (asm_frames m)) ->
  wshl 64 frame MEMORY_FRAME_SHIFTS = frame * FRAME.
Proof.
  intros [[? ?] ? ? ? ? ? ? ? ? ?] Hf. unfold wshl. change (MEMORY_FRAME_SHIFTS mod 64) with 18.
  rewrite Z.shiftl_mul_pow2 by lia. change (2 ^ 18) with FRAME. apply wrap_small. unfold FRAME in *.
  split; lia.
Qed.

(** Filling a frame is invisible. *)
Lemma fill_frame_view m frame : asm_ok m -> 0 <= frame < Z.of_nat (length (asm_frames m)) ->
  frame_inited (asm_frames m) frame = false ->
  view_data (<[Z.to_nat frame := 1]> (asm_frames m))
    (take (Z.to_nat (frame * FRAME)) (asm_memory m) ++ replicate (Z.to_nat FRAME) 0 ++
     drop (Z.to_nat (frame * FRAME) + Z.to_nat FRAME) (asm_memory m)) =
  view_data (asm_frames m) (asm_memory m).
Proof.
  intros [] Hf Hi. apply list_eq. intros i. rewrite !view_lookup. unfold FRAME in *.
  destruct (decide (frame * 262144 <= Z.of_nat i < frame * 262144 + 262144)) as [Hin|Hout].
  - assert (Z.of_nat i / 262144 = frame) as -> by dlia. rewrite Hi.
    rewrite lookup_app_r by (rewrite length_take; lia). rewrite length_take, Nat.min_l by lia.
    rewrite lookup_app_l by (rewrite length_replicate; lia).
    rewrite lookup_replicate_2 by lia.
    destruct (lookup_lt_is_Some_2 (asm_memory m) i) as [b ->]; [lia|].
    cbn [fmap option_fmap option_map]. f_equal. by case_match.
  - assert (Hne : Z.of_nat i / 262144 <> frame) by dlia.
    assert (Hfr : frame_inited (<[Z.to_nat frame := 1]> (asm_frames m)) (Z.of_nat i / 262144) =
                  frame_inited (asm_frames m) (Z.of_nat i / 262144)).
    { unfold frame_inited. rewrite list_lookup_insert_ne; [done|]. intros E. apply Hne.
      apply Z2Nat.inj in E; [done|lia|apply Z.div_pos; lia]. }
    rewrite Hfr. f_equal. destruct (decide (Z.of_nat i < frame * 262144)).
    + rewrite lookup_app_l by (rewrite length_take; lia). by rewrite lookup_take_lt by lia.
    + rewrite lookup_app_r by (rewrite length_take; lia). rewrite length_take, Nat.min_l by lia.
      rewrite lookup_app_r, length_replicate, lookup_drop by (rewrite length_replicate; lia). f_equal. lia.
Qed.

Lemma touch_frame frames frame q : (Z.to_nat frame < length frames)%nat ->
  frame_inited frames q = true -> frame_inited (<[Z.to_nat frame := 1]> frames) q = true.
Proof.
  intros Hl. unfold frame_inited. destruct (decide (Z.to_nat q = Z.to_nat frame)) as [->|Hne].
  - by rewrite list_lookup_insert_eq.
  - by rewrite list_lookup_insert_ne by done.
Qed.

Lemma page_in_frame m page : asm_ok m -> 0 <= page < asm_pages m ->
  0 <= page / 64 < Z.of_nat (length (asm_frames m)).
Proof. intros [] Hp. unfold asm_pages, FRAME in *. dlia. Qed.

(** [check_memory]: the view does not change, and the page is touched. *)
Lemma check_memory_spec m page : asm_ok m -> 0 <= page < asm_pages m ->
  exists m', check_memory page m = (Ok tt, m') /\ asm_ok m' /\ asm_view m' = asm_view m /\
    evolves m m' /\ touched m' page.
Proof.
  intros Hm Hp. pose proof (page_in_frame m page Hm Hp) as Hf.
  unfold check_memory. cbv zeta. rewrite page_frame. set (frame := page / 64) in *.
  destruct (lookup_lt_is_Some_2 (asm_frames m) (Z.to_nat frame)) as [v Hv]; [lia|]. rewrite Hv.
  destruct (Z.eqb_spec v 0) as [->|Hne].
  2:{ exists m. split_and!; try done. unfold touched, frame_inited. fold frame. rewrite Hv.
      by apply negb_true_iff, Z.eqb_neq. }
  assert (Hin : frame_inited (asm_frames m) frame = false) by (unfold frame_inited; by rewrite Hv).
  pose proof (fill_frame_view m frame Hm Hf Hin) as Hview. pose proof Hm as [].
  assert (Hend : frame * FRAME + FRAME <= Z.of_nat (length (asm_memory m))) by (unfold FRAME in *; lia).
  unfold mbind at 1, ST_bind at 1, inited_memory. cbv zeta. rewrite (frame_address m) by done.
  change (Z.shiftl 1 MEMORY_FRAME_SHIFTS) with FRAME.
  rewrite slice_get_Some by (unfold FRAME in *; lia). rewrite ao_chaos0. cbn [Z.eqb negb].
  rewrite length_take, length_drop. rewrite Nat.min_l by (unfold FRAME in *; lia).
  unfold asm_write. rewrite slice_set_Some by (rewrite ?length_replicate; unfold FRAME in *; lia).
  rewrite length_replicate. unfold unwrap, mret, ST_ret, mbind, ST_bind, modify.
  set (mem := take _ _ ++ _ ++ _) in *.
  unfold asm_set_frame. unfold mbind, ST_bind. cbn [asm_frames asm_set_memory asm_set_blocks]. rewrite Hv.
  cbn [unwrap mret ST_ret]. eexists. split; [reflexivity|]. unfold modify, asm_set_frames, asm_set_blocks.
  cbn [asm_frames asm_memory asm_flags asm_memory_size asm_chaos_seed snd fst].
  assert (Hlen : length mem = length (asm_memory m)).
  { unfold mem. rewrite !length_app, length_replicate, length_take, length_drop. unfold FRAME in *. lia. }
  split_and!.
  - constructor; cbn; try done; rewrite ?length_insert, ?Hlen; try done.
    unfold mem. repeat (apply Forall_app; split); [by apply Forall_take|apply Forall_replicate; split; lia|by apply Forall_drop].
  - unfold asm_view. cbn. f_equal. exact Hview.
  - split; [done|]. intros q. unfold touched. cbn. apply touch_frame. lia.
  - unfold touched, frame_inited. cbn. fold frame. by rewrite list_lookup_insert_eq by lia.
Qed.

(** * Checks of pages *)

(** [check] lets the pages through whose flags are [allowed], touches them and changes
    their flags by [f]. *)
Definition page_check (check : Z -> ST AM unit) (allowed : Z -> bool) (f : Z -> Z) : Prop :=
  forall m page v, asm_ok m -> 0 <= page < asm_pages m -> asm_flags m !! Z.to_nat page = Some v ->
  if allowed v then
    exists m', check page m = (Ok tt, m') /\ asm_ok m' /\ evolves m m' /\ touched m' page /\
      asm_view m' = flat_set_flags (<[Z.to_nat page := f v]> (asm_flags m)) (asm_view m)
  else exists e, check page m = (Err e, m).

Lemma flags_id m page v : asm_flags m !! Z.to_nat page = Some v ->
  flat_set_flags (<[Z.to_nat page := v]> (asm_flags m)) (asm_view m) = asm_view m.
Proof. intros Hv. unfold flat_set_flags, asm_view. cbn. by rewrite list_insert_id. Qed.

Lemma inited_check : page_check check_memory (fun _ => true) (fun v => v).
Proof.
  intros m page v Hm Hp Hv. destruct (check_memory_spec m page Hm Hp) as (m' & ? & ? & Ev & ? & ?).
  exists m'. rewrite flags_id by done. done.
Qed.

Definition carries (flag v : Z) : bool := Z.land v FLAG_WXORX_BIT =? Z.land flag FLAG_WXORX_BIT.

Lemma fetch_in m page v : asm_ok m -> 0 <= page < asm_pages m ->
  asm_flags m !! Z.to_nat page = Some v -> asm_fetch_flag page m = (Ok v, m).
Proof.
  intros Hm Hp Hv. unfold asm_fetch_flag. rewrite (proj1 (asm_pages_eq m Hm)), (proj2 (Z.ltb_lt _ _)) by lia.
  by rewrite Hv.
Qed.

Lemma permission_in m page v flag : asm_ok m -> 0 <= page < asm_pages m ->
  asm_flags m !! Z.to_nat page = Some v ->
  asm_check_permission page flag m =
  (if carries flag v then Ok tt else Err (MemWriteOnExecutablePage page), m).
Proof.
  intros Hm Hp Hv. unfold asm_check_permission, mbind, ST_bind. rewrite (fetch_in m page v Hm Hp Hv).
  unfold carries. by destruct (_ =? _).
Qed.

Lemma executable_check : page_check executable_page (carries FLAG_EXECUTABLE) (fun v => v).
Proof.
  intros m page v Hm Hp Hv. unfold executable_page, mbind, ST_bind.
  rewrite (permission_in m page v) by done. destruct (carries _ v); [|by eexists].
  destruct (check_memory_spec m page Hm Hp) as (m' & E & ? & Ev & ? & ?).
  exists m'. rewrite E, flags_id by done. done.
Qed.

(** Changing the flags of a page. *)
Lemma update_flag_spec f m page v : asm_ok m -> 0 <= page < asm_pages m ->
  (is_byte v -> is_byte (f v)) ->
  asm_flags m !! Z.to_nat page = Some v ->
  exists m', asm_update_flag f page m = (Ok tt, m') /\ asm_ok m' /\ evolves m m' /\
    asm_frames m' = asm_frames m /\ asm_memory m' = asm_memory m /\
    asm_view m' = flat_set_flags (<[Z.to_nat page := f v]> (asm_flags m)) (asm_view m).
Proof.
  intros Hm Hp Hf Hv. unfold asm_update_flag. rewrite (proj1 (asm_pages_eq m Hm)), (proj2 (Z.ltb_lt _ _)) by lia.
  rewrite Hv. eexists. split; [reflexivity|]. pose proof Hm as [].
  split_and!; try done. constructor; cbn; rewrite ?length_insert; try done.
  apply Forall_insert; [done|]. apply Hf. exact (Forall_lookup_1 _ _ _ _ ao_flag_bytes0 Hv).
Qed.

Lemma writable_check : page_check writable_page (carries FLAG_WRITABLE) (fun v => Z.lor v FLAG_DIRTY).
Proof.
  intros m page v Hm Hp Hv. unfold writable_page, mbind, ST_bind.
  rewrite (permission_in m page v) by done. destruct (carries _ v); [|by eexists].
  destruct (check_memory_spec m page Hm Hp) as (m1 & E & Hm1 & Ev & [Hs Hev] & Ht). rewrite E.
  assert (Efl : asm_flags m1 = asm_flags m) by exact (f_equal flat_flags Ev).
  destruct (update_flag_spec (fun v => Z.lor v FLAG_DIRTY) m1 page v Hm1) as (m2 & E2 & Hm2 & Hev2 & Ef & _ & Ev2);
    [unfold asm_pages in *; by rewrite Hs|intros; by apply lor_byte|by rewrite Efl|].
  exists m2. refine (conj E2 (conj Hm2 (conj _ (conj _ _)))).
  - etrans; [|exact Hev2]. done.
  - unfold touched in *. by rewrite Ef.
  - by rewrite Ev2, Efl, Ev.
Qed.

(** A check over consecutive pages. *)
Fixpoint all_allowed (allowed : Z -> bool) (flags : list Z) (p : Z) (n : nat) : bool :=
  match n with
  | O => true
  | S n' => match flags !! Z.to_nat p with
            | Some v => allowed v && all_allowed allowed flags (p + 1) n'
            | None => true
            end
  end.

Lemma all_allowed_insert allowed flags p n q v : 0 <= q < p ->
  all_allowed allowed (<[Z.to_nat q := v]> flags) p n = all_allowed allowed flags p n.
Proof.
  revert p. induction n as [|n IH]; intros p Hq; [done|]. cbn [all_allowed].
  rewrite list_lookup_insert_ne by lia. rewrite IH by lia. done.
Qed.

Lemma all_allowed_mismatch flag flags p n :
  all_allowed (carries flag) flags p n = true <-> first_mismatch flags flag p n = None.
Proof.
  revert p. induction n as [|n IH]; intros p; [done|]. cbn [all_allowed first_mismatch].
  destruct (flags !! Z.to_nat p) as [v|]; [|done]. unfold carries at 1.
  destruct (_ =? _); [apply IH|done].
Qed.

(** The bytes are as before: what a failed operation guarantees. *)
Definition same_bytes (m m' : AM) : Prop :=
  flat_data (asm_view m') = flat_data (asm_view m) /\ evolves m m'.

#[export] Instance same_bytes_preorder : PreOrder same_bytes.
Proof. split; unfold same_bytes; [done|]. intros ??? [] []. split; [congruence|by etrans]. Qed.

Lemma check_range check allowed f n p m : page_check check allowed f ->
  asm_ok m -> 0 <= p -> p + Z.of_nat n <= asm_pages m ->
  if all_allowed allowed (asm_flags m) p n then
    exists m', for_range n p check m = (Ok tt, m') /\ asm_ok m' /\ evolves m m' /\
      (forall q, p <= q < p + Z.of_nat n -> touched m' q) /\
      asm_view m' = flat_set_flags (mark_flags f p (p + Z.of_nat n - 1) (asm_flags m)) (asm_view m)
  else exists e m', for_range n p check m = (Err e, m') /\ asm_ok m' /\ same_bytes m m'.
Proof.
  intros Hc. revert p m. induction n as [|n IH]; intros p m Hm Hp Hn; cbn [all_allowed for_range].
  { exists m. split_and!; [done..|intros; lia|]. rewrite mark_flags_empty by lia. done. }
  pose proof Hm as []. unfold asm_pages in Hn.
  destruct (lookup_lt_is_Some_2 (asm_flags m) (Z.to_nat p)) as [v Hv]; [dlia|]. rewrite Hv.
  specialize (Hc m p v Hm ltac:(unfold asm_pages; lia) Hv) as Hpc. unfold mbind, ST_bind.
  destruct (allowed v); cbn [andb].
  2:{ destruct Hpc as [e E]. exists e, m. rewrite E. done. }
  destruct Hpc as (m1 & E & Hm1 & Hev1 & Ht1 & Ev1). rewrite E.
  assert (Efl : asm_flags m1 = <[Z.to_nat p := f v]> (asm_flags m)) by exact (f_equal flat_flags Ev1).
  specialize (IH (p + 1) m1 Hm1 ltac:(lia) ltac:(unfold asm_pages; destruct Hev1 as [-> _]; lia)).
  rewrite Efl, all_allowed_insert in IH by lia. destruct (all_allowed _ _ _ _).
  - destruct IH as (m2 & E2 & Hm2 & Hev2 & Ht2 & Ev2). exists m2. refine (conj E2 (conj Hm2 (conj _ (conj _ _)))); [by etrans| |].
    + intros q Hq. destruct (decide (q = p)) as [->|]; [by apply Hev2|apply Ht2; lia].
    + rewrite Ev2, Ev1. unfold flat_set_flags. cbn. f_equal.
      rewrite <- (mark_flags_step f p _ _ v) by (done || lia). f_equal. lia.
  - destruct IH as (e & m2 & E2 & Hm2 & Hsb). exists e, m2. refine (conj E2 (conj Hm2 _)).
    etrans; [|exact Hsb]. split; [by rewrite Ev1|done].
Qed.
