(* ===== verification/AsmRefine.v ===== *)
(** The accesses of the assembly machine refine those of the W^X flat memory. *)
From S2P Require Import Prelude Outcome Bits Register RegisterFacts Insts Memory MemoryFacts.
From S2P Require Import MemoryOk WXorXFacts Machine Core Asm AsmFacts.
From stdpp Require Import base list numbers.
Open Scope Z_scope.

Local Abbreviation AM := AsmMemory.
Local Abbreviation FM := (FlatMemory u64_register).

Implicit Types m : AM.

(** * Checking the pages of an access *)

(** [c] checks an access of [n] bytes at [a]: in bounds and with all pages [allowed] it
    touches them and changes their flags by [f]; otherwise it fails. *)
Definition access_check (c : ST AM unit) (allowed : Z -> bool) (f : Z -> Z) (a n : Z) m : Prop :=
  if decide (in_bounds a n (asm_memory_size m) /\
             all_allowed allowed (asm_flags m) (a / 4096) (pages_touched a n) = true) then
    exists m', c m = (Ok tt, m') /\ asm_ok m' /\ evolves m m' /\
      (forall q, a / 4096 <= q <= (a + n - 1) / 4096 -> touched m' q) /\
      asm_view m' = flat_set_flags
        (mark_flags f (a / 4096) ((a + n - 1) / 4096) (asm_flags m)) (asm_view m)
  else exists e m', c m = (Err e, m') /\ asm_ok m' /\ same_bytes m m'.

Lemma pages_touched_eq a n : 0 <= a -> 0 < n ->
  Z.of_nat (pages_touched a n) = (a + n - 1) / 4096 - a / 4096 + 1.
Proof.
  intros. unfold pages_touched. rewrite Z2Nat.id; [done|].
  assert (a / 4096 <= (a + n - 1) / 4096) by (apply Z.div_le_mono; lia). lia.
Qed.

Lemma last_page m a n : asm_ok m -> 0 <= a -> 0 < n -> in_bounds a n (asm_memory_size m) ->
  0 <= a / 4096 /\ (a + n - 1) / 4096 < asm_pages m.
Proof.
  intros Hm ? ? [? ?]. destruct (asm_pages_eq m Hm) as [_ ?].
  split; [apply Z.div_pos; lia|apply Z.div_lt_upper_bound; lia].
Qed.

Lemma access_range check allowed f a n m (c : ST AM unit) :
  page_check check allowed f -> asm_ok m -> 0 <= a -> 0 < n ->
  (in_bounds a n (asm_memory_size m) -> c m = for_range (pages_touched a n) (a / 4096) check m) ->
  (~ in_bounds a n (asm_memory_size m) ->
   exists e m', c m = (Err e, m') /\ asm_ok m' /\ same_bytes m m') ->
  access_check c allowed f a n m.
Proof.
  intros Hc Hm Ha Hn Hin Hout. unfold access_check.
  destruct (decide (in_bounds a n (asm_memory_size m))) as [Hb|Hb].
  2:{ case_decide as Hd; [by destruct Hd|]. by apply Hout. }
  destruct (last_page m a n Hm Ha Hn Hb) as [Hp Hq]. rewrite (Hin Hb).
  pose proof (pages_touched_eq a n Ha Hn) as Hpt.
  pose proof (check_range check allowed f (pages_touched a n) (a / 4096) m Hc Hm Hp) as Hr.
  rewrite Hpt in Hr. specialize (Hr ltac:(lia)).
  destruct (all_allowed _ _ _ _); [|by case_decide as Hd; [destruct Hd|]].
  case_decide as Hd; [|by destruct Hd].
  destruct Hr as (m' & E & ? & ? & Ht & Ev). exists m'. split_and!; try done.
  - intros q Hq'. apply Ht. lia.
  - rewrite Ev. do 2 f_equal. lia.
Qed.

Lemma check_pages_access check allowed f a n m : page_check check allowed f -> asm_ok m ->
  in_u 64 a -> 0 < n <= 8 -> access_check (check_pages check a n) allowed f a n m.
Proof.
  intros Hc Hm Ha Hn. pose proof Ha as [Ha1 Ha2]. destruct (asm_pages_eq m Hm) as [Ep Es].
  pose proof (ao_size m Hm) as [_ Hmax].
  assert (Hshr : wshr 64 a RISCV_PAGE_SHIFTS = a / 4096).
  { unfold wshr. change (RISCV_PAGE_SHIFTS mod 64) with 12. by rewrite Z.shiftr_div_pow2. }
  apply (access_range check); [done..|lia| |].
  - intros [Hb1 Hb2]. unfold check_pages. cbv zeta. rewrite Hshr. unfold mbind, ST_bind, gets. rewrite Ep.
    rewrite (proj2 (Z.leb_gt _ _)) by dlia. change RISCV_PAGESIZE with 4096.
    destruct (Z.ltb_spec 4096 (a mod 4096 + n)).
    + replace (pages_touched a n) with 2%nat by (unfold pages_touched; dlia).
      rewrite (proj2 (Z.leb_gt _ _)) by dlia. cbn [for_range]. unfold mbind, ST_bind.
      destruct (check (a / 4096) m) as [[[]|?|] m1]; [|done..].
      by destruct (check (a / 4096 + 1) m1) as [[[]|?|] m2].
    + replace (pages_touched a n) with 1%nat by (unfold pages_touched; dlia).
      cbn [for_range]. unfold mbind, ST_bind. by destruct (check (a / 4096) m) as [[[]|?|] m1].
  - intros Hb. unfold in_bounds in Hb. unfold check_pages. cbv zeta. rewrite Hshr.
    unfold mbind, ST_bind, gets. rewrite Ep.
    destruct (Z.leb_spec (asm_pages m) (a / 4096)); [by eexists _, m|].
    assert (0 <= a / 4096) by (apply Z.div_pos; lia).
    destruct (lookup_lt_is_Some_2 (asm_flags m) (Z.to_nat (a / 4096))) as [v Hv].
    { pose proof (ao_flags m Hm). unfold asm_pages in *. dlia. }
    pose proof (Hc m (a / 4096) v Hm ltac:(lia) Hv) as Hp.
    destruct (allowed v); [|destruct Hp as [e E]; exists e, m; by rewrite E].
    destruct Hp as (m1 & E & Hm1 & Hev & _ & Ev). rewrite E. change RISCV_PAGESIZE with 4096.
    rewrite (proj2 (Z.ltb_lt _ _)) by dlia. rewrite (proj2 (Z.leb_le _ _)) by dlia.
    eexists _, m1. split; [reflexivity|]. split; [done|]. split; [by rewrite Ev|done].
Qed.

(** The check of a range of any length. *)
Lemma range_access check allowed f a n m : page_check check allowed f -> asm_ok m ->
  in_u 64 a -> in_u 64 n -> 0 < n ->
  access_check (asm_check_no_overflow a n;; for_pages (get_page_indices a n) check)
    allowed f a n m.
Proof.
  intros Hc Hm Ha Hn Hpos. pose proof (ao_size m Hm) as Hs. pose proof Ha as [? _].
  apply (access_range check); [done..| |].
  - intros Hb. unfold asm_check_no_overflow. erewrite bind_Ok by (by apply check_no_overflow_ok).
    rewrite (page_indices_eq _ _ (asm_memory_size m)) by done. done.
  - intros Hb. destruct (check_no_overflow_err a n (asm_memory_size m) m) as [b E]; [done..|].
    eexists _, m. split; [by erewrite bind_Err by exact E|done].
Qed.

(** * Bytes of touched pages *)

Lemma touched_inited m (i : nat) : touched m (Z.of_nat i / 4096) ->
  frame_inited (asm_frames m) (Z.of_nat i / FRAME) = true.
Proof. unfold touched. rewrite Z.div_div by lia. done. Qed.

Lemma read_touched m a n : asm_ok m -> 0 <= a -> 0 < n -> a + n <= asm_memory_size m ->
  (forall q, a / 4096 <= q <= (a + n - 1) / 4096 -> touched m q) ->
  asm_read a n m = (Ok (flat_get a n (asm_view m)), m).
Proof.
  intros Hm Ha Hn Hb Ht. pose proof Hm as []. unfold asm_read. rewrite slice_get_Some by lia.
  unfold flat_get. cbn [asm_view flat_data unwrap]. unfold mret, ST_ret. do 2 f_equal. apply list_eq. intros i.
  destruct (decide (i < Z.to_nat n)%nat) as [Hi|Hi].
  2:{ by rewrite !lookup_take_ge by lia. }
  rewrite !lookup_take_lt, !lookup_drop, view_lookup by lia.
  rewrite touched_inited.
  2:{ apply Ht. rewrite Nat2Z.inj_add, Z2Nat.id by lia. split; apply Z.div_le_mono; lia. }
  by destruct (asm_memory m !! _).
Qed.

Lemma write_touched m a bs : asm_ok m -> 0 <= a -> bs <> [] -> Forall is_byte bs ->
  a + Z.of_nat (length bs) <= asm_memory_size m ->
  (forall q, a / 4096 <= q <= (a + Z.of_nat (length bs) - 1) / 4096 -> touched m q) ->
  exists m', asm_write a bs m = (Ok tt, m') /\ asm_ok m' /\ evolves m m' /\
    asm_view m' = flat_set_data (take (Z.to_nat a) (flat_data (asm_view m)) ++ bs ++
      drop (Z.to_nat a + length bs) (flat_data (asm_view m))) (asm_view m).
Proof.
  intros Hm Ha Hne Hbs Hb Ht. pose proof Hm as [].
  assert (Hn : (0 < length bs)%nat) by (destruct bs; [done|cbn; lia]).
  unfold asm_write. rewrite slice_set_Some by lia. eexists. split; [reflexivity|].
  set (mem := take _ _ ++ _). assert (Hlen : length mem = length (asm_memory m)).
  { unfold mem. rewrite !length_app, length_take, length_drop. lia. }
  split_and!.
  - constructor; cbn; rewrite ?Hlen; try done. unfold mem.
    repeat (apply Forall_app; split); [by apply Forall_take|done|by apply Forall_drop].
  - split; [done|auto].
  - change (flat_set_data (view_data (asm_frames m) mem) (asm_view m) = flat_set_data
      (take (Z.to_nat a) (view_data (asm_frames m) (asm_memory m)) ++ bs ++
       drop (Z.to_nat a + length bs) (view_data (asm_frames m) (asm_memory m))) (asm_view m)).
    f_equal. apply list_eq. intros i. rewrite view_lookup. unfold mem.
    destruct (decide (i < Z.to_nat a)%nat); [|destruct (decide (i < Z.to_nat a + length bs)%nat)].
    + rewrite !lookup_app_l by (rewrite length_take, ?view_length; lia).
      by rewrite !lookup_take_lt, view_lookup by lia.
    + rewrite !(lookup_app_r (take _ _)) by (rewrite length_take; lia).
      rewrite !lookup_app_l by (rewrite length_take, ?view_length; lia).
      rewrite !length_take, view_length. rewrite touched_inited.
      2:{ apply Ht. split; apply Z.div_le_mono; lia. }
      by destruct (bs !! _).
    + rewrite !(lookup_app_r (take _ _)) by (rewrite length_take; lia).
      rewrite !lookup_app_r by (rewrite length_take, ?view_length; lia).
      rewrite !length_take, view_length, !lookup_drop, view_lookup.
      by replace (Z.to_nat a + length bs + _)%nat with i by lia.
Qed.

(** * Agreement with the W^X flat memory *)

(** [c] on [m] and [w] on the view of [m]: the same result and the same view after it, or
    failures of both; a failure leaves all bytes. *)
Definition agrees {A} (c : ST AM A) (w : ST (WXorXMemory FM) A) m : Prop :=
  match c m, w (WXorX (asm_view m)) with
  | (Ok x, m'), (Ok y, v) => x = y /\ asm_ok m' /\ evolves m m' /\ v = WXorX (asm_view m')
  | (Err _, m'), (Err _, _) => asm_ok m' /\ same_bytes m m'
  | _, _ => False
  end.

(** What follows a successful check. *)
Definition completes {A} (k : ST AM A) (inner : ST FM A) f a n m : Prop := forall m',
  asm_ok m' -> asm_memory_size m' = asm_memory_size m ->
  (forall q, a / 4096 <= q <= (a + n - 1) / 4096 -> touched m' q) ->
  asm_view m' = flat_set_flags
    (mark_flags f (a / 4096) ((a + n - 1) / 4096) (asm_flags m)) (asm_view m) ->
  exists x m'', k m' = (Ok x, m'') /\ asm_ok m'' /\ evolves m' m'' /\
    inner (asm_view m) = (Ok x, asm_view m'').

Lemma agrees_plain {A} (c : ST AM unit) f a n (k : ST AM A) inner m :
  access_check c (fun _ => true) f a n m ->
  (in_bounds a n (asm_memory_size m) -> completes k inner f a n m) ->
  (~ in_bounds a n (asm_memory_size m) -> exists e v, inner (asm_view m) = (Err e, v)) ->
  agrees (c;; k) (wx_lift inner) m.
Proof.
  unfold access_check, agrees, wx_lift, zoom. cbn [wx_inner]. intros Hc Hk He.
  assert (Hall : forall p k, all_allowed (fun _ => true) (asm_flags m) p k = true).
  { intros p j. revert p. induction j as [|j IH]; intros p; [done|]. cbn [all_allowed].
    destruct (_ !! _); [apply IH|done]. }
  case_decide as Hd.
  - destruct Hc as (m' & E & Hm' & Hev & Ht & Ev). erewrite bind_Ok by exact E.
    destruct (Hk (proj1 Hd) m' Hm' (proj1 Hev) Ht Ev) as (x & m'' & -> & ? & ? & ->).
    split_and!; try done. by etrans.
  - destruct Hc as (e & m' & E & ? & ?). erewrite bind_Err by exact E.
    destruct He as (e' & v & ->); [|done]. intros Hb. by apply Hd.
Qed.

Lemma agrees_guarded {A} flag (c : ST AM unit) f a n (k : ST AM A) w inner m :
  access_check c (carries flag) f a n m ->
  guarded flag a n w inner (WXorX (asm_view m)) ->
  (in_bounds a n (asm_memory_size m) -> completes k inner f a n m) ->
  agrees (c;; k) w m.
Proof.
  unfold access_check, guarded, agrees. intros Hc Hg Hk.
  change (wx_memory_size (WXorX (asm_view m))) with (asm_memory_size m) in Hg.
  change (refused_page (WXorX (asm_view m)) flag a n)
    with (first_mismatch (asm_flags m) flag (a / 4096) (pages_touched a n)) in Hg.
  pose proof (all_allowed_mismatch flag (asm_flags m) (a / 4096) (pages_touched a n)) as Hmm.
  destruct (decide (_ /\ _)) as [Hd|Hd].
  - destruct Hd as [Hb Ha]. apply Hmm in Ha. rewrite Ha in Hg. rewrite decide_True in Hg by done.
    destruct Hc as (m' & E & Hm' & Hev & Ht & Ev). erewrite bind_Ok by exact E. rewrite Hg.
    destruct (Hk Hb m' Hm' (proj1 Hev) Ht Ev) as (x & m'' & -> & ? & ? & E'). cbn [wx_inner]. rewrite E'.
    split_and!; try done. by etrans.
  - destruct Hc as (e & m' & E & ? & ?). erewrite bind_Err by exact E.
    case_decide as Hb; [|by destruct Hg as [b ->]].
    destruct (first_mismatch _ _ _ _); [by rewrite Hg|]. destruct Hd. split; [done|by apply Hmm].
Qed.

Lemma mark_flags_id p q flags : mark_flags (fun v => v) p q flags = flags.
Proof. apply list_eq. intros i. rewrite mark_flags_lookup. destruct (flags !! i); [|done]. cbn. by case_match. Qed.

(** Reading after a check that changes no flags. *)
Lemma read_completes {A} (g : list Z -> A) inner a n m : in_u 64 a -> 0 < n ->
  in_bounds a n (asm_memory_size m) ->
  inner (asm_view m) = (Ok (g (flat_get a n (asm_view m))), asm_view m) ->
  completes (bytes ← asm_read a n; mret (g bytes)) inner (fun v => v) a n m.
Proof.
  intros [Ha _] Hn [_ Hb] Hi m' Hm' Hs Ht Ev. rewrite mark_flags_id in Ev.
  assert (Ev' : asm_view m' = asm_view m) by (rewrite Ev; by destruct m).
  eexists _, m'. erewrite bind_Ok by (apply read_touched; [done|done|done|by rewrite Hs|done]).
  rewrite Ev'. split_and!; try done.
Qed.

(** Writing after a check that marks the pages dirty. *)
Lemma write_completes inner a bs m : in_u 64 a -> bs <> [] -> Forall is_byte bs ->
  in_bounds a (Z.of_nat (length bs)) (asm_memory_size m) ->
  inner (asm_view m) = (Ok tt, flat_put a bs (asm_view m)) ->
  completes (asm_write a bs) inner (fun v => Z.lor v FLAG_DIRTY) a (Z.of_nat (length bs)) m.
Proof.
  intros [Ha _] Hne Hbs [_ Hb] Hi m' Hm' Hs Ht Ev.
  destruct (write_touched m' a bs) as (m'' & E & ? & ? & Ev2); [done..|by rewrite Hs|done|].
  exists tt, m''. split_and!; try done. rewrite Hi, Ev2, Ev. done.
Qed.

(** * The operations *)

Local Abbreviation is_load := (is_flat_load (R := u64_register)).
Local Abbreviation is_store := (is_flat_store (R := u64_register)).

Lemma load_agrees (n : nat) from (op : Z -> ST FM Z) a m : asm_ok m -> in_u 64 a -> (0 < n <= 8)%nat ->
  (forall v, in_u (8 * Z.of_nat n) v -> from v = v) -> is_load n from op (asm_view m) a ->
  agrees (check_memory_inited a (Z.of_nat n);; bytes ← asm_read a (Z.of_nat n); mret (le_to_Z bytes))
    (wx_lift (op a)) m.
Proof.
  intros Hm Ha Hn Hf Hl. unfold is_flat_load in Hl. cbv zeta in Hl. change (@to_u64 u64_register a) with a in Hl.
  change (flat_memory_size (asm_view m)) with (asm_memory_size m) in Hl.
  apply (agrees_plain _ (fun v => v) a (Z.of_nat n)).
  - apply (check_pages_access check_memory); [apply inited_check|done|done|lia].
  - intros Hb. apply read_completes; [done|lia|done|]. rewrite decide_True in Hl by done. rewrite Hl.
    rewrite Hf; [done|]. apply flat_get_range; [by apply asm_view_ok|by destruct Ha|by destruct Hb].
  - intros Hb. rewrite decide_False in Hl by done. destruct Hl as [b E]. by eexists _, _.
Qed.

Lemma execute_agrees (n : nat) from to (op : Z -> ST FM Z) a m : asm_ok m -> in_u 64 a -> (0 < n <= 8)%nat ->
  (forall v, in_u (8 * Z.of_nat n) v -> to (from v) = v) -> is_load n from op (asm_view m) a ->
  agrees (check_memory_executable a (Z.of_nat n);; bytes ← asm_read a (Z.of_nat n); mret (le_to_Z bytes))
    (wx_check (R := u64_register) a (Z.of_nat n) FLAG_EXECUTABLE;; wx_lift (v ← op a; mret (to v))) m.
Proof.
  intros Hm Ha Hn Hf Hl. unfold is_flat_load in Hl. cbv zeta in Hl. change (@to_u64 u64_register a) with a in Hl.
  change (flat_memory_size (asm_view m)) with (asm_memory_size m) in Hl.
  pose proof (asm_view_ok m Hm) as Hv.
  eapply agrees_guarded.
  - apply check_pages_access; [apply executable_check|done|done|lia].
  - apply (guarded_intro (R := u64_register)); [done|done|split; lia|lia].
  - intros Hb. apply read_completes; [done|lia|done|]. rewrite decide_True in Hl by done.
    erewrite bind_Ok by exact Hl.
    rewrite Hf; [done|]. apply flat_get_range; [done|by destruct Ha|by destruct Hb].
Qed.

Lemma store_agrees (n : nat) to (op : Z -> Z -> ST FM unit) a v bs m : asm_ok m -> in_u 64 a ->
  (0 < n <= 8)%nat -> bs = Z_to_le n (to v) -> is_store n to op (asm_view m) a v ->
  agrees (check_memory_writable a (Z.of_nat n);; asm_write a bs)
    (wx_check (R := u64_register) a (Z.of_nat n) FLAG_WRITABLE;; wx_lift (op a v)) m.
Proof.
  intros Hm Ha Hn -> Hs. unfold is_flat_store in Hs. cbv zeta in Hs. change (@to_u64 u64_register a) with a in Hs.
  change (flat_memory_size (asm_view m)) with (asm_memory_size m) in Hs.
  pose proof (length_Z_to_le n (to v)) as Hlen.
  eapply agrees_guarded.
  - apply check_pages_access; [apply writable_check|done|done|lia].
  - apply (guarded_intro (R := u64_register)); [by apply asm_view_ok|done|split; lia|lia].
  - intros Hb. rewrite decide_True in Hs by done.
    pose proof (write_completes (op a v) a (Z_to_le n (to v)) m Ha) as Hw. rewrite Hlen in Hw.
    apply Hw; try done; [|apply Z_to_le_bytes].
    intros E. rewrite E in Hlen. cbn in Hlen. lia.
Qed.

(** Writing a list of bytes. *)
Lemma write_agrees bs a (inner : ST FM unit) m : asm_ok m -> in_u 64 a -> bs <> [] ->
  in_u 64 (Z.of_nat (length bs)) -> Forall is_byte bs ->
  inner (asm_view m) = (flat_check a (Z.of_nat (length bs));;
    set_dirty flat_set_flag (get_page_indices a (Z.of_nat (length bs)));; flat_write a bs) (asm_view m) ->
  agrees ((asm_check_no_overflow a (Z.of_nat (length bs));;
           for_pages (get_page_indices a (Z.of_nat (length bs))) writable_page);; asm_write a bs)
    (wx_check (R := u64_register) a (Z.of_nat (length bs)) FLAG_WRITABLE;; wx_lift inner) m.
Proof.
  intros Hm Ha Hne Hn Hbs Hi. assert (0 < Z.of_nat (length bs)) by (destruct bs; [done|cbn; lia]).
  pose proof (asm_view_ok m Hm) as Hv.
  eapply agrees_guarded.
  - apply range_access; [apply writable_check|done..].
  - by apply (guarded_intro (R := u64_register)).
  - intros Hb. apply write_completes; [done..|]. rewrite Hi. by apply flat_store_raw_ok.
Qed.

Lemma agrees_ext {A} (c c' : ST AM A) w w' m : agrees c w m ->
  c' m = c m -> w' (WXorX (asm_view m)) = w (WXorX (asm_view m)) -> agrees c' w' m.
Proof. unfold agrees. by intros H -> ->. Qed.

Lemma asm_store_bytes_agrees a bs m : asm_ok m -> in_u 64 a -> in_u 64 (Z.of_nat (length bs)) ->
  Forall is_byte bs ->
  agrees (asm_store_bytes a bs) (wx_store_bytes (R := u64_register) a bs) m.
Proof.
  intros Hm Ha Hn Hbs. destruct bs as [|b bs]; [by split_and!|].
  eapply agrees_ext.
  - apply (write_agrees (b :: bs) a (flat_store_bytes a (b :: bs))); done.
  - unfold asm_store_bytes. cbn [length Nat.eqb]. unfold mbind, ST_bind.
    by destruct (asm_check_no_overflow _ _ _) as [[]?].
  - done.
Qed.

Lemma asm_store_byte_agrees a n b m : asm_ok m -> in_u 64 a -> in_u 64 n -> is_byte b ->
  agrees (asm_store_byte a n b) (wx_store_byte (R := u64_register) a n b) m.
Proof.
  intros Hm Ha Hn Hb. unfold asm_store_byte, wx_store_byte.
  destruct (Z.eqb_spec n 0) as [->|Hne]; [by split_and!|]. pose proof Hn as [? ?].
  assert (Hl : Z.of_nat (length (replicate (Z.to_nat n) b)) = n) by (rewrite length_replicate; lia).
  pose proof (write_agrees (replicate (Z.to_nat n) b) a (flat_store_byte a n b) m Hm Ha) as Hw.
  rewrite Hl in Hw. eapply agrees_ext; [apply Hw| |done].
  - intros E. rewrite E in Hl. cbn in Hl. lia.
  - done.
  - by apply Forall_replicate.
  - unfold flat_store_byte. by rewrite (proj2 (Z.eqb_neq n 0)).
  - unfold mbind, ST_bind. by destruct (asm_check_no_overflow _ _ _) as [[]?].
Qed.

Lemma asm_load_bytes_agrees a n m : asm_ok m -> in_u 64 a -> in_u 64 n ->
  agrees (asm_load_bytes a n) (wx_load_bytes (R := u64_register) a n) m.
Proof.
  intros Hm Ha Hn. unfold asm_load_bytes, wx_load_bytes. pose proof Hn as [? ?].
  change (load_bytes a n) with (flat_load_bytes (R := u64_register) a n). unfold flat_load_bytes.
  destruct (Z.eqb_spec n 0) as [->|Hne]; [by split_and!|]. pose proof (asm_view_ok m Hm) as Hv.
  eapply agrees_ext with
    (c := (asm_check_no_overflow a n;; for_pages (get_page_indices a n) check_memory);; asm_read a n);
    [| |reflexivity].
  2:{ unfold mbind, ST_bind. by destruct (asm_check_no_overflow _ _ _) as [[]?]. }
  apply (agrees_plain _ (fun v => v) a n).
  - apply range_access; [apply inited_check|done|done|done|lia].
  - intros Hb. pose proof (read_completes (fun l => l)
      (flat_check a n;; flat_read a n) a n m Ha ltac:(lia) Hb) as Hr.
    assert (Hf : (flat_check a n;; flat_read a n) (asm_view m) = (Ok (flat_get a n (asm_view m)), asm_view m)).
    { unfold flat_check. erewrite bind_Ok by (by apply check_no_overflow_ok; try apply Hv).
      destruct Ha, Hb. apply flat_read_ok; [done|lia|lia|done]. }
    intros m' Hm' Hs Ht Ev. destruct (Hr Hf m') as (x & m'' & E & ?); try done.
    exists x, m''. split; [|done]. rewrite <- E. unfold mbind, ST_bind.
    by destruct (asm_read a n m') as [[]?].
  - intros Hb. destruct (flat_check_err a n (asm_view m) (fun _ => flat_read a n)) as [b E]; [done..|].
    by eexists _, _.
Qed.

(** The page flags. *)
Lemma asm_fetch_flag_agrees p m : asm_ok m -> 0 <= p ->
  agrees (asm_fetch_flag p) (wx_fetch_flag (R := u64_register) p) m.
Proof.
  intros Hm Hp. destruct (asm_pages_eq m Hm) as [Ep Es]. unfold agrees, asm_fetch_flag, wx_fetch_flag, wx_lift, zoom.
  change (fetch_flag p (wx_inner (WXorX (asm_view m)))) with (flat_fetch_flag p (asm_view m)).
  unfold flat_fetch_flag. rewrite Ep. change (flat_riscv_pages (asm_view m)) with (asm_pages m).
  case_bool; [|done]. destruct (lookup_lt_is_Some_2 (asm_flags m) (Z.to_nat p)) as [v Hv].
  { pose proof (ao_flags m Hm). lia. }
  change (flat_flags (asm_view m)) with (asm_flags m). rewrite Hv. by split_and!.
Qed.

Lemma asm_update_flag_agrees f p m : asm_ok m -> 0 <= p -> (forall v, is_byte v -> is_byte (f v)) ->
  agrees (asm_update_flag f p) (wx_lift (flat_update_flag (R := u64_register) f p)) m.
Proof.
  intros Hm Hp Hf. destruct (asm_pages_eq m Hm) as [Ep Es]. unfold agrees, wx_lift, zoom. cbn [wx_inner].
  destruct (decide (p < asm_pages m)) as [Hin|Hout].
  - destruct (lookup_lt_is_Some_2 (asm_flags m) (Z.to_nat p)) as [v Hv].
    { pose proof (ao_flags m Hm). lia. }
    destruct (update_flag_spec f m p v) as (m' & -> & ? & ? & _ & _ & Ev); [done..|apply Hf|done|].
    rewrite (flat_update_flag_in f p (asm_view m) v) by done.
    split_and!; try done. by rewrite Ev.
  - unfold asm_update_flag, flat_update_flag. rewrite Ep.
    change (flat_riscv_pages (asm_view m)) with (asm_pages m). by rewrite (proj2 (Z.ltb_ge _ _)) by lia.
Qed.

Lemma asm_set_lr_agrees v m : asm_ok m -> in_u 64 v ->
  agrees (asm_set_lr v) (wx_set_lr (R := u64_register) v) m.
Proof. intros Hm Hv. split_and!; [done| |done|done]. by destruct Hm; constructor. Qed.

(** * A new memory *)

Lemma replicate_view n k memory : view_data (replicate n 0) (take k memory) = replicate (length (take k memory)) 0.
Proof.
  apply list_eq. intros i. rewrite view_lookup. destruct (take k memory !! i) as [b|] eqn:E.
  - rewrite lookup_replicate_2 by (by eapply lookup_lt_Some). cbn. f_equal. unfold frame_inited.
    destruct (replicate n 0 !! _) eqn:Er; [|done]. by apply lookup_replicate in Er as [-> _].
  - cbn. symmetry. apply lookup_ge_None_2. rewrite length_replicate. by apply lookup_ge_None.
Qed.

(** A new memory holds what was in the allocation, and views as the zeros of a new flat
    memory. *)
Lemma asm_new_ok garbage isa version max_cycles size : in_u 64 size -> 0 < size ->
  size mod FRAME = 0 -> length garbage = Z.to_nat size -> Forall is_byte garbage ->
  exists c, AsmCoreMachine_new false garbage isa version max_cycles size = Ok c /\
    asm_ok (dc_memory c) /\ flat_new (R := u64_register) size = Ok (asm_view (dc_memory c)).
Proof.
  intros Hs Hpos Hm Hl Hb. unfold AsmCoreMachine_new, flat_new.
  change (Z.shiftl 1 MEMORY_FRAME_SHIFTS) with FRAME. change RISCV_PAGESIZE with 4096.
  change MEMORY_FRAMESIZE with FRAME. rewrite Hm.
  rewrite (proj2 (Z.eqb_neq size 0)) by lia.
  assert (size mod 4096 = 0) as -> by (unfold FRAME in *; dlia). cbn [Z.eqb negb].
  eexists. split; [reflexivity|]. cbn [dc_memory]. split.
  - unfold FRAME in *. constructor; cbn -[replicate]; rewrite ?length_replicate; try done; try dlia.
    + unfold FRAME. dlia.
    + by apply Forall_replicate.
  - unfold asm_view. cbn [asm_frames asm_memory asm_flags asm_memory_size asm_load_reservation_address].
    pose proof (replicate_view (Z.to_nat (size / FRAME)) (Z.to_nat size) garbage) as Hv.
    rewrite take_ge, Hl in Hv by lia. by rewrite Hv.
Qed.

(** The accesses of 1, 2, 4 and 8 bytes. *)
Lemma asm_word_accesses m a v : asm_ok m -> in_u 64 a -> in_u 64 v ->
  let R := u64_register in
  agrees (load8 (R := R) a) (load8 (R := R) a) m /\ agrees (load16 (R := R) a) (load16 (R := R) a) m /\
  agrees (load32 (R := R) a) (load32 (R := R) a) m /\ agrees (load64 (R := R) a) (load64 (R := R) a) m /\
  agrees (store8 (R := R) a v) (store8 (R := R) a v) m /\
  agrees (store16 (R := R) a v) (store16 (R := R) a v) m /\
  agrees (store32 (R := R) a v) (store32 (R := R) a v) m /\
  agrees (store64 (R := R) a v) (store64 (R := R) a v) m /\
  agrees (execute_load16 (R := R) a) (execute_load16 (R := R) a) m /\
  agrees (execute_load32 (R := R) a) (execute_load32 (R := R) a) m.
Proof.
  intros Hm Ha Hv R. subst R.
  pose proof (asm_view_ok m Hm) as Ho.
  destruct (flat_accesses (asm_view m) a v Ho Ha Hv) as (?&?&?&?&?&?&?&?).
  split_and!.
  - by eapply (load_agrees 1 _ (flat_load8 (R := u64_register))); [done|done|lia| |eassumption].
  - by eapply (load_agrees 2 _ (flat_load16 (R := u64_register))); [done|done|lia| |eassumption].
  - by eapply (load_agrees 4 _ (flat_load32 (R := u64_register))); [done|done|lia| |eassumption].
  - by eapply (load_agrees 8 _ (flat_load64 (R := u64_register))); [done|done|lia| |eassumption].
  - eapply (store_agrees 1 _ (flat_store8 (R := u64_register))); [done|done|lia| |eassumption].
    cbn [Z_to_le]. rewrite (wrap_small 8 (to_u8 _)); [done|]. exact (to_u8_range (R := u64_register) v Hv).
  - by eapply (store_agrees 2 _ (flat_store16 (R := u64_register))); [done|done|lia| |eassumption].
  - by eapply (store_agrees 4 _ (flat_store32 (R := u64_register))); [done|done|lia| |eassumption].
  - by eapply (store_agrees 8 _ (flat_store64 (R := u64_register))); [done|done|lia| |eassumption].
  - eapply (execute_agrees 2 _ (@to_u16 u64_register) (flat_load16 (R := u64_register))); [done|done|lia| |eassumption]. by apply wrap_small.
  - eapply (execute_agrees 4 _ (@to_u32 u64_register) (flat_load32 (R := u64_register))); [done|done|lia| |eassumption]. by apply wrap_small.
Qed.

(** C19: the memory of the assembly machine refines the W^X flat memory of the interpreter.
    Its frames are filled with zeros when they are first touched and hold whatever was in
    the allocation before; the checks are made page by page, in another order.  Seen
    through the view in which untouched frames read as zeros, every load, store, fetch,
    byte-range access and flag operation has the result and the effect it has on the W^X
    memory, or both fail, and then no byte has changed. *)
Theorem asm_memory_refines (m : AsmMemory) (a n v b page flag : Z) (bs : list Z) :
  asm_ok m -> in_u 64 a -> in_u 64 n -> in_u 64 v -> is_byte b -> 0 <= page -> is_byte flag ->
  Forall is_byte bs -> in_u 64 (Z.of_nat (length bs)) ->
  let R := u64_register in
  agrees (load8 (R := R) a) (load8 (R := R) a) m /\ agrees (load16 (R := R) a) (load16 (R := R) a) m /\
  agrees (load32 (R := R) a) (load32 (R := R) a) m /\ agrees (load64 (R := R) a) (load64 (R := R) a) m /\
  agrees (store8 (R := R) a v) (store8 (R := R) a v) m /\
  agrees (store16 (R := R) a v) (store16 (R := R) a v) m /\
  agrees (store32 (R := R) a v) (store32 (R := R) a v) m /\
  agrees (store64 (R := R) a v) (store64 (R := R) a v) m /\
  agrees (execute_load16 (R := R) a) (execute_load16 (R := R) a) m /\
  agrees (execute_load32 (R := R) a) (execute_load32 (R := R) a) m /\
  agrees (store_bytes (R := R) a bs) (store_bytes (R := R) a bs) m /\
  agrees (store_byte (R := R) a n b) (store_byte (R := R) a n b) m /\
  agrees (load_bytes (R := R) a n) (load_bytes (R := R) a n) m /\
  agrees (fetch_flag (R := R) page) (fetch_flag (R := R) page) m /\
  agrees (set_flag (R := R) page flag) (set_flag (R := R) page flag) m /\
  agrees (clear_flag (R := R) page flag) (clear_flag (R := R) page flag) m /\
  agrees (set_lr (R := R) v) (set_lr (R := R) v) m.
Proof.
  intros Hm Ha Hn Hv Hb Hp Hf Hbs Hl R. subst R.
  destruct (asm_word_accesses m a v Hm Ha Hv) as (?&?&?&?&?&?&?&?&?&?). split_and!; try assumption.
  - by apply asm_store_bytes_agrees.
  - by apply asm_store_byte_agrees.
  - by apply asm_load_bytes_agrees.
  - by apply asm_fetch_flag_agrees.
  - apply asm_update_flag_agrees; [done..|]. intros. by apply lor_byte.
  - apply asm_update_flag_agrees; [done..|]. intros. by apply land_byte_l.
  - by apply asm_set_lr_agrees.
Qed.


(** A memory of one frame: 64 pages of what happened to be in the allocation. *)
Definition one_frame : AsmMemory :=
  match AsmCoreMachine_new false (replicate (Z.to_nat FRAME) 0xa5) 0 0 0 FRAME with
  | Ok c => dc_memory c
  | _ => {| asm_chaos_mode := 0; asm_chaos_seed := 0; asm_load_reservation_address := 0;
            asm_error_arg0 := 0; asm_memory_size := 0; asm_frames_size := 0; asm_flags_size := 0;
            asm_last_read_frame := 0; asm_last_write_page := 0; asm_memory := []; asm_flags := [];
            asm_frames := [] |}
  end.

Lemma one_frame_ok : asm_ok one_frame.
Proof.
  destruct (asm_new_ok (replicate (Z.to_nat FRAME) 0xa5) 0 0 0 FRAME) as (c & E & Hc & _).
  - done.
  - done.
  - done.
  - apply length_replicate.
  - apply Forall_replicate. done.
  - unfold one_frame. by rewrite E.
Qed.

Lemma asm_memory_refines_witness :
  agrees (load64 (R := u64_register) 4093) (load64 (R := u64_register) 4093) one_frame.
Proof.
  destruct (asm_memory_refines one_frame 4093 8 7 1 0 FLAG_WRITABLE [1; 2]) as (_ & _ & _ & H & _);
    [exact one_frame_ok|split; lia..|split; lia|lia|split; vm_compute; congruence| |split; cbn; lia|exact H].
  repeat constructor; lia.
Defined.
