(* ===== verification/AsmInit.v ===== *)
(** Loading pages in the assembly machine: [init_pages] fills the pages without first
    filling their frames, and still agrees with the W^X flat memory. *)
From S2P Require Import Prelude Outcome Bits Register RegisterFacts Insts Memory MemoryFacts.
From S2P Require Import MemoryOk WXorXFacts SparseFacts Machine Core Asm AsmFacts AsmRefine.
From stdpp Require Import base list numbers.
Open Scope Z_scope.

Local Abbreviation AM := AsmMemory.
Local Abbreviation FM := (FlatMemory u64_register).

Implicit Types m : AM.
Implicit Types v : FM.

(** [m] holds what [v] does, but for the bytes of [p, e), which are still to be written. *)
Record filling m v (p e : Z) : Prop := {
  fi_ok : asm_ok m;
  fi_view : flat_set_data (flat_data v) (asm_view m) = v;
  fi_length : length (flat_data v) = length (asm_memory m);
  fi_bytes : forall i : nat, Z.of_nat i < p \/ e <= Z.of_nat i ->
    flat_data v !! i = flat_data (asm_view m) !! i;
}.

Lemma filling_start m p e : asm_ok m -> filling m (asm_view m) p e.
Proof. intros Hm. constructor; [done|done|apply view_length|done]. Qed.

Lemma filling_done m v p : filling m v p p -> asm_ok m /\ v = asm_view m.
Proof.
  intros [Hm Hv Hl Hb]. split; [done|]. rewrite <- Hv. unfold flat_set_data, asm_view. cbn. f_equal.
  apply list_eq. intros i. apply Hb. lia.
Qed.

(** * The pages of a write *)

Lemma set_frame_in m k : asm_ok m -> 0 <= k < Z.of_nat (length (asm_frames m)) ->
  asm_set_frame k m = (Ok tt, asm_set_frames (<[Z.to_nat k := 1]> (asm_frames m)) m).
Proof.
  intros Hm Hk. destruct (lookup_lt_is_Some_2 (asm_frames m) (Z.to_nat k)) as [x Hx]; [lia|].
  unfold asm_set_frame, mbind, ST_bind. by rewrite Hx.
Qed.

Lemma set_frames_ok m k : asm_ok m ->
  asm_ok (asm_set_frames (<[Z.to_nat k := 1]> (asm_frames m)) m).
Proof. intros []. constructor; cbn; rewrite ?length_insert; done. Qed.

Definition mark_frame_page (page : Z) : ST AM unit :=
  asm_set_frame (wshr 64 page MEMORY_FRAME_PAGE_SHIFTS);; asm_set_flag page FLAG_DIRTY.

(** Marking the frames and pages of a range: the bytes stay. *)
Lemma mark_frame_pages n p m : asm_ok m -> 0 <= p -> p + Z.of_nat n <= asm_pages m ->
  exists m', for_range n p mark_frame_page m = (Ok tt, m') /\ asm_ok m' /\ evolves m m' /\
    asm_memory m' = asm_memory m /\
    asm_load_reservation_address m' = asm_load_reservation_address m /\
    asm_flags m' = mark_flags (fun f => Z.lor f FLAG_DIRTY) p (p + Z.of_nat n - 1) (asm_flags m) /\
    (forall q, 0 <= q -> ~ (p / 64 <= q <= (p + Z.of_nat n - 1) / 64) ->
     frame_inited (asm_frames m') q = frame_inited (asm_frames m) q) /\
    (forall q, p <= q < p + Z.of_nat n -> touched m' q).
Proof.
  revert p m. induction n as [|n IH]; intros p m Hm Hp Hn; cbn [for_range].
  { exists m. split_and!; try done; [|lia]. by rewrite mark_flags_empty by lia. }
  pose proof (page_in_frame m p Hm ltac:(lia)) as Hf.
  destruct (lookup_lt_is_Some_2 (asm_flags m) (Z.to_nat p)) as [x Hx].
  { pose proof (ao_flags m Hm). destruct (asm_pages_eq m Hm). lia. }
  set (m1 := asm_set_frames (<[Z.to_nat (p / 64) := 1]> (asm_frames m)) m).
  destruct (update_flag_spec (fun f => Z.lor f FLAG_DIRTY) m1 p x) as (m2 & E2 & Hm2 & Hev2 & Ef2 & Emem2 & Ev2).
  { by apply set_frames_ok. }
  { change (asm_pages m1) with (asm_pages m). lia. }
  { intros. by apply lor_byte. } { done. }
  assert (Hbody : mark_frame_page p m = (Ok tt, m2)).
  { unfold mark_frame_page. erewrite bind_Ok by (rewrite page_frame; by apply set_frame_in). exact E2. }
  assert (Hev : evolves m m2).
  { etrans; [|exact Hev2]. split; [done|]. intros q. unfold touched. cbn. apply touch_frame. lia. }
  erewrite bind_Ok by exact Hbody.
  destruct (IH (p + 1) m2) as (m3 & E3 & Hm3 & Hev3 & Emem3 & Elr3 & Efl3 & Hfr3 & Ht3).
  { done. } { lia. } { unfold asm_pages in *. destruct Hev as [-> _]. lia. }
  exists m3. split; [exact E3|]. split; [done|]. split; [by etrans|].
  split; [by rewrite Emem3, Emem2|]. split.
  { rewrite Elr3. exact (f_equal flat_load_reservation_address Ev2). } split; [|split].
  - rewrite Efl3. assert (asm_flags m2 = <[Z.to_nat p := Z.lor x FLAG_DIRTY]> (asm_flags m)) as ->
      by exact (f_equal flat_flags Ev2).
    replace (p + 1 + Z.of_nat n - 1) with (p + Z.of_nat (S n) - 1) by lia.
    apply (mark_flags_step (fun f => Z.lor f FLAG_DIRTY)); [lia|done].
  - intros q Hq0 Hq. rewrite Hfr3; [|done|].
    + rewrite Ef2. unfold m1, frame_inited. cbn. rewrite list_lookup_insert_ne; [done|].
      intros E. apply Hq. apply Z2Nat.inj in E; [|lia|lia]. subst q. split; [lia|apply Z.div_le_mono; lia].
    + intros [Hq1 Hq2]. apply Hq.
      assert (p / 64 <= (p + 1) / 64) by (apply Z.div_le_mono; lia).
      replace (p + 1 + Z.of_nat n - 1) with (p + Z.of_nat (S n) - 1) in Hq2 by lia. lia.
  - intros q Hq. destruct (decide (q = p)) as [->|]; [|apply Ht3; lia].
    apply Hev3. unfold touched. rewrite Ef2. unfold m1, frame_inited. cbn.
    by rewrite list_lookup_insert_eq by lia.
Qed.

(** * prepare_memory *)

Lemma checked_if (b : bool) page m : asm_ok m -> (b = true -> 0 <= page < asm_pages m) ->
  exists m', (if b then check_memory page else mret tt) m = (Ok tt, m') /\ asm_ok m' /\
    evolves m m' /\ asm_view m' = asm_view m /\ (b = true -> touched m' page).
Proof.
  intros Hm Hp. destruct b; [|by exists m].
  destruct (check_memory_spec m page Hm (Hp eq_refl)) as (m' & ? & ? & ? & ? & ?). by exists m'.
Qed.

Lemma frame_start_eq p : in_u 64 p ->
  wshl 64 (wshr 64 p MEMORY_FRAME_SHIFTS) MEMORY_FRAME_SHIFTS = p / FRAME * FRAME.
Proof.
  intros [? ?]. unfold wshl, wshr. change (MEMORY_FRAME_SHIFTS mod 64) with 18.
  rewrite Z.shiftr_div_pow2, Z.shiftl_mul_pow2 by lia. change (2 ^ 18) with FRAME.
  apply wrap_small. unfold FRAME. split; dlia.
Qed.

Lemma next_frame_eq ms p : in_u 64 ms -> ms mod FRAME = 0 -> 0 <= p < ms ->
  wshl 64 (wadd 64 (wshr 64 p MEMORY_FRAME_SHIFTS) 1) MEMORY_FRAME_SHIFTS = (p / FRAME + 1) * FRAME.
Proof.
  intros [? ?] ? ?. unfold wshl, wadd, wshr. change (MEMORY_FRAME_SHIFTS mod 64) with 18.
  rewrite Z.shiftr_div_pow2 by lia. change (2 ^ 18) with FRAME. unfold FRAME in *.
  rewrite (wrap_small 64 (_ + 1)) by (split; dlia). rewrite Z.shiftl_mul_pow2 by lia. change (2 ^ 18) with 262144.
  apply wrap_small. split; dlia.
Qed.

Lemma page_of p : wshr 64 p RISCV_PAGE_SHIFTS = p / 4096.
Proof. unfold wshr. change (RISCV_PAGE_SHIFTS mod 64) with 12. by rewrite Z.shiftr_div_pow2. Qed.

Lemma size_frames m : asm_ok m -> asm_memory_size m mod FRAME = 0.
Proof. intros []. unfold FRAME in *. dlia. Qed.

(** A byte outside [p, e) keeps its value if the frames that become initialized without
    having been filled lie in the range. *)
Lemma prepare_view m m' p n e (i : nat) : 0 <= p -> 0 < n -> p + n <= e ->
  asm_memory m' = asm_memory m ->
  (forall q, 0 <= q -> ~ (p / 4096 / 64 <= q <= (p + n - 1) / 4096 / 64) ->
     frame_inited (asm_frames m') q = frame_inited (asm_frames m) q) ->
  (forall q, touched m q -> touched m' q) ->
  (p / FRAME * FRAME < p -> touched m (p / 4096)) ->
  (e < ((p + n - 1) / FRAME + 1) * FRAME -> touched m ((p + n - 1) / 4096)) ->
  Z.of_nat i < p \/ e <= Z.of_nat i ->
  flat_data (asm_view m') !! i = flat_data (asm_view m) !! i.
Proof.
  intros Hp Hn He Emem Hfr Hev H1 H2 Hi. cbn [asm_view flat_data]. rewrite !view_lookup, Emem.
  f_equal. rewrite !Z.div_div in Hfr by lia. change (4096 * 64) with FRAME in Hfr.
  unfold touched in *. rewrite !Z.div_div in H1, H2 by lia. change (4096 * 64) with FRAME in H1, H2.
  remember (Z.of_nat i / FRAME) as F eqn:EF.
  assert (HF0 : 0 <= F) by (subst F; apply Z.div_pos; unfold FRAME; lia).
  assert (HF : frame_inited (asm_frames m') F = frame_inited (asm_frames m) F); [|by rewrite HF].
  destruct (decide (p / FRAME <= F <= (p + n - 1) / FRAME)) as [Hin|Hout]; [|by apply Hfr].
  assert (Ht : frame_inited (asm_frames m) F = true).
  { destruct Hi as [Hi|Hi].
    - assert (F = p / FRAME) as -> by (unfold FRAME in *; dlia). apply H1. unfold FRAME in *. dlia.
    - assert (F = (p + n - 1) / FRAME) as -> by (unfold FRAME in *; dlia). apply H2.
      unfold FRAME in *. dlia. }
  rewrite Ht. specialize (Hev (F * 64)). unfold touched in Hev. rewrite Z.div_mul in Hev by lia.
  by apply Hev.
Qed.

Lemma prepare_memory_spec m p n e : asm_ok m -> 0 <= p -> 0 < n -> p + n <= e ->
  e mod 4096 = 0 -> e <= asm_memory_size m ->
  exists m', prepare_memory p n m = (Ok tt, m') /\ asm_ok m' /\ evolves m m' /\
    asm_load_reservation_address m' = asm_load_reservation_address m /\
    asm_flags m' = mark_flags (fun f => Z.lor f FLAG_DIRTY) (p / 4096) ((p + n - 1) / 4096) (asm_flags m) /\
    length (asm_memory m') = length (asm_memory m) /\
    (forall q, p / 4096 <= q <= (p + n - 1) / 4096 -> touched m' q) /\
    (forall i : nat, Z.of_nat i < p \/ e <= Z.of_nat i ->
     flat_data (asm_view m') !! i = flat_data (asm_view m) !! i).
Proof.
  intros Hm Hp Hn He Hal Hb. pose proof (ao_size m Hm) as [? Hmax].
  assert (Hpu : in_u 64 p) by (split; lia). assert (Hnu : in_u 64 n) by (split; lia).
  destruct (asm_pages_eq m Hm) as [_ Hps].
  assert (Hpage : 0 <= p / 4096 < asm_pages m) by (split; dlia).
  assert (Hlast : (p + n - 1) / 4096 < asm_pages m) by dlia.
  unfold prepare_memory. cbv zeta. rewrite frame_start_eq by done.
  assert (Hend : wadd 64 p n = p + n) by (unfold wadd; apply wrap_small; split; lia). rewrite Hend.
  rewrite (next_frame_eq (asm_memory_size m)) by (done || lia || by apply size_frames).
  rewrite (proj2 (Z.ltb_lt 0 (p + n))), round_page_down_eq by (lia || split; lia).
  assert (Hw : wadd 64 ((p + n - 1) / 4096 * 4096) RISCV_PAGESIZE = (p + n - 1) / 4096 * 4096 + 4096).
  { unfold wadd. change RISCV_PAGESIZE with 4096. apply wrap_small. split; dlia. }
  rewrite Hw, !page_of, Z.div_mul by lia.
  erewrite bind_Ok by (apply check_no_overflow_ok; [done|done|done|split; lia]).
  destruct (checked_if (p / FRAME * FRAME <? p) (p / 4096) m Hm) as (m1 & E1 & Hm1 & Hev1 & Ev1 & Ht1); [done|].
  erewrite bind_Ok by exact E1.
  set (b2 := _ + 4096 <? _).
  destruct (checked_if b2 ((p + n - 1) / 4096) m1 Hm1) as (m2 & E2 & Hm2 & Hev2 & Ev2 & Ht2).
  { intros _. unfold asm_pages in *. destruct Hev1 as [-> _]. split; [dlia|done]. }
  erewrite bind_Ok by exact E2.
  rewrite (page_indices_eq _ _ (asm_memory_size m)) by (done || (split; lia)).
  unfold for_pages. cbn [fst snd].
  destruct (mark_frame_pages (Z.to_nat ((p + n - 1) / 4096 - p / 4096 + 1)) (p / 4096) m2)
    as (m3 & E3 & Hm3 & Hev3 & Emem & Elr & Efl & Hfr & Ht3); [done|lia| |].
  { unfold asm_pages in *. destruct Hev2 as [-> _], Hev1 as [-> _]. dlia. }
  assert (Hcnt : p / 4096 + Z.of_nat (Z.to_nat ((p + n - 1) / 4096 - p / 4096 + 1)) - 1 = (p + n - 1) / 4096).
  { rewrite Z2Nat.id; [lia|]. assert (p / 4096 <= (p + n - 1) / 4096) by (apply Z.div_le_mono; lia). lia. }
  rewrite Hcnt in Efl, Hfr. exists m3. split; [exact E3|].
  assert (Ev : asm_view m2 = asm_view m) by by rewrite Ev2.
  split; [done|]. split; [by do 2 (etrans; [eassumption|])|].
  split; [by rewrite Elr; exact (f_equal flat_load_reservation_address Ev)|].
  split; [rewrite Efl; f_equal; exact (f_equal flat_flags Ev)|].
  split. { pose proof (ao_memory _ Hm). pose proof (ao_memory _ Hm3). destruct Hev1, Hev2, Hev3. lia. }
  split; [intros q Hq; apply Ht3; lia|].
  intros i Hi. rewrite <- Ev. apply (prepare_view m2 m3 p n e); try done.
  - by destruct Hev3.
  - intros Hlt. destruct Hev2 as [_ Hev2]. apply Hev2, Ht1. by apply Z.ltb_lt.
  - intros Hlt. apply Ht2. apply Z.ltb_lt. unfold FRAME in *. dlia.
Qed.

(** * Writing without filling the frames *)

(** [c] on [m] and [w] on [v] return the same value. *)
Definition both {A} (c : ST AM A) (w : ST FM A) m v (Q : A -> AM -> FM -> Prop) : Prop :=
  exists x m' v', c m = (Ok x, m') /\ w v = (Ok x, v') /\ Q x m' v'.

Lemma both_bind {A B} (c : ST AM A) w (k : A -> ST AM B) k' m v Q R : both c w m v Q ->
  (forall x m' v', Q x m' v' -> both (k x) (k' x) m' v' R) -> both (c ≫= k) (w ≫= k') m v R.
Proof.
  intros (x & m' & v' & E & E' & HQ) Hk. destruct (Hk x m' v' HQ) as (y & m2 & v2 & ? & ? & ?).
  exists y, m2, v2. split_and!; [by erewrite bind_Ok by exact E|by erewrite bind_Ok by exact E'|done].
Qed.

Lemma both_ret {A} (x : A) m v (Q : A -> AM -> FM -> Prop) : Q x m v -> both (mret x) (mret x) m v Q.
Proof. by exists x, m, v. Qed.

(** The bytes from [p] on, up to the page-aligned [e], have still to be written. *)
Definition filling_from (e p : Z) m v : Prop :=
  filling m v p e /\ flat_ok v /\ asm_memory_size m = flat_memory_size v.

Lemma fast_write_step e p bs m v : filling_from e p m v -> 0 <= p -> bs <> [] -> Forall is_byte bs ->
  p + Z.of_nat (length bs) <= e -> e mod 4096 = 0 -> e <= asm_memory_size m ->
  both (prepare_memory p (Z.of_nat (length bs));; asm_write p bs)
    (flat_check p (Z.of_nat (length bs));;
     set_dirty flat_set_flag (get_page_indices p (Z.of_nat (length bs)));; flat_write p bs) m v
    (fun _ m' v' => filling_from e (p + Z.of_nat (length bs)) m' v' /\ evolves m m').
Proof.
  intros (Hf & Hv & Hs) Hp Hne Hbs He Hal Hb. set (n := Z.of_nat (length bs)) in *.
  assert (Hn : 0 < n) by (subst n; destruct bs; [done|cbn; lia]). pose proof (ao_size m (fi_ok _ _ _ _ Hf)) as [_ Hmax].
  destruct (prepare_memory_spec m p n e (fi_ok _ _ _ _ Hf)) as (m1 & E1 & Hm1 & Hev1 & Elr & Efl & Hlen & Ht & Hbytes);
    [done..|].
  destruct (write_touched m1 p bs) as (m2 & E2 & Hm2 & Hev2 & Ev2); try done.
  { destruct Hev1 as [-> _]. lia. }
  assert (Hin : in_bounds p n (flat_memory_size v)) by (split; lia).
  exists tt, m2, (flat_put p bs v). split; [by erewrite bind_Ok by exact E1|]. split.
  { apply flat_store_raw_ok; [done|split; lia|done|done]. }
  assert (Hl2 : length (asm_memory m2) = length (asm_memory m)).
  { pose proof (ao_memory _ (fi_ok _ _ _ _ Hf)). pose proof (ao_memory _ Hm2). destruct Hev1, Hev2. lia. }
  pose proof (ao_memory _ (fi_ok _ _ _ _ Hf)) as Hml.
  split; [|by etrans]. split; [|split; [apply flat_put_ok; try done; split; lia|]].
  2:{ destruct Hev2 as [-> _], Hev1 as [-> _]. exact Hs. }
  destruct Hf as [Hm Hview Hfl Hfb]. constructor; [done| | |].
  - rewrite Ev2. rewrite <- Hview. unfold flat_put, flat_set_data. cbn. rewrite Elr, Efl.
    by destruct Hev1 as [-> _].
  - cbn. rewrite !length_app, length_take, length_drop, Hl2. lia.
  - intros i Hi. rewrite Ev2. cbn [flat_put flat_set_data flat_data].
    assert (Hvl : length (flat_data (asm_view m1)) = length (asm_memory m)) by (cbn; by rewrite view_length).
    destruct (decide (i < Z.to_nat p)%nat); [|destruct (decide (i < Z.to_nat p + length bs)%nat)].
    + rewrite !lookup_app_l by (rewrite length_take; lia). rewrite !lookup_take_lt by lia.
      rewrite Hbytes, Hfb by lia. done.
    + rewrite !(lookup_app_r (take _ _)) by (rewrite length_take; lia).
      rewrite !lookup_app_l by (rewrite length_take; lia). rewrite !length_take. f_equal. lia.
    + rewrite !(lookup_app_r (take _ _)) by (rewrite length_take; lia).
      rewrite !lookup_app_r by (rewrite length_take; lia). rewrite !length_take, !lookup_drop.
      rewrite Hfl, Hvl. replace (Z.to_nat p + length bs + _)%nat with i by lia.
      rewrite Hbytes, Hfb by lia. done.
Qed.

Section stores.
Context (e : Z) (He : e mod 4096 = 0).

Lemma fast_store_bytes_step p bs m v : filling_from e p m v -> 0 <= p -> Forall is_byte bs ->
  p + Z.of_nat (length bs) <= e -> e <= asm_memory_size m ->
  both (fast_store_bytes p bs) (flat_store_bytes p bs) m v
    (fun _ m' v' => filling_from e (p + Z.of_nat (length bs)) m' v' /\ evolves m m').
Proof.
  intros Hf Hp Hbs Hb Hs. destruct bs as [|b bs]; [|by apply fast_write_step].
  apply (both_ret tt). by rewrite Z.add_0_r.
Qed.

Lemma fast_store_byte_step p n b m v : filling_from e p m v -> 0 <= p -> 0 <= n -> is_byte b ->
  p + n <= e -> e <= asm_memory_size m ->
  both (fast_store_byte p n b) (flat_store_byte p n b) m v
    (fun _ m' v' => filling_from e (p + n) m' v' /\ evolves m m').
Proof.
  intros Hf Hp Hn Hb Hpe Hs. unfold fast_store_byte, flat_store_byte. cbv zeta.
  destruct (Z.eqb_spec n 0) as [->|Hne]; [apply (both_ret tt); by rewrite Z.add_0_r|].
  pose proof (fast_write_step e p (replicate (Z.to_nat n) b) m v Hf Hp) as H.
  rewrite length_replicate, Z2Nat.id in H by lia. apply H; [|by apply Forall_replicate|done..].
  destruct (Z.to_nat n) eqn:E; [lia|done].
Qed.
End stores.

(** Filling a range of pages in lockstep. *)
Lemma fill_lockstep a size src off m v : filling_from (a + size) a m v -> 0 <= a ->
  (a + size) mod 4096 = 0 -> 0 <= size -> a + size <= asm_memory_size m -> 0 <= off ->
  match src with Some l => Forall is_byte l | None => True end ->
  both (fill_page_data fast_store_byte fast_store_bytes a size src off)
    (fill_page_data flat_store_byte flat_store_bytes a size src off) m v
    (fun _ m' v' => filling_from (a + size) (a + size) m' v' /\ evolves m m').
Proof.
  intros Hf Ha Hal Hsz Hb Hoff Hsrc. pose proof (ao_size m (fi_ok _ _ _ _ (proj1 Hf))) as [_ Hmax].
  set (I := fun written m' v' => 0 <= written <= size /\
    filling_from (a + size) (a + written) m' v' /\ evolves m m').
  assert (Hw : forall k, 0 <= k <= size -> wadd 64 a k = a + k /\ wsub 64 size k = size - k).
  { intros k Hk. unfold wadd, wsub. rewrite !wrap_small by (split; lia). done. }
  unfold fill_page_data. apply both_bind with I; [|intros w1 m1 v1 (Hw1 & Hf1 & Hev1); apply both_bind with I].
  - case_bool; [|apply both_ret; split; [lia|]; by rewrite Z.add_0_r].
    eapply both_bind; [apply (fast_store_byte_step (a + size) Hal); [done|done|lia|by split|lia|done]|].
    intros _ m' v' [? ?]. apply both_ret. split; [lia|]. done.
  - destruct src as [l|]; [|by apply both_ret]. cbv zeta. destruct (Hw w1 Hw1) as [Ew Es]. rewrite Ew, Es.
    case_bool; [|by apply both_ret].
    set (n := Z.min (size - w1) (Z.of_nat (length l))).
    assert (Hl : Z.of_nat (length (take (Z.to_nat n) l)) = n) by (rewrite length_take; lia).
    eapply both_bind; [apply (fast_store_bytes_step (a + size)); try done; try lia|].
    + by apply Forall_take.
    + destruct Hev1 as [-> _]. done.
    + intros _ m' v' [Hf' Hev']. rewrite Hl in Hf'. apply both_ret.
      assert (wadd 64 w1 n = w1 + n) as -> by (unfold wadd; apply wrap_small; split; lia).
      split; [lia|]. split; [by rewrite Z.add_assoc|by etrans].
  - intros w m' v' (Hwr & Hf' & Hev'). destruct (Hw w Hwr) as [Ew Es]. rewrite Ew, Es. case_bool.
    + assert (Hsize : a + size <= asm_memory_size m') by (destruct Hev' as [-> _]; done).
      destruct (fast_store_byte_step (a + size) Hal (a + w) (size - w) 0 m' v' Hf')
        as (x & m2 & v2 & ? & ? & Hf2 & ?); [lia|lia|split; lia|lia|done|].
      exists x, m2, v2. split_and!; try done; [|by etrans]. by replace (a + size) with (a + w + (size - w)) at 2 by lia.
    + apply both_ret. split; [|done]. by replace w with size in Hf' by lia.
Qed.

(** * init_pages *)

Lemma page_at a k : (a + k * RISCV_PAGESIZE) / RISCV_PAGESIZE = a / 4096 + k.
Proof. change RISCV_PAGESIZE with 4096. rewrite Z.div_add by lia. lia. Qed.

Lemma not_freezed_loop a k n m : asm_ok m -> 0 <= a / 4096 + k ->
  a / 4096 + k + Z.of_nat n <= asm_pages m ->
  for_range n k (fun k => asm_not_freezed ((a + k * RISCV_PAGESIZE) / RISCV_PAGESIZE)) m =
  (match first_frozen (asm_flags m) (a / 4096 + k) n with
   | Some q => Err (MemWriteOnFreezedPage q) | None => Ok tt end, m).
Proof.
  intros Hm. revert k. induction n as [|n IH]; intros k Hp Hn; [done|]. cbn [for_range first_frozen].
  destruct (lookup_lt_is_Some_2 (asm_flags m) (Z.to_nat (a / 4096 + k))) as [x Hx].
  { pose proof (ao_flags m Hm). destruct (asm_pages_eq m Hm). lia. }
  assert (Hbody : asm_not_freezed (a / 4096 + k) m =
    (if Z.land x FLAG_FREEZED =? 0 then Ok tt else Err (MemWriteOnFreezedPage (a / 4096 + k)), m)).
  { unfold asm_not_freezed, mbind, ST_bind. rewrite (fetch_in m _ x) by (done || lia). by destruct (_ =? 0). }
  rewrite Hx. destruct (Z.land x FLAG_FREEZED =? 0).
  - erewrite bind_Ok by (rewrite page_at; exact Hbody). rewrite IH by lia.
    by replace (a / 4096 + (k + 1)) with (a / 4096 + k + 1) by lia.
  - by erewrite bind_Err by (rewrite page_at; exact Hbody).
Qed.

Lemma set_flag_loop flags a k n m : asm_ok m -> is_byte flags -> 0 <= a / 4096 + k ->
  a / 4096 + k + Z.of_nat n <= asm_pages m ->
  exists m', for_range n k (fun k => asm_set_flag ((a + k * RISCV_PAGESIZE) / RISCV_PAGESIZE) flags) m =
    (Ok tt, m') /\ asm_ok m' /\ evolves m m' /\
    asm_view m' = mark_pages flags (a / 4096 + k) (a / 4096 + k + Z.of_nat n - 1) (asm_view m).
Proof.
  intros Hm Hb. revert k m Hm. induction n as [|n IH]; intros k m Hm Hp Hn; cbn [for_range].
  { exists m. split_and!; try done. unfold mark_pages. by rewrite mark_flags_empty by lia. }
  destruct (lookup_lt_is_Some_2 (asm_flags m) (Z.to_nat (a / 4096 + k))) as [x Hx].
  { pose proof (ao_flags m Hm). destruct (asm_pages_eq m Hm). lia. }
  destruct (update_flag_spec (fun f => Z.lor f flags) m (a / 4096 + k) x) as (m1 & E & Hm1 & Hev & _ & _ & Ev);
    [done|lia|intros; by apply lor_byte|done|].
  erewrite bind_Ok by (rewrite page_at; exact E).
  destruct (IH (k + 1) m1) as (m2 & E2 & Hm2 & Hev2 & Ev2); [done|lia| |].
  { unfold asm_pages in *. destruct Hev as [-> _]. lia. }
  exists m2. split_and!; [done|done|by etrans|]. rewrite Ev2, Ev.
  rewrite <- (mark_pages_step flags (a / 4096 + k) _ (asm_view m) x); [|lia|done].
  f_equal; lia.
Qed.

(** Marking pages and filling bytes do not interfere. *)
Lemma mark_flags_comm x y p q p' q' flags :
  mark_flags (fun f => Z.lor f x) p q (mark_flags (fun f => Z.lor f y) p' q' flags) =
  mark_flags (fun f => Z.lor f y) p' q' (mark_flags (fun f => Z.lor f x) p q flags).
Proof.
  apply list_eq. intros i. rewrite !mark_flags_lookup. destruct (flags !! i) as [f|]; [|done].
  cbn. f_equal. do 2 case_match; try done. by rewrite <- !Z.lor_assoc, (Z.lor_comm x).
Qed.

Lemma fill_mark flags p q a bs v :
  flat_fill a bs (mark_pages flags p q v) = mark_pages flags p q (flat_fill a bs v).
Proof.
  destruct bs as [|b bs]; [done|]. unfold flat_fill, flat_put, mark_pages, flat_set_flags. cbn.
  f_equal. apply mark_flags_comm.
Qed.

Lemma reset_caches r w m : asm_ok m ->
  asm_ok (asm_set_caches r w (asm_load_reservation_address m) m).
Proof. intros []. by constructor. Qed.

Lemma asm_init_pages_fills a size flags off src m :
  asm_ok m -> in_u 64 a -> in_u 64 size -> in_u 64 off -> is_byte flags ->
  match src with Some l => Forall is_byte l | None => True end ->
  a mod 4096 = 0 -> size mod 4096 = 0 -> a + size <= asm_memory_size m -> off <= size ->
  agrees (asm_for_addresses a size asm_not_freezed;;
    fill_page_data fast_store_byte fast_store_bytes a size src off;;
    asm_for_addresses a size (fun page => asm_set_flag page flags);;
    modify (fun m => asm_set_caches U64_MAX U64_MAX (asm_load_reservation_address m) m))
    (wx_init_pages (R := u64_register) a size flags src off) m.
Proof.
  intros Hm Ha Hs Ho Hf Hsrc Hal Hsl Hb Hoff. pose proof (asm_view_ok m Hm) as Hv.
  destruct Ha as [Ha1 Ha2], Hs as [Hs1 Hs2], Ho as [Ho1 Ho2]. pose proof (ao_size m Hm) as [_ Hmax].
  destruct (wx_init_pages_eq u64_register u64_ok (asm_view m) a size flags off src) as [Hw _]; try done.
  unfold agrees. rewrite Hw. unfold asm_for_addresses.
  assert (Hcnt : Z.to_nat ((wadd 64 a size - a + RISCV_PAGESIZE - 1) / RISCV_PAGESIZE) = Z.to_nat (size / 4096)).
  { unfold wadd. rewrite wrap_small by (split; lia). change RISCV_PAGESIZE with 4096. f_equal. dlia. }
  rewrite Hcnt. destruct (asm_pages_eq m Hm) as [_ Hps]. set (n := Z.to_nat (size / 4096)).
  assert (Hn : Z.of_nat n = size / 4096) by (subst n; rewrite Z2Nat.id; [done|apply Z.div_pos; lia]).
  assert (Hrange : 0 <= a / 4096 + 0 /\ a / 4096 + 0 + Z.of_nat n <= asm_pages m).
  { rewrite Hn. split; [|dlia]. assert (0 <= a / 4096) by (apply Z.div_pos; lia). lia. }
  destruct Hrange as [Hr1 Hr2].
  pose proof (not_freezed_loop a 0 n m Hm Hr1 Hr2) as Hl. rewrite Z.add_0_r in *.
  change (flat_flags (asm_view m)) with (asm_flags m).
  destruct (first_frozen (asm_flags m) (a / 4096) n); [by erewrite bind_Err by exact Hl|].
  erewrite bind_Ok by exact Hl.
  destruct (fill_lockstep a size src off m (asm_view m)) as (x & m1 & v1 & E1 & E1' & (Hf1 & _) & Hev1);
    [by split; [apply filling_start|]|done|dlia|done|done|done|done|].
  destruct (filling_done _ _ _ Hf1) as [Hm1 Ev1].
  change (fill_page_data flat_store_byte flat_store_bytes a size src off (asm_view m))
    with (flat_init_pages (R := u64_register) a size flags src off (asm_view m)) in E1'.
  rewrite flat_init_pages_spec in E1' by (done || (split; lia)). injection E1' as _ E1'.
  erewrite bind_Ok by exact E1.
  destruct (set_flag_loop flags a 0 n m1) as (m2 & E2 & Hm2 & Hev2 & Ev2); [done|done|lia| |].
  { rewrite Z.add_0_r. unfold asm_pages in *. destruct Hev1 as [-> _]. done. }
  erewrite bind_Ok by exact E2. unfold modify. rewrite !Z.add_0_r in Ev2.
  split_and!; [done|by apply reset_caches|by do 2 (etrans; [eassumption|])|].
  change (asm_view (asm_set_caches _ _ _ m2)) with (asm_view m2).
  by rewrite Ev2, <- Ev1, <- E1', fill_mark.
Qed.

Lemma round_up_aligned x : in_u 64 x -> round_page_up x = x -> x mod 4096 = 0.
Proof.
  unfold round_page_up. change RISCV_PAGESIZE with (2 ^ 12). intros Hx. rewrite roundup_eq by done.
  change (2 ^ 12) with 4096. destruct (neg_mod_up x 4096 eq_refl) as [H1 H2]. destruct Hx.
  destruct (decide (x + - x mod 4096 < 2 ^ 64)).
  - rewrite wrap_small by (split; lia). intros E. replace ((- x) mod 4096) with 0 in * by lia.
    by rewrite Z.add_0_r in H1.
  - replace (x + - x mod 4096) with (x + - x mod 4096 - 2 ^ 64 + 1 * 2 ^ 64) by lia.
    unfold wrap. rewrite Z_mod_plus_full, Z.mod_small by lia. lia.
Qed.

(** [init_pages] for a range that does not wrap around. *)
Lemma asm_init_pages_agrees a size flags off src m :
  asm_ok m -> in_u 64 a -> in_u 64 size -> in_u 64 off -> is_byte flags -> a + size < 2 ^ 64 ->
  match src with Some l => Forall is_byte l | None => True end ->
  agrees (asm_init_pages a size flags src off)
    (wx_init_pages (R := u64_register) a size flags src off) m.
Proof.
  intros Hm Ha Hs Ho Hf Hnw Hsrc. pose proof (asm_init_pages_fills a size flags off src m) as Hfill.
  revert Hfill. unfold agrees, asm_init_pages.
  destruct (wx_init_pages a size flags src off (WXorX (asm_view m))) as [ow vw] eqn:Ew. revert Ew.
  unfold wx_init_pages. change (wx_memory_size (WXorX (asm_view m))) with (asm_memory_size m).
  destruct (negb (round_page_down a =? a)) eqn:E1; [by intros [= <- <-]|].
  destruct (negb (round_page_up size =? size)) eqn:E2; [by intros [= <- <-]|].
  destruct (asm_memory_size m <? a) eqn:E3; [by intros [= <- <-]|].
  destruct ((asm_memory_size m <? size) || (asm_memory_size m <? wadd 64 a size)) eqn:E4; [by intros [= <- <-]|].
  destruct (size <? off) eqn:E5; [by intros [= <- <-]|]. intros Ew.
  intros Hfill. apply Hfill; try done; clear Hfill Ew; bool_hyps;
    destruct Ha, Hs; unfold wadd in *; rewrite ?wrap_small in * by (split; lia).
  - rewrite round_page_down_eq in E1 by by split. dlia.
  - by apply round_up_aligned.
  - lia.
  - lia.
Qed.

(** C20: [init_pages] of the assembly machine, which loads the segments of an ELF file, agrees
    with that of the W^X flat memory.  The frames the segment covers are marked as
    initialized without being filled, those it covers in part are filled first, and the
    frozen pages are looked for before the first write: the segment, the zeros around it,
    the page flags and the failures are the same.  The range must not wrap around 2^64. *)
Theorem asm_init_pages_refines (m : AsmMemory) (a size flags off : Z) (src : option (list Z)) :
  asm_ok m -> in_u 64 a -> in_u 64 size -> in_u 64 off -> is_byte flags -> a + size < 2 ^ 64 ->
  match src with Some l => Forall is_byte l | None => True end ->
  agrees (init_pages (R := u64_register) a size flags src off)
    (init_pages (R := u64_register) a size flags src off) m.
Proof. apply asm_init_pages_agrees. Qed.

Lemma asm_init_pages_refines_witness :
  agrees (init_pages (R := u64_register) 4096 8192 FLAG_EXECUTABLE (Some [1; 2; 3]) 5)
    (init_pages (R := u64_register) 4096 8192 FLAG_EXECUTABLE (Some [1; 2; 3]) 5) one_frame.
Proof.
  apply (asm_init_pages_refines one_frame 4096 8192 FLAG_EXECUTABLE 5 (Some [1; 2; 3]));
    [exact one_frame_ok|split; lia..|split; vm_compute; congruence|lia|].
  repeat constructor; lia.
Defined.
