(* ===== verification/AsmOk.v ===== *)
(** The assembly machine's memory has the safety contract of the interpreter's: it
    follows from the agreement with the W^X flat memory.  The theorems on the machine over
    any memory with the contract hold of the assembly machine. *)
From S2P Require Import Prelude Outcome Bits Register RegisterFacts Insts Memory MemoryFacts.
From S2P Require Import MemoryOk WXorXFacts Machine Core Asm AsmFacts AsmRefine.
From stdpp Require Import base list numbers.
Open Scope Z_scope.

Local Abbreviation AM := AsmMemory.
Local Abbreviation WM := (WXorXMemory (FlatMemory u64_register)).

(** What the W^X memory guarantees, an operation that agrees with it does. *)
Lemma agrees_stable {A} (c : ST AM A) (w : ST WM A) (Q : A -> Prop) :
  (forall m, asm_ok m -> agrees c w m) -> stable wx_ok same_size w Q -> stable asm_ok same_size c Q.
Proof.
  intros Hc Hw m Hm. specialize (Hc m Hm). specialize (Hw (WXorX (asm_view m)) (asm_view_ok m Hm)).
  unfold agrees, wp in *. destruct (c m) as [[x|e|] m'], (w _) as [[y|e'|] v]; try done.
  - destruct Hc as (-> & Hm' & [Hs _] & _), Hw as (HQ & _). done.
  - destruct Hc as (Hm' & _ & Hs & _). done.
Qed.

#[export] Instance asm_memory_ok : MemoryOk u64_register AsmMemory.
Proof.
  pose (wx := wxorx_memory_ok (R := u64_register) (M := FlatMemory u64_register)).
  refine {| mem_ok := asm_ok; mem_max := 2 ^ 64 - 1 |}.
  - apply ao_size.
  - apply ao_lr.
  - intros v Hv. by eapply agrees_stable; [intros; by apply asm_set_lr_agrees|by apply (mem_set_lr (MemoryOk := wx))].
  - intros a Ha. eapply agrees_stable; [intros m Hm; apply (asm_word_accesses m a a Hm Ha Ha)|by apply (mem_load8 (MemoryOk := wx))].
  - intros a Ha. eapply agrees_stable; [intros m Hm; apply (asm_word_accesses m a a Hm Ha Ha)|by apply (mem_load16 (MemoryOk := wx))].
  - intros a Ha. eapply agrees_stable; [intros m Hm; apply (asm_word_accesses m a a Hm Ha Ha)|by apply (mem_load32 (MemoryOk := wx))].
  - intros a Ha. eapply agrees_stable; [intros m Hm; apply (asm_word_accesses m a a Hm Ha Ha)|by apply (mem_load64 (MemoryOk := wx))].
  - intros a v Ha Hv. eapply agrees_stable; [intros m Hm; apply (asm_word_accesses m a v Hm Ha Hv)|by apply (mem_store8 (MemoryOk := wx))].
  - intros a v Ha Hv. eapply agrees_stable; [intros m Hm; apply (asm_word_accesses m a v Hm Ha Hv)|by apply (mem_store16 (MemoryOk := wx))].
  - intros a v Ha Hv. eapply agrees_stable; [intros m Hm; apply (asm_word_accesses m a v Hm Ha Hv)|by apply (mem_store32 (MemoryOk := wx))].
  - intros a v Ha Hv. eapply agrees_stable; [intros m Hm; apply (asm_word_accesses m a v Hm Ha Hv)|by apply (mem_store64 (MemoryOk := wx))].
  - intros a Ha. eapply agrees_stable; [intros m Hm; apply (asm_word_accesses m a a Hm Ha Ha)|by apply (mem_execute_load16 (MemoryOk := wx))].
  - intros a Ha. eapply agrees_stable; [intros m Hm; apply (asm_word_accesses m a a Hm Ha Ha)|by apply (mem_execute_load32 (MemoryOk := wx))].
  - intros a n Ha Hn. eapply agrees_stable; [intros; by apply asm_load_bytes_agrees|by apply (mem_load_bytes (MemoryOk := wx))].
  - intros a l Ha Hn Hl. eapply agrees_stable; [intros; by apply asm_store_bytes_agrees|by apply (mem_store_bytes (MemoryOk := wx))].
  - intros a n v Ha Hn Hv. eapply agrees_stable; [intros; by apply asm_store_byte_agrees|by apply (mem_store_byte (MemoryOk := wx))].
  - intros p Hp. eapply agrees_stable; [intros; apply asm_fetch_flag_agrees; [done|apply Hp]|by apply (mem_fetch_flag (MemoryOk := wx))].
Defined.
