(* ===== verification/TracesFacts.v ===== *)
(** The traces the assembly interpreter runs: a trace holds the basic block at its
    address, cut at 16 instructions; a dynamic trace holds the rest of a longer block. *)
From S2P Require Import Prelude Outcome Bits Register RegisterFacts Insts InstsFacts Memory Machine Core.
From S2P Require Import Execute Decoder Run Demo Asm Traces.
From stdpp Require Import base list numbers gmap.
Open Scope Z_scope.

Section facts.
Context (asm_labels : Z -> Z) (asm_execute_address : Z).
Context {Sy De : Type}.
Local Abbreviation DM := (DefaultMachine u64_register AsmMemory Sy De).
Local Abbreviation label := (label_from_fastpath_opcode asm_labels asm_execute_address).
Local Abbreviation last_thread := (trace_end asm_labels asm_execute_address).

(** * Blocks *)

(** The thread of an instruction. *)
Definition labelled (i : Instruction) : Instruction * Z := (i, label (extract_opcode i)).

(** The pc behind a block, and what the block costs. *)
Definition block_end (pc : Z) (l : list Instruction) : Z :=
  foldl (fun pc i => wadd 64 pc (instruction_length i)) pc l.
Definition block_cycles (f : Instruction -> Z) (l : list Instruction) : Z :=
  foldl (fun c i => wadd 64 c (f i)) 0 l.
Definition block_length (l : list Instruction) : Z := foldr (fun i n => instruction_length i + n) 0 l.

(** A block is complete when its last instruction ends a basic block. *)
Definition complete (l : list Instruction) : bool :=
  match last l with Some i => is_basic_block_end_instruction i | None => false end.

Section block.
Context {D : Type} `{!InstDecoder AsmMemory D}.

(** At most [n] instructions from [pc] on, up to the end of the basic block. *)
Fixpoint fetch_block (n : nat) (pc : Z) : ST (D * DM) (list Instruction) :=
  match n with
  | O => mret []
  | S n' =>
      i ← trace_decode pc;
      if is_basic_block_end_instruction i then mret [i]
      else l ← fetch_block n' (wadd 64 pc (instruction_length i)); mret (i :: l)
  end.

(** The cost model does not change. *)
Lemma trace_decode_cost pc (s : D * DM) :
  dm_instruction_cycle_func (trace_decode pc s).2.2 = dm_instruction_cycle_func s.2.
Proof. unfold trace_decode, zoom. by destruct (inst_decode pc _). Qed.

Lemma fetch_block_cost n pc (s : D * DM) :
  dm_instruction_cycle_func (fetch_block n pc s).2.2 = dm_instruction_cycle_func s.2.
Proof.
  revert pc s. induction n as [|n IH]; intros pc s; [done|]. cbn [fetch_block].
  unfold mbind, ST_bind. pose proof (trace_decode_cost pc s) as E.
  destruct (trace_decode pc s) as [[i|e|] s1]; [|done..]. cbn [snd] in E.
  destruct (is_basic_block_end_instruction i); [done|]. specialize (IH (wadd 64 pc (instruction_length i)) s1).
  destruct (fetch_block n _ s1) as [[l|e|] s2]; cbn in *; congruence.
Qed.

Lemma trace_decode_pc pc0 (s : D * DM) :
  dc_pc (dm_inner (trace_decode pc0 s).2.2) = dc_pc (dm_inner s.2).
Proof. unfold trace_decode, zoom. by destruct (inst_decode pc0 _). Qed.

Lemma fetch_block_pc n pc0 (s : D * DM) :
  dc_pc (dm_inner (fetch_block n pc0 s).2.2) = dc_pc (dm_inner s.2).
Proof.
  revert pc0 s. induction n as [|n IH]; intros pc0 s; [done|]. cbn [fetch_block].
  unfold mbind, ST_bind. pose proof (trace_decode_pc pc0 s) as E.
  destruct (trace_decode pc0 s) as [[i|e|] s1]; [|done..]. cbn [snd] in E.
  destruct (is_basic_block_end_instruction i); [done|]. specialize (IH (wadd 64 pc0 (instruction_length i)) s1).
  destruct (fetch_block n _ s1) as [[l|e|] s2]; cbn in *; congruence.
Qed.

(** ** The shape of a block *)

Lemma fetch_block_shape n pc (s s' : D * DM) l : fetch_block n pc s = (Ok l, s') ->
  (length l <= n)%nat /\ (complete l = true \/ length l = n) /\
  Forall (fun i => is_basic_block_end_instruction i = false) (take (length l - 1) l) /\
  (n <> O -> l <> []).
Proof.
  revert pc s l. induction n as [|n IH]; intros pc s l; cbn [fetch_block].
  { intros [= <- <-]. split_and!; [done|by right|constructor|done]. }
  unfold mbind, ST_bind. destruct (trace_decode pc s) as [[i|e|] s1]; [|done..].
  destruct (is_basic_block_end_instruction i) eqn:Ei.
  { intros [= <- <-]. split_and!; [cbn; lia|by left|constructor|done]. }
  destruct (fetch_block n _ s1) as [[l'|e|] s2] eqn:E; [|done..]. intros [= <- <-].
  destruct (IH _ _ _ E) as (Hl & Hc & Hf & Hne). destruct l' as [|j l'].
  - cbn in *. split_and!; [lia| |constructor|done]. right. destruct Hc; [done|]. lia.
  - cbn [length] in *. split_and!; [lia| | |done].
    + destruct Hc as [Hc|Hc]; [left|right; lia]. exact Hc.
    + replace (S (S (length l')) - 1)%nat with (S (length l')) by lia. cbn [take]. constructor; [done|].
      by replace (S (length l') - 1)%nat with (length l') in Hf by lia.
Qed.

(** A block fetched in two parts. *)
Lemma fetch_block_app n k pc (s : D * DM) :
  fetch_block (n + k) pc s =
  (l ← fetch_block n pc;
   if complete l then mret l else l' ← fetch_block k (block_end pc l); mret (l ++ l')) s.
Proof.
  revert pc s. induction n as [|n IH]; intros pc s; cbn [fetch_block Nat.add].
  { unfold mbind, ST_bind. cbn. by destruct (fetch_block k pc s) as [[]?]. }
  unfold mbind, ST_bind. destruct (trace_decode pc s) as [[i|e|] s1]; [|done..].
  destruct (is_basic_block_end_instruction i) eqn:Ei; [cbn; by rewrite Ei|].
  rewrite IH. unfold mbind, ST_bind. destruct (fetch_block n _ s1) as [[l|e|] s2]; [|done..]. cbn.
  assert (Hc : complete (i :: l) = complete l).
  { destruct l as [|j l]; [|done]. unfold complete. cbn. done. }
  rewrite Hc. destruct (complete l); [done|]. by destruct (fetch_block k _ s2) as [[]?].
Qed.
End block.

(** * The layout of a trace *)

Lemma thread_words_app l1 l2 : thread_words (l1 ++ l2) = thread_words l1 ++ thread_words l2.
Proof. unfold thread_words. by rewrite map_app, concat_app. Qed.

Lemma thread_words_length l : length (thread_words l) = (2 * length l)%nat.
Proof. induction l as [|[i w] l IH]; [done|]. change (S (S (length (thread_words l))) = (2 * S (length l))%nat). lia. Qed.

(** A trace with the threads [l] and nothing behind them. *)
Definition trace_with (address length_ cycles : Z) (l : list (Instruction * Z)) : FixedTrace :=
  {| ft_address := address; ft_length := length_; ft_cycles := cycles;
     ft_threads := thread_words l ++ replicate (34 - 2 * length l) 0 |}.

Lemma set_thread_next a n c l i w : (length l < 17)%nat ->
  set_thread (Z.of_nat (length l)) i w (trace_with a n c l) = trace_with a n c (l ++ [(i, w)]).
Proof.
  intros Hl. unfold set_thread, trace_with. change (ASM_TRACE_ITEM_LENGTH + 1) with 17.
  rewrite (proj2 (Z.ltb_lt _ _)) by lia. cbn [ft_threads ft_address ft_length ft_cycles]. f_equal.
  rewrite thread_words_app, length_app. cbn [length].
  replace (34 - 2 * length l)%nat with (S (S (34 - 2 * (length l + 1)))) by lia. cbn [replicate].
  pose proof (thread_words_length l) as Hw. change Instruction with Z in *.
  rewrite insert_app_r_alt by lia. replace (Z.to_nat (Z.of_nat (length l) * 2) - length (thread_words l))%nat with O by lia.
  rewrite insert_app_r_alt by lia. replace (Z.to_nat (Z.of_nat (length l) * 2 + 1) - length (thread_words l))%nat with 1%nat by lia.
  cbn. by rewrite <- app_assoc.
Qed.

Lemma ft_thread_with a n c l (k : nat) i w : (length l <= 17)%nat -> l !! k = Some (i, w) ->
  ft_thread (Z.of_nat k) (trace_with a n c l) = Some (i, w).
Proof.
  intros Hl Hk. pose proof (lookup_lt_Some _ _ _ Hk) as Hlt. unfold ft_thread, trace_with.
  change (ASM_TRACE_ITEM_LENGTH + 1) with 17. rewrite (proj2 (Z.ltb_lt _ _)) by lia. cbn [ft_threads].
  assert (Hw : thread_words l = thread_words (take k l) ++ w :: i :: thread_words (drop (S k) l)).
  { rewrite <- (take_drop_middle l k (i, w) Hk) at 1. by rewrite thread_words_app. }
  pose proof (thread_words_length (take k l)) as Ht. rewrite length_take in Ht.
  rewrite Hw, <- app_assoc. cbn [app]. change Instruction with Z in *.
  rewrite (lookup_app_r _ _ (Z.to_nat (Z.of_nat k * 2 + 1))), (lookup_app_r _ _ (Z.to_nat (Z.of_nat k * 2))) by lia.
  replace (Z.to_nat (Z.of_nat k * 2 + 1) - length (thread_words (take k l)))%nat with 1%nat by lia.
  by replace (Z.to_nat (Z.of_nat k * 2) - length (thread_words (take k l)))%nat with O by lia.
Qed.

Lemma set_thread_last a n c l x i w : (length l < 17)%nat ->
  set_thread (Z.of_nat (length l)) i w (trace_with a n c (l ++ [x])) = trace_with a n c (l ++ [(i, w)]).
Proof.
  intros Hl. unfold set_thread, trace_with. change (ASM_TRACE_ITEM_LENGTH + 1) with 17.
  rewrite (proj2 (Z.ltb_lt _ _)) by lia. cbn [ft_threads ft_address ft_length ft_cycles]. f_equal.
  rewrite !thread_words_app, !length_app. cbn [length]. destruct x as [i' w'].
  pose proof (thread_words_length l) as Hw. change Instruction with Z in *. rewrite <- !app_assoc.
  rewrite insert_app_r_alt by lia. replace (Z.to_nat (Z.of_nat (length l) * 2) - length (thread_words l))%nat with O by lia.
  rewrite insert_app_r_alt by lia. replace (Z.to_nat (Z.of_nat (length l) * 2 + 1) - length (thread_words l))%nat with 1%nat by lia.
  done.
Qed.

(** * decode_fixed_trace *)

(** The trace of the block [l] at [pc]. *)
Definition fixed_trace_of (f : Instruction -> Z) (pc : Z) (l : list Instruction) : FixedTrace :=
  trace_with pc (wrap 32 (wsub 64 (block_end pc l) pc)) (block_cycles f l)
    (map labelled l ++ [last_thread]).

Lemma block_cycles_snoc f l i : block_cycles f (l ++ [i]) = wadd 64 (block_cycles f l) (f i).
Proof. unfold block_cycles. by rewrite foldl_app. Qed.

Section fixed.
Context {D : Type} `{!InstDecoder AsmMemory D}.

Lemma fill_trace_spec n l0 pc (s : D * DM) : (length l0 + n <= 16)%nat ->
  let f := dm_instruction_cycle_func s.2 in
  fill_trace asm_labels asm_execute_address n (Z.of_nat (length l0)) pc
    (trace_with 0 0 (block_cycles f l0) (map labelled l0)) s =
  (l ← fetch_block n pc;
   mret (trace_with 0 0 (block_cycles f (l0 ++ l)) (map labelled (l0 ++ l)),
         Z.of_nat (length (l0 ++ l)), block_end pc l)) s.
Proof.
  cbv zeta. revert l0 pc s. induction n as [|n IH]; intros l0 pc s Hn; cbn [fill_trace fetch_block].
  { unfold mbind, ST_bind, mret, ST_ret. by rewrite app_nil_r. }
  unfold mbind, ST_bind, gets, mret, ST_ret. pose proof (trace_decode_cost pc s) as Hf.
  destruct (trace_decode pc s) as [[i|e|] s1]; [|done..]. cbn [snd] in Hf. rewrite Hf.
  assert (Ht : set_thread (Z.of_nat (length l0)) i (label (extract_opcode i))
      (ft_add_cycles (dm_instruction_cycle_func s.2 i)
         (trace_with 0 0 (block_cycles (dm_instruction_cycle_func s.2) l0) (map labelled l0))) =
    trace_with 0 0 (block_cycles (dm_instruction_cycle_func s.2) (l0 ++ [i])) (map labelled (l0 ++ [i]))).
  { rewrite block_cycles_snoc, map_app. rewrite <- (length_map labelled l0).
    apply set_thread_next. rewrite length_map. lia. }
  rewrite Ht. destruct (is_basic_block_end_instruction i).
  - rewrite length_app. cbn [length]. by replace (Z.of_nat (length l0 + 1)) with (Z.of_nat (length l0) + 1) by lia.
  - specialize (IH (l0 ++ [i]) (wadd 64 pc (instruction_length i)) s1). rewrite Hf in IH.
    rewrite length_app in IH. cbn [length] in IH.
    replace (Z.of_nat (length l0 + 1)) with (Z.of_nat (length l0) + 1) in IH by lia.
    rewrite IH by lia. unfold mbind, ST_bind, mret, ST_ret.
    destruct (fetch_block n _ s1) as [[l|e|] s2]; [|done..]. by rewrite <- app_assoc.
Qed.

Lemma decode_fixed_trace_eq max (s : D * DM) :
  decode_fixed_trace asm_labels asm_execute_address max s =
  (let size := match max with Some items => Z.min items 16 | None => 16 end in
   l ← fetch_block (Z.to_nat size) (pc s.2 : reg u64_register);
   mret (fixed_trace_of (dm_instruction_cycle_func s.2) (pc s.2) l, Z.of_nat (length l) + 1)) s.
Proof.
  unfold decode_fixed_trace. change ASM_TRACE_ITEM_LENGTH with 16. cbv zeta.
  set (size := match max with Some items => Z.min items 16 | None => 16 end).
  assert (Hs : (length (@nil Instruction) + Z.to_nat size <= 16)%nat) by (cbn; subst size; destruct max; lia).
  pose proof (fill_trace_spec (Z.to_nat size) [] (pc s.2 : reg u64_register) s Hs) as Hf. cbv zeta in Hf.
  change (trace_with 0 0 _ (map labelled [])) with FixedTrace_default in Hf.
  unfold mbind at 1, ST_bind at 1, gets. unfold mbind at 1, ST_bind at 1.
  change (Z.of_nat (length [])) with 0 in Hf. rewrite Hf.
  pose proof (fun l s' => fetch_block_shape (Z.to_nat size) (pc s.2 : reg u64_register) s s' l) as Hshape.
  unfold mbind, ST_bind, mret, ST_ret.
  destruct (fetch_block (Z.to_nat size) _ s) as [[l|e|] s']; [|done..]. cbn [app].
  destruct (Hshape l s' eq_refl) as [Hl _].
  rewrite <- (length_map labelled l) at 1. rewrite set_thread_next by (rewrite length_map; cbn in Hs; lia).
  done.
Qed.
End fixed.

(** ** A decoder inside another fetches the same blocks *)

Section inner.
Context {D T : Type} {HD : InstDecoder AsmMemory D} {HT : InstDecoder AsmMemory T}.
Context (get : T -> D) (set : D -> T -> T).
Hypothesis set_get : forall t, set (get t) t = t.
Hypothesis get_set : forall t d, get (set d t) = d.
Hypothesis set_set : forall t d d', set d' (set d t) = set d' t.
Hypothesis decode_inner : forall pc, inst_decode (D := T) pc = with_decoder get set (inst_decode pc).

Lemma inner_fetch n pc (s : T * DM) : with_decoder get set (fetch_block n pc) s = fetch_block n pc s.
Proof.
  revert pc s. induction n as [|n IH]; intros pc [t m].
  { unfold with_decoder, zoom, fetch_block, mret, ST_ret. cbn [fst snd]. by rewrite set_get. }
  assert (E : trace_decode pc (t, m) = with_decoder get set (trace_decode pc) (t, m)).
  { unfold trace_decode. rewrite decode_inner. unfold with_decoder, zoom. cbn [fst snd].
    by destruct (inst_decode pc _). }
  cbn [fetch_block]. unfold mbind, ST_bind, mret, ST_ret. rewrite E. unfold with_decoder, zoom. cbn [fst snd].
  destruct (trace_decode pc (get t, m)) as [[i|e|] [d1 m1]]; cbn [fst snd]; [|done..].
  destruct (is_basic_block_end_instruction i); [done|]. rewrite <- IH.
  unfold with_decoder, zoom. cbn [fst snd]. rewrite get_set.
  by destruct (fetch_block n _ _) as [[l|e|] [d2 m2]]; cbn [fst snd]; rewrite set_set.
Qed.

Lemma inner_decode_fixed max (s : T * DM) :
  with_decoder get set (decode_fixed_trace asm_labels asm_execute_address max) s =
  decode_fixed_trace asm_labels asm_execute_address max s.
Proof.
  rewrite decode_fixed_trace_eq. cbv zeta.
  set (size := Z.to_nat (match max with Some items => Z.min items 16 | None => 16 end)).
  unfold mbind, ST_bind, mret, ST_ret. rewrite <- inner_fetch. destruct s as [t m].
  unfold with_decoder, zoom. cbn [fst snd]. rewrite decode_fixed_trace_eq. cbv zeta. fold size.
  unfold mbind, ST_bind, mret, ST_ret. cbn [fst snd].
  by destruct (fetch_block size _ (get t, m)) as [[l|e|] [d1 m1]].
Qed.
End inner.

(** ** Lengths *)

Lemma instruction_length_bound i : 0 <= instruction_length i <= 30.
Proof. rewrite instruction_length_byte. pose proof (wrap_range 4 (Z.shiftr i 24) ltac:(lia)) as [? ?]. lia. Qed.

Lemma block_length_range l : 0 <= block_length l <= 30 * Z.of_nat (length l).
Proof.
  induction l as [|i l IH]; [done|]. unfold block_length in *. cbn [foldr length].
  pose proof (instruction_length_bound i). lia.
Qed.

Lemma block_end_eq pc l : in_u 64 pc -> block_end pc l = wrap 64 (pc + block_length l).
Proof.
  unfold block_end, block_length. revert pc. induction l as [|i l IH]; intros pc Hpc; cbn [foldl foldr].
  - by rewrite Z.add_0_r, wrap_small.
  - rewrite IH by (apply wrap_range; lia). unfold wadd. rewrite wrap_add_l. f_equal. lia.
Qed.

Lemma block_length_app l1 l2 : block_length (l1 ++ l2) = block_length l1 + block_length l2.
Proof. unfold block_length. induction l1 as [|i l1 IH]; [done|]. cbn [app foldr]. rewrite IH. lia. Qed.

Lemma block_end_length pc l : in_u 64 pc -> block_length l < 2 ^ 32 ->
  wrap 32 (wsub 64 (block_end pc l) pc) = block_length l.
Proof.
  intros Hpc Hl. pose proof (block_length_range l). rewrite block_end_eq by done.
  unfold wsub, Z.sub. rewrite wrap_add_l. replace (pc + block_length l + - pc) with (block_length l) by lia.
  rewrite (wrap_small 64) by (split; lia). apply wrap_small. split; lia.
Qed.

(** * Dynamic traces *)

Definition dynamic_trace_of (f : Instruction -> Z) (pc : Z) (l : list Instruction) : DynamicTrace :=
  {| dt_address := pc; dt_length := block_length l; dt_cycles := block_cycles f l;
     dt_threads := thread_words (map labelled l ++ [last_thread]) |}.

(** The builder after the instructions [l]. *)
Definition builder_of (f : Instruction -> Z) (pc : Z) (l : list Instruction) : DynamicTraceBuilder :=
  {| db_start_address := pc; db_length := block_length l; db_cycles := block_cycles f l;
     db_insts := map labelled l |}.

Lemma builder_push_of f pc l i : block_length (l ++ [i]) < 2 ^ 32 ->
  builder_push asm_labels asm_execute_address i (f i) (builder_of f pc l) = builder_of f pc (l ++ [i]).
Proof.
  intros Hl. unfold builder_push, builder_of. cbn. rewrite block_cycles_snoc, map_app. f_equal.
  pose proof (block_length_range (l ++ [i])). rewrite block_length_app in *. cbn in *.
  unfold wadd. rewrite wrap_small by (split; lia). lia.
Qed.

Lemma builder_build_of f pc l :
  builder_build asm_labels asm_execute_address (builder_of f pc l) = dynamic_trace_of f pc l.
Proof. done. Qed.

Lemma builder_next_of f pc l : in_u 64 pc -> builder_next_pc (builder_of f pc l) = block_end pc l.
Proof. intros. by rewrite block_end_eq. Qed.

Lemma block_end_app pc l i : block_end pc (l ++ [i]) = wadd 64 (block_end pc l) (instruction_length i).
Proof. unfold block_end. by rewrite foldl_app. Qed.

Lemma block_end_range pc l : in_u 64 pc -> in_u 64 (block_end pc l).
Proof. intros Hp. rewrite block_end_eq by done. apply wrap_range. lia. Qed.

Section dynamic.
Context {D : Type} `{!InstDecoder AsmMemory D}.
Local Abbreviation MD := (MemoizedDynamicTraceDecoder (D := D)).

(** The loop fetches the rest of the block, however long, and keeps it. *)
Lemma dynamic_loop_eq fuel pc l0 (s : MD * DM) : in_u 64 pc ->
  30 * Z.of_nat (length l0 + fuel) < 2 ^ 32 ->
  let f := dm_instruction_cycle_func s.2 in
  dynamic_loop asm_labels asm_execute_address fuel (builder_of f pc l0) s =
  match fetch_block fuel (block_end pc l0) s with
  | (Ok l, s') => if complete l then Some (Ok (builder_of f pc (l0 ++ l)), s') else None
  | (Err e, s') => Some (Err e, s')
  | (Panic, s') => Some (Panic, s')
  end.
Proof.
  intros Hpc. cbv zeta. revert l0 s. induction fuel as [|fuel IH]; intros l0 s Hl; [done|].
  cbn [dynamic_loop fetch_block]. unfold dynamic_iteration. rewrite builder_next_of by done.
  unfold mbind, ST_bind, gets, mret, ST_ret. pose proof (trace_decode_cost (block_end pc l0) s) as Hf.
  destruct (trace_decode (block_end pc l0) s) as [[i|e|] s1]; [|done..]. cbn [snd] in Hf. rewrite Hf.
  pose proof (block_length_range (l0 ++ [i])) as Hr. rewrite length_app in Hr. cbn [length] in Hr.
  rewrite builder_push_of by lia.
  destruct (is_basic_block_end_instruction i) eqn:Ei.
  - unfold complete. cbn [last]. by rewrite Ei.
  - rewrite <- Hf. rewrite IH by (rewrite length_app; cbn [length]; lia). rewrite block_end_app.
    destruct (fetch_block fuel _ s1) as [[l|e|] s2]; [|done..].
    assert (complete (i :: l) = complete l) as ->.
    { destruct l; [|done]. unfold complete. cbn [last]. by rewrite Ei. }
    by rewrite <- app_assoc.
Qed.

Lemma on_md_sf_fetch n pc (s : MD * DM) : on_md (on_sf (fetch_block n pc)) s = fetch_block n pc s.
Proof.
  rewrite <- (inner_fetch md_inner md_set_inner); [|by intros []..|done].
  unfold on_md, with_decoder at 1 2, zoom. unfold on_sf.
  by rewrite (inner_fetch sf_decoder sf_set_decoder) by (by intros []).
Qed.

(** Fetching leaves the traces alone. *)
Lemma fetch_block_md n pc (s : MD * DM) :
  let t := (fetch_block n pc s).2.1 in
  sf_traces (md_inner t) = sf_traces (md_inner s.1) /\ md_fixed_cache t = md_fixed_cache s.1 /\
  md_dynamic_cache t = md_dynamic_cache s.1.
Proof.
  rewrite <- on_md_sf_fetch. cbv zeta. unfold on_md, on_sf, with_decoder, zoom.
  by destruct (fetch_block n pc _).
Qed.

Lemma on_md_decode_fixed max (s : MD * DM) :
  on_md (on_sf (decode_fixed_trace asm_labels asm_execute_address max)) s =
  decode_fixed_trace asm_labels asm_execute_address max s.
Proof.
  rewrite <- (inner_decode_fixed md_inner md_set_inner); [|by intros []..|done].
  unfold on_md, with_decoder at 1 2, zoom. unfold on_sf.
  by rewrite (inner_decode_fixed sf_decoder sf_set_decoder) by (by intros []).
Qed.

Local Abbreviation ready := (sf_put_here (D := D)).

(** [prepare_traces] puts a trace into the slot of the pc. *)
Lemma put_here_md tr (s : MD * DM) : length (sf_traces (md_inner s.1)) = Z.to_nat ASM_TRACE_SIZE ->
  exists s', on_md (ready tr) s = (Ok tt, s') /\ s'.2 = s.2 /\
    sf_traces (md_inner s'.1) !! Z.to_nat (asm_calculate_slot (pc s.2 : reg u64_register)) = Some tr /\
    md_dynamic_cache s'.1 = md_dynamic_cache s.1.
Proof.
  intros Hl. destruct s as [t m]. unfold on_md, with_decoder, zoom, sf_put_here, sf_put. cbn [fst snd] in *.
  set (slot := Z.to_nat (asm_calculate_slot (pc m : reg u64_register))).
  assert (Hs : (slot < Z.to_nat ASM_TRACE_SIZE)%nat).
  { unfold slot, asm_calculate_slot. change (ASM_TRACE_SIZE - 1) with (Z.ones 13).
    rewrite Z.land_ones by lia. change (2 ^ 13) with 8192. change ASM_TRACE_SIZE with 8192.
    pose proof (Z.mod_pos_bound (Z.shiftr (pc m : reg u64_register) 2) 8192). lia. }
  destruct (lookup_lt_is_Some_2 (sf_traces (md_inner t)) slot) as [x ->]; [lia|].
  eexists. split; [reflexivity|]. cbn. split_and!; [done| |done]. apply list_lookup_insert_eq. lia.
Qed.

(** The dynamic trace for the code behind a fixed trace. *)
Lemma find_or_build_eq box fuel next (s s' : MD * DM) p : in_u 64 next ->
  30 * Z.of_nat fuel < 2 ^ 32 ->
  find_or_build_dynamic_trace asm_labels asm_execute_address box fuel next s = Some (Ok p, s') ->
  exists d, md_dynamic_cache s'.1 !! next = Some (p, d) /\
    sf_traces (md_inner s'.1) = sf_traces (md_inner s.1) /\
    dc_pc (dm_inner s'.2) = dc_pc (dm_inner s.2) /\
    (md_dynamic_cache s.1 !! next = None ->
     exists l t, fetch_block fuel next s = (Ok l, (t, s'.2)) /\ complete l = true /\
       d = dynamic_trace_of (dm_instruction_cycle_func s.2) next l).
Proof.
  intros Hn Hf. unfold find_or_build_dynamic_trace.
  destruct (md_dynamic_cache s.1 !! next) as [[p' d]|] eqn:Ec.
  { intros [= <- <-]. exists d. done. }
  pose proof (dynamic_loop_eq fuel next [] s Hn Hf) as Hl. cbv zeta in Hl.
  change (builder_of _ next []) with (builder_start next) in Hl. rewrite Hl.
  change (block_end next []) with next. pose proof (fetch_block_md fuel next s) as Hmd. cbv zeta in Hmd.
  pose proof (fetch_block_pc fuel next s) as Hpc.
  destruct (fetch_block fuel next s) as [[l|e|] s1] eqn:El; [|done..]. cbn [fst snd] in Hmd, Hpc.
  destruct (complete l) eqn:Hc; [|done]. cbn [app]. rewrite builder_build_of.
  unfold md_insert_dynamic. intros [= <- <-]. exists (dynamic_trace_of (dm_instruction_cycle_func s.2) next l).
  cbn. destruct Hmd as (Ht & _). split; [apply lookup_insert_eq|]. split; [done|].
  split; [done|]. intros _. exists l, s1.1. destruct s1. done.
Qed.

(** What [prepare_traces] leaves for a pc without a cached trace. *)
Definition block_traces (fuel : nat) (s s' : MD * DM) : Prop :=
  let pc0 := (pc s.2 : reg u64_register) in
  let f := dm_instruction_cycle_func s.2 in
  exists l s1 tr, fetch_block 16 pc0 s = (Ok l, s1) /\
    sf_traces (md_inner s'.1) !! Z.to_nat (asm_calculate_slot pc0) = Some tr /\
    ft_address tr = pc0 /\ ft_length tr = block_length l /\ ft_cycles tr = block_cycles f l /\
    (forall k i, l !! k = Some i -> ft_thread (Z.of_nat k) tr = Some (labelled i)) /\
    if complete l then ft_thread (Z.of_nat (length l)) tr = Some last_thread /\ s'.2 = s1.2
    else length l = 16%nat /\ exists p d,
      ft_thread 16 tr = Some (p, label OP_CUSTOM_ASM_TRACE_JUMP) /\
      md_dynamic_cache s'.1 !! block_end pc0 l = Some (p, d) /\
      (md_dynamic_cache s.1 !! block_end pc0 l = None -> exists l' t,
        fetch_block fuel (block_end pc0 l) s1 = (Ok l', (t, s'.2)) /\ complete l' = true /\
        d = dynamic_trace_of f (block_end pc0 l) l').

(** The threads of a trace of at most 16 instructions, with [x] behind them. *)
Lemma threads_with a n c l x : (length l <= 16)%nat ->
  (forall k i, l !! k = Some i ->
   ft_thread (Z.of_nat k) (trace_with a n c (map labelled l ++ [x])) = Some (labelled i)) /\
  ft_thread (Z.of_nat (length l)) (trace_with a n c (map labelled l ++ [x])) = Some x.
Proof.
  intros Hl. assert (Hlen : (length (map labelled l ++ [x]) <= 17)%nat) by (rewrite length_app, length_map; cbn; lia).
  split.
  - intros k i Hk. apply ft_thread_with; [done|]. rewrite lookup_app_l by (rewrite length_map; by eapply lookup_lt_Some).
    change (map labelled l) with (labelled <$> l). by rewrite list_lookup_fmap, Hk.
  - destruct x as [i w]. apply ft_thread_with; [done|]. rewrite <- (length_map labelled l).
    by rewrite lookup_app_r, Nat.sub_diag by lia.
Qed.

(** The fixed trace of a block of 16 instructions, as [extend_trace] takes it. *)
Lemma extend_trace_eq box fuel f pc0 l (s : MD * DM) : in_u 64 pc0 -> (0 < length l <= 16)%nat ->
  extend_trace asm_labels asm_execute_address box fuel pc0 (fixed_trace_of f pc0 l)
    (Z.of_nat (length l) + 1) s =
  if complete l then Some (Ok (fixed_trace_of f pc0 l), s)
  else match find_or_build_dynamic_trace asm_labels asm_execute_address box fuel (block_end pc0 l) s with
       | Some (Ok p, s') =>
           Some (Ok (trace_with pc0 (block_length l) (block_cycles f l)
             (map labelled l ++ [(p, label OP_CUSTOM_ASM_TRACE_JUMP)])), s')
       | Some (Err e, s') => Some (Err e, s')
       | Some (Panic, s') => Some (Panic, s')
       | None => None
       end.
Proof.
  intros Hpc Hl. pose proof (block_length_range l) as Hr.
  assert (Hbl : wrap 32 (wsub 64 (block_end pc0 l) pc0) = block_length l) by (apply block_end_length; [done|lia]).
  unfold extend_trace, fixed_trace_of. rewrite Hbl. cbn [ft_length trace_with].
  assert (Hw2 : wsub 64 (Z.of_nat (length l) + 1) 2 = Z.of_nat (length l - 1)) by (unfold wsub; rewrite wrap_small by (split; lia); lia).
  assert (Hw1 : wsub 64 (Z.of_nat (length l) + 1) 1 = Z.of_nat (length l)) by (unfold wsub; rewrite wrap_small by (split; lia); lia).
  rewrite Hw2, Hw1. destruct (lookup_lt_is_Some_2 l (length l - 1)) as [i Hi]; [lia|].
  destruct (threads_with pc0 (block_length l) (block_cycles f l) l last_thread ltac:(lia)) as [Hth _].
  rewrite (Hth _ _ Hi). unfold labelled at 1.
  assert (is_basic_block_end_instruction i = complete l) as ->.
  { unfold complete. rewrite last_lookup. replace (Init.Nat.pred (length l)) with (length l - 1)%nat by lia. by rewrite Hi. }
  destruct (complete l); [done|]. rewrite block_end_eq by done.
  change (wrap 64 (pc0 + block_length l)) with (wadd 64 pc0 (block_length l)).
  destruct (find_or_build_dynamic_trace _ _ _ _ _ _) as [[[p|e|] s']|]; [|done..].
  rewrite <- (length_map labelled l). rewrite set_thread_last by (rewrite length_map; lia). done.
Qed.

Lemma md_prepare_block box fuel (s s' : MD * DM) :
  length (sf_traces (md_inner s.1)) = Z.to_nat ASM_TRACE_SIZE -> in_u 64 (pc s.2 : reg u64_register) ->
  md_fixed_cache s.1 !! (pc s.2 : reg u64_register) = None -> 30 * Z.of_nat fuel < 2 ^ 32 ->
  md_prepare_traces asm_labels asm_execute_address box fuel s = Some (Ok tt, s') ->
  block_traces fuel s s'.
Proof.
  intros Ht Hpc Hc Hf. unfold md_prepare_traces, block_traces. cbv zeta. rewrite Hc, on_md_decode_fixed.
  set (pc0 := pc s.2 : reg u64_register) in *. rewrite decode_fixed_trace_eq. fold pc0. cbv zeta.
  change (Z.to_nat 16) with 16%nat. unfold mbind at 1, ST_bind at 1, mret, ST_ret.
  pose proof (fetch_block_md 16 pc0 s) as Hmd. pose proof (fetch_block_cost 16 pc0 s) as Hcost.
  pose proof (fetch_block_pc 16 pc0 s) as Hpc1. cbv zeta in Hmd.
  destruct (fetch_block 16 pc0 s) as [[l|e|] s1] eqn:El; [|done..]. cbn [fst snd] in Hmd, Hcost, Hpc1.
  destruct Hmd as (Hm1 & Hm2 & Hm3). destruct (fetch_block_shape _ _ _ _ _ El) as (Hlen & Hcl & _ & Hne).
  specialize (Hne ltac:(lia)). set (f := dm_instruction_cycle_func s.2) in *.
  assert (Hl0 : (0 < length l)%nat) by (destruct l; [done|cbn; lia]).
  rewrite extend_trace_eq by (done || lia). pose proof (block_length_range l) as Hr.
  destruct (complete l) eqn:Hcomp.
  - intros [= E]. unfold fixed_trace_of in E. rewrite block_end_length in E by (done || lia).
    set (tr := trace_with _ _ _ _) in E.
    destruct (put_here_md tr (md_insert_fixed pc0 tr s1.1, s1.2)) as (s2 & E2 & Hs2 & Hslot & _); [cbn; by rewrite Hm1|].
    rewrite E2 in E. injection E as <-. cbn [snd] in Hslot.
    assert (Epc : (pc s1.2 : reg u64_register) = pc0) by exact Hpc1. rewrite Epc in Hslot.
    exists l, s1, tr. rewrite Hcomp.
    destruct (threads_with pc0 (block_length l) (block_cycles f l) l last_thread Hlen) as [Hth Hlast].
    by split_and!.
  - destruct Hcl as [|Hcl]; [congruence|].
    destruct (find_or_build_dynamic_trace _ _ _ _ _ _) as [[[p|e|] s2]|] eqn:Ed; [|done..].
    destruct (find_or_build_eq box fuel (block_end pc0 l) s1 s2 p) as (d & Hd & Hts & Hpc2 & Hdyn);
      [by apply block_end_range|done|done|].
    set (tr := trace_with _ _ _ _). intros [= E].
    destruct (put_here_md tr (md_insert_fixed pc0 tr s2.1, s2.2)) as (s3 & E3 & Hs3 & Hslot & Hbox); [cbn; by rewrite Hts, Hm1|].
    rewrite E3 in E. injection E as <-. cbn [snd] in Hslot.
    assert (Epc : (pc s2.2 : reg u64_register) = pc0) by (etrans; [exact Hpc2|exact Hpc1]). rewrite Epc in Hslot.
    exists l, s1, tr. rewrite Hcomp.
    destruct (threads_with pc0 (block_length l) (block_cycles f l) l (p, label OP_CUSTOM_ASM_TRACE_JUMP) Hlen) as [Hth Hlast].
    split_and!; try done. exists p, d. split_and!; [by rewrite Hcl in Hlast|by rewrite Hbox|].
    rewrite Hs3, <- Hm3, <- Hcost. exact Hdyn.
Qed.
End dynamic.
End facts.

(** * The theorems *)

(** C23: the trace of the assembly interpreter is the basic block at the pc.
    [decode_fixed_trace] succeeds exactly when the instructions of the block, cut at
    [maximum_insts] or 16, can be fetched one after the other, and fails with the same
    error otherwise.  The trace carries the block's address, its length in bytes (which
    does not overflow) and its cost; its threads are the instructions in order, each with
    the label of its opcode, followed by the end of the trace; no instruction but the
    last ends a basic block, and the last does unless the block was cut. *)
Theorem fixed_trace_block (labels : Z -> Z) (base : Z) (Sy De D : Type)
  (HD : InstDecoder AsmMemory D) (max : option Z)
  (s : D * DefaultMachine u64_register AsmMemory Sy De) :
  in_u 64 (pc s.2 : reg u64_register) ->
  let pc0 : Z := (pc s.2 : reg u64_register) in
  let size := Z.to_nat (match max with Some items => Z.min items 16 | None => 16 end) in
  let decoded := decode_fixed_trace labels base max s in
  match fetch_block size pc0 s with
  | (Ok l, s') => exists t, decoded = (Ok (t, Z.of_nat (length l) + 1), s') /\
      ft_address t = pc0 /\ ft_length t = block_length l /\
      ft_cycles t = block_cycles (dm_instruction_cycle_func s.2) l /\
      (forall k i, l !! k = Some i -> ft_thread (Z.of_nat k) t =
         Some (i, label_from_fastpath_opcode labels base (extract_opcode i))) /\
      ft_thread (Z.of_nat (length l)) t = Some (trace_end labels base) /\
      (length l <= size)%nat /\ (complete l = true \/ length l = size) /\
      Forall (fun i => is_basic_block_end_instruction i = false) (take (length l - 1) l)
  | (Err e, s') => decoded = (Err e, s')
  | (Panic, s') => decoded = (Panic, s')
  end.
Proof.
  intros Hpc pc0 size decoded. subst decoded. rewrite decode_fixed_trace_eq. cbv zeta.
  unfold mbind, ST_bind, mret, ST_ret. fold size. fold pc0.
  destruct (fetch_block size pc0 s) as [[l|e|] s'] eqn:E; [|done..].
  destruct (fetch_block_shape _ _ _ _ _ E) as (Hl & Hc & Hf & _).
  assert (Hsize : (size <= 16)%nat) by (subst size; destruct max; lia).
  pose proof (block_length_range l) as Hr. eexists. split; [reflexivity|].
  destruct (threads_with labels base pc0 (wrap 32 (wsub 64 (block_end pc0 l) pc0))
    (block_cycles (dm_instruction_cycle_func s.2) l) l (trace_end labels base)) as [Hth Hlast]; [lia|].
  split_and!; try done. apply block_end_length; [done|lia].
Qed.

(** C24: a block of more than 16 instructions continues in a dynamic trace.  When
    [prepare_traces] of the memoizing decoder has succeeded for a pc it had no trace for,
    the slot of the pc holds the trace of the first 16 instructions, and either these are
    the whole block and the trace ends there, or its last thread jumps to the boxed trace
    for the address behind them.  If that one is new, it holds all the rest of the basic
    block, with its length, cost and labels. *)
Theorem dynamic_trace_block (labels : Z -> Z) (base : Z)
  (box : gmap Z (Z * DynamicTrace) -> DynamicTrace -> Z) (Sy De D : Type)
  (HD : InstDecoder AsmMemory D) (fuel : nat)
  (s s' : MemoizedDynamicTraceDecoder (D := D) * DefaultMachine u64_register AsmMemory Sy De) :
  length (sf_traces (md_inner s.1)) = Z.to_nat ASM_TRACE_SIZE -> in_u 64 (pc s.2 : reg u64_register) ->
  md_fixed_cache s.1 !! (pc s.2 : reg u64_register) = None -> 30 * Z.of_nat fuel < 2 ^ 32 ->
  md_prepare_traces labels base box fuel s = Some (Ok tt, s') ->
  block_traces labels base fuel s s'.
Proof. apply md_prepare_block. Qed.

(** ** A machine with a block of twenty additions and an ecall *)

Definition asm_program : list Z :=
  concat (replicate 20 [0x13; 0x05; 0x15; 0x00]) ++ [0x73; 0x00; 0x00; 0x00].

Definition asm_demo_memory : AsmMemory :=
  {| asm_chaos_mode := 0; asm_chaos_seed := 0; asm_load_reservation_address := U64_MAX;
     asm_error_arg0 := 0; asm_memory_size := 262144; asm_frames_size := 1; asm_flags_size := 64;
     asm_last_read_frame := U64_MAX; asm_last_write_page := U64_MAX;
     asm_memory := asm_program ++ replicate (Z.to_nat (262144 - 84)) 0;
     asm_flags := FLAG_EXECUTABLE :: replicate 63 0; asm_frames := [1] |}.

Definition asm_demo : DefaultMachine u64_register AsmMemory Empty_set Empty_set :=
  build (builder_instruction_cycle_func estimate_cycles (builder_new
    {| dc_registers := replicate 32 (0 : reg u64_register); dc_pc := (0 : reg u64_register);
       dc_next_pc := (0 : reg u64_register); dc_reset_signal := false;
       dc_memory := asm_demo_memory; dc_cycles := 0; dc_max_cycles := 1000; dc_running := false;
       dc_isa := ISA_IMC; dc_version := VERSION2 |})).

Definition asm_demo_state : DefaultDecoder * DefaultMachine u64_register AsmMemory Empty_set Empty_set :=
  (decoder_new u64_register ISA_IMC VERSION2, asm_demo).

Lemma first_Ok {S A} (r : outcome A * S) (P : A -> bool) :
  match r.1 with Ok a => P a | _ => false end = true -> exists a s, r = (Ok a, s) /\ P a = true.
Proof. destruct r as [[a|e|] s]; [|done..]. intros. by exists a, s. Qed.

Lemma asm_demo_fetch : exists l s', fetch_block 16 0 asm_demo_state = (Ok l, s') /\
  (length l =? 16)%nat && (block_length l =? 64) = true.
Proof.
  apply (first_Ok _ (fun l => (length l =? 16)%nat && (block_length l =? 64))). vm_compute. reflexivity.
Qed.

Lemma fixed_trace_block_witness : exists t s',
  decode_fixed_trace (fun op => op) 0 None asm_demo_state = (Ok (t, 17), s') /\ ft_length t = 64.
Proof.
  assert (Hpc : (pc asm_demo_state.2 : reg u64_register) = 0) by reflexivity.
  pose proof (fixed_trace_block (fun op => op) 0 Empty_set Empty_set DefaultDecoder default_inst_decoder None
    asm_demo_state) as H. cbv zeta in H. rewrite Hpc in H. specialize (H ltac:(split; lia)).
  destruct asm_demo_fetch as (l & s' & E & Hl). change (Z.to_nat 16) with 16%nat in H. rewrite E in H.
  destruct H as (t & H & _ & Hlen & _). apply andb_prop in Hl as [Hn Hb].
  apply Nat.eqb_eq in Hn. apply Z.eqb_eq in Hb. exists t, s'. rewrite Hn in H. split; [exact H|by rewrite Hlen].
Defined.

Definition asm_md_state : MemoizedDynamicTraceDecoder (D := DefaultDecoder) *
  DefaultMachine u64_register AsmMemory Empty_set Empty_set :=
  (md_new u64_register ISA_IMC VERSION2, asm_demo).

Definition asm_md_prepare := md_prepare_traces (fun op => op) 0 (fun m _ => Z.of_nat (size m) + 1) 100 asm_md_state.

Lemma asm_md_prepared : exists s', asm_md_prepare = Some (Ok tt, s').
Proof.
  assert (H : match asm_md_prepare with Some (Ok _, _) => true | _ => false end = true)
    by (vm_compute; reflexivity).
  destruct asm_md_prepare as [[[[]|e|] s']|]; [by exists s'|done..].
Qed.

Lemma dynamic_trace_block_witness : exists s', asm_md_prepare = Some (Ok tt, s') /\
  block_traces (fun op => op) 0 100 asm_md_state s'.
Proof.
  destruct asm_md_prepared as [s' E]. exists s'. split; [exact E|].
  apply (dynamic_trace_block (fun op => op) 0 (fun m _ => Z.of_nat (size m) + 1) Empty_set Empty_set
    DefaultDecoder default_inst_decoder 100 asm_md_state s').
  - apply length_replicate.
  - assert (Hpc : (pc asm_md_state.2 : reg u64_register) = 0) by reflexivity. rewrite Hpc. split; lia.
  - reflexivity.
  - lia.
  - exact E.
Defined.
