(* ===== verification/AsmHeader.v ===== *)
(** What the assembly code is compiled against: the header that
    src/definitions/src/generate_asm_constants.rs prints, which is checked in as
    src/src/machine/asm/cdefinitions_generated.h - page and trace constants, return codes,
    the offsets of the fields of the structures the Rust code passes to the assembly code,
    and the table of labels through which it jumps.

    The offsets are those of [repr(C)] ([place_fields]). *)
From S2P Require Import Prelude Outcome Bits Register Insts Memory Machine Core Asm Traces.
From stdpp Require Import base list numbers strings pretty.
Open Scope Z_scope.

(** * Structures *)

Record Field := {
  fd_name : string;
  fd_size : Z;
  fd_align : Z;
}.

Definition u8_field (name : string) : Field := {| fd_name := name; fd_size := 1; fd_align := 1 |}.
Definition u32_field (name : string) : Field := {| fd_name := name; fd_size := 4; fd_align := 4 |}.
(** Also of pointers. *)
Definition u64_field (name : string) : Field := {| fd_name := name; fd_size := 8; fd_align := 8 |}.
(** [[u64; n]] *)
Definition u64_array (name : string) (n : Z) : Field := {| fd_name := name; fd_size := 8 * n; fd_align := 8 |}.

Definition FixedTrace_fields : list Field :=
  [u64_field "address"; u32_field "length"; u64_field "cycles";
   u64_array "_threads" (2 * (ASM_TRACE_ITEM_LENGTH + 1))].

Definition DynamicTrace_fields : list Field :=
  [u64_field "address"; u32_field "length"; u64_field "cycles"].

Definition InvokeData_fields : list Field :=
  [u64_field "pause"; u64_field "fixed_traces"; u64_field "fixed_trace_mask"].

Definition AsmCoreMachine_fields : list Field :=
  [u64_array "registers" RISCV_GENERAL_REGISTER_NUMBER; u64_field "pc"; u64_field "next_pc";
   u8_field "running"; u64_field "cycles"; u64_field "max_cycles"; u8_field "chaos_mode";
   u32_field "chaos_seed"; u64_field "load_reservation_address"; u8_field "reset_signal";
   u8_field "isa"; u32_field "version"; u64_field "error_arg0"; u64_field "memory_size";
   u64_field "frames_size"; u64_field "flags_size"; u64_field "last_read_frame";
   u64_field "last_write_page"; u64_field "memory_ptr"; u64_field "flags_ptr"; u64_field "frames_ptr"].

(** The next multiple of [align]. *)
Definition align_up (offset align : Z) : Z := (offset + align - 1) / align * align.

(** [repr(C)]: every field at the next offset that is aligned for it. *)
Fixpoint place_fields (offset : Z) (fields : list Field) : list (Field * Z) :=
  match fields with
  | [] => []
  | f :: fields' =>
      let o := align_up offset (fd_align f) in
      (f, o) :: place_fields (o + fd_size f) fields'
  end.

Fixpoint place_end (offset : Z) (fields : list Field) : Z :=
  match fields with
  | [] => offset
  | f :: fields' => place_end (align_up offset (fd_align f) + fd_size f) fields'
  end.

Definition struct_align (fields : list Field) : Z := foldr Z.max 1 (map fd_align fields).
Definition size_of (fields : list Field) : Z := align_up (place_end 0 fields) (struct_align fields).

(** [&t.name as usize - &t as usize]; the compiler rejects a name that is not a field. *)
Definition offset_of (fields : list Field) (name : string) : Z :=
  match filter (fun p : Field * Z => fd_name p.1 = name) (place_fields 0 fields) with
  | (_, o) :: _ => o
  | [] => -1
  end.

(** * The generator *)

Definition define (name : string) (value : Z) : string :=
  ("#define CKB_VM_ASM_" +:+ name +:+ " " +:+ pretty value)%string.

Definition constant_lines : list string :=
  [define "RISCV_PAGE_SHIFTS" RISCV_PAGE_SHIFTS;
   define "RISCV_PAGE_SIZE" RISCV_PAGESIZE;
   define "RISCV_PAGE_MASK" (RISCV_PAGESIZE - 1);
   define "MEMORY_FRAME_SHIFTS" MEMORY_FRAME_SHIFTS;
   define "MEMORY_FRAMESIZE" MEMORY_FRAMESIZE;
   define "MEMORY_FRAME_PAGE_SHIFTS" MEMORY_FRAME_PAGE_SHIFTS;
   ""%string;
   define "MAXIMUM_TRACE_ADDRESS_LENGTH" (ASM_TRACE_ITEM_LENGTH * 4);
   ""%string;
   define "RET_DECODE_TRACE" RET_DECODE_TRACE;
   define "RET_ECALL" RET_ECALL;
   define "RET_EBREAK" RET_EBREAK;
   define "RET_DYNAMIC_JUMP" RET_DYNAMIC_JUMP;
   define "RET_MAX_CYCLES_EXCEEDED" RET_MAX_CYCLES_EXCEEDED;
   define "RET_CYCLES_OVERFLOW" RET_CYCLES_OVERFLOW;
   define "RET_OUT_OF_BOUND" RET_OUT_OF_BOUND;
   define "RET_INVALID_PERMISSION" RET_INVALID_PERMISSION;
   define "RET_SLOWPATH" RET_SLOWPATH;
   define "RET_PAUSE" RET_PAUSE;
   ""%string;
   define "REGISTER_RA" RA;
   define "REGISTER_SP" SP;
   ""%string;
   define "MEMORY_FLAG_FREEZED" FLAG_FREEZED;
   define "MEMORY_FLAG_EXECUTABLE" FLAG_EXECUTABLE;
   define "MEMORY_FLAG_WXORX_BIT" FLAG_WXORX_BIT;
   define "MEMORY_FLAG_WRITABLE" FLAG_WRITABLE;
   define "MEMORY_FLAG_DIRTY" FLAG_DIRTY;
   ""%string].

Definition trace_lines : list string :=
  [define "FIXED_TRACE_STRUCT_SIZE" (size_of FixedTrace_fields);
   define "TRACE_OFFSET_ADDRESS" (offset_of FixedTrace_fields "address");
   define "TRACE_OFFSET_LENGTH" (offset_of FixedTrace_fields "length");
   define "TRACE_OFFSET_CYCLES" (offset_of FixedTrace_fields "cycles");
   define "TRACE_OFFSET_THREADS" (offset_of FixedTrace_fields "_threads");
   ""%string;
   define "INVOKE_DATA_OFFSET_PAUSE" (offset_of InvokeData_fields "pause");
   define "INVOKE_DATA_OFFSET_FIXED_TRACES" (offset_of InvokeData_fields "fixed_traces");
   define "INVOKE_DATA_OFFSET_FIXED_TRACE_MASK" (offset_of InvokeData_fields "fixed_trace_mask");
   ""%string].

Definition define_field (name field : string) : string :=
  define ("ASM_CORE_MACHINE_OFFSET_" +:+ name)%string (offset_of AsmCoreMachine_fields field).

Definition core_machine_lines : list string :=
  [define_field "REGISTERS" "registers";
   define_field "PC" "pc";
   define_field "CYCLES" "cycles";
   define_field "MAX_CYCLES" "max_cycles";
   define_field "CHAOS_MODE" "chaos_mode";
   define_field "CHAOS_SEED" "chaos_seed";
   define_field "LOAD_RESERVATION_ADDRESS" "load_reservation_address";
   define_field "VERSION" "version";
   define_field "ERROR_ARG0" "error_arg0";
   define_field "MEMORY_SIZE" "memory_size";
   define_field "FRAMES_SIZE" "frames_size";
   define_field "FLAGS_SIZE" "flags_size";
   define_field "LAST_READ_FRAME" "last_read_frame";
   define_field "LAST_WRITE_PAGE" "last_write_page";
   define_field "MEMORY_PTR" "memory_ptr";
   define_field "FLAGS_PTR" "flags_ptr";
   define_field "FRAMES_PTR" "frames_ptr";
   ""%string].

(** [for op in MINIMAL_OPCODE..MAXIMUM_OPCODE]: the last opcode is not printed. *)
Definition opcode_lines : list string :=
  map (fun op => define ("OP_" +:+ instruction_opcode_name op)%string op)
    (seqZ MINIMAL_OPCODE (MAXIMUM_OPCODE - MINIMAL_OPCODE)) ++ [""%string].

(** The labels of the table, one for each of the 16 slow-path values and for each opcode. *)
Definition inst_label (name : string) : string := (".CKB_VM_ASM_LABEL_OP_" +:+ name)%string.
Definition label_table : list string :=
  replicate 0x10 ".exit_slowpath"%string ++ map (fun p => inst_label p.2) for_each_inst.

Definition tab : string := String.String (Ascii.ascii_of_nat 9) ""%string.

(** [print_inst_label] *)
Definition label_line (label : string) : string :=
  (tab +:+ ".long" +:+ tab +:+ label +:+ " - .CKB_VM_ASM_EXECUTE")%string.

Definition label_lines : list string :=
  ["#ifdef CKB_VM_ASM_GENERATE_LABEL_TABLES"; "#ifdef __APPLE__"; ".section __DATA,__const"; ".p2align 3";
   ".global _ckb_vm_asm_labels"; "_ckb_vm_asm_labels:"; "#elif __riscv"; ".section .rodata"; ".p2align 3";
   ".global ckb_vm_asm_labels"; "ckb_vm_asm_labels:"; "#else"; ".section .rodata"; ".p2align 3";
   ".global ckb_vm_asm_labels"; "ckb_vm_asm_labels:"; "#endif"; ".CKB_VM_ASM_LABEL_TABLE:"]%string ++
  map label_line label_table ++
  ["#endif /* CKB_VM_ASM_GENERATE_LABEL_TABLES */"; ".text"]%string.

Definition generate_asm_constants : list string :=
  constant_lines ++ trace_lines ++ core_machine_lines ++ opcode_lines ++ label_lines.

(** * The header that is checked in *)

Definition cdefinitions_generated : list string :=
  ["#define CKB_VM_ASM_RISCV_PAGE_SHIFTS 12";
   "#define CKB_VM_ASM_RISCV_PAGE_SIZE 4096";
   "#define CKB_VM_ASM_RISCV_PAGE_MASK 4095";
   "#define CKB_VM_ASM_MEMORY_FRAME_SHIFTS 18";
   "#define CKB_VM_ASM_MEMORY_FRAMESIZE 262144";
   "#define CKB_VM_ASM_MEMORY_FRAME_PAGE_SHIFTS 6";
   "";
   "#define CKB_VM_ASM_MAXIMUM_TRACE_ADDRESS_LENGTH 64";
   "";
   "#define CKB_VM_ASM_RET_DECODE_TRACE 1";
   "#define CKB_VM_ASM_RET_ECALL 2";
   "#define CKB_VM_ASM_RET_EBREAK 3";
   "#define CKB_VM_ASM_RET_DYNAMIC_JUMP 4";
   "#define CKB_VM_ASM_RET_MAX_CYCLES_EXCEEDED 5";
   "#define CKB_VM_ASM_RET_CYCLES_OVERFLOW 6";
   "#define CKB_VM_ASM_RET_OUT_OF_BOUND 7";
   "#define CKB_VM_ASM_RET_INVALID_PERMISSION 8";
   "#define CKB_VM_ASM_RET_SLOWPATH 9";
   "#define CKB_VM_ASM_RET_PAUSE 10";
   "";
   "#define CKB_VM_ASM_REGISTER_RA 1";
   "#define CKB_VM_ASM_REGISTER_SP 2";
   "";
   "#define CKB_VM_ASM_MEMORY_FLAG_FREEZED 1";
   "#define CKB_VM_ASM_MEMORY_FLAG_EXECUTABLE 2";
   "#define CKB_VM_ASM_MEMORY_FLAG_WXORX_BIT 2";
   "#define CKB_VM_ASM_MEMORY_FLAG_WRITABLE 0";
   "#define CKB_VM_ASM_MEMORY_FLAG_DIRTY 4";
   "";
   "#define CKB_VM_ASM_FIXED_TRACE_STRUCT_SIZE 296";
   "#define CKB_VM_ASM_TRACE_OFFSET_ADDRESS 0";
   "#define CKB_VM_ASM_TRACE_OFFSET_LENGTH 8";
   "#define CKB_VM_ASM_TRACE_OFFSET_CYCLES 16";
   "#define CKB_VM_ASM_TRACE_OFFSET_THREADS 24";
   "";
   "#define CKB_VM_ASM_INVOKE_DATA_OFFSET_PAUSE 0";
   "#define CKB_VM_ASM_INVOKE_DATA_OFFSET_FIXED_TRACES 8";
   "#define CKB_VM_ASM_INVOKE_DATA_OFFSET_FIXED_TRACE_MASK 16";
   "";
   "#define CKB_VM_ASM_ASM_CORE_MACHINE_OFFSET_REGISTERS 0";
   "#define CKB_VM_ASM_ASM_CORE_MACHINE_OFFSET_PC 256";
   "#define CKB_VM_ASM_ASM_CORE_MACHINE_OFFSET_CYCLES 280";
   "#define CKB_VM_ASM_ASM_CORE_MACHINE_OFFSET_MAX_CYCLES 288";
   "#define CKB_VM_ASM_ASM_CORE_MACHINE_OFFSET_CHAOS_MODE 296";
   "#define CKB_VM_ASM_ASM_CORE_MACHINE_OFFSET_CHAOS_SEED 300";
   "#define CKB_VM_ASM_ASM_CORE_MACHINE_OFFSET_LOAD_RESERVATION_ADDRESS 304";
   "#define CKB_VM_ASM_ASM_CORE_MACHINE_OFFSET_VERSION 316";
   "#define CKB_VM_ASM_ASM_CORE_MACHINE_OFFSET_ERROR_ARG0 320";
   "#define CKB_VM_ASM_ASM_CORE_MACHINE_OFFSET_MEMORY_SIZE 328";
   "#define CKB_VM_ASM_ASM_CORE_MACHINE_OFFSET_FRAMES_SIZE 336";
   "#define CKB_VM_ASM_ASM_CORE_MACHINE_OFFSET_FLAGS_SIZE 344";
   "#define CKB_VM_ASM_ASM_CORE_MACHINE_OFFSET_LAST_READ_FRAME 352";
   "#define CKB_VM_ASM_ASM_CORE_MACHINE_OFFSET_LAST_WRITE_PAGE 360";
   "#define CKB_VM_ASM_ASM_CORE_MACHINE_OFFSET_MEMORY_PTR 368";
   "#define CKB_VM_ASM_ASM_CORE_MACHINE_OFFSET_FLAGS_PTR 376";
   "#define CKB_VM_ASM_ASM_CORE_MACHINE_OFFSET_FRAMES_PTR 384";
   "";
   "#define CKB_VM_ASM_OP_UNLOADED 16";
   "#define CKB_VM_ASM_OP_ADD 17";
   "#define CKB_VM_ASM_OP_ADDI 18";
   "#define CKB_VM_ASM_OP_ADDIW 19";
   "#define CKB_VM_ASM_OP_ADDW 20";
   "#define CKB_VM_ASM_OP_AND 21";
   "#define CKB_VM_ASM_OP_ANDI 22";
   "#define CKB_VM_ASM_OP_DIV 23";
   "#define CKB_VM_ASM_OP_DIVU 24";
   "#define CKB_VM_ASM_OP_DIVUW 25";
   "#define CKB_VM_ASM_OP_DIVW 26";
   "#define CKB_VM_ASM_OP_LB_VERSION0 27";
   "#define CKB_VM_ASM_OP_LB_VERSION1 28";
   "#define CKB_VM_ASM_OP_LBU_VERSION0 29";
   "#define CKB_VM_ASM_OP_LBU_VERSION1 30";
   "#define CKB_VM_ASM_OP_LD_VERSION0 31";
   "#define CKB_VM_ASM_OP_LD_VERSION1 32";
   "#define CKB_VM_ASM_OP_LH_VERSION0 33";
   "#define CKB_VM_ASM_OP_LH_VERSION1 34";
   "#define CKB_VM_ASM_OP_LHU_VERSION0 35";
   "#define CKB_VM_ASM_OP_LHU_VERSION1 36";
   "#define CKB_VM_ASM_OP_LUI 37";
   "#define CKB_VM_ASM_OP_LW_VERSION0 38";
   "#define CKB_VM_ASM_OP_LW_VERSION1 39";
   "#define CKB_VM_ASM_OP_LWU_VERSION0 40";
   "#define CKB_VM_ASM_OP_LWU_VERSION1 41";
   "#define CKB_VM_ASM_OP_MUL 42";
   "#define CKB_VM_ASM_OP_MULH 43";
   "#define CKB_VM_ASM_OP_MULHSU 44";
   "#define CKB_VM_ASM_OP_MULHU 45";
   "#define CKB_VM_ASM_OP_MULW 46";
   "#define CKB_VM_ASM_OP_OR 47";
   "#define CKB_VM_ASM_OP_ORI 48";
   "#define CKB_VM_ASM_OP_REM 49";
   "#define CKB_VM_ASM_OP_REMU 50";
   "#define CKB_VM_ASM_OP_REMUW 51";
   "#define CKB_VM_ASM_OP_REMW 52";
   "#define CKB_VM_ASM_OP_SB 53";
   "#define CKB_VM_ASM_OP_SD 54";
   "#define CKB_VM_ASM_OP_SH 55";
   "#define CKB_VM_ASM_OP_SLL 56";
   "#define CKB_VM_ASM_OP_SLLI 57";
   "#define CKB_VM_ASM_OP_SLLIW 58";
   "#define CKB_VM_ASM_OP_SLLW 59";
   "#define CKB_VM_ASM_OP_SLT 60";
   "#define CKB_VM_ASM_OP_SLTI 61";
   "#define CKB_VM_ASM_OP_SLTIU 62";
   "#define CKB_VM_ASM_OP_SLTU 63";
   "#define CKB_VM_ASM_OP_SRA 64";
   "#define CKB_VM_ASM_OP_SRAI 65";
   "#define CKB_VM_ASM_OP_SRAIW 66";
   "#define CKB_VM_ASM_OP_SRAW 67";
   "#define CKB_VM_ASM_OP_SRL 68";
   "#define CKB_VM_ASM_OP_SRLI 69";
   "#define CKB_VM_ASM_OP_SRLIW 70";
   "#define CKB_VM_ASM_OP_SRLW 71";
   "#define CKB_VM_ASM_OP_SUB 72";
   "#define CKB_VM_ASM_OP_SUBW 73";
   "#define CKB_VM_ASM_OP_SW 74";
   "#define CKB_VM_ASM_OP_XOR 75";
   "#define CKB_VM_ASM_OP_XORI 76";
   "#define CKB_VM_ASM_OP_LR_W 77";
   "#define CKB_VM_ASM_OP_SC_W 78";
   "#define CKB_VM_ASM_OP_AMOSWAP_W 79";
   "#define CKB_VM_ASM_OP_AMOADD_W 80";
   "#define CKB_VM_ASM_OP_AMOXOR_W 81";
   "#define CKB_VM_ASM_OP_AMOAND_W 82";
   "#define CKB_VM_ASM_OP_AMOOR_W 83";
   "#define CKB_VM_ASM_OP_AMOMIN_W 84";
   "#define CKB_VM_ASM_OP_AMOMAX_W 85";
   "#define CKB_VM_ASM_OP_AMOMINU_W 86";
   "#define CKB_VM_ASM_OP_AMOMAXU_W 87";
   "#define CKB_VM_ASM_OP_LR_D 88";
   "#define CKB_VM_ASM_OP_SC_D 89";
   "#define CKB_VM_ASM_OP_AMOSWAP_D 90";
   "#define CKB_VM_ASM_OP_AMOADD_D 91";
   "#define CKB_VM_ASM_OP_AMOXOR_D 92";
   "#define CKB_VM_ASM_OP_AMOAND_D 93";
   "#define CKB_VM_ASM_OP_AMOOR_D 94";
   "#define CKB_VM_ASM_OP_AMOMIN_D 95";
   "#define CKB_VM_ASM_OP_AMOMAX_D 96";
   "#define CKB_VM_ASM_OP_AMOMINU_D 97";
   "#define CKB_VM_ASM_OP_AMOMAXU_D 98";
   "#define CKB_VM_ASM_OP_ADDUW 99";
   "#define CKB_VM_ASM_OP_ANDN 100";
   "#define CKB_VM_ASM_OP_BCLR 101";
   "#define CKB_VM_ASM_OP_BCLRI 102";
   "#define CKB_VM_ASM_OP_BEXT 103";
   "#define CKB_VM_ASM_OP_BEXTI 104";
   "#define CKB_VM_ASM_OP_BINV 105";
   "#define CKB_VM_ASM_OP_BINVI 106";
   "#define CKB_VM_ASM_OP_BSET 107";
   "#define CKB_VM_ASM_OP_BSETI 108";
   "#define CKB_VM_ASM_OP_CLMUL 109";
   "#define CKB_VM_ASM_OP_CLMULH 110";
   "#define CKB_VM_ASM_OP_CLMULR 111";
   "#define CKB_VM_ASM_OP_CLZ 112";
   "#define CKB_VM_ASM_OP_CLZW 113";
   "#define CKB_VM_ASM_OP_CPOP 114";
   "#define CKB_VM_ASM_OP_CPOPW 115";
   "#define CKB_VM_ASM_OP_CTZ 116";
   "#define CKB_VM_ASM_OP_CTZW 117";
   "#define CKB_VM_ASM_OP_MAX 118";
   "#define CKB_VM_ASM_OP_MAXU 119";
   "#define CKB_VM_ASM_OP_MIN 120";
   "#define CKB_VM_ASM_OP_MINU 121";
   "#define CKB_VM_ASM_OP_ORCB 122";
   "#define CKB_VM_ASM_OP_ORN 123";
   "#define CKB_VM_ASM_OP_REV8 124";
   "#define CKB_VM_ASM_OP_ROL 125";
   "#define CKB_VM_ASM_OP_ROLW 126";
   "#define CKB_VM_ASM_OP_ROR 127";
   "#define CKB_VM_ASM_OP_RORI 128";
   "#define CKB_VM_ASM_OP_RORIW 129";
   "#define CKB_VM_ASM_OP_RORW 130";
   "#define CKB_VM_ASM_OP_SEXTB 131";
   "#define CKB_VM_ASM_OP_SEXTH 132";
   "#define CKB_VM_ASM_OP_SH1ADD 133";
   "#define CKB_VM_ASM_OP_SH1ADDUW 134";
   "#define CKB_VM_ASM_OP_SH2ADD 135";
   "#define CKB_VM_ASM_OP_SH2ADDUW 136";
   "#define CKB_VM_ASM_OP_SH3ADD 137";
   "#define CKB_VM_ASM_OP_SH3ADDUW 138";
   "#define CKB_VM_ASM_OP_SLLIUW 139";
   "#define CKB_VM_ASM_OP_XNOR 140";
   "#define CKB_VM_ASM_OP_ZEXTH 141";
   "#define CKB_VM_ASM_OP_WIDE_MUL 142";
   "#define CKB_VM_ASM_OP_WIDE_MULU 143";
   "#define CKB_VM_ASM_OP_WIDE_MULSU 144";
   "#define CKB_VM_ASM_OP_WIDE_DIV 145";
   "#define CKB_VM_ASM_OP_WIDE_DIVU 146";
   "#define CKB_VM_ASM_OP_ADC 147";
   "#define CKB_VM_ASM_OP_SBB 148";
   "#define CKB_VM_ASM_OP_ADCS 149";
   "#define CKB_VM_ASM_OP_SBBS 150";
   "#define CKB_VM_ASM_OP_ADD3A 151";
   "#define CKB_VM_ASM_OP_ADD3B 152";
   "#define CKB_VM_ASM_OP_ADD3C 153";
   "#define CKB_VM_ASM_OP_CUSTOM_LOAD_UIMM 154";
   "#define CKB_VM_ASM_OP_CUSTOM_LOAD_IMM 155";
   "#define CKB_VM_ASM_OP_AUIPC 156";
   "#define CKB_VM_ASM_OP_BEQ 157";
   "#define CKB_VM_ASM_OP_BGE 158";
   "#define CKB_VM_ASM_OP_BGEU 159";
   "#define CKB_VM_ASM_OP_BLT 160";
   "#define CKB_VM_ASM_OP_BLTU 161";
   "#define CKB_VM_ASM_OP_BNE 162";
   "#define CKB_VM_ASM_OP_EBREAK 163";
   "#define CKB_VM_ASM_OP_ECALL 164";
   "#define CKB_VM_ASM_OP_FENCE 165";
   "#define CKB_VM_ASM_OP_FENCEI 166";
   "#define CKB_VM_ASM_OP_JAL 167";
   "#define CKB_VM_ASM_OP_JALR_VERSION0 168";
   "#define CKB_VM_ASM_OP_JALR_VERSION1 169";
   "#define CKB_VM_ASM_OP_FAR_JUMP_REL 170";
   "#define CKB_VM_ASM_OP_FAR_JUMP_ABS 171";
   "#define CKB_VM_ASM_OP_CUSTOM_ASM_TRACE_JUMP 172";
   "";
   "#ifdef CKB_VM_ASM_GENERATE_LABEL_TABLES";
   "#ifdef __APPLE__";
   ".section __DATA,__const";
   ".p2align 3";
   ".global _ckb_vm_asm_labels";
   "_ckb_vm_asm_labels:";
   "#elif __riscv";
   ".section .rodata";
   ".p2align 3";
   ".global ckb_vm_asm_labels";
   "ckb_vm_asm_labels:";
   "#else";
   ".section .rodata";
   ".p2align 3";
   ".global ckb_vm_asm_labels";
   "ckb_vm_asm_labels:";
   "#endif";
   ".CKB_VM_ASM_LABEL_TABLE:";
   "	.long	.exit_slowpath - .CKB_VM_ASM_EXECUTE";
   "	.long	.exit_slowpath - .CKB_VM_ASM_EXECUTE";
   "	.long	.exit_slowpath - .CKB_VM_ASM_EXECUTE";
   "	.long	.exit_slowpath - .CKB_VM_ASM_EXECUTE";
   "	.long	.exit_slowpath - .CKB_VM_ASM_EXECUTE";
   "	.long	.exit_slowpath - .CKB_VM_ASM_EXECUTE";
   "	.long	.exit_slowpath - .CKB_VM_ASM_EXECUTE";
   "	.long	.exit_slowpath - .CKB_VM_ASM_EXECUTE";
   "	.long	.exit_slowpath - .CKB_VM_ASM_EXECUTE";
   "	.long	.exit_slowpath - .CKB_VM_ASM_EXECUTE";
   "	.long	.exit_slowpath - .CKB_VM_ASM_EXECUTE";
   "	.long	.exit_slowpath - .CKB_VM_ASM_EXECUTE";
   "	.long	.exit_slowpath - .CKB_VM_ASM_EXECUTE";
   "	.long	.exit_slowpath - .CKB_VM_ASM_EXECUTE";
   "	.long	.exit_slowpath - .CKB_VM_ASM_EXECUTE";
   "	.long	.exit_slowpath - .CKB_VM_ASM_EXECUTE";
   "	.long	.CKB_VM_ASM_LABEL_OP_UNLOADED - .CKB_VM_ASM_EXECUTE";
   "	.long	.CKB_VM_ASM_LABEL_OP_ADD - .CKB_VM_ASM_EXECUTE";
   "	.long	.CKB_VM_ASM_LABEL_OP_ADDI - .CKB_VM_ASM_EXECUTE";
   "	.long	.CKB_VM_ASM_LABEL_OP_ADDIW - .CKB_VM_ASM_EXECUTE";
   "	.long	.CKB_VM_ASM_LABEL_OP_ADDW - .CKB_VM_ASM_EXECUTE";
   "	.long	.CKB_VM_ASM_LABEL_OP_AND - .CKB_VM_ASM_EXECUTE";
   "	.long	.CKB_VM_ASM_LABEL_OP_ANDI - .CKB_VM_ASM_EXECUTE";
   "	.long	.CKB_VM_ASM_LABEL_OP_DIV - .CKB_VM_ASM_EXECUTE";
   "	.long	.CKB_VM_ASM_LABEL_OP_DIVU - .CKB_VM_ASM_EXECUTE";
   "	.long	.CKB_VM_ASM_LABEL_OP_DIVUW - .CKB_VM_ASM_EXECUTE";
   "	.long	.CKB_VM_ASM_LABEL_OP_DIVW - .CKB_VM_ASM_EXECUTE";
   "	.long	.CKB_VM_ASM_LABEL_OP_LB_VERSION0 - .CKB_VM_ASM_EXECUTE";
   "	.long	.CKB_VM_ASM_LABEL_OP_LB_VERSION1 - .CKB_VM_ASM_EXECUTE";
   "	.long	.CKB_VM_ASM_LABEL_OP_LBU_VERSION0 - .CKB_VM_ASM_EXECUTE";
   "	.long	.CKB_VM_ASM_LABEL_OP_LBU_VERSION1 - .CKB_VM_ASM_EXECUTE";
   "	.long	.CKB_VM_ASM_LABEL_OP_LD_VERSION0 - .CKB_VM_ASM_EXECUTE";
   "	.long	.CKB_VM_ASM_LABEL_OP_LD_VERSION1 - .CKB_VM_ASM_EXECUTE";
   "	.long	.CKB_VM_ASM_LABEL_OP_LH_VERSION0 - .CKB_VM_ASM_EXECUTE";
   "	.long	.CKB_VM_ASM_LABEL_OP_LH_VERSION1 - .CKB_VM_ASM_EXECUTE";
   "	.long	.CKB_VM_ASM_LABEL_OP_LHU_VERSION0 - .CKB_VM_ASM_EXECUTE";
   "	.long	.CKB_VM_ASM_LABEL_OP_LHU_VERSION1 - .CKB_VM_ASM_EXECUTE";
   "	.long	.CKB_VM_ASM_LABEL_OP_LUI - .CKB_VM_ASM_EXECUTE";
   "	.long	.CKB_VM_ASM_LABEL_OP_LW_VERSION0 - .CKB_VM_ASM_EXECUTE";
   "	.long	.CKB_VM_ASM_LABEL_OP_LW_VERSION1 - .CKB_VM_ASM_EXECUTE";
   "	.long	.CKB_VM_ASM_LABEL_OP_LWU_VERSION0 - .CKB_VM_ASM_EXECUTE";
   "	.long	.CKB_VM_ASM_LABEL_OP_LWU_VERSION1 - .CKB_VM_ASM_EXECUTE";
   "	.long	.CKB_VM_ASM_LABEL_OP_MUL - .CKB_VM_ASM_EXECUTE";
   "	.long	.CKB_VM_ASM_LABEL_OP_MULH - .CKB_VM_ASM_EXECUTE";
   "	.long	.CKB_VM_ASM_LABEL_OP_MULHSU - .CKB_VM_ASM_EXECUTE";
   "	.long	.CKB_VM_ASM_LABEL_OP_MULHU - .CKB_VM_ASM_EXECUTE";
   "	.long	.CKB_VM_ASM_LABEL_OP_MULW - .CKB_VM_ASM_EXECUTE";
   "	.long	.CKB_VM_ASM_LABEL_OP_OR - .CKB_VM_ASM_EXECUTE";
   "	.long	.CKB_VM_ASM_LABEL_OP_ORI - .CKB_VM_ASM_EXECUTE";
   "	.long	.CKB_VM_ASM_LABEL_OP_REM - .CKB_VM_ASM_EXECUTE";
   "	.long	.CKB_VM_ASM_LABEL_OP_REMU - .CKB_VM_ASM_EXECUTE";
   "	.long	.CKB_VM_ASM_LABEL_OP_REMUW - .CKB_VM_ASM_EXECUTE";
   "	.long	.CKB_VM_ASM_LABEL_OP_REMW - .CKB_VM_ASM_EXECUTE";
   "	.long	.CKB_VM_ASM_LABEL_OP_SB - .CKB_VM_ASM_EXECUTE";
   "	.long	.CKB_VM_ASM_LABEL_OP_SD - .CKB_VM_ASM_EXECUTE";
   "	.long	.CKB_VM_ASM_LABEL_OP_SH - .CKB_VM_ASM_EXECUTE";
   "	.long	.CKB_VM_ASM_LABEL_OP_SLL - .CKB_VM_ASM_EXECUTE";
   "	.long	.CKB_VM_ASM_LABEL_OP_SLLI - .CKB_VM_ASM_EXECUTE";
   "	.long	.CKB_VM_ASM_LABEL_OP_SLLIW - .CKB_VM_ASM_EXECUTE";
   "	.long	.CKB_VM_ASM_LABEL_OP_SLLW - .CKB_VM_ASM_EXECUTE";
   "	.long	.CKB_VM_ASM_LABEL_OP_SLT - .CKB_VM_ASM_EXECUTE";
   "	.long	.CKB_VM_ASM_LABEL_OP_SLTI - .CKB_VM_ASM_EXECUTE";
   "	.long	.CKB_VM_ASM_LABEL_OP_SLTIU - .CKB_VM_ASM_EXECUTE";
   "	.long	.CKB_VM_ASM_LABEL_OP_SLTU - .CKB_VM_ASM_EXECUTE";
   "	.long	.CKB_VM_ASM_LABEL_OP_SRA - .CKB_VM_ASM_EXECUTE";
   "	.long	.CKB_VM_ASM_LABEL_OP_SRAI - .CKB_VM_ASM_EXECUTE";
   "	.long	.CKB_VM_ASM_LABEL_OP_SRAIW - .CKB_VM_ASM_EXECUTE";
   "	.long	.CKB_VM_ASM_LABEL_OP_SRAW - .CKB_VM_ASM_EXECUTE";
   "	.long	.CKB_VM_ASM_LABEL_OP_SRL - .CKB_VM_ASM_EXECUTE";
   "	.long	.CKB_VM_ASM_LABEL_OP_SRLI - .CKB_VM_ASM_EXECUTE";
   "	.long	.CKB_VM_ASM_LABEL_OP_SRLIW - .CKB_VM_ASM_EXECUTE";
   "	.long	.CKB_VM_ASM_LABEL_OP_SRLW - .CKB_VM_ASM_EXECUTE";
   "	.long	.CKB_VM_ASM_LABEL_OP_SUB - .CKB_VM_ASM_EXECUTE";
   "	.long	.CKB_VM_ASM_LABEL_OP_SUBW - .CKB_VM_ASM_EXECUTE";
   "	.long	.CKB_VM_ASM_LABEL_OP_SW - .CKB_VM_ASM_EXECUTE";
   "	.long	.CKB_VM_ASM_LABEL_OP_XOR - .CKB_VM_ASM_EXECUTE";
   "	.long	.CKB_VM_ASM_LABEL_OP_XORI - .CKB_VM_ASM_EXECUTE";
   "	.long	.CKB_VM_ASM_LABEL_OP_LR_W - .CKB_VM_ASM_EXECUTE";
   "	.long	.CKB_VM_ASM_LABEL_OP_SC_W - .CKB_VM_ASM_EXECUTE";
   "	.long	.CKB_VM_ASM_LABEL_OP_AMOSWAP_W - .CKB_VM_ASM_EXECUTE";
   "	.long	.CKB_VM_ASM_LABEL_OP_AMOADD_W - .CKB_VM_ASM_EXECUTE";
   "	.long	.CKB_VM_ASM_LABEL_OP_AMOXOR_W - .CKB_VM_ASM_EXECUTE";
   "	.long	.CKB_VM_ASM_LABEL_OP_AMOAND_W - .CKB_VM_ASM_EXECUTE";
   "	.long	.CKB_VM_ASM_LABEL_OP_AMOOR_W - .CKB_VM_ASM_EXECUTE";
   "	.long	.CKB_VM_ASM_LABEL_OP_AMOMIN_W - .CKB_VM_ASM_EXECUTE";
   "	.long	.CKB_VM_ASM_LABEL_OP_AMOMAX_W - .CKB_VM_ASM_EXECUTE";
   "	.long	.CKB_VM_ASM_LABEL_OP_AMOMINU_W - .CKB_VM_ASM_EXECUTE";
   "	.long	.CKB_VM_ASM_LABEL_OP_AMOMAXU_W - .CKB_VM_ASM_EXECUTE";
   "	.long	.CKB_VM_ASM_LABEL_OP_LR_D - .CKB_VM_ASM_EXECUTE";
   "	.long	.CKB_VM_ASM_LABEL_OP_SC_D - .CKB_VM_ASM_EXECUTE";
   "	.long	.CKB_VM_ASM_LABEL_OP_AMOSWAP_D - .CKB_VM_ASM_EXECUTE";
   "	.long	.CKB_VM_ASM_LABEL_OP_AMOADD_D - .CKB_VM_ASM_EXECUTE";
   "	.long	.CKB_VM_ASM_LABEL_OP_AMOXOR_D - .CKB_VM_ASM_EXECUTE";
   "	.long	.CKB_VM_ASM_LABEL_OP_AMOAND_D - .CKB_VM_ASM_EXECUTE";
   "	.long	.CKB_VM_ASM_LABEL_OP_AMOOR_D - .CKB_VM_ASM_EXECUTE";
   "	.long	.CKB_VM_ASM_LABEL_OP_AMOMIN_D - .CKB_VM_ASM_EXECUTE";
   "	.long	.CKB_VM_ASM_LABEL_OP_AMOMAX_D - .CKB_VM_ASM_EXECUTE";
   "	.long	.CKB_VM_ASM_LABEL_OP_AMOMINU_D - .CKB_VM_ASM_EXECUTE";
   "	.long	.CKB_VM_ASM_LABEL_OP_AMOMAXU_D - .CKB_VM_ASM_EXECUTE";
   "	.long	.CKB_VM_ASM_LABEL_OP_ADDUW - .CKB_VM_ASM_EXECUTE";
   "	.long	.CKB_VM_ASM_LABEL_OP_ANDN - .CKB_VM_ASM_EXECUTE";
   "	.long	.CKB_VM_ASM_LABEL_OP_BCLR - .CKB_VM_ASM_EXECUTE";
   "	.long	.CKB_VM_ASM_LABEL_OP_BCLRI - .CKB_VM_ASM_EXECUTE";
   "	.long	.CKB_VM_ASM_LABEL_OP_BEXT - .CKB_VM_ASM_EXECUTE";
   "	.long	.CKB_VM_ASM_LABEL_OP_BEXTI - .CKB_VM_ASM_EXECUTE";
   "	.long	.CKB_VM_ASM_LABEL_OP_BINV - .CKB_VM_ASM_EXECUTE";
   "	.long	.CKB_VM_ASM_LABEL_OP_BINVI - .CKB_VM_ASM_EXECUTE";
   "	.long	.CKB_VM_ASM_LABEL_OP_BSET - .CKB_VM_ASM_EXECUTE";
   "	.long	.CKB_VM_ASM_LABEL_OP_BSETI - .CKB_VM_ASM_EXECUTE";
   "	.long	.CKB_VM_ASM_LABEL_OP_CLMUL - .CKB_VM_ASM_EXECUTE";
   "	.long	.CKB_VM_ASM_LABEL_OP_CLMULH - .CKB_VM_ASM_EXECUTE";
   "	.long	.CKB_VM_ASM_LABEL_OP_CLMULR - .CKB_VM_ASM_EXECUTE";
   "	.long	.CKB_VM_ASM_LABEL_OP_CLZ - .CKB_VM_ASM_EXECUTE";
   "	.long	.CKB_VM_ASM_LABEL_OP_CLZW - .CKB_VM_ASM_EXECUTE";
   "	.long	.CKB_VM_ASM_LABEL_OP_CPOP - .CKB_VM_ASM_EXECUTE";
   "	.long	.CKB_VM_ASM_LABEL_OP_CPOPW - .CKB_VM_ASM_EXECUTE";
   "	.long	.CKB_VM_ASM_LABEL_OP_CTZ - .CKB_VM_ASM_EXECUTE";
   "	.long	.CKB_VM_ASM_LABEL_OP_CTZW - .CKB_VM_ASM_EXECUTE";
   "	.long	.CKB_VM_ASM_LABEL_OP_MAX - .CKB_VM_ASM_EXECUTE";
   "	.long	.CKB_VM_ASM_LABEL_OP_MAXU - .CKB_VM_ASM_EXECUTE";
   "	.long	.CKB_VM_ASM_LABEL_OP_MIN - .CKB_VM_ASM_EXECUTE";
   "	.long	.CKB_VM_ASM_LABEL_OP_MINU - .CKB_VM_ASM_EXECUTE";
   "	.long	.CKB_VM_ASM_LABEL_OP_ORCB - .CKB_VM_ASM_EXECUTE";
   "	.long	.CKB_VM_ASM_LABEL_OP_ORN - .CKB_VM_ASM_EXECUTE";
   "	.long	.CKB_VM_ASM_LABEL_OP_REV8 - .CKB_VM_ASM_EXECUTE";
   "	.long	.CKB_VM_ASM_LABEL_OP_ROL - .CKB_VM_ASM_EXECUTE";
   "	.long	.CKB_VM_ASM_LABEL_OP_ROLW - .CKB_VM_ASM_EXECUTE";
   "	.long	.CKB_VM_ASM_LABEL_OP_ROR - .CKB_VM_ASM_EXECUTE";
   "	.long	.CKB_VM_ASM_LABEL_OP_RORI - .CKB_VM_ASM_EXECUTE";
   "	.long	.CKB_VM_ASM_LABEL_OP_RORIW - .CKB_VM_ASM_EXECUTE";
   "	.long	.CKB_VM_ASM_LABEL_OP_RORW - .CKB_VM_ASM_EXECUTE";
   "	.long	.CKB_VM_ASM_LABEL_OP_SEXTB - .CKB_VM_ASM_EXECUTE";
   "	.long	.CKB_VM_ASM_LABEL_OP_SEXTH - .CKB_VM_ASM_EXECUTE";
   "	.long	.CKB_VM_ASM_LABEL_OP_SH1ADD - .CKB_VM_ASM_EXECUTE";
   "	.long	.CKB_VM_ASM_LABEL_OP_SH1ADDUW - .CKB_VM_ASM_EXECUTE";
   "	.long	.CKB_VM_ASM_LABEL_OP_SH2ADD - .CKB_VM_ASM_EXECUTE";
   "	.long	.CKB_VM_ASM_LABEL_OP_SH2ADDUW - .CKB_VM_ASM_EXECUTE";
   "	.long	.CKB_VM_ASM_LABEL_OP_SH3ADD - .CKB_VM_ASM_EXECUTE";
   "	.long	.CKB_VM_ASM_LABEL_OP_SH3ADDUW - .CKB_VM_ASM_EXECUTE";
   "	.long	.CKB_VM_ASM_LABEL_OP_SLLIUW - .CKB_VM_ASM_EXECUTE";
   "	.long	.CKB_VM_ASM_LABEL_OP_XNOR - .CKB_VM_ASM_EXECUTE";
   "	.long	.CKB_VM_ASM_LABEL_OP_ZEXTH - .CKB_VM_ASM_EXECUTE";
   "	.long	.CKB_VM_ASM_LABEL_OP_WIDE_MUL - .CKB_VM_ASM_EXECUTE";
   "	.long	.CKB_VM_ASM_LABEL_OP_WIDE_MULU - .CKB_VM_ASM_EXECUTE";
   "	.long	.CKB_VM_ASM_LABEL_OP_WIDE_MULSU - .CKB_VM_ASM_EXECUTE";
   "	.long	.CKB_VM_ASM_LABEL_OP_WIDE_DIV - .CKB_VM_ASM_EXECUTE";
   "	.long	.CKB_VM_ASM_LABEL_OP_WIDE_DIVU - .CKB_VM_ASM_EXECUTE";
   "	.long	.CKB_VM_ASM_LABEL_OP_ADC - .CKB_VM_ASM_EXECUTE";
   "	.long	.CKB_VM_ASM_LABEL_OP_SBB - .CKB_VM_ASM_EXECUTE";
   "	.long	.CKB_VM_ASM_LABEL_OP_ADCS - .CKB_VM_ASM_EXECUTE";
   "	.long	.CKB_VM_ASM_LABEL_OP_SBBS - .CKB_VM_ASM_EXECUTE";
   "	.long	.CKB_VM_ASM_LABEL_OP_ADD3A - .CKB_VM_ASM_EXECUTE";
   "	.long	.CKB_VM_ASM_LABEL_OP_ADD3B - .CKB_VM_ASM_EXECUTE";
   "	.long	.CKB_VM_ASM_LABEL_OP_ADD3C - .CKB_VM_ASM_EXECUTE";
   "	.long	.CKB_VM_ASM_LABEL_OP_CUSTOM_LOAD_UIMM - .CKB_VM_ASM_EXECUTE";
   "	.long	.CKB_VM_ASM_LABEL_OP_CUSTOM_LOAD_IMM - .CKB_VM_ASM_EXECUTE";
   "	.long	.CKB_VM_ASM_LABEL_OP_AUIPC - .CKB_VM_ASM_EXECUTE";
   "	.long	.CKB_VM_ASM_LABEL_OP_BEQ - .CKB_VM_ASM_EXECUTE";
   "	.long	.CKB_VM_ASM_LABEL_OP_BGE - .CKB_VM_ASM_EXECUTE";
   "	.long	.CKB_VM_ASM_LABEL_OP_BGEU - .CKB_VM_ASM_EXECUTE";
   "	.long	.CKB_VM_ASM_LABEL_OP_BLT - .CKB_VM_ASM_EXECUTE";
   "	.long	.CKB_VM_ASM_LABEL_OP_BLTU - .CKB_VM_ASM_EXECUTE";
   "	.long	.CKB_VM_ASM_LABEL_OP_BNE - .CKB_VM_ASM_EXECUTE";
   "	.long	.CKB_VM_ASM_LABEL_OP_EBREAK - .CKB_VM_ASM_EXECUTE";
   "	.long	.CKB_VM_ASM_LABEL_OP_ECALL - .CKB_VM_ASM_EXECUTE";
   "	.long	.CKB_VM_ASM_LABEL_OP_FENCE - .CKB_VM_ASM_EXECUTE";
   "	.long	.CKB_VM_ASM_LABEL_OP_FENCEI - .CKB_VM_ASM_EXECUTE";
   "	.long	.CKB_VM_ASM_LABEL_OP_JAL - .CKB_VM_ASM_EXECUTE";
   "	.long	.CKB_VM_ASM_LABEL_OP_JALR_VERSION0 - .CKB_VM_ASM_EXECUTE";
   "	.long	.CKB_VM_ASM_LABEL_OP_JALR_VERSION1 - .CKB_VM_ASM_EXECUTE";
   "	.long	.CKB_VM_ASM_LABEL_OP_FAR_JUMP_REL - .CKB_VM_ASM_EXECUTE";
   "	.long	.CKB_VM_ASM_LABEL_OP_FAR_JUMP_ABS - .CKB_VM_ASM_EXECUTE";
   "	.long	.CKB_VM_ASM_LABEL_OP_CUSTOM_ASM_TRACE_JUMP - .CKB_VM_ASM_EXECUTE";
   "	.long	.CKB_VM_ASM_LABEL_OP_CUSTOM_TRACE_END - .CKB_VM_ASM_EXECUTE";
   "#endif /* CKB_VM_ASM_GENERATE_LABEL_TABLES */";
   ".text"]%string.

(** * repr(C) places fields where they fit *)

Definition field_ok (f : Field) : Prop := 0 <= fd_size f /\ 0 < fd_align f.

Lemma align_up_spec o a : 0 < a -> o <= align_up o a /\ (a | align_up o a).
Proof.
  intros Ha. unfold align_up. split; [|apply Z.divide_factor_r].
  pose proof (Z.div_mod (o + a - 1) a). pose proof (Z.mod_pos_bound (o + a - 1) a Ha). lia.
Qed.

Lemma place_end_le fields : Forall field_ok fields -> forall o, o <= place_end o fields.
Proof.
  induction 1 as [|f fields [Hs Ha] _ IH]; intros o; cbn [place_end]; [lia|].
  pose proof (align_up_spec o _ Ha). specialize (IH (align_up o (fd_align f) + fd_size f)). lia.
Qed.

(** Every field is aligned, inside the structure and behind the fields before it. *)
Definition layout_ok (offset : Z) (fields : list Field) : Prop :=
  forall i f o, place_fields offset fields !! i = Some (f, o) ->
    offset <= o /\ (fd_align f | o) /\ o + fd_size f <= place_end offset fields /\
    forall j g p, (j < i)%nat -> place_fields offset fields !! j = Some (g, p) -> p + fd_size g <= o.

Lemma place_layout_ok fields : Forall field_ok fields -> forall offset, layout_ok offset fields.
Proof.
  induction 1 as [|f fields [Hs Ha] Hf IH]; intros offset i g o; [done|]. cbn [place_fields place_end].
  pose proof (align_up_spec offset _ Ha) as [Hle Hdiv].
  set (e := align_up offset (fd_align f) + fd_size f) in *.
  destruct i as [|i]; cbn [lookup list_lookup].
  - intros [= <- <-]. split; [done|]. split; [done|]. split; [apply (place_end_le fields Hf)|]. lia.
  - intros Hi. destruct (IH e i g o Hi) as (H1 & H2 & H3 & H4). split; [unfold e in *; lia|].
    split; [done|]. split; [done|]. intros [|j] g' p Hj; cbn [lookup list_lookup].
    + intros [= <- <-]. exact H1.
    + apply H4. lia.
Qed.

Lemma structs_ok : Forall (Forall field_ok) [FixedTrace_fields; InvokeData_fields; AsmCoreMachine_fields].
Proof. repeat (apply Forall_cons; split); try apply Forall_nil; try done; vm_compute; (split; [discriminate|reflexivity]). Qed.

(** * The label table *)

(** The entry [label_from_fastpath_opcode] reads. *)
Definition label_at (opcode : InstructionOpcode) : option string := label_table !! Z.to_nat (wrap 8 opcode).

Lemma labels_checked :
  forallb (fun p : Z * string => bool_decide (label_at p.1 = Some (inst_label p.2))) for_each_inst = true.
Proof. vm_compute. reflexivity. Qed.

(** * The header *)

(** C25: the header that is checked in is what the generator prints, and it describes what
    the Rust code passes to the assembly code.  The offsets in it are those of [repr(C)]:
    in each structure every field is aligned, lies in the structure and behind the fields
    before it.  A dynamic trace, which is passed as a fixed trace, has the same fields at the
    same offsets, and its threads begin where the structure ends.  And the label table is
    indexed by opcode: the entry for the low byte of a declared opcode is the label of this
    instruction, that of a slow-path value is the exit to the slow path. *)
Theorem asm_header_spec :
  generate_asm_constants = cdefinitions_generated /\
  (forall fields, fields ∈ [FixedTrace_fields; InvokeData_fields; AsmCoreMachine_fields] -> layout_ok 0 fields) /\
  place_fields 0 DynamicTrace_fields = take 3 (place_fields 0 FixedTrace_fields) /\
  offset_of FixedTrace_fields "_threads" = size_of DynamicTrace_fields /\
  (forall opcode name, (opcode, name) ∈ for_each_inst -> label_at opcode = Some (inst_label name)) /\
  (forall opcode, wrap 8 opcode < 0x10 -> label_at opcode = Some ".exit_slowpath"%string).
Proof.
  split; [vm_compute; reflexivity|]. split; [|split; [reflexivity|split; [reflexivity|split]]].
  - intros fields Hf. apply place_layout_ok. revert fields Hf. apply Forall_forall, structs_ok.
  - intros opcode name Hin. pose proof labels_checked as H. rewrite forallb_forall in H.
    apply list_elem_of_In in Hin. specialize (H _ Hin). by apply bool_decide_eq_true in H.
  - intros opcode Hop. pose proof (wrap_range 8 opcode ltac:(lia)) as [H0 _].
    unfold label_at, label_table. rewrite lookup_app_l; [apply lookup_replicate_2|rewrite length_replicate]; lia.
Qed.

Lemma asm_header_spec_witness : layout_ok 0 AsmCoreMachine_fields /\
  label_at OP_ADD = Some ".CKB_VM_ASM_LABEL_OP_ADD"%string /\ label_at 3 = Some ".exit_slowpath"%string.
Proof.
  destruct asm_header_spec as (_ & H & _ & _ & Hl & Hs). split; [|split].
  - apply H. right. right. left.
  - apply (Hl OP_ADD "ADD"%string). right. left.
  - apply Hs. reflexivity.
Defined.
