(* ===== verification/Fetch.v ===== *)
(** The instruction cache is transparent: with it or without it the decoder returns the
    same instructions.

    [FetchOk] is what the decoder needs of a memory: fetching code does not change the
    code.  [same_code] is coarser than equality, because a fetch may change the
    memory's representation.  [raw] decodes without a cache; a decoder is [coherent]
    when every cache entry agrees with it. *)
From S2P Require Import Prelude Outcome Register Insts Memory Machine Decoder.
From stdpp Require Import base list numbers.
Open Scope Z_scope.

Class FetchOk (R : Register) (M : Type) {HM : Memory R M} := {
  same_code : M -> M -> Prop;
  same_code_sym :: Symmetric same_code;
  same_code_trans :: Transitive same_code;
  same_code_size m m' : same_code m m' -> memory_size m = memory_size m';
  fetch16_respects a : in_u 64 a -> respects same_code (execute_load16 a);
  fetch32_respects a : in_u 64 a -> respects same_code (execute_load32 a);
}.

(** Page flags are part of what a fetch depends on. *)
Class FlagsOk (R : Register) (M : Type) {HM : Memory R M} {HF : FetchOk R M} := {
  fetch_flag_respects p : respects same_code (fetch_flag p);
}.

Section fetch.
Context {R : Register} {M : Type} {HM : Memory R M} {HF : FetchOk R M}.
Local Abbreviation DS := (DecoderState (M := M)).

Lemma decode_bits_respects pc : in_u 64 pc -> respects same_code (decode_bits pc).
Proof.
  intros Hpc. unfold decode_bits.
  apply respects_if; (apply respects_bind; [done..| |intros b]).
  - by apply fetch32_respects.
  - apply respects_if; by apply respects_ret.
  - by apply fetch16_respects.
  - apply respects_if; [|by apply respects_ret].
    apply respects_bind; [done..| |intros ?; by apply respects_ret].
    apply fetch16_respects, wrap_range. lia.
Qed.

(** Decoding the instruction at [pc] without a cache. *)
Definition raw (d : DefaultDecoder) (m : M) (pc : Z) : outcome Instruction :=
  if memory_size m <=? pc then Err (MemOutOfBound pc Memory_)
  else
    match (decode_bits pc m).1 with
    | Ok w =>
        match first_factory (dd_factories d) w (dd_version d) with
        | Some i => Ok i
        | None => Err (InvalidInstruction pc w)
        end
    | Err e => Err e
    | Panic => Panic
    end.

(** Every entry of the cache is what its address decodes to. *)
Record coherent (s : DS) : Prop := {
  co_memory : same_code s.2 s.2;
  co_size : memory_size s.2 < U64_MAX;
  co_length : length (dd_instructions_cache s.1) = Z.to_nat INSTRUCTION_CACHE_SIZE;
  co_cache : forall k p i, dd_instructions_cache s.1 !! k = Some (p, i) ->
    p < memory_size s.2 -> raw s.1 s.2 p = Ok i /\ in_u 64 p;
}.

(** Two decoders that decode alike: the same configuration on the same code, each with
    a coherent cache of its own. *)
Record alike (s s' : DS) : Prop := {
  al_left : coherent s;
  al_right : coherent s';
  al_factories : dd_factories s.1 = dd_factories s'.1;
  al_version : dd_version s.1 = dd_version s'.1;
  al_mop : dd_mop s.1 = dd_mop s'.1;
  al_code : same_code s.2 s'.2;
}.

#[export] Instance alike_sym : Symmetric alike.
Proof. intros s s' []. by constructor. Qed.
#[export] Instance alike_trans : Transitive alike.
Proof. intros s s' s'' [] []. constructor; [done..|congruence|congruence|congruence|by etrans]. Qed.

Lemma alike_refl s : coherent s -> alike s s.
Proof. intros Hs. constructor; try done. apply Hs. Qed.

Lemma raw_same d d' m m' pc : in_u 64 pc ->
  same_code m m' -> dd_factories d = dd_factories d' -> dd_version d = dd_version d' ->
  raw d m pc = raw d' m' pc.
Proof.
  intros Hpc Hm Hf Hv. unfold raw. rewrite (same_code_size _ _ Hm), Hf, Hv.
  by destruct (decode_bits_respects pc Hpc m m' Hm) as [-> _].
Qed.

Lemma raw_alike s s' pc : in_u 64 pc -> alike s s' -> raw s.1 s.2 pc = raw s'.1 s'.2 pc.
Proof. intros ? []. by apply raw_same. Qed.

Lemma cache_key_lt pc : 0 <= cache_key pc < INSTRUCTION_CACHE_SIZE.
Proof. by apply Z.mod_pos_bound. Qed.

(** The memory of a decoder changes by a fetch. *)
Lemma alike_memory d m m' : coherent (d, m) -> same_code m m' -> alike (d, m) (d, m').
Proof.
  intros Hs Hm. constructor; try done. destruct Hs as [H1 H2 H3 H4]; cbn in *.
  pose proof (same_code_size _ _ Hm) as Hz.
  constructor; cbn; [etrans; [by symmetry|done]|lia|done|].
  intros k p i Hk Hp. destruct (H4 k p i Hk) as [Hr Hu]; [lia|]. split; [|done].
  rewrite <- Hr. apply raw_same; try done.
Qed.

(** The decoded instruction enters the cache. *)
Lemma alike_insert d m k pc i : coherent (d, m) -> in_u 64 pc -> raw d m pc = Ok i ->
  alike (d, m) (set_cache (<[k := (pc, i)]> (dd_instructions_cache d)) d, m).
Proof.
  intros Hs Hpc Hr. constructor; try done; [|apply Hs]. destruct Hs as [H1 H2 H3 H4]; cbn in *.
  constructor; cbn; [done|done|by rewrite length_insert|].
  intros k' p' i' Hk Hp. apply list_lookup_insert_Some in Hk as [(-> & [= <- <-] & _)|[_ Hk]].
  - done.
  - by apply H4 in Hk.
Qed.

(** [decode_raw] returns what the uncached decoder returns and stays coherent. *)
Lemma decode_raw_spec pc s : in_u 64 pc -> coherent s ->
  (decode_raw pc s).1 = raw s.1 s.2 pc /\ alike s (decode_raw pc s).2.
Proof.
  intros Hpc Hs. destruct s as [d m]. cbn [fst snd].
  unfold decode_raw, mbind, ST_bind, gets. cbn [fst snd]. unfold raw.
  destruct (Z.leb_spec (memory_size m) pc) as [Hb|Hb]; [split; [done|by apply alike_refl]|].
  pose proof (cache_key_lt pc) as Hk. pose proof (co_length _ Hs) as Hl. cbn in Hl.
  destruct (lookup_lt_is_Some_2 (dd_instructions_cache d) (Z.to_nat (cache_key pc))) as [[p i] Hc];
    [lia|].
  cbv beta zeta. cbn [fst snd]. rewrite Hc. cbn [unwrap mret ST_ret fst snd].
  destruct (Z.eqb_spec p pc) as [->|Hne].
  - destruct (co_cache _ Hs _ _ _ Hc Hb) as [Hr _]. cbn [fst snd] in Hr. unfold raw in Hr.
    rewrite (proj2 (Z.leb_gt _ _) Hb) in Hr. rewrite Hr. split; [done|by apply alike_refl].
  - destruct (decode_bits_respects pc Hpc m m (co_memory _ Hs)) as [_ Hm'].
    unfold on_memory, zoom. cbn [fst snd].
    destruct (decode_bits pc m) as [[w|e|] m'] eqn:Hd; cbn [fst snd] in *;
      try (split; [done|by apply alike_memory]).
    pose proof (alike_memory d m m' Hs Hm') as Hal.
    destruct (first_factory _ _ _) as [i'|] eqn:Hf; [|split; [done|done]].
    split; [done|]. etrans; [exact Hal|]. apply alike_insert; [apply Hal|done|].
    rewrite <- (raw_alike (d, m) (d, m') pc Hpc Hal). unfold raw.
    cbn [fst snd]. rewrite (proj2 (Z.leb_gt _ _) Hb). rewrite Hd. cbn [fst]. by rewrite Hf.
Qed.

Lemma decode_raw_respects pc : in_u 64 pc -> respects alike (decode_raw pc).
Proof.
  intros Hpc s s' H. destruct (decode_raw_spec pc s Hpc (al_left _ _ H)) as [-> H1].
  destruct (decode_raw_spec pc s' Hpc (al_right _ _ H)) as [-> _]. split; [|done].
  by apply raw_alike.
Qed.

(** An empty cache. *)
Lemma fresh_coherent d m : same_code m m -> memory_size m < U64_MAX ->
  dd_instructions_cache d = empty_cache -> coherent (d, m).
Proof.
  intros H1 H2 H3. constructor; cbn; [done..| |]; rewrite H3; unfold empty_cache.
  - by rewrite length_replicate.
  - intros k p i Hk Hp. apply lookup_replicate in Hk as [[= -> ->] _]. lia.
Qed.

Lemma alike_reset d m : coherent (d, m) -> alike (d, m) (reset_instructions_cache d, m).
Proof.
  intros Hs. constructor; try done; [|apply Hs]. destruct Hs. by apply fresh_coherent.
Qed.

Lemma decoder_new_coherent isa v m : same_code m m -> memory_size m < U64_MAX ->
  coherent (decoder_new R isa v, m).
Proof. intros. apply fresh_coherent; try done. unfold decoder_new. by repeat case_match. Qed.

(** ** The fusion rules *)

Lemma wadd64_range x y : in_u 64 (wadd 64 x y).
Proof. by apply wrap_range. Qed.

Lemma version_respects : respects alike (gets (fun s : DS => dd_version s.1)).
Proof. apply respects_gets; [done..|]. by intros ? ? []. Qed.

Ltac respect_step :=
  cbv zeta;
  lazymatch goal with
  | |- respects _ (mbind _ _) => apply respects_bind; [done|done| |intros ?]
  | |- respects _ (mret _) => by apply respects_ret
  | |- respects _ (fail _) => by apply respects_fail
  | |- respects _ (if _ then _ else _) => apply respects_if
  | |- respects _ (match ?o with _ => _ end) => destruct o
  | |- respects _ (attempt _) => apply respects_attempt
  | |- respects _ (gets _) => apply version_respects
  | |- respects _ (decode_raw _) => apply decode_raw_respects; first [done | apply wadd64_range]
  | |- respects _ (try_rule _ _) => unfold try_rule
  | |- respects _ (with_next _ _ _) => unfold with_next
  end.

Lemma mop_add_respects pc h : in_u 64 pc -> respects alike (mop_add pc h).
Proof. intros. unfold mop_add, rule_adc, rule_add3, rule_adcs. repeat respect_step. Qed.
Lemma mop_sub_respects pc h : in_u 64 pc -> respects alike (mop_sub pc h).
Proof. intros. unfold mop_sub, rule_sbb, rule_sbbs. repeat respect_step. Qed.
Lemma mop_lui_respects pc h : in_u 64 pc -> respects alike (mop_lui pc h).
Proof. intros. unfold mop_lui. repeat respect_step. Qed.
Lemma mop_auipc_respects pc h : in_u 64 pc -> respects alike (mop_auipc pc h).
Proof. intros. unfold mop_auipc. repeat respect_step. Qed.
Lemma mop_wide_respects next_op fuze_op pc h : in_u 64 pc ->
  respects alike (mop_wide next_op fuze_op pc h).
Proof. intros. unfold mop_wide. repeat respect_step. Qed.

Lemma decode_respects pc : in_u 64 pc -> respects alike (decode pc).
Proof.
  intros Hpc. unfold decode. apply respects_bind; [done|done| |intros mop].
  { apply respects_gets; [done..|]. by intros ? ? []. }
  apply respects_if; [|by apply decode_raw_respects].
  unfold decode_mop. apply respects_bind; [done|done|by apply decode_raw_respects|intros h].
  cbv zeta. unfold mop_mulh, mop_mulhu, mop_mulhsu, mop_div, mop_divu.
  repeat apply respects_if; auto using mop_add_respects, mop_sub_respects,
    mop_lui_respects, mop_auipc_respects, mop_wide_respects.
  by apply respects_ret.
Qed.

(** C8: the instruction cache is transparent.  A decoder whose cache is coherent with the
    code in memory returns, for every pc and every fusion setting, exactly what the
    same decoder returns after its cache has been cleared, the instruction or the
    error, and both caches are coherent afterwards. *)
Theorem cache_transparent (d : DefaultDecoder) (m : M) (pc : Z) :
  in_u 64 pc -> coherent (d, m) ->
  (decode pc (d, m)).1 = (decode pc (reset_instructions_cache d, m)).1 /\
  alike (decode pc (d, m)).2 (decode pc (reset_instructions_cache d, m)).2.
Proof.
  intros Hpc Hs.
  assert (Ha : alike (d, m) (reset_instructions_cache d, m)) by by apply alike_reset.
  split; [by apply decode_respects|]. apply respects_final; [done..|by apply decode_respects|done].
Qed.
End fetch.
