(* ===== verification/FetchMem.v ===== *)
(** The memories keep the decoder's contract [FetchOk]: a flat memory is only read by a
    fetch; a sparse memory may allocate pages but its view stays; the write-xor-execute
    layer inherits the contract of the memory below. *)
From S2P Require Import Prelude Outcome Register RegisterFacts Insts Memory MemoryFacts.
From S2P Require Import SparseFacts Machine Decoder Fetch Demo.
From stdpp Require Import base list numbers.
Open Scope Z_scope.

(** * A flat memory is only read by loads and fetches *)

Section flat_reads.
Context {R : Register}.
Local Abbreviation FM := (FlatMemory R).

Lemma flat_check_reads addr size : reads (S := FM) (flat_check addr size).
Proof.
  intros s. unfold flat_check, check_no_overflow. case_match; [done|].
  destruct (woverflowing_add _ _ _). by case_match.
Qed.
Lemma flat_read_reads addr n : reads (S := FM) (flat_read addr n).
Proof. intros s. unfold flat_read. apply reads_unwrap. Qed.

Lemma flat_loads_read (addr : reg R) :
  reads (flat_load8 addr) /\ reads (flat_load16 addr) /\ reads (flat_load32 addr) /\
  reads (flat_load64 addr).
Proof.
  split_and!; (apply reads_bind; [apply flat_check_reads|intros _]);
    (apply reads_bind; [apply flat_read_reads|intros ?; apply reads_ret]).
Qed.

Lemma flat_fetches_read addr :
  reads (flat_execute_load16 (R := R) addr) /\ reads (flat_execute_load32 (R := R) addr).
Proof.
  split; (apply reads_bind; [apply flat_loads_read|intros ?; apply reads_ret]).
Qed.

Lemma flat_decode_bits_reads addr : reads (decode_bits (M := FM) addr).
Proof.
  unfold decode_bits. apply reads_if; (apply reads_bind; [apply flat_fetches_read|intros ?]).
  - apply reads_if; apply reads_ret.
  - apply reads_if; [|apply reads_ret].
    apply reads_bind; [apply flat_fetches_read|intros ?; apply reads_ret].
Qed.
Lemma flat_fetch_flag_reads p : reads (flat_fetch_flag (R := R) p).
Proof. intros m. unfold flat_fetch_flag. case_match; [|done]. apply reads_unwrap. Qed.

Lemma reads_respects {S A} (c : ST S A) : reads c -> respects eq c.
Proof. intros Hc s s' <-. split; [done|]. by rewrite Hc. Qed.

#[export] Instance flat_fetch_ok : FetchOk R FM := {
  same_code := eq;
  same_code_size m m' H := f_equal memory_size H;
  fetch16_respects a _ := reads_respects _ (proj1 (flat_fetches_read a));
  fetch32_respects a _ := reads_respects _ (proj2 (flat_fetches_read a));
}.
#[export] Instance flat_flags_ok : FlagsOk R FM :=
  {| fetch_flag_respects p := reads_respects _ (flat_fetch_flag_reads p) |}.
End flat_reads.

(** * The write-xor-execute layer *)

Section wxorx_fetch.
Context {R : Register} {M : Type} {HM : Memory R M} {HF : FetchOk R M} {HFl : FlagsOk R M}.
Local Abbreviation WM := (WXorXMemory M).

Definition wx_same_code (m m' : WM) : Prop := same_code (wx_inner m) (wx_inner m').
#[local] Instance wx_same_code_sym : Symmetric wx_same_code.
Proof. intros m m'. unfold wx_same_code. by symmetry. Qed.
#[local] Instance wx_same_code_trans : Transitive wx_same_code.
Proof. intros m m' m''. unfold wx_same_code. by etrans. Qed.

Lemma wx_lift_respects {A} (c : ST M A) : respects same_code c -> respects wx_same_code (wx_lift c).
Proof. apply respects_zoom; try done. Qed.

Lemma wx_check_respects a n flag : respects wx_same_code (wx_check a n flag).
Proof.
  apply respects_bind; [done..| |intros _].
  - intros m m' H. unfold wx_memory_size. rewrite <- (same_code_size _ _ H).
    unfold check_no_overflow. destruct (woverflowing_add _ _ _).
    repeat case_match; (split; [done|]); cbn; by etrans.
  - apply respects_for_range; [done..|]. intros p. apply respects_bind; [done..| |intros v].
    + by apply wx_lift_respects, fetch_flag_respects.
    + apply respects_if; [by apply respects_fail|by apply respects_ret].
Qed.

#[export] Instance wxorx_fetch_ok : FetchOk R WM.
Proof.
  refine {| same_code := wx_same_code |}.
  - intros m m' H. exact (same_code_size _ _ H).
  - intros a Ha. apply respects_bind; [done|done|apply wx_check_respects|intros _].
    by apply wx_lift_respects, fetch16_respects.
  - intros a Ha. apply respects_bind; [done|done|apply wx_check_respects|intros _].
    by apply wx_lift_respects, fetch32_respects.
Defined.
#[export] Instance wxorx_flags_ok : FlagsOk R WM.
Proof. constructor. intros p. by apply wx_lift_respects, fetch_flag_respects. Qed.
End wxorx_fetch.

(** * The sparse memory *)

Section sparse_fetch.
Context {R : Register} {HR : RegisterOk R}.
Local Abbreviation SM := (SparseMemory R).

(** The same bytes and flags, whatever the pages allocated for them. *)
Definition sp_same_code (m m' : SM) : Prop := sp_ok m /\ sp_ok m' /\ sp_view m = sp_view m'.
#[local] Instance sp_same_code_sym : Symmetric sp_same_code.
Proof. intros m m' (?&?&?). by split_and!. Qed.
#[local] Instance sp_same_code_trans : Transitive sp_same_code.
Proof. intros m m' m'' (?&?&?) (?&?&?). split_and!; [done|done|congruence]. Qed.

(** The page address an out-of-bounds load reports depends on the view only. *)
Definition sp_fault (a pages : Z) : Z :=
  if pages <=? a / 4096 then a / 4096 * 4096 else (a / 4096 + 1) * 4096.

Lemma sp_load_fault a n m :
  sp_ok m -> in_u 64 a -> 0 < n <= 8 -> ~ in_bounds a n (sp_memory_size m) ->
  (sp_load a n m).1 = Err (MemOutOfBound (sp_fault a (sp_riscv_pages m)) Memory_).
Proof.
  intros Hm Ha Hn Hb. pose proof Ha as [Ha1 Ha2]. pose proof (so_pages _ Hm) as Hpg.
  unfold sp_load, sp_fault. cbv zeta. rewrite round_page_down_eq by done.
  change RISCV_PAGESIZE with 4096. set (p := a / 4096).
  assert (Hp : 0 <= p) by (apply Z.div_pos; lia).
  destruct (Z.leb_spec (sp_riscv_pages m) p) as [Hpn|Hpn].
  { by erewrite bind_Err by (by apply sp_fetch_page_out). }
  destruct (sp_read_page p m Hm) as (pg & m1 & Hm1 & Hv1 & _ & _ & E); [done|].
  rewrite E. destruct (sp_accumulate _ _) as [v sh].
  assert (Hr1 : sp_riscv_pages m1 = sp_riscv_pages m)
    by (change (flat_riscv_pages (sp_view m1) = flat_riscv_pages (sp_view m)); by rewrite Hv1).
  unfold in_bounds in Hb. rewrite (proj2 (Z.ltb_lt _ _)) by (subst p; dlia).
  destruct (page_addr_next p m Hm) as [Hw _]; [lia|]. change RISCV_PAGESIZE with 4096 in Hw.
  rewrite Hw. by erewrite bind_Err by (apply sp_fetch_page_out; subst p; dlia).
Qed.

Lemma sp_load_respects a n : in_u 64 a -> 0 < n <= 8 -> respects sp_same_code (sp_load a n).
Proof.
  intros Ha Hn m m' (Hm & Hm' & Hv).
  destruct (sp_load_spec a n m Hm Ha Hn) as (H1 & H2 & H3).
  destruct (sp_load_spec a n m' Hm' Ha Hn) as (H1' & H2' & H3').
  assert (Hz : sp_memory_size m = sp_memory_size m')
    by (change (flat_memory_size (sp_view m) = flat_memory_size (sp_view m')); by rewrite Hv).
  assert (Hp : sp_riscv_pages m = sp_riscv_pages m')
    by (change (flat_riscv_pages (sp_view m) = flat_riscv_pages (sp_view m')); by rewrite Hv).
  split; [|by split_and!]. rewrite <- Hz in H3'. case_decide.
  - by rewrite H3, H3', Hv.
  - rewrite !sp_load_fault, Hp by (done || by rewrite <- Hz). done.
Qed.

Lemma sp_fetch_flag_respects p : respects sp_same_code (sp_fetch_flag p).
Proof.
  intros m m' (Hm & Hm' & Hv).
  assert (Hp : sp_riscv_pages m = sp_riscv_pages m')
    by (change (flat_riscv_pages (sp_view m) = flat_riscv_pages (sp_view m')); by rewrite Hv).
  assert (Hf : sp_flags m = sp_flags m')
    by (change (flat_flags (sp_view m) = flat_flags (sp_view m')); by rewrite Hv).
  assert (Hr : reads (sp_fetch_flag (R := R) p))
    by (intros t; unfold sp_fetch_flag; case_match; [apply reads_unwrap|done]).
  split; [|rewrite Hr; by split_and!]. unfold sp_fetch_flag. rewrite Hp, Hf.
  case_match; [|done]. by destruct (sp_flags m' !! Z.to_nat p).
Qed.

#[export] Instance sparse_fetch_ok : FetchOk R SM.
Proof.
  refine {| same_code := sp_same_code |}.
  - intros m m' (_ & _ & Hv). change (flat_memory_size (sp_view m) = flat_memory_size (sp_view m')).
    by rewrite Hv.
  - intros a Ha. apply respects_bind; [done|done|by apply sp_load_respects|].
    intros v. by apply respects_ret.
  - intros a Ha. apply respects_bind; [done|done|by apply sp_load_respects|].
    intros v. by apply respects_ret.
Defined.
#[export] Instance sparse_flags_ok : FlagsOk R SM := {| fetch_flag_respects := sp_fetch_flag_respects |}.
End sparse_fetch.

(** * Witness *)

Lemma cache_transparent_witness :
  let d := decoder_new u64_register ISA_MOP VERSION2 in
  coherent (d, memory0) /\
  (decode 4 (d, memory0)).1 = (decode 4 (reset_instructions_cache d, memory0)).1.
Proof.
  intros d. assert (Hs : coherent (d, memory0)) by by apply decoder_new_coherent.
  exact (conj Hs (proj1 (cache_transparent d memory0 4 ltac:(by split) Hs))).
Defined.
