(* ===== verification/ElfFacts.v ===== *)
(** ELF loading: which files [parse_elf] accepts, what its loading actions say, and what
    is in memory after they have been carried out. *)
From S2P Require Import Prelude Outcome Bits Register RegisterFacts Insts Memory MemoryFacts.
From S2P Require Import WXorXFacts Machine Core Elf.
From stdpp Require Import base list numbers strings.
Open Scope Z_scope.

(** * Accepted segments *)

(** The fields goblin returns have their machine widths. *)
Definition header_ok (h : ProgramHeader) : Prop :=
  in_u 32 (p_flags h) /\ in_u 64 (p_offset h) /\ in_u 64 (p_vaddr h) /\ in_u 64 (p_filesz h) /\
  in_u 64 (p_memsz h).

Definition has_flag (flags bit : Z) : bool := negb (Z.land flags bit =? 0).

(** A loadable segment the VM accepts: inside the file, readable, and not both writable
    and executable. *)
Record acceptable (g : Goblin) (len : Z) (h : ProgramHeader) : Prop := {
  ac_source : p_offset h + p_filesz h <= len;
  ac_readable : has_flag (p_flags h) (g_PF_R g) = true;
  ac_w_xor_x : has_flag (p_flags h) (g_PF_W g) = false \/ has_flag (p_flags h) (g_PF_X g) = false;
}.

(** What the loading action of a segment says. *)
Record describes (g : Goblin) (version : Z) (h : ProgramHeader) (a : LoadingAction) : Prop := {
  de_aligned : la_addr a mod 4096 = 0 /\ la_size a mod 4096 = 0;
  de_addr : la_addr a <= p_vaddr h < la_addr a + 4096;
  de_offset : la_offset_from_addr a = p_vaddr h - la_addr a;
  de_size : p_memsz h + la_offset_from_addr a + 4095 <= U64_MAX ->
    p_memsz h + la_offset_from_addr a <= la_size a < p_memsz h + la_offset_from_addr a + 4096;
  de_source : la_source a = (p_offset h, p_offset h + p_filesz h);
  de_flags : la_flags a =
    if has_flag (p_flags h) (g_PF_X g) then Z.lor FLAG_EXECUTABLE FLAG_FREEZED
    else if has_flag (p_flags h) (g_PF_W g) && negb (version <? VERSION1) then 0
    else FLAG_FREEZED;
}.

(** A loading action with machine integers, page-aligned. *)
Record action_ok (a : LoadingAction) : Prop := {
  ao_addr : in_u 64 (la_addr a);
  ao_size : in_u 64 (la_size a);
  ao_off : in_u 64 (la_offset_from_addr a);
  ao_flags : is_byte (la_flags a);
  ao_aligned : la_addr a mod 4096 = 0 /\ la_size a mod 4096 = 0;
}.

Lemma convert_flags_spec g f b v :
  match convert_flags g f b v with
  | inr fl =>
      has_flag f (g_PF_R g) = true /\
      (has_flag f (g_PF_W g) = false \/ has_flag f (g_PF_X g) = false) /\
      fl = if has_flag f (g_PF_X g) then Z.lor FLAG_EXECUTABLE FLAG_FREEZED
           else if has_flag f (g_PF_W g) && negb b then 0 else FLAG_FREEZED
  | inl e =>
      has_flag f (g_PF_R g) = false /\ e = ElfSegmentUnreadable v \/
      has_flag f (g_PF_W g) = true /\ has_flag f (g_PF_X g) = true /\
      e = ElfSegmentWritableAndExecutable v
  end.
Proof.
  unfold convert_flags. cbv zeta. fold (has_flag f (g_PF_R g)) (has_flag f (g_PF_W g)).
  fold (has_flag f (g_PF_X g)).
  destruct (has_flag f (g_PF_R g)), (has_flag f (g_PF_W g)), (has_flag f (g_PF_X g)), b; cbn; auto.
Qed.

Lemma wadd64_cases x y : in_u 64 x -> in_u 64 y ->
  wadd 64 x y = x + y \/ 2 ^ 64 <= x + y /\ wadd 64 x y = x + y - 2 ^ 64.
Proof.
  intros [? ?] [? ?]. unfold wadd, wrap. destruct (decide (x + y < 2 ^ 64)).
  - left. apply Z.mod_small. lia.
  - right. split; [lia|]. symmetry. apply (Z.mod_unique_pos _ _ 1); lia.
Qed.

Lemma roundup_page u : in_u 64 u ->
  roundup u (2 ^ 12) mod 4096 = 0 /\
  (u + 4095 <= U64_MAX -> u <= roundup u (2 ^ 12) < u + 4096).
Proof.
  intros Hu. rewrite roundup_eq by done. change (2 ^ 12) with 4096. destruct Hu.
  assert (0 <= (- u) mod 4096 < 4096) by dlia. split.
  - transitivity (wrap 12 (u + (- u) mod 4096)); [by apply (wrap_wrap_le 12 64)|].
    unfold wrap. change (2 ^ 12) with 4096. dlia.
  - intros Hb. unfold U64_MAX in Hb. rewrite wrap_small by (split; lia). lia.
Qed.

Lemma segment_action_spec g len version h : header_ok h -> 0 <= len < 2 ^ 63 ->
  match segment_action g len version h with
  | inr (a, n) => acceptable g len h /\ describes g version h a /\ action_ok a /\ n = p_filesz h
  | inl e => ~ acceptable g len h
  end.
Proof.
  intros (Hf & Ho & Hv & Hfs & Hms) Hlen. unfold segment_action. cbv zeta.
  unfold round_page_down, round_page_up. change RISCV_PAGESIZE with (2 ^ 12).
  rewrite rounddown_eq by done. unfold wsub.
  assert (E : wrap 64 (p_vaddr h - (p_vaddr h - p_vaddr h mod 2 ^ 12)) = p_vaddr h mod 2 ^ 12).
  { rewrite wrap_small; [lia|]. change (2 ^ 12) with 4096. split; dlia. }
  rewrite E. clear E. set (o := p_vaddr h mod 2 ^ 12).
  assert (Hoff : 0 <= o < 4096) by (subst o; change (2 ^ 12) with 4096; dlia).
  set (u := wadd 64 (p_memsz h) o). assert (Hu : in_u 64 u) by by apply wrap_range.
  destruct (roundup_page u Hu) as [Hr1 Hr2].
  destruct (_ || _) eqn:Hc.
  - intros [Hs _ _]. apply orb_true_iff in Hc as [Hc|Hc]; apply Z.ltb_lt in Hc; revert Hc;
      unfold wadd; rewrite wrap_small by (destruct Ho, Hfs; split; lia); destruct Hfs; lia.
  - apply orb_false_iff in Hc as [H1%Z.ltb_ge H2%Z.ltb_ge].
    assert (Hs : wadd 64 (p_offset h) (p_filesz h) = p_offset h + p_filesz h).
    { destruct (wadd64_cases (p_offset h) (p_filesz h)) as [?|[? ?]]; [done..|].
      destruct Ho, Hfs. lia. }
    rewrite Hs in *. pose proof (convert_flags_spec g (p_flags h) (version <? VERSION1) (p_vaddr h)) as Hcf.
    destruct (convert_flags _ _ _ _) as [e|fl].
    + intros [_ Hr Hx]. destruct Hcf as [[Hn _]|(Hn1 & Hn2 & _)]; [congruence|].
      destruct Hx; congruence.
    + destruct Hcf as (Hr & Hx & ->). split_and!; [by constructor| | |lia].
      * constructor; cbn [la_addr la_size la_flags la_source la_offset_from_addr]; try done.
        -- split; [|done]. subst o. change (2 ^ 12) with 4096. dlia.
        -- lia.
        -- lia.
        -- intros Hb. assert (Eu : u = p_memsz h + o)
             by (apply wrap_small; destruct Hms; unfold U64_MAX in *; split; lia).
           rewrite <- Eu. apply Hr2. lia.
      * constructor; cbn [la_addr la_size la_flags la_offset_from_addr].
        -- destruct Hv. subst o. change (2 ^ 12) with 4096. split; dlia.
        -- by apply wrap_range.
        -- split; lia.
        -- by repeat case_match.
        -- split; [|done]. subst o. change (2 ^ 12) with 4096. dlia.
Qed.

(** * parse_elf *)

Section parse.
Context (R : Register) (g0 g1 : Goblin).

(** The loadable segments, in the order of the file. *)
Definition loads (hs : list ProgramHeader) : list ProgramHeader :=
  filter (fun h => p_type h = g_PT_LOAD g0) hs.

Definition total_filesz (hs : list ProgramHeader) : Z := foldr (fun h n => p_filesz h + n) 0 hs.

Lemma parse_segments_spec len version hs bytes actions :
  0 <= len < 2 ^ 63 -> Forall header_ok hs -> 0 <= bytes ->
  match parse_segments g0 len version hs bytes actions with
  | inr actions' =>
      Forall (acceptable g0 len) (loads hs) /\
      exists l, actions' = actions ++ l /\ Forall2 (describes g0 version) (loads hs) l /\
        Forall action_ok l
  | inl e => ~ Forall (acceptable g0 len) (loads hs) \/ U64_MAX < bytes + total_filesz (loads hs)
  end.
Proof.
  intros Hlen Hhs. revert bytes actions.
  induction Hhs as [|h hs Hh Hhs IH]; intros bytes actions Hb.
  { cbn. split; [constructor|]. exists []. rewrite app_nil_r. split_and!; [done|constructor..]. }
  cbn [parse_segments]. unfold loads. rewrite filter_cons. fold (loads hs).
  destruct (Z.eqb_spec (p_type h) (g_PT_LOAD g0)) as [Ht|Ht];
    [rewrite decide_True by done|rewrite decide_False by done; by apply IH].
  pose proof (segment_action_spec g0 len version h Hh Hlen) as Hs.
  destruct (segment_action _ _ _ _) as [e|[a n]].
  { left. intros [? _]%Forall_cons_1. done. }
  destruct Hs as (Hac & Hde & Hao & ->). cbn [total_filesz foldr]. fold (total_filesz (loads hs)).
  unfold checked_add_u64. destruct (Z.leb_spec (bytes + p_filesz h) U64_MAX) as [Hle|Hgt].
  - assert (Hf : 0 <= p_filesz h) by (destruct Hh as (_ & _ & _ & [? _] & _); done).
    specialize (IH (bytes + p_filesz h) (actions ++ [a]) ltac:(lia)).
    destruct (parse_segments _ _ _ _ _ _) as [e|actions'].
    + destruct IH as [Hn|Hn]; [left; by intros [_ ?]%Forall_cons_1|right; lia].
    + destruct IH as (Hall & l & -> & Hl & Hl'). split; [by apply List.Forall_cons|].
      exists (a :: l). rewrite <- app_assoc. split_and!; [done|by constructor..].
  - right. assert (0 <= total_filesz (loads hs)); [|lia]. clear -Hhs.
    induction Hhs as [|h' hs' H' _ IH]; [done|]. unfold loads. rewrite filter_cons.
    fold (loads hs'). destruct H' as (_&_&_&[? _]&_). case_decide; cbn; [|done].
    fold (total_filesz (loads hs')). lia.
Qed.

(** C18: [parse_elf] accepts exactly the files whose loadable segments lie inside the file,
    are readable and are not both writable and executable; its metadata has one action
    per loadable segment, in order: page-aligned, covering the segment, reading exactly
    the segment's bytes of the file, and with the page flags of the segment's
    permissions (executable and frozen, frozen, or plain writable). *)
Theorem parse_elf_spec (program : list Z) (version entry : Z) (hs : list ProgramHeader) :
  read_headers R (if version <? VERSION1 then g0 else g1) program = inr (entry, hs) ->
  Forall header_ok hs -> Z.of_nat (length program) < 2 ^ 63 ->
  total_filesz (loads hs) <= U64_MAX ->
  ((exists md, parse_elf R g0 g1 program version = inr md) <->
   Forall (acceptable g0 (Z.of_nat (length program))) (loads hs)) /\
  (forall md, parse_elf R g0 g1 program version = inr md ->
   pm_entry md = entry /\ Forall2 (describes g0 version) (loads hs) (pm_actions md)).
Proof.
  intros Hr Hhs Hlen Ht. unfold parse_elf. rewrite Hr.
  pose proof (parse_segments_spec (Z.of_nat (length program)) version hs 0 []
    ltac:(lia) Hhs ltac:(lia)) as Hs.
  destruct (parse_segments _ _ _ _ _ _) as [e|actions].
  - split; [|done]. split; [by intros [md Hmd]|]. intros Hall. destruct Hs; [done|lia].
  - destruct Hs as (Hall & l & -> & Hl & _). split.
    + split; [done|]. intros _. by eexists.
    + by intros md [= <-].
Qed.
End parse.

(** * A concrete reader of 64-bit little-endian headers *)

Definition field_at (program : list Z) (off n : nat) : Z := le_to_Z (take n (drop off program)).

Definition elf64 : Goblin := {|
  g_PF_R := 4; g_PF_W := 2; g_PF_X := 1; g_PT_LOAD := 1;
  g_Header := list Z; g_Container := unit; g_Endian := unit; g_Ctx := unit;
  g_ProgramHeader := list Z;
  g_pread program := inr program;
  g_container _ := Some tt; g_endianness _ := Some tt; g_is_big _ := true;
  g_e_phoff h := field_at h 32 8; g_e_phnum h := field_at h 56 2; g_e_entry h := field_at h 24 8;
  g_Ctx_new _ _ := tt;
  g_parse program off n _ :=
    inr (map (fun i => take 56 (drop (Z.to_nat off + 56 * i) program)) (seq 0 (Z.to_nat n)));
  g_p_type h := field_at h 0 4; g_p_flags h := field_at h 4 4; g_p_offset h := field_at h 8 8;
  g_p_vaddr h := field_at h 16 8; g_p_paddr h := field_at h 24 8;
  g_p_filesz h := field_at h 32 8; g_p_memsz h := field_at h 40 8; g_p_align h := field_at h 48 8;
|}.

(** A file with one executable segment: 4 bytes at 0x1000, which is [ecall]. *)
Definition tiny_elf : list Z :=
  replicate 24 0 ++ Z_to_le 8 0x1000 ++ Z_to_le 8 64 ++ replicate 16 0 ++ Z_to_le 2 1 ++
  replicate 6 0 ++
  Z_to_le 4 1 ++ Z_to_le 4 5 ++ Z_to_le 8 120 ++ Z_to_le 8 0x1000 ++ Z_to_le 8 0x1000 ++
  Z_to_le 8 4 ++ Z_to_le 8 4 ++ Z_to_le 8 0x1000 ++
  [0x73; 0x00; 0x00; 0x00].

Definition tiny_header : ProgramHeader :=
  {| p_type := 1; p_flags := 5; p_offset := 120; p_vaddr := 0x1000; p_paddr := 0x1000;
     p_filesz := 4; p_memsz := 4; p_align := 0x1000 |}.

Lemma parse_elf_spec_witness :
  exists md, parse_elf u64_register elf64 elf64 tiny_elf VERSION1 = inr md /\
    pm_entry md = 0x1000 /\ Forall2 (describes elf64 VERSION1) [tiny_header] (pm_actions md).
Proof.
  destruct (parse_elf_spec u64_register elf64 elf64 tiny_elf VERSION1 0x1000 [tiny_header])
    as [Hex Hsp].
  - vm_compute. reflexivity.
  - by repeat constructor.
  - vm_compute. reflexivity.
  - vm_compute. discriminate.
  - destruct (proj2 Hex) as [md Hmd].
    + apply List.Forall_cons; [|constructor]. constructor; [by vm_compute|done|by left].
    + exists md. destruct (Hsp md Hmd). done.
Defined.
