(* ===== verification/ElfLoad.v ===== *)
(** What loading leaves in memory: after the actions of a program have been carried out
    through the W^X layer, every frozen segment is in memory as the file has it.

    Frozen pages are refused by a later [init_pages], so a later segment cannot overwrite
    an earlier frozen one or change its flags; the segments that are not frozen add no
    permission, so a frozen segment finds its pages as they were but for the dirty flag. *)
From S2P Require Import Prelude Outcome Bits Register RegisterFacts Insts Memory MemoryFacts.
From S2P Require Import MemoryOk WXorXFacts Machine Core Elf ElfFacts.
From stdpp Require Import base list numbers strings.
Open Scope Z_scope.

Lemma land_lor_zero v w f : Z.land (Z.lor v w) f = 0 -> Z.land v f = 0 /\ Z.land w f = 0.
Proof.
  intros H. rewrite Z.land_lor_distr_l in H. by apply Z.lor_eq_0_iff.
Qed.

Section load.
Context {R : Register} {HR : RegisterOk R}.
Local Abbreviation FM := (FlatMemory R).
Local Abbreviation WM := (WXorXMemory FM).
Local Abbreviation DC := (DefaultCoreMachine R WM).
Implicit Types m : FM.

Lemma first_frozen_none flags p (n : nat) :
  first_frozen flags p n = None -> 0 <= p -> p + Z.of_nat n <= Z.of_nat (length flags) ->
  forall q, p <= q < p + Z.of_nat n ->
  exists v, flags !! Z.to_nat q = Some v /\ Z.land v FLAG_FREEZED = 0.
Proof.
  revert p. induction n as [|n IH]; intros p; [lia|]. cbn [first_frozen]. intros H Hp Hl q Hq.
  destruct (lookup_lt_is_Some_2 flags (Z.to_nat p)) as [v Hv]; [lia|]. rewrite Hv in H.
  destruct (Z.eqb_spec (Z.land v FLAG_FREEZED) 0) as [Hz|]; [|done].
  destruct (decide (q = p)) as [->|]; [by exists v|]. apply (IH (p + 1)); [done|lia..].
Qed.

Definition in_range (a : LoadingAction) (p : Z) : Prop :=
  la_addr a / 4096 <= p < la_addr a / 4096 + la_size a / 4096.

(** Page [p] has the flags it has in [m0], these, and the dirty one. *)
Definition flagged m0 (flags : Z) (p : Z) m : Prop :=
  exists v, flat_flags m0 !! Z.to_nat p = Some v /\
    flat_flags m !! Z.to_nat p = Some (Z.lor (Z.lor v flags) FLAG_DIRTY).

(** The segment of [a] is in memory, with its flags. *)
Record loaded m0 (program : list Z) (a : LoadingAction) m : Prop := {
  lo_inside : la_addr a + la_size a <= flat_memory_size m;
  lo_bytes : exists src, bytes_slice program (la_source a) = Some src /\
    flat_get (la_addr a) (la_size a) m =
    page_image (la_size a) (Some src) (la_offset_from_addr a);
  lo_offset : la_offset_from_addr a <= la_size a;
  lo_flags : forall p, in_range a p -> flagged m0 (la_flags a) p m;
}.

Definition frozen (a : LoadingAction) : Prop := Z.land (la_flags a) FLAG_FREEZED <> 0.

(** Where nothing is frozen, only the dirty flag has been added since [m0]. *)
Definition unfrozen_as m0 m : Prop :=
  forall (i : nat) v, flat_flags m !! i = Some v -> Z.land v FLAG_FREEZED = 0 ->
  exists v0, flat_flags m0 !! i = Some v0 /\ Z.lor v FLAG_DIRTY = Z.lor v0 FLAG_DIRTY.

(** A successful [init_pages]. *)
Lemma wx_init_pages_ok m a size flags off src w :
  flat_ok m -> flat_memory_size m < 2 ^ 63 ->
  in_u 64 a -> in_u 64 size -> in_u 64 off -> is_byte flags -> Forall is_byte src ->
  a mod 4096 = 0 -> size mod 4096 = 0 ->
  wx_init_pages a size flags (Some src) off (WXorX m) = (Ok tt, w) ->
  a + size <= flat_memory_size m /\ off <= size /\
  first_frozen (flat_flags m) (a / 4096) (Z.to_nat (size / 4096)) = None /\
  w = WXorX (flat_fill a (page_image size (Some src) off)
               (mark_pages flags (a / 4096) (a / 4096 + size / 4096 - 1) m)).
Proof.
  intros Hm Hms Ha Hs Ho Hf Hsrc Hal Hsl E.
  assert (Hb : a + size <= flat_memory_size m /\ off <= size).
  { revert E. unfold wx_init_pages. change (wx_memory_size (WXorX m)) with (flat_memory_size m).
    repeat (case_match; [done|]). bool_hyps. intros _. split; [|done].
    destruct Ha, Hs.
    match goal with H : wadd _ _ _ <= _ |- _ =>
      unfold wadd in H; rewrite wrap_small in H by (split; lia) end. lia. }
  destruct Hb as [Hb Hos].
  destruct (wx_init_pages_eq R HR m a size flags off (Some src)) as [E' _]; [done..|].
  rewrite E' in E. destruct (first_frozen _ _ _); [done|]. injection E as <-.
  rewrite Z2Nat.id by (apply Z.div_pos; [apply Hs|done]). done.
Qed.

(** The flags after [init_pages]. *)
Lemma init_pages_flags m (a : LoadingAction) img (i : nat) :
  0 <= la_addr a -> la_addr a mod 4096 = 0 -> la_size a mod 4096 = 0 ->
  Z.of_nat (length img) = la_size a ->
  flat_flags (flat_fill (la_addr a) img
    (mark_pages (la_flags a) (la_addr a / 4096) (la_addr a / 4096 + la_size a / 4096 - 1) m)) !! i =
  (fun v => if decide (in_range a (Z.of_nat i)) then Z.lor (Z.lor v (la_flags a)) FLAG_DIRTY else v)
    <$> flat_flags m !! i.
Proof.
  intros Ha Hal Hsl Hlen. unfold in_range.
  assert (Hm : forall v : Z, (if (la_addr a / 4096 <=? Z.of_nat i) &&
      (Z.of_nat i <=? la_addr a / 4096 + la_size a / 4096 - 1) then Z.lor v (la_flags a) else v) =
    if decide (la_addr a / 4096 <= Z.of_nat i < la_addr a / 4096 + la_size a / 4096)
    then Z.lor v (la_flags a) else v) by (intros; case_decide; case_bools; done || lia).
  destruct img as [|b img].
  - cbn [flat_fill]. unfold mark_pages. cbn [flat_flags flat_set_flags]. rewrite mark_flags_lookup.
    destruct (flat_flags m !! i) as [v|]; [|done]. cbn. f_equal. rewrite Hm. cbn in Hlen.
    assert (Hno : ~ la_addr a / 4096 <= Z.of_nat i < la_addr a / 4096 + la_size a / 4096)
      by (rewrite <- Hlen; clear; dlia).
    by rewrite !decide_False by exact Hno.
  - unfold flat_fill, flat_put, mark_pages. cbn [flat_flags flat_set_flags].
    rewrite !mark_flags_lookup. destruct (flat_flags m !! i) as [v|]; [|done]. cbn. f_equal.
    rewrite Hm. change (S (length img)) with (length (b :: img)). rewrite Hlen.
    assert (E : (la_addr a + la_size a - 1) / 4096 = la_addr a / 4096 + la_size a / 4096 - 1)
      by (cbn [length] in Hlen; rewrite Nat2Z.inj_succ in Hlen; clear -Hlen Hal Hsl; dlia).
    rewrite E. case_decide; case_bools; done || lia.
Qed.

(** Two page ranges without a common page. *)
Lemma disjoint_pages a s b n : 0 <= a -> 0 < s -> 0 <= b -> 0 < n ->
  a mod 4096 = 0 -> s mod 4096 = 0 -> b mod 4096 = 0 -> n mod 4096 = 0 ->
  (forall p, b / 4096 <= p < b / 4096 + n / 4096 ->
             a / 4096 <= p < a / 4096 + s / 4096 -> False) ->
  b + n <= a \/ a + s <= b.
Proof.
  intros Ha Hs Hb Hn Ha' Hs' Hb' Hn' Hd.
  pose proof (Hd (Z.max (a / 4096) (b / 4096))). dlia.
Qed.

(** What it keeps and what it adds. *)
Lemma init_pages_step m0 m a src (program : list Z) w :
  flat_ok m -> flat_memory_size m < 2 ^ 63 -> action_ok a -> Forall is_byte src ->
  la_flags a = 0 \/ frozen a -> unfrozen_as m0 m ->
  bytes_slice program (la_source a) = Some src ->
  wx_init_pages (la_addr a) (la_size a) (la_flags a) (Some src) (la_offset_from_addr a) (WXorX m) =
    (Ok tt, w) ->
  exists m', w = WXorX m' /\ flat_ok m' /\ flat_memory_size m' = flat_memory_size m /\
    unfrozen_as m0 m' /\ loaded m0 program a m' /\
    forall b, action_ok b -> frozen b -> loaded m0 program b m -> loaded m0 program b m'.
Proof.
  intros Hm Hms [Ha Hs Ho Hf [Hal Hsl]] Hsrc Hkind Hun Hsl2 E.
  apply wx_init_pages_ok in E as (Hb & Hos & Hfr & ->); [|done..].
  set (img := page_image _ _ _).
  assert (Hlen : Z.of_nat (length img) = la_size a).
  { unfold img. rewrite page_image_length; [|apply Hs|apply Ho]. destruct Hs. lia. }
  pose proof (fun i => init_pages_flags m a img i (proj1 Ha) Hal Hsl Hlen) as Hfl.
  set (m1 := mark_pages _ _ _ m) in *.
  assert (Hm1 : flat_ok m1) by by apply mark_pages_ok.
  assert (Hsz : flat_memory_size m1 = flat_memory_size m) by done.
  assert (Himg : Forall is_byte img) by by apply page_image_bytes.
  destruct (flat_fill_ok (la_addr a) img m1) as [Hok2 Hsz2]; [done..|lia|].
  assert (Hfree : forall p, in_range a p ->
    exists v, flat_flags m !! Z.to_nat p = Some v /\ Z.land v FLAG_FREEZED = 0).
  { intros p Hp. apply (first_frozen_none _ _ _ Hfr); unfold in_range in Hp;
      [apply Z.div_pos; [apply Ha|done]| |]; rewrite Z2Nat.id by (apply Z.div_pos; [apply Hs|done]); [|done].
    pose proof (fo_flags _ Hm) as Hlf. pose proof (fo_pages _ Hm) as Hpg.
    rewrite Hlf. clear -Hb Hpg Hal Hsl. dlia. }
  assert (Hpos : forall p, in_range a p -> Z.of_nat (Z.to_nat p) = p).
  { intros p [Hp _]. pose proof (Z.div_pos (la_addr a) 4096 (proj1 Ha) ltac:(done)). lia. }
  exists (flat_fill (la_addr a) img m1). split_and!; [done|done|lia|..].
  - intros i v Hv Hz. rewrite Hfl in Hv. apply fmap_Some in Hv as (v1 & Hv1 & ->).
    case_decide; [|by apply Hun].
    apply land_lor_zero in Hz as [[Hz Hzf]%land_lor_zero _].
    destruct (Hun i v1 Hv1 Hz) as (v0 & Hv0 & E0). exists v0. split; [done|].
    destruct Hkind as [-> | Hk]; [|by destruct Hk].
    by rewrite Z.lor_0_r, <- Z.lor_assoc, Z.lor_diag.
  - constructor; [lia| |done|].
    + exists src. split; [done|].
      fold img. rewrite <- Hlen at 1. apply get_fill; [done|apply Ha|lia].
    + intros p Hp. destruct (Hfree p Hp) as (v & Hv & Hz).
      destruct (Hun _ v Hv Hz) as (v0 & Hv0 & E0). exists v0. split; [done|].
      rewrite Hfl, Hv. cbn. rewrite decide_True by by rewrite Hpos. f_equal.
      by rewrite <- !Z.lor_assoc, !(Z.lor_comm (la_flags a)), !Z.lor_assoc, E0.
  - intros b [Hba Hbs _ _ [Hbl Hbm]] Hfz [Hin (src' & Hsrc' & Hget) Hoff' Hflb].
    assert (Hdis : forall p, in_range b p -> in_range a p -> False).
    { intros p Hpb Hpa. destruct (Hfree p Hpa) as (v & Hv & Hz).
      destruct (Hflb p Hpb) as (v' & _ & Hv'). rewrite Hv in Hv'. injection Hv' as ->.
      by apply land_lor_zero in Hz as [[_ ?]%land_lor_zero _]. }
    constructor; [lia| |done|].
    + exists src'. split; [done|]. rewrite <- Hget. change (flat_get ?x ?y m) with (flat_get x y m1).
      destruct (decide (la_size b = 0)) as [->|Hnb]; [done|].
      destruct (decide (la_size a = 0)) as [E0|Hna].
      { rewrite E0 in Hlen. by destruct img. }
      destruct Ha, Hs, Hba, Hbs. apply get_fill_ne; [done|lia..|]. rewrite Hlen.
      apply disjoint_pages; [lia..|done|done|done|done|]. intros p Hpb Hpa.
      by apply (Hdis p).
    + intros p Hp. destruct (Hflb p Hp) as (v & Hv & Hv'). exists v. split; [done|].
      rewrite Hfl, Hv'. cbn. rewrite decide_False; [done|]. intros Hpa.
      rewrite Z2Nat.id in Hpa; [by apply (Hdis p)|].
      destruct Hp as [Hp _]. pose proof (Z.div_pos (la_addr b) 4096 (proj1 Hba) ltac:(done)). lia.
Qed.

(** * All the actions *)

Lemma load_actions_cons program a actions bytes (c c' : DC) n :
  VERSION1 <= dc_version c ->
  load_actions program (a :: actions) bytes c = (Ok n, c') ->
  exists src w, bytes_slice program (la_source a) = Some src /\
    wx_init_pages (la_addr a) (la_size a) (la_flags a) (Some src) (la_offset_from_addr a)
      (dc_memory c) = (Ok tt, w) /\
    load_actions program actions (bytes + wsub 64 (la_source a).2 (la_source a).1)
      (with_memory w c) = (Ok n, c').
Proof.
  intros Hv. cbn [load_actions]. unfold mbind, ST_bind.
  destruct (bytes_slice _ _) as [src|]; [|done]. cbn [unwrap mret ST_ret].
  unfold memory_mut, default_core_machine, zoom. cbn [init_pages wxorx_memory].
  destruct (wx_init_pages _ _ _ _ _ _) as [[[]|e|] w] eqn:E; [|done..].
  unfold gets. cbn [version]. cbn [dc_version with_memory].
  rewrite (proj2 (Z.ltb_ge _ _) Hv). cbn [mret ST_ret]. unfold checked_add_u64.
  destruct (_ <=? _); [|done]. intros H. by exists src, w.
Qed.

Lemma bytes_slice_bytes program source src :
  Forall is_byte program -> bytes_slice program source = Some src -> Forall is_byte src.
Proof.
  intros Hp. unfold bytes_slice, slice_get. repeat case_match; try done. intros [= <-].
  by apply Forall_take, Forall_drop.
Qed.

Lemma load_actions_loaded program actions bytes (c c' : DC) n m0 m :
  Forall is_byte program -> VERSION1 <= dc_version c -> dc_memory c = WXorX m -> flat_ok m ->
  flat_memory_size m < 2 ^ 63 -> Forall action_ok actions ->
  Forall (fun a => la_flags a = 0 \/ frozen a) actions -> unfrozen_as m0 m ->
  load_actions program actions bytes c = (Ok n, c') ->
  exists m', c' = with_memory (WXorX m') c /\ flat_ok m' /\
    (forall a, a ∈ actions -> frozen a -> loaded m0 program a m') /\
    (forall b, action_ok b -> frozen b -> loaded m0 program b m -> loaded m0 program b m').
Proof.
  intros Hp. revert bytes c m. induction actions as [|a actions IH]; intros bytes c m Hv Hc Hm Hms.
  { intros _ _ _ [= <- <-]. exists m. split_and!; [by rewrite <- Hc; destruct c|done| |done].
    by intros a ?%elem_of_nil. }
  intros [Ha Has]%Forall_cons_1 [Hk Hks]%Forall_cons_1 Hun H.
  apply load_actions_cons in H as (src & w & Hsrc & Hi & H); [|done]. rewrite Hc in Hi.
  apply (init_pages_step m0 m a src program w) in Hi as (m1 & -> & Hm1 & Hsz & Hun1 & Hla & Hkeep);
    [|done..|by eapply bytes_slice_bytes|done|done|done].
  destruct (IH _ (with_memory (WXorX m1) c) m1 Hv eq_refl Hm1 ltac:(lia) Has Hks Hun1 H)
    as (m' & -> & Hm' & Hall & Hkeep').
  exists m'. split_and!; [done|done| |].
  - intros x [->|Hx]%elem_of_cons Hf; [by apply Hkeep'|by apply Hall].
  - intros b Hb Hf Hl. by apply Hkeep', Hkeep.
Qed.

(** * The bytes of a segment *)

Lemma page_image_parts size src off : 0 <= off -> off + Z.of_nat (length src) <= size ->
  page_image size (Some src) off =
  replicate (Z.to_nat off) 0 ++ src ++
  replicate (Z.to_nat (size - off - Z.of_nat (length src))) 0.
Proof.
  intros Ho Hs. unfold page_image. cbn [default from_option]. rewrite Z.min_r by lia.
  unfold id. rewrite length_replicate, take_ge by lia. do 3 f_equal. lia.
Qed.

(** What a loaded action says of its program header. *)
Lemma loaded_segment g version program h a m0 m :
  header_ok h -> acceptable g (Z.of_nat (length program)) h -> describes g version h a ->
  p_filesz h <= p_memsz h -> p_memsz h + 8190 <= U64_MAX -> loaded m0 program a m ->
  flat_get (p_vaddr h) (p_filesz h) m =
    take (Z.to_nat (p_filesz h)) (drop (Z.to_nat (p_offset h)) program) /\
  flat_get (p_vaddr h + p_filesz h) (p_memsz h - p_filesz h) m =
    replicate (Z.to_nat (p_memsz h - p_filesz h)) 0 /\
  forall p, p_vaddr h / 4096 <= p <= (p_vaddr h + p_memsz h - 1) / 4096 -> 
    flagged m0 (la_flags a) p m.
Proof.
  intros (_ & [Ho _] & [Hv _] & [Hf _] & _) [Hs _ _] [[Hal Hsl] Hva Hoff Hsz Hsrc _] Hfm Hmax Hl.
  destruct Hl as [Hin (src & Hsl2 & Hget) Hle Hfl]. specialize (Hsz ltac:(lia)).
  rewrite Hsrc in Hsl2. unfold bytes_slice in Hsl2. cbn [fst snd] in Hsl2.
  rewrite (proj2 (Z.leb_le _ _)), slice_get_Some in Hsl2 by lia.
  replace (p_offset h + p_filesz h - p_offset h) with (p_filesz h) in Hsl2 by lia.
  injection Hsl2 as Esrc.
  assert (Hlen : length src = Z.to_nat (p_filesz h)).
  { rewrite <- Esrc, length_take, length_drop. lia. }
  rewrite page_image_parts in Hget by lia.
  assert (Hp : p_vaddr h = la_addr a + la_offset_from_addr a) by lia.
  assert (Ha : 0 <= la_addr a) by (clear -Hal Hva Hv; dlia).
  split_and!.
  - rewrite Hp, (flat_get_sub _ (la_size a)) by lia.
    rewrite Hget, drop_app_length' by (rewrite length_replicate; lia).
    by rewrite take_app_length' by lia.
  - rewrite Hp, <- Z.add_assoc, (flat_get_sub _ (la_size a)) by lia.
    rewrite Hget, app_assoc, drop_app_length' by (rewrite length_app, length_replicate; lia).
    rewrite take_replicate. f_equal. lia.
  - intros p Hpr. apply Hfl. unfold in_range. clear -Hpr Hal Hsl Hva Hsz Hoff. dlia.
Qed.

(** C17: an ELF program is in memory as the file has it.  When [load_elf] succeeds on a
    machine with the W^X layer (version 1 or later), then for every loadable segment that
    is not writable the memory holds, at its virtual address, exactly the segment's bytes
    of the file, followed by zeros up to its memory size; its pages have exactly the flags
    they had before with the frozen flag added, the executable flag when and only when the
    segment is executable, and the dirty flag; the pc is the entry point; and the registers
    have not changed.  Overlapping segments cannot break this: they are refused.  This is
    for segments as ELF has them, no longer in the file than in memory, and with a memory
    size that is at most 2^64 - 8191, so that rounding it to pages does not wrap: the code
    does not check either. *)
Theorem load_elf_image (g0 g1 : Goblin) (program : list Z) (c c' : DC) (m : FM)
  (entry n : Z) (hs : list ProgramHeader) :
  dc_memory c = WXorX m -> flat_ok m -> flat_memory_size m < 2 ^ 63 ->
  VERSION1 <= dc_version c -> Forall is_byte program -> Z.of_nat (length program) < 2 ^ 63 ->
  read_headers R g1 program = inr (entry, hs) -> Forall header_ok hs ->
  load_elf (parse_elf R g0 g1) program true c = (Ok n, c') ->
  dc_pc c' = from_u64 entry /\ dc_registers c' = dc_registers c /\
  exists m', dc_memory c' = WXorX m' /\ flat_ok m' /\
    forall h, h ∈ loads g0 hs -> has_flag (p_flags h) (g_PF_W g0) = false ->
      p_filesz h <= p_memsz h -> p_memsz h + 8190 <= U64_MAX ->
      flat_get (p_vaddr h) (p_filesz h) m' =
        take (Z.to_nat (p_filesz h)) (drop (Z.to_nat (p_offset h)) program) /\
      flat_get (p_vaddr h + p_filesz h) (p_memsz h - p_filesz h) m' =
        replicate (Z.to_nat (p_memsz h - p_filesz h)) 0 /\
      forall p, p_vaddr h / 4096 <= p <= (p_vaddr h + p_memsz h - 1) / 4096 ->
        flagged m (if has_flag (p_flags h) (g_PF_X g0)
                   then Z.lor FLAG_EXECUTABLE FLAG_FREEZED else FLAG_FREEZED) p m'.
Proof.
  intros Hc Hm Hms Hv Hp Hlen Hr Hhs. unfold load_elf, load_elf_inner, mbind, ST_bind, gets.
  change (version c) with (dc_version c). unfold parse_elf.
  rewrite (proj2 (Z.ltb_ge _ _) Hv), Hr.
  pose proof (parse_segments_spec g0 (Z.of_nat (length program)) (dc_version c) hs 0 []
    ltac:(lia) Hhs ltac:(lia)) as Hs.
  destruct (parse_segments _ _ _ _ _ _) as [e|actions]; [done|].
  destruct Hs as (Hall & l & -> & Hl & Hao). cbn [app].
  unfold load_binary, load_binary_inner, mbind, ST_bind. cbn [pm_actions pm_entry].
  destruct (load_actions program l 0 c) as [[k|e|] c1] eqn:E; [|done..].
  assert (Hkind : Forall (fun a => la_flags a = 0 \/ frozen a) l).
  { apply list.Forall_forall. intros a Ha. destruct (proj1 (list_elem_of_lookup _ _) Ha) as [i Hi].
    destruct (Forall2_lookup_r _ _ _ _ _ Hl Hi) as (h & _ & [_ _ _ _ _ Ef]). unfold frozen. rewrite Ef.
    repeat case_match; auto. }
  apply (load_actions_loaded program l 0 c c1 k m m) in E as (m' & -> & Hm' & Hld & _); [|done..|].
  2:{ intros i v Hi _. by exists v. }
  intros H. injection H as <- <-. split_and!; [done..|].
  exists m'. split_and!; [done..|]. intros h Hh Hw Hfm Hmax.
  destruct (proj1 (list_elem_of_lookup _ _) Hh) as [i Hi].
  destruct (Forall2_lookup_l _ _ _ _ _ Hl Hi) as (a & Ha%list_elem_of_lookup_2 & Hde).
  assert (Hacc : acceptable g0 (Z.of_nat (length program)) h)
    by by apply (proj1 (list.Forall_forall _ _) Hall).
  assert (Hho : header_ok h).
  { apply (proj1 (list.Forall_forall _ _) Hhs). by apply list_elem_of_filter in Hh as [_ ?]. }
  assert (Ef : la_flags a = if has_flag (p_flags h) (g_PF_X g0)
                 then Z.lor FLAG_EXECUTABLE FLAG_FREEZED else FLAG_FREEZED).
  { destruct Hde as [_ _ _ _ _ ->]. by rewrite Hw. }
  rewrite <- Ef. apply (loaded_segment g0 (dc_version c)); try done.
  apply Hld; [done|]. unfold frozen. rewrite Ef. by case_match.
Qed.
End load.

(** * Witness *)

Definition loader : DefaultCoreMachine u64_register (WXorXMemory (FlatMemory u64_register)) :=
  {| dc_registers := replicate 32 (0 : reg u64_register); dc_pc := (0 : reg u64_register);
     dc_next_pc := (0 : reg u64_register); dc_reset_signal := false;
     dc_memory := WXorX (flat_of 8192); dc_cycles := 0; dc_max_cycles := 1000;
     dc_running := false; dc_isa := ISA_IMC; dc_version := VERSION1 |}.

Lemma load_elf_image_witness :
  exists c' m', load_elf (parse_elf u64_register elf64 elf64) tiny_elf true loader = (Ok 4, c') /\
    dc_pc c' = 0x1000 /\ dc_memory c' = WXorX m' /\
    flat_get 0x1000 4 m' = [0x73; 0x00; 0x00; 0x00] /\
    flagged (flat_of 8192) (Z.lor FLAG_EXECUTABLE FLAG_FREEZED) 1 m'.
Proof.
  destruct (load_elf (parse_elf u64_register elf64 elf64) tiny_elf true loader) as [o c'] eqn:E.
  assert (Ho : o = Ok 4).
  { change o with (o, c').1. rewrite <- E. vm_compute. reflexivity. }
  subst o.
  destruct (load_elf_image elf64 elf64 tiny_elf loader c' (flat_of 8192) 0x1000 4 [tiny_header])
    as (Hpc & _ & m' & Hm' & _ & Hall); [done|apply flat_of_ok|done|done|..].
  - apply (bool_decide_unpack _). vm_compute. exact I.
  - vm_compute. reflexivity.
  - vm_compute. reflexivity.
  - by repeat constructor.
  - exact E.
  - exists c', m'. split; [done|]. split; [done|]. split; [done|].
    destruct (Hall tiny_header) as (Hb & _ & Hf); [left|done|done|done|].
    split; [exact Hb|]. apply Hf. split; vm_compute; discriminate.
Defined.
