(* ===== verification/Pages.v ===== *)
(** Flat memory page by page: the pages determine the memory, and restoring runs of pages
    changes exactly the pages the runs cover.  The two snapshot formats share this. *)
From S2P Require Import Prelude Outcome Bits Register RegisterFacts Insts Memory MemoryFacts.
From S2P Require Import MemoryOk WXorXFacts.
From stdpp Require Import base list numbers.
Open Scope Z_scope.

(** * Pages *)

Section pages.
Context {R : Register} {HR : RegisterOk R}.
Local Abbreviation FM := (FlatMemory R).
Implicit Types m : FM.

Definition page_of (q : Z) m : list Z := flat_get (q * 4096) 4096 m.
Definition flag_of (q : Z) m : option Z := flat_flags m !! Z.to_nat q.

Definition pages m : Z := flat_riscv_pages m.

Lemma page_of_length q m : flat_ok m -> 0 <= q < pages m -> length (page_of q m) = 4096%nat.
Proof.
  intros Hm Hq. pose proof (fo_pages _ Hm). unfold page_of, pages in *.
  rewrite flat_get_length; [done|done|lia..].
Qed.

(** A byte and its page. *)
Lemma page_byte m (i : nat) :
  flat_data m !! i = page_of (Z.of_nat i / 4096) m !! (i mod 4096)%nat.
Proof.
  unfold page_of, flat_get. assert (Hmod : (i mod 4096 < 4096)%nat) by (apply Nat.mod_upper_bound; done).
  assert (Ei : (Z.to_nat (Z.of_nat i / 4096 * 4096) + i mod 4096)%nat = i).
  { pose proof (Nat.div_mod_eq i 4096). rewrite Z2Nat.inj_mul, Z2Nat.inj_div, Nat2Z.id
      by (lia || apply Z.div_pos; lia). change (Z.to_nat 4096) with 4096%nat. lia. }
  rewrite lookup_take_lt, lookup_drop, Ei by (change (Z.to_nat 4096) with 4096%nat; lia). done.
Qed.

(** A flat memory is determined by its pages. *)
Lemma pages_ext m m' : flat_ok m -> flat_ok m' ->
  flat_memory_size m = flat_memory_size m' ->
  flat_load_reservation_address m = flat_load_reservation_address m' ->
  (forall q, 0 <= q < pages m -> page_of q m = page_of q m' /\ flag_of q m = flag_of q m') ->
  m = m'.
Proof.
  intros Hm Hm' Hs Hl Hq. pose proof (fo_pages _ Hm). pose proof (fo_pages _ Hm').
  assert (Hp : flat_riscv_pages m = flat_riscv_pages m') by lia.
  assert (Hf : flat_flags m = flat_flags m').
  { apply list_eq. intros i. pose proof (fo_flags _ Hm). pose proof (fo_flags _ Hm').
    destruct (decide (Z.of_nat i < pages m)) as [Hi|Hi].
    - destruct (Hq (Z.of_nat i)) as [_ E]; [lia|]. unfold flag_of in E. by rewrite Nat2Z.id in E.
    - unfold pages in Hi. rewrite !lookup_ge_None_2 by lia. done. }
  assert (Hd : flat_data m = flat_data m').
  { apply list_eq. intros i. pose proof (fo_data _ Hm). pose proof (fo_data _ Hm').
    destruct (decide (Z.of_nat i < flat_memory_size m)) as [Hi|Hi];
      [|rewrite !lookup_ge_None_2 by lia; done].
    destruct (Hq (Z.of_nat i / 4096)) as [E _]; [unfold pages; dlia|].
    rewrite !page_byte by (done || lia). by rewrite E. }
  destruct m, m'; cbn in *. congruence.
Qed.

(** Writing [content], whole pages, from page [p] on, and flagging the pages. *)
Definition restore_run (p f : Z) (content : list Z) m : FM :=
  mark_pages f p (p + Z.of_nat (length content) / 4096 - 1) (flat_fill (p * 4096) content m).

Lemma restore_run_pages p f content m : pages (restore_run p f content m) = pages m.
Proof. by destruct content. Qed.

Section run.
Context (p f : Z) (content : list Z) (m : FM).
Hypothesis (Hm : flat_ok m) (Hp : 0 <= p) (Hf : is_byte f) (Hc : Forall is_byte content).
Hypothesis Hk : Z.of_nat (length content) mod 4096 = 0.
Hypothesis Hin : p * 4096 + Z.of_nat (length content) <= flat_memory_size m.
Local Abbreviation k := (Z.of_nat (length content) / 4096).

Lemma run_start : in_u 64 (p * 4096).
Proof. pose proof (fo_size _ Hm) as [? ?]. split; lia. Qed.

Lemma restore_run_ok : flat_ok (restore_run p f content m) /\
  flat_memory_size (restore_run p f content m) = flat_memory_size m /\
  flat_load_reservation_address (restore_run p f content m) = flat_load_reservation_address m.
Proof.
  destruct (flat_fill_ok (p * 4096) content m Hm Hc run_start Hin) as [H1 H2].
  split_and!; [by apply mark_pages_ok|done|by destruct content].
Qed.

Lemma restore_run_page q : 0 <= q < pages m ->
  page_of q (restore_run p f content m) =
  if (p <=? q) && (q <? p + k) then take 4096 (drop (Z.to_nat ((q - p) * 4096)) content)
  else page_of q m.
Proof.
  intros Hq. unfold pages in Hq. pose proof (fo_pages _ Hm) as Hps.
  change (page_of q (restore_run p f content m)) with (page_of q (flat_fill (p * 4096) content m)).
  unfold page_of. destruct (Z.leb_spec p q), (Z.ltb_spec q (p + k)); cbn [andb].
  - replace (q * 4096) with (p * 4096 + (q - p) * 4096) by lia.
    rewrite (flat_get_sub _ (Z.of_nat (length content))) by dlia.
    by rewrite get_fill by (done || lia).
  - apply get_fill_ne; [done|lia|done|lia|lia|lia|]. right. dlia.
  - apply get_fill_ne; [done|lia|done|lia|lia|lia|]. left. lia.
  - apply get_fill_ne; [done|lia|done|lia|lia|lia|]. left. lia.
Qed.

Lemma restore_run_flag q : 0 <= q ->
  flag_of q (restore_run p f content m) =
  (fun v => if (p <=? q) && (q <? p + k) then Z.lor (Z.lor v FLAG_DIRTY) f else v) <$> flag_of q m.
Proof.
  intros Hq. unfold flag_of, restore_run, mark_pages. cbn [flat_flags flat_set_flags].
  rewrite mark_flags_lookup, Z2Nat.id by done. unfold flat_fill. destruct content as [|b bs] eqn:E.
  { cbn [length]. change (Z.of_nat 0 / 4096) with 0. destruct (flat_flags m !! Z.to_nat q); cbn; [|done].
    f_equal. case_bools; done || lia. }
  cbn [flat_put flat_flags]. rewrite mark_flags_lookup, Z2Nat.id by done.
  rewrite <- E in *. rewrite Z.div_mul by done.
  destruct (flat_flags m !! Z.to_nat q) as [v|]; cbn; [|done]. f_equal.
  assert (0 < Z.of_nat (length content)) by (rewrite E; cbn; lia).
  case_bools; try done; exfalso; dlia.
Qed.
End run.

(** * Several runs *)

(** A run: its first page, its flags and its content. *)
Definition run : Type := Z * Z * list Z.
Definition run_pages (r : run) : Z := Z.of_nat (length r.2) / 4096.
Definition covers (r : run) (q : Z) : bool := (r.1.1 <=? q) && (q <? r.1.1 + run_pages r).
Definition run_page (r : run) (q : Z) : list Z := take 4096 (drop (Z.to_nat ((q - r.1.1) * 4096)) r.2).

Record run_ok (size : Z) (r : run) : Prop := {
  ru_start : 0 <= r.1.1;
  ru_flag : is_byte r.1.2;
  ru_bytes : Forall is_byte r.2;
  ru_whole : Z.of_nat (length r.2) mod 4096 = 0;
  ru_inside : r.1.1 * 4096 + Z.of_nat (length r.2) <= size;
}.

(** Runs in increasing order, none overlapping another. *)
Fixpoint increasing (lo : Z) (l : list run) : Prop :=
  match l with
  | [] => True
  | r :: l' => lo <= r.1.1 /\ increasing (r.1.1 + run_pages r) l'
  end.

Lemma increasing_le lo lo' l : lo' <= lo -> increasing lo l -> increasing lo' l.
Proof. destruct l as [|r l]; [done|]. intros ? [? ?]. split; [lia|done]. Qed.

Lemma run_pages_nonneg r : 0 <= run_pages r.
Proof. unfold run_pages. apply Z.div_pos; lia. Qed.

Lemma increasing_covers lo l r q : increasing lo l -> r ∈ l -> covers r q = true -> lo <= q.
Proof.
  revert lo. induction l as [|r' l IH]; intros lo; [by intros _ ?%elem_of_nil|].
  intros [Hlo Hl] [->|Hr]%elem_of_cons Hc.
  - unfold covers in Hc. bool_hyps. lia.
  - pose proof (IH _ Hl Hr Hc). pose proof (run_pages_nonneg r'). lia.
Qed.

(** A way to write a run: it fills the pages of the run and changes their flags by [h]. *)
Record writes_run (step : run -> FM -> FM) (h : run -> Z -> Z) : Prop := {
  wr_ok r m : flat_ok m -> run_ok (flat_memory_size m) r ->
    flat_ok (step r m) /\ flat_memory_size (step r m) = flat_memory_size m /\
    flat_load_reservation_address (step r m) = flat_load_reservation_address m;
  wr_page r m q : flat_ok m -> run_ok (flat_memory_size m) r -> 0 <= q < pages m ->
    page_of q (step r m) = (if covers r q then run_page r q else page_of q m) /\
    flag_of q (step r m) = (fun v => if covers r q then h r v else v) <$> flag_of q m;
}.

Definition write_runs (step : run -> FM -> FM) (l : list run) m : FM :=
  foldl (fun m r => step r m) m l.

(** What writing runs does to a page. *)
Definition after_runs (h : run -> Z -> Z) (l : list run) (q : Z) m : list Z * option Z :=
  match find (fun r => covers r q) l with
  | Some r => (run_page r q, h r <$> flag_of q m)
  | None => (page_of q m, flag_of q m)
  end.

Lemma write_runs_spec step h l lo m : writes_run step h ->
  flat_ok m -> Forall (run_ok (flat_memory_size m)) l -> increasing lo l ->
  flat_ok (write_runs step l m) /\ flat_memory_size (write_runs step l m) = flat_memory_size m /\
  flat_load_reservation_address (write_runs step l m) = flat_load_reservation_address m /\
  forall q, 0 <= q < pages m ->
    (page_of q (write_runs step l m), flag_of q (write_runs step l m)) = after_runs h l q m.
Proof.
  intros Hstep. revert lo m. induction l as [|r l IH]; intros lo m Hm; [done|].
  intros [Hr Hl]%Forall_cons_1 [Hlo Hinc].
  destruct (wr_ok _ _ Hstep r m) as (Hm1 & Hs1 & Hl1); [done..|].
  destruct (IH _ (step r m) Hm1 ltac:(by rewrite Hs1) Hinc) as (Hm' & Hs' & Hl' & Hq').
  change (write_runs step (r :: l) m) with (write_runs step l (step r m)).
  split_and!; [done|congruence|congruence|]. intros q Hq.
  destruct (wr_page _ _ Hstep r m q) as [Ep Ef]; [done..|].
  rewrite Hq'; [|pose proof (fo_pages _ Hm); pose proof (fo_pages _ Hm1); unfold pages in *; lia].
  unfold after_runs. cbn [find]. rewrite Ep, Ef. destruct (covers r q) eqn:Hcov.
  - destruct (find _ l) as [r'|] eqn:Hfd; [|done]. exfalso.
    apply find_some in Hfd as [Hin%list_elem_of_In Hc'].
    pose proof (increasing_covers _ _ _ _ Hinc Hin Hc'). unfold covers in Hcov. bool_hyps. lia.
  - by destruct (find _ l), (flag_of q m).
Qed.

Definition restore_step (r : run) m : FM := restore_run r.1.1 r.1.2 r.2 m.
Definition restored_flags (r : run) (v : Z) : Z := Z.lor (Z.lor v FLAG_DIRTY) r.1.2.
Definition restore_runs : list run -> FM -> FM := write_runs restore_step.

Lemma restore_writes : writes_run restore_step restored_flags.
Proof.
  constructor.
  - intros r m Hm []. by apply restore_run_ok.
  - intros r m q Hm [] Hq. split; [by apply restore_run_page|].
    by apply restore_run_flag; try done; lia.
Qed.

(** * Runs that represent some pages of a memory

    [want q] is the flag of page [q] when it is to be represented.  The runs are built
    page by page: a page starts a new run, or continues the last one. *)

Section represents.
Context (want : Z -> option Z) (m : FM).
Hypothesis Hm : flat_ok m.

Record represents (i : Z) (l : list run) : Prop := {
  rp_ok : Forall (run_ok (flat_memory_size m)) l;
  rp_increasing : increasing 0 l;
  rp_end : Forall (fun r => r.1.1 + run_pages r <= i) l;
  rp_find q : 0 <= q < i ->
    match find (fun r => covers r q) l with
    | Some r => want q = Some r.1.2 /\ run_page r q = page_of q m
    | None => want q = None
    end;
}.

Lemma represents_nil : represents 0 [].
Proof. constructor; [constructor|done|constructor|lia]. Qed.

Lemma find_beyond i (l : list run) q : Forall (fun r => r.1.1 + run_pages r <= i) l -> i <= q ->
  find (fun r => covers r q) l = None.
Proof.
  intros Hl Hq. destruct (find _ l) as [r|] eqn:E; [|done].
  apply find_some in E as [Hin%list_elem_of_In Hc].
  pose proof (proj1 (list.Forall_forall _ _) Hl _ Hin) as He. unfold covers in Hc. bool_hyps.
  cbn in He. lia.
Qed.

Lemma represents_skip i j l : represents i l -> i <= j ->
  (forall q, i <= q < j -> want q = None) -> represents j l.
Proof.
  intros [H1 H2 H3 H4] Hij Hn. constructor; [done|done| |].
  - eapply list.Forall_impl; [exact H3|]. cbn. lia.
  - intros q Hq. destruct (decide (q < i)); [by apply H4; lia|].
    rewrite (find_beyond i) by (done || lia). apply Hn. lia.
Qed.

Lemma increasing_snoc lo (l : list run) (r : run) : increasing lo l -> lo <= r.1.1 ->
  Forall (fun r' => r'.1.1 + run_pages r' <= r.1.1) l -> increasing lo (l ++ [r]).
Proof.
  revert lo. induction l as [|r' l IH]; intros lo; [done|].
  intros [? Hl] _ [? Hf]%Forall_cons_1. split; [done|]. by apply IH.
Qed.

Lemma increasing_app lo l l' : increasing lo (l ++ l') -> increasing lo l.
Proof. revert lo. induction l as [|r l IH]; intros lo; [done|]. intros [? ?]. split; [done|]. eauto. Qed.

Lemma increasing_last lo (l : list run) (r : run) : increasing lo (l ++ [r]) ->
  Forall (fun r' => r'.1.1 + run_pages r' <= r.1.1) l.
Proof.
  revert lo. induction l as [|r' l IH]; intros lo; [constructor|]. intros [? Hl].
  apply List.Forall_cons; [|by eapply IH]. clear IH. revert Hl. generalize (r'.1.1 + run_pages r').
  induction l as [|r2 l IH]; intros z; [by intros [? _]|]. intros [? Hl].
  pose proof (run_pages_nonneg r2). apply IH. by eapply increasing_le; [|exact Hl]; lia.
Qed.

Lemma find_snoc {A} (f : A -> bool) l x :
  find f (l ++ [x]) = match find f l with Some y => Some y | None => if f x then Some x else None end.
Proof. induction l as [|y l IH]; [done|]. cbn. by destruct (f y). Qed.

(** Page [i] starts a new run. *)
Lemma represents_push i f (l : list run) : represents i l -> 0 <= i < pages m -> want i = Some f -> is_byte f ->
  represents (i + 1) (l ++ [(i, f, page_of i m)]).
Proof.
  intros [H1 H2 H3 H4] Hi Hw Hf. pose proof (page_of_length i m Hm Hi) as Hlen.
  assert (Hrp : run_pages (i, f, page_of i m) = 1) by (unfold run_pages; cbn [snd]; by rewrite Hlen).
  pose proof (fo_pages _ Hm). unfold pages in Hi.
  constructor.
  - apply Forall_app. split; [done|]. apply List.Forall_cons; [|constructor].
    constructor; cbn [fst snd]; [lia|done|by apply flat_get_bytes|by rewrite Hlen|lia].
  - apply increasing_snoc; [done|cbn; lia|done].
  - apply Forall_app. split; [eapply list.Forall_impl; [exact H3|]; cbn; lia|].
    apply List.Forall_cons; [|constructor]. rewrite Hrp. cbn. lia.
  - intros q Hq. rewrite find_snoc. destruct (decide (q < i)) as [Hlt|Hge].
    + specialize (H4 q ltac:(lia)). destruct (find _ l); [done|].
      assert (Hc : covers (i, f, page_of i m) q = false) by (unfold covers; rewrite Hrp; cbn [fst]; case_bools; done || lia).
      by rewrite Hc.
    + assert (q = i) as -> by lia. rewrite (find_beyond i) by (done || lia).
      assert (Hc : covers (i, f, page_of i m) i = true) by (unfold covers; rewrite Hrp; cbn [fst]; case_bools; done || lia).
      rewrite Hc. cbn [fst snd]. split; [done|]. unfold run_page. cbn [fst snd].
      rewrite Z.sub_diag. rewrite drop_0. by rewrite take_ge by (rewrite Hlen; lia).
Qed.

(** Page [i] continues the last run. *)
Lemma represents_grow i p f c (l : list run) : represents i (l ++ [(p, f, c)]) -> 0 <= i < pages m ->
  p + run_pages (p, f, c) = i -> want i = Some f ->
  represents (i + 1) (l ++ [(p, f, c ++ page_of i m)]).
Proof.
  intros [H1 H2 H3 H4] Hi Hp Hw. pose proof (page_of_length i m Hm Hi) as Hlen.
  apply Forall_app in H1 as [H1 [Hr _]%Forall_cons_1]. apply Forall_app in H3 as [H3 _].
  destruct Hr as [R1 R2 R3 R4 R5]. cbn [fst snd] in *. unfold run_pages in Hp. cbn [snd] in Hp.
  assert (Hl' : Z.of_nat (length (c ++ page_of i m)) = Z.of_nat (length c) + 4096)
    by (rewrite length_app, Hlen; lia).
  assert (Hrp : run_pages (p, f, c ++ page_of i m) = Z.of_nat (length c) / 4096 + 1).
  { unfold run_pages. cbn [snd]. rewrite Hl'. dlia. }
  pose proof (fo_pages _ Hm). unfold pages in Hi.
  assert (Hcl : Z.of_nat (length c) = (i - p) * 4096) by dlia.
  constructor.
  - apply Forall_app. split; [done|]. apply List.Forall_cons; [|constructor].
    constructor; cbn [fst snd]; [lia|done| |rewrite Hl'; dlia|lia].
    apply Forall_app. split; [done|]. by apply flat_get_bytes.
  - apply increasing_snoc; [by eapply increasing_app|cbn; lia|exact (increasing_last 0 _ _ H2)].
  - apply Forall_app. split; [eapply list.Forall_impl; [exact H3|]; cbn; lia|].
    apply List.Forall_cons; [|constructor]. rewrite Hrp. cbn [fst]. lia.
  - intros q Hq. rewrite find_snoc. destruct (decide (q < i)) as [Hlt|Hge].
    + specialize (H4 q ltac:(lia)). rewrite find_snoc in H4. destruct (find (fun r : run => covers r q) l); [done|].
      assert (Hc : covers (p, f, c ++ page_of i m) q = covers (p, f, c) q)
        by (unfold covers; rewrite Hrp; unfold run_pages; cbn [fst snd]; case_bools; done || lia).
      rewrite Hc. destruct (covers (p, f, c) q) eqn:Hcov; [|done].
      destruct H4 as [Hwq Hpg]. split; [done|]. rewrite <- Hpg. unfold run_page. cbn [fst snd].
      unfold covers, run_pages in Hcov. cbn [fst snd] in Hcov. bool_hyps.
      rewrite drop_app_le by lia. rewrite take_app_le; [done|]. rewrite length_drop. lia.
    + assert (q = i) as -> by lia.
      assert (Hn : find (fun r => covers r i) l = None) by (apply (find_beyond i); [done|lia]).
      rewrite Hn.
      assert (Hc : covers (p, f, c ++ page_of i m) i = true)
        by (unfold covers; rewrite Hrp; cbn [fst]; case_bools; done || lia).
      rewrite Hc. cbn [fst snd]. split; [done|]. unfold run_page. cbn [fst snd].
      rewrite drop_app_length' by lia. by rewrite take_ge by (rewrite Hlen; lia).
Qed.
End represents.
End pages.
