(* ===== verification/SnapshotFacts.v ===== *)
(** A machine resumed from a snapshot is the machine the snapshot was taken of. *)
From S2P Require Import Prelude Outcome Bits Register RegisterFacts Insts Memory MemoryFacts.
From S2P Require Import MemoryOk WXorXFacts SparseFacts Machine Core Snapshot Demo Pages.
From stdpp Require Import base list numbers.
Open Scope Z_scope.

(** * Taking a snapshot *)

Section take.
Local Abbreviation FM := (FlatMemory u64_register).
Local Abbreviation DC := (DefaultCoreMachine u64_register FM).

Lemma word_bytes_le v : in_u 64 v -> word_bytes v = Z_to_le 8 v.
Proof.
  intros Hv. unfold word_bytes, wshr. cbn [Z_to_le]. rewrite !Z.shiftr_shiftr by lia.
  by repeat f_equal.
Qed.

Lemma on_memory_same {A} (c : ST FM A) a (m : DC) :
  c (dc_memory m) = (Ok a, dc_memory m) -> memory_mut c m = (Ok a, m).
Proof. intros E. unfold memory_mut, default_core_machine, zoom. rewrite E. by destruct m. Qed.

Lemma load64_word (m : FM) a : flat_ok m -> 0 <= a -> a + 8 <= flat_memory_size m ->
  load64 (from_u64 a) m = (Ok (from_u64 (le_to_Z (flat_get a 8 m))), m).
Proof.
  intros Hm Ha Hb. pose proof (fo_size _ Hm) as [_ Hmax].
  assert (Hr : in_u 64 a) by (split; lia).
  destruct (flat_accesses (R := u64_register) m a a Hm Hr Hr) as (_&_&_&H8&_).
  unfold is_flat_load in H8. cbv zeta in H8.
  rewrite decide_True in H8; [exact H8|]. change (in_bounds a 8 (flat_memory_size m)).
  split; lia.
Qed.

Lemma read_words_spec n a (m : DC) :
  flat_ok (dc_memory m) -> 0 <= a -> a + 8 * Z.of_nat n <= flat_memory_size (dc_memory m) ->
  read_words n a m = (Ok (flat_get a (8 * Z.of_nat n) (dc_memory m)), m).
Proof.
  intros Hm. revert a. induction n as [|n IH]; intros a Ha Hb; [done|].
  cbn [read_words]. unfold mbind at 1, ST_bind at 1.
  rewrite (on_memory_same _ _ _ (load64_word _ a Hm Ha ltac:(lia))).
  unfold mbind, ST_bind. rewrite IH by lia.
  assert (Hl : length (flat_get a 8 (dc_memory m)) = 8%nat) by (rewrite flat_get_length; [done|done|lia..]).
  pose proof (flat_get_bytes a 8 _ Hm) as Hby.
  assert (Hw : in_u 64 (le_to_Z (flat_get a 8 (dc_memory m)))) by (apply (flat_get_range a 8); [done|lia..]).
  change (to_u64 (from_u64 ?x)) with x.
  rewrite word_bytes_le by done. rewrite <- Hl at 1. rewrite Z_to_le_to_Z by done.
  rewrite flat_get_app by lia. unfold mret, ST_ret. do 3 f_equal. lia.
Qed.

Definition dirty (f : Z) : bool := negb (Z.land f FLAG_DIRTY =? 0).

(** The dirty pages among [n] pages from [i] on. *)
Fixpoint dirty_runs (n : nat) (i : Z) (m : FM) : list run :=
  match n with
  | O => []
  | S n' =>
      match flag_of i m with
      | Some f => if dirty f then (i, f, page_of i m) :: dirty_runs n' (i + 1) m
                  else dirty_runs n' (i + 1) m
      | None => []
      end
  end.

Definition push_runs (l : list run) (snap : Snapshot) : Snapshot :=
  foldl (fun s r => push_page r.1.1 r.1.2 r.2 s) snap l.

Lemma fetch_flag_page (m : FM) i : flat_ok m -> 0 <= i < pages m ->
  exists f, flag_of i m = Some f /\ is_byte f /\ fetch_flag i m = (Ok f, m).
Proof.
  intros Hm Hi. destruct (flat_flag_lookup m i Hm Hi) as [f Hf]. exists f. split_and!; [done| |].
  - by apply (Forall_lookup_1 _ _ _ _ (fo_flag_bytes _ Hm) Hf).
  - rewrite (mem_fetch_flag_in m i f); [done|exact Hm|lia|exact Hf].
Qed.

Lemma page_shift (m : FM) i : flat_ok m -> 0 <= i < pages m ->
  wshl 64 i RISCV_PAGE_SHIFTS = i * 4096.
Proof.
  intros Hm Hi. unfold wshl. change (RISCV_PAGE_SHIFTS mod 64) with 12.
  rewrite Z.shiftl_mul_pow2 by lia. change (2 ^ 12) with 4096. apply wrap_small.
  pose proof (fo_pages _ Hm). destruct (fo_size _ Hm). unfold pages in *. split; lia.
Qed.

Lemma memory_pages_eq (m : FM) : flat_ok m -> memory_pages m = pages m.
Proof.
  intros Hm. unfold memory_pages, pages. change (memory_size m) with (flat_memory_size m).
  unfold wshr. change (RISCV_PAGE_SHIFTS mod 64) with 12. rewrite Z.shiftr_div_pow2 by lia.
  change (2 ^ 12) with 4096. rewrite (fo_pages _ Hm), Z.div_mul; done.
Qed.

Lemma snapshot_pages_spec n i snap (m : DC) :
  flat_ok (dc_memory m) -> 0 <= i -> i + Z.of_nat n <= pages (dc_memory m) ->
  snapshot_pages n i snap m = (Ok (push_runs (dirty_runs n i (dc_memory m)) snap), m).
Proof.
  intros Hm. revert i snap. induction n as [|n IH]; intros i snap Hi Hn; [done|].
  cbn [snapshot_pages dirty_runs].
  destruct (fetch_flag_page (dc_memory m) i Hm) as (f & Hf & _ & Hff); [lia|]. rewrite Hf.
  unfold mbind, ST_bind. rewrite (on_memory_same _ _ _ Hff). fold (dirty f).
  destruct (dirty f); [|apply IH; lia].
  unfold read_page. rewrite (page_shift (dc_memory m)) by (done || lia).
  change (Z.to_nat (RISCV_PAGESIZE / 8)) with 512%nat.
  pose proof (fo_pages _ Hm). unfold pages in *.
  rewrite read_words_spec by (done || lia). by apply IH; lia.
Qed.

Lemma dirty_runs_ok n i (m : FM) : flat_ok m -> 0 <= i -> i + Z.of_nat n <= pages m ->
  Forall (run_ok (flat_memory_size m)) (dirty_runs n i m) /\ increasing i (dirty_runs n i m) /\
  forall q, i <= q < i + Z.of_nat n -> forall f, flag_of q m = Some f ->
    find (fun r => covers r q) (dirty_runs n i m) =
    if dirty f then Some (q, f, page_of q m) else None.
Proof.
  intros Hm. revert i. induction n as [|n IH]; intros i Hi Hn.
  { split_and!; [constructor|done|lia]. }
  cbn [dirty_runs]. destruct (fetch_flag_page m i Hm) as (f & Hf & Hfb & _); [lia|]. rewrite Hf.
  destruct (IH (i + 1)) as (H1 & H2 & H3); [lia..|].
  pose proof (page_of_length i m Hm ltac:(lia)) as Hlen.
  assert (Hrp : run_pages (i, f, page_of i m) = 1) by (unfold run_pages; cbn [snd]; by rewrite Hlen).
  assert (Hci : forall q, covers (i, f, page_of i m) q = (q =? i)).
  { intros q. unfold covers. rewrite Hrp. cbn [fst]. case_bools; done || lia. }
  assert (Hlow : forall g l, increasing (i + 1) l -> flag_of i m = Some g ->
    find (fun r => covers r i) l = None).
  { intros g l Hl _. destruct (find _ l) as [r|] eqn:E; [|done].
    apply find_some in E as [Hin%list_elem_of_In Hc].
    pose proof (increasing_covers _ _ _ _ Hl Hin Hc). lia. }
  destruct (dirty f) eqn:Hd.
  - split_and!.
    + apply List.Forall_cons; [|done]. pose proof (fo_pages _ Hm). unfold pages in *.
      constructor; cbn [fst snd]; [done|done|by apply flat_get_bytes|by rewrite Hlen|lia].
    + cbn [increasing]. rewrite Hrp. done.
    + intros q Hq g Hg. cbn [find]. rewrite Hci. destruct (Z.eqb_spec q i) as [->|Hne].
      * rewrite Hf in Hg. injection Hg as <-. by rewrite Hd.
      * apply H3; [lia|done].
  - split_and!; [done|by eapply increasing_le; [|done]; lia|].
    intros q Hq g Hg. destruct (decide (q = i)) as [->|Hne]; [|apply H3; [lia|done]].
    rewrite Hf in Hg. injection Hg as <-. rewrite Hd. by eapply Hlow.
Qed.
End take.

(** * Resuming *)

Section registers.
Context {R : Register} {M : Type}.
Local Abbreviation DC := (DefaultCoreMachine R M).

Lemma set_register_in i v (m : DC) : (i < length (dc_registers m))%nat ->
  set_register (Z.of_nat i) v m = (Ok tt, with_registers (<[i := v]> (dc_registers m)) m).
Proof.
  intros Hi. unfold set_register, default_core_machine. rewrite Nat2Z.id.
  destruct (lookup_lt_is_Some_2 (dc_registers m) i Hi) as [x Hx]. by rewrite Hx.
Qed.

Lemma restore_registers_spec l i (m : DC) :
  (i + length l <= length (dc_registers m))%nat ->
  restore_registers (Z.of_nat i) l m =
  (Ok tt, with_registers (take i (dc_registers m) ++ (from_u64 <$> l) ++
                          drop (i + length l) (dc_registers m)) m).
Proof.
  revert i m. induction l as [|v l IH]; intros i m Hl.
  - cbn [restore_registers fmap list_fmap app length]. rewrite Nat.add_0_r, take_drop. by destruct m.
  - cbn [restore_registers]. cbn [length] in Hl. unfold mbind, ST_bind.
    rewrite set_register_in by lia. replace (Z.of_nat i + 1) with (Z.of_nat (S i)) by lia.
    rewrite IH by (cbn [dc_registers with_registers]; rewrite length_insert; lia). f_equal.
    unfold with_registers. cbn [dc_registers dc_pc dc_next_pc dc_reset_signal dc_memory dc_cycles
      dc_max_cycles dc_running dc_isa dc_version]. f_equal.
    rewrite drop_insert_lt by lia.
    erewrite take_S_r by (by rewrite list_lookup_insert_eq by lia).
    rewrite take_insert_ge by lia. rewrite <- app_assoc. cbn. by rewrite Nat.add_succ_r.
Qed.

Lemma restore_all_registers l (m : DC) : length l = length (dc_registers m) ->
  restore_registers 0 l m = (Ok tt, with_registers (from_u64 <$> l) m).
Proof.
  intros Hl. rewrite (restore_registers_spec l 0) by lia. rewrite take_0, drop_ge by lia.
  cbn [app]. by rewrite app_nil_r.
Qed.
End registers.

Section resume.
Context {R : Register} {HR : RegisterOk R}.
Local Abbreviation FM := (FlatMemory R).
Local Abbreviation DC := (DefaultCoreMachine R FM).

Lemma memory_run {A} (c : ST FM A) (m : DC) o mem :
  c (dc_memory m) = (o, mem) -> memory_mut c m = (o, with_memory mem m).
Proof. intros E. unfold memory_mut, default_core_machine, zoom. by rewrite E. Qed.

Lemma memory_mut_range n p (g : Z -> ST FM unit) (m : DC) mem :
  for_range n p g (dc_memory m) = (Ok tt, mem) ->
  for_range n p (fun q => memory_mut (g q)) m = (Ok tt, with_memory mem m).
Proof.
  revert p m. induction n as [|n IH]; intros p m; cbn [for_range].
  - intros [= <-]. by destruct m.
  - unfold mbind, ST_bind. destruct (g p (dc_memory m)) as [[[]|e|] mem1] eqn:E; [|done..].
    intros H. rewrite (memory_run _ _ _ _ E). by rewrite (IH _ (with_memory mem1 m)).
Qed.

(** Writing one run: the bytes, then the flags. *)
Lemma store_run_steps p f content (m : FM) : flat_ok m ->
  run_ok (flat_memory_size m) (p, f, content) ->
  store_bytes (p * 4096) content m = (Ok tt, flat_fill (p * 4096) content m) /\
  for_range (Z.to_nat (Z.of_nat (length content) / 4096)) p (fun page => set_flag page f)
    (flat_fill (p * 4096) content m) = (Ok tt, restore_run p f content m).
Proof.
  intros Hm [H1 H2 H3 H4 H5]. cbn [fst snd] in *.
  assert (Ha : in_u 64 (p * 4096)) by (pose proof (fo_size _ Hm) as [? ?]; split; lia).
  split; [exact (flat_store_bytes_fill (p * 4096) content m Hm Ha H5)|].
  destruct (flat_fill_ok (p * 4096) content m Hm H3 Ha H5) as [Hm1 Hs1].
  pose proof (fo_pages _ Hm1). rewrite Hs1 in *.
  rewrite (flat_mark_range (fun v => Z.lor v f) _ p _ Hm1); [|by intros; apply lor_byte|done|].
  - unfold restore_run, mark_pages. by rewrite Z2Nat.id by (apply Z.div_pos; lia).
  - rewrite Z2Nat.id by (apply Z.div_pos; lia). dlia.
Qed.

(** Writing one run into the memory of a machine. *)
Lemma store_run p f content (m : DC) mem : dc_memory m = mem -> flat_ok mem ->
  run_ok (flat_memory_size mem) (p, f, content) ->
  (memory_mut (store_bytes (p * 4096) content);;
   for_range (Z.to_nat (Z.of_nat (length content) / 4096)) p
     (fun page => memory_mut (set_flag page f))) m =
  (Ok tt, with_memory (restore_run p f content mem) m).
Proof.
  intros <- Hm Hr. destruct (store_run_steps _ _ _ _ Hm Hr) as [E1 E2].
  unfold mbind, ST_bind. rewrite (memory_run _ _ _ _ E1). by erewrite memory_mut_range.
Qed.

Lemma bind_assoc_ok {S A B} (a : ST S unit) (b : ST S A) (k : A -> ST S B) s r s' :
  (a;; b) s = (Ok r, s') -> (a;; (b ≫= k)) s = k r s'.
Proof.
  unfold mbind, ST_bind. destruct (a s) as [[[]|?|] s1]; [|done..]. intros E. by rewrite E.
Qed.

Lemma store_page p f content (m : DC) : flat_ok (dc_memory m) ->
  run_ok (flat_memory_size (dc_memory m)) (p, f, content) -> length content = 4096%nat ->
  (memory_mut (store_bytes (p * 4096) content);; memory_mut (set_flag p f)) m =
  (Ok tt, with_memory (restore_run p f content (dc_memory m)) m).
Proof.
  intros Hm Hr Hl. pose proof (store_run p f content m _ eq_refl Hm Hr) as H.
  rewrite Hl in H. change (Z.to_nat (Z.of_nat 4096 / 4096)) with 1%nat in H. cbn [for_range] in H.
  revert H. unfold mbind, ST_bind. destruct (memory_mut _ m) as [[[]|?|] m1]; [|done..].
  by destruct (memory_mut (set_flag p f) m1) as [[[]|?|] m2].
Qed.

Lemma restore_pages_spec l i snap (m : DC) :
  flat_ok (dc_memory m) -> Forall (run_ok (flat_memory_size (dc_memory m))) l ->
  Forall (fun r : run => length r.2 = 4096%nat) l ->
  drop i (sn_page_flags snap) = (fun r : run => r.1.2) <$> l ->
  drop i (sn_pages snap) = (fun r : run => r.2) <$> l ->
  restore_pages i ((fun r : run => r.1.1) <$> l) snap m =
  (Ok tt, with_memory (restore_runs l (dc_memory m)) m).
Proof.
  revert i m. induction l as [|[[p f] content] l IH]; intros i m Hm Hok Hlen Hf Hp.
  { by destruct m. }
  apply Forall_cons_1 in Hok as [Hr Hok]. apply Forall_cons_1 in Hlen as [Hl Hlen].
  cbn [fmap list_fmap restore_pages fst snd] in *.
  assert (Ef : sn_page_flags snap !! i = Some f)
    by (rewrite <- (Nat.add_0_r i), <- lookup_drop, Hf; done).
  assert (Ep : sn_pages snap !! i = Some content)
    by (rewrite <- (Nat.add_0_r i), <- lookup_drop, Hp; done).
  rewrite Ef, Ep. cbn [unwrap]. unfold mbind at 1 2, ST_bind at 1 2, mret at 1 2, ST_ret at 1 2.
  destruct (restore_run_ok p f content (dc_memory m)) as (Hm1 & Hs1 & _); [apply Hr || done..|].
  assert (Hpi : wshl 64 p RISCV_PAGE_SHIFTS = p * 4096).
  { destruct Hr as [? _ _ _ ?]. cbn [fst snd] in *. unfold wshl.
    change (RISCV_PAGE_SHIFTS mod 64) with 12. rewrite Z.shiftl_mul_pow2 by lia.
    change (2 ^ 12) with 4096. apply wrap_small. destruct (fo_size _ Hm). split; lia. }
  cbv zeta. rewrite Hpi.
  rewrite (bind_assoc_ok _ _ _ _ _ _ (store_page p f content m Hm Hr Hl)).
  rewrite IH; [done|done|by cbn [dc_memory with_memory]; rewrite Hs1|done|..].
  - rewrite <- (Nat.add_1_r i), <- drop_drop, Hf. done.
  - rewrite <- (Nat.add_1_r i), <- drop_drop, Hp. done.
Qed.

Lemma push_runs_fields l snap :
  sn_page_indices (push_runs l snap) = sn_page_indices snap ++ ((fun r : run => r.1.1) <$> l) /\
  sn_page_flags (push_runs l snap) = sn_page_flags snap ++ ((fun r : run => r.1.2) <$> l) /\
  sn_pages (push_runs l snap) = sn_pages snap ++ ((fun r : run => r.2) <$> l) /\
  sn_version (push_runs l snap) = sn_version snap /\
  sn_registers (push_runs l snap) = sn_registers snap /\
  sn_pc (push_runs l snap) = sn_pc snap /\
  sn_load_reservation_address (push_runs l snap) = sn_load_reservation_address snap.
Proof.
  revert snap. induction l as [|r l IH]; intros snap.
  { cbn. rewrite !app_nil_r. done. }
  change (push_runs (r :: l) snap) with (push_runs l (push_page r.1.1 r.1.2 r.2 snap)).
  destruct (IH (push_page r.1.1 r.1.2 r.2 snap)) as (-> & -> & -> & -> & -> & -> & ->).
  cbn. rewrite <- !app_assoc. done.
Qed.
End resume.

(** * The round trip *)

Section roundtrip.
Local Abbreviation FM := (FlatMemory u64_register).
Local Abbreviation DC := (DefaultCoreMachine u64_register FM).

Lemma dirty_runs_single n i (m : FM) : flat_ok m -> 0 <= i -> i + Z.of_nat n <= pages m ->
  Forall (fun r : run => length r.2 = 4096%nat) (dirty_runs n i m).
Proof.
  intros Hm. revert i. induction n as [|n IH]; intros i Hi Hn; [constructor|].
  cbn [dirty_runs]. destruct (flag_of i m); [|constructor]. case_match; [|apply IH; lia].
  apply List.Forall_cons; [apply page_of_length; [done|lia]|apply IH; lia].
Qed.

(** [m'] can take over the dirty pages of [m]: the memories have the same size, every
    clean page of [m] is the same in [m'], and no page has flags in [m'] that it lacks
    in [m]. *)
Definition base_of (m m' : FM) : Prop :=
  flat_memory_size m = flat_memory_size m' /\
  forall q, 0 <= q < pages m -> forall f f', flag_of q m = Some f -> flag_of q m' = Some f' ->
    if dirty f then Z.lor f' f = f else page_of q m' = page_of q m /\ f' = f.

Lemma restored_flag f f' : dirty f = true -> Z.lor f' f = f -> Z.lor (Z.lor f' FLAG_DIRTY) f = f.
Proof.
  unfold dirty, FLAG_DIRTY. intros Hd Hs. apply negb_true_iff, Z.eqb_neq in Hd.
  assert (Hb : Z.testbit f 2 = true).
  { destruct (Z.testbit f 2) eqn:E; [done|]. exfalso. apply Hd. apply Z.bits_inj'. intros j Hj.
    rewrite Z.land_spec, Z.testbit_0_l. change 4 with (2 ^ 2). rewrite Z.pow2_bits_eqb by lia.
    destruct (Z.eqb_spec 2 j) as [<-|]; [by rewrite E|by rewrite andb_false_r]. }
  apply Z.bits_inj'. intros j Hj. rewrite !Z.lor_spec. change 4 with (2 ^ 2).
  rewrite Z.pow2_bits_eqb by lia. rewrite <- Hs at 2. rewrite Z.lor_spec.
  destruct (Z.eqb_spec 2 j) as [<-|]; [rewrite Hb|]; by destruct (Z.testbit f' _), (Z.testbit f _).
Qed.

(** Restoring the dirty pages of [m], and its reservation, on a base of it gives [m]. *)
Lemma restored (m m2 : FM) n l : flat_ok m -> flat_ok m2 -> base_of m m2 ->
  Z.of_nat n = pages m -> l = dirty_runs n 0 m ->
  set_lr (flat_load_reservation_address m) (restore_runs l m2) = (Ok tt, m).
Proof.
  intros Hm Hm2 [Hsz Hbase] Hn ->.
  destruct (dirty_runs_ok n 0 m Hm ltac:(lia) ltac:(lia)) as (Hok & Hinc & Hfind).
  rewrite Hsz in Hok. destruct (write_runs_spec _ _ _ 0 m2 restore_writes Hm2 Hok Hinc) as (Hm3 & Hs3 & _ & Hq).
  change (write_runs restore_step ?l m2) with (restore_runs l m2) in *.
  set (m3 := restore_runs _ m2) in *.
  change (set_lr (flat_load_reservation_address m) m3) with
    (Ok tt, Build_FlatMemory u64_register (flat_data m3) (flat_flags m3) (flat_memory_size m3)
              (flat_riscv_pages m3) (flat_load_reservation_address m)).
  f_equal. symmetry. apply pages_ext; [done| |by rewrite Hsz, Hs3|done|].
  { destruct Hm3. constructor; try done. apply Hm. }
  intros q Hpq. pose proof (fo_pages _ Hm). pose proof (fo_pages _ Hm2).
  assert (Hpq2 : 0 <= q < pages m2) by (unfold pages in *; lia).
  destruct (fetch_flag_page m q Hm Hpq) as (f & Hf & _).
  destruct (fetch_flag_page m2 q Hm2 Hpq2) as (f' & Hf' & _).
  specialize (Hq q Hpq2). specialize (Hbase q Hpq f f' Hf Hf').
  unfold after_runs in Hq. rewrite (Hfind q ltac:(lia) f Hf) in Hq.
  change (page_of q (Build_FlatMemory _ _ _ _ _ _)) with (page_of q m3).
  change (flag_of q (Build_FlatMemory _ _ _ _ _ _)) with (flag_of q m3).
  destruct (dirty f) eqn:Hd; injection Hq as -> ->; rewrite Hf, Hf'.
  - cbn [fmap option_fmap option_map]. unfold restored_flags. cbn [fst snd].
    rewrite restored_flag by done. split; [|done].
    unfold run_page. cbn [fst snd]. rewrite Z.sub_diag. rewrite drop_0.
    by rewrite take_ge by (rewrite page_of_length by done; lia).
  - destruct Hbase as [<- <-]. done.
Qed.

Lemma u64_registers_roundtrip (l : list (reg u64_register)) : from_u64 <$> (to_u64 <$> l) = l.
Proof. induction l as [|x l IH]; [done|]. cbn [fmap list_fmap]. by rewrite IH. Qed.

(** C12: resuming from a snapshot restores the machine.  Take a snapshot of a 64-bit
    machine; resume it on any machine of the same version whose memory is a base of the
    first one's (for instance one that has just loaded the same program): the snapshot
    and the resumption succeed, the first machine has not changed, and the second one
    has the first one's registers, pc, load reservation and memory, every byte and page
    flag of it. *)
Theorem snapshot_roundtrip (c c2 : DC) :
  flat_ok (dc_memory c) -> flat_ok (dc_memory c2) -> base_of (dc_memory c) (dc_memory c2) ->
  dc_version c2 = dc_version c -> length (dc_registers c2) = length (dc_registers c) ->
  exists snap, make_snapshot c = (Ok snap, c) /\
    resume snap c2 = (Ok tt, with_memory (dc_memory c) (with_pc (dc_pc c) (dc_pc c)
                               (with_registers (dc_registers c) c2))).
Proof.
  intros Hm Hm2 [Hsz Hbase] Hv Hl. set (m := dc_memory c) in *. set (m2 := dc_memory c2) in *.
  pose proof (fo_pages _ Hm) as Hp. pose proof (fo_pages _ Hm2) as Hp2.
  set (n := Z.to_nat (pages m)).
  assert (Hn : 0 + Z.of_nat n = pages m).
  { unfold n, pages. destruct (fo_size _ Hm). lia. }
  pose proof (memory_pages_eq m Hm) as Hpg.
  destruct (dirty_runs_ok n 0 m Hm ltac:(lia) ltac:(lia)) as (Hok & Hinc & Hfind).
  set (l := dirty_runs n 0 m) in *.
  eexists. split.
  { unfold make_snapshot, mbind, ST_bind, gets. cbv zeta.
    change (memory c) with m. rewrite Hpg. apply (snapshot_pages_spec n 0); [done|lia|fold m; lia]. }
  fold m. fold l. set (s0 := {| sn_version := _ |}).
  destruct (push_runs_fields l s0) as (E1 & E2 & E3 & E4 & E5 & E6 & E7).
  unfold resume, mbind at 1, ST_bind at 1, gets. rewrite E4, E5, E6, E7, E1.
  change (version c2) with (dc_version c2). rewrite Hv.
  change (sn_version s0) with (dc_version c). rewrite Z.eqb_refl. cbn [negb].
  unfold mbind at 1, ST_bind at 1.
  rewrite restore_all_registers by (cbn [sn_registers s0]; rewrite length_fmap; done).
  change ((update_pc ?p;; commit_pc;; ?k) ?x) with (k (with_pc p p x)).
  change (sn_page_indices s0 ++ ?x) with x.
  unfold mbind, ST_bind. rewrite restore_pages_spec.
  - rewrite (memory_run _ _ (Ok tt) m); [|by apply (restored m m2 n)].
    change (sn_registers s0) with (to_u64 <$> dc_registers c). by rewrite u64_registers_roundtrip.
  - done.
  - change (dc_memory (with_pc _ _ _)) with m2. by rewrite <- Hsz.
  - by apply dirty_runs_single; [|lia..].
  - by rewrite E2, drop_0.
  - by rewrite E3, drop_0.
Qed.
End roundtrip.

(** * Witness *)

(** A machine that has written to the first of its two pages, and a fresh one. *)
Definition worked : DefaultCoreMachine u64_register (FlatMemory u64_register) :=
  with_registers (replicate 32 (7 : reg u64_register))
    (with_memory (restore_run 0 0 (replicate 4096 0xab) (flat_of 8192)) core0).

Definition fresh : DefaultCoreMachine u64_register (FlatMemory u64_register) :=
  with_memory (flat_of 8192) core0.

Lemma run_example_ok : run_ok 8192 (0, 0, replicate 4096 0xab).
Proof.
  constructor; cbn [fst snd]; [done|done|by apply Forall_replicate|by rewrite length_replicate|].
  rewrite length_replicate. done.
Qed.

Lemma fresh_base : base_of (dc_memory worked) (dc_memory fresh).
Proof.
  split; [reflexivity|]. intros q Hq f f' Hf Hf'.
  assert (Hq2 : q = 0 \/ q = 1) by (change (0 <= q < 2) in Hq; lia).
  destruct Hq2 as [-> | ->].
  - vm_compute in Hf, Hf'. injection Hf as <-. injection Hf' as <-. reflexivity.
  - assert (Hp : page_of 1 (dc_memory fresh) = page_of 1 (dc_memory worked)).
    { cbn [dc_memory worked fresh with_registers with_memory]. destruct run_example_ok.
      symmetry. rewrite restore_run_page; [|apply flat_of_ok|assumption..|split; reflexivity || lia].
      rewrite length_replicate. reflexivity. }
    vm_compute in Hf, Hf'. injection Hf as <-. injection Hf' as <-.
    split; [exact Hp|reflexivity].
Qed.

Lemma snapshot_roundtrip_witness :
  exists snap, make_snapshot worked = (Ok snap, worked) /\
    resume snap fresh = (Ok tt, with_memory (dc_memory worked)
      (with_pc (0 : reg u64_register) (0 : reg u64_register)
         (with_registers (replicate 32 (7 : reg u64_register)) fresh))).
Proof.
  assert (Hw : flat_ok (dc_memory worked)).
  { destruct run_example_ok. apply restore_run_ok; [apply flat_of_ok|assumption..]. }
  exact (snapshot_roundtrip worked fresh Hw flat_of_ok fresh_base eq_refl eq_refl).
Defined.
