(* ===== verification/Snapshot2Facts.v ===== *)
(** Snapshots of the second version: the round trip.

    A context is [tracked_ok] for a machine when every page it tracks and the machine has
    not written since is the page of the data source it claims to be.  From such a
    context and machine a snapshot can be resumed to the same machine and context. *)
From S2P Require Import Prelude Outcome Bits Register RegisterFacts Insts Memory MemoryFacts.
From S2P Require Import MemoryOk WXorXFacts Machine Core Snapshot Snapshot2 Pages SnapshotFacts.
From stdpp Require Import base list numbers gmap sorting.
Open Scope Z_scope.

(** What is relied on of a data source, for [u64] offsets: it holds bytes, its data ends
    below 2^64, adjacent pieces that are complete make up a piece, and every non-empty slice
    of a piece can be loaded.  Nothing is asked of a length of 0, for which the data sources
    of tests/test_resume2.rs and fuzz/fuzz_targets/snapshot2.rs return the rest of the data;
    they satisfy this (see [rest_load] in Snapshot2Resume.v). *)
Class DataSourceOk (I D : Type) `{!DataSource I D} := {
  source_app (d : D) (id : I) off l1 l2 b1 n1 b2 n2 : 0 <= off ->
    source_load_data d id off l1 = Some (b1, n1) -> Z.of_nat (length b1) = l1 ->
    source_load_data d id (off + l1) l2 = Some (b2, n2) -> Z.of_nat (length b2) = l2 ->
    exists n, source_load_data d id off (l1 + l2) = Some (b1 ++ b2, n);
  source_slice (d : D) (id : I) off l b n k l' :
    0 <= off -> source_load_data d id off l = Some (b, n) -> 0 <= k -> 0 < l' ->
    k + l' <= Z.of_nat (length b) ->
    exists n', source_load_data d id (off + k) l' =
               Some (take (Z.to_nat l') (drop (Z.to_nat k) b), n');
  source_range (d : D) (id : I) off l b n : in_u 64 off -> source_load_data d id off l = Some (b, n) ->
    Forall is_byte b /\ in_u 64 n /\ off + Z.of_nat (length b) < 2 ^ 64;
}.

Section snapshot2.
Context {I D : Type} `{!EqDecision I} `{!DataSource I D} `{!DataSourceOk I D}.
Local Abbreviation FM := (FlatMemory u64_register).
Local Abbreviation DC := (DefaultCoreMachine u64_register FM).
Local Abbreviation Ctx := (Snapshot2Context I D).
Local Abbreviation St := (S2State (R := u64_register) (M := FM) (I := I) (D := D)).
Implicit Types (m : FM) (c : DC) (ctx : Ctx).

Lemma on_mem_run {A} (k : ST FM A) ctx c o mem :
  k (dc_memory c) = (o, mem) -> on_mem k ((ctx, c) : St) = (o, (ctx, with_memory mem c)).
Proof.
  intros E. unfold on_mem, on_machine, zoom. cbn [fst snd]. by rewrite (memory_run k c o mem E).
Qed.

Lemma on_mem_range n p (g : Z -> ST FM unit) ctx c mem :
  for_range n p g (dc_memory c) = (Ok tt, mem) ->
  for_range n p (fun q => on_mem (g q)) ((ctx, c) : St) = (Ok tt, (ctx, with_memory mem c)).
Proof.
  revert p c. induction n as [|n IH]; intros p c; cbn [for_range].
  - intros [= <-]. by destruct c.
  - unfold mbind, ST_bind. destruct (g p (dc_memory c)) as [[[]|e|] mem1] eqn:E; [|done..].
    intros H. rewrite (on_mem_run _ _ _ _ _ E). by rewrite (IH _ (with_memory mem1 c)).
Qed.

Lemma page_address m q : flat_ok m -> 0 <= q < pages m -> wmul 64 q PAGE_SIZE = q * 4096.
Proof.
  intros Hm Hq. pose proof (fo_pages _ Hm). destruct (fo_size _ Hm). unfold pages in Hq.
  apply wrap_small. change PAGE_SIZE with 4096. split; lia.
Qed.

Lemma pages_nonneg m : flat_ok m -> 0 <= pages m.
Proof. intros Hm. pose proof (fo_pages _ Hm). destruct (fo_size _ Hm). unfold pages. lia. Qed.

(** * Taking a snapshot: the dirty pages *)

Definition want_dirty m (q : Z) : option Z :=
  match flag_of q m with Some f => if dirty f then Some f else None | None => None end.

Definition to_run (t : Z * Z * list Z) : run := (t.1.1 / 4096, t.1.2, t.2).
Definition aligned (t : Z * Z * list Z) : Prop := t.1.1 mod 4096 = 0.

Lemma push_dirty_spec m i f l : flat_ok m -> 0 <= i < pages m -> flag_of i m = Some f ->
  is_byte f -> dirty f = true ->
  represents (want_dirty m) m i (to_run <$> l) -> Forall aligned l ->
  represents (want_dirty m) m (i + 1) (to_run <$> push_dirty (i * 4096) f (page_of i m) l) /\
  Forall aligned (push_dirty (i * 4096) f (page_of i m) l).
Proof.
  intros Hm Hi Hf Hfb Hd Hr Hal.
  assert (Hw : want_dirty m i = Some f) by (unfold want_dirty; by rewrite Hf, Hd).
  pose proof (page_of_length i m Hm Hi) as Hlen.
  assert (Hnew : represents (want_dirty m) m (i + 1) (to_run <$> (l ++ [(i * 4096, f, page_of i m)]))
    /\ Forall aligned (l ++ [(i * 4096, f, page_of i m)])).
  { split.
    - rewrite fmap_app. cbn. unfold to_run at 2. cbn [fst snd]. rewrite Z.div_mul by done.
      by apply represents_push.
    - apply Forall_app. split; [done|]. apply List.Forall_cons; [|constructor].
      unfold aligned. cbn. apply Z.mod_mul. done. }
  assert (Hne : match page_of i m with [] => l | _ => l ++ [(i * 4096, f, page_of i m)] end =
                l ++ [(i * 4096, f, page_of i m)]) by by destruct (page_of i m).
  unfold push_dirty. rewrite Hne. destruct (last l) as [[[a g] content]|] eqn:Hl; [|done].
  apply last_Some in Hl as [l0 ->]. destruct (_ && _) eqn:Hc; [|done]. bool_hyps. subst g.
  rewrite length_app. cbn [length]. rewrite Nat.add_sub, take_app_length.
  rewrite fmap_app in *. apply Forall_app in Hal as [Hal0 [Hala _]%Forall_cons_1].
  unfold aligned in Hala. cbn [fst] in Hala.
  assert (Hro : run_ok (flat_memory_size m) (to_run (a, f, content))).
  { pose proof (rp_ok _ _ _ _ Hr) as Hok. apply Forall_app in Hok as [_ [? _]%Forall_cons_1]. done. }
  destruct Hro as [R1 R2 R3 R4 R5]. cbn [fst snd to_run] in *.
  assert (Hend : a / 4096 + Z.of_nat (length content) / 4096 = i).
  { match goal with H : wadd _ _ _ = _ |- _ => unfold wadd in H; rewrite wrap_small in H; [dlia|] end.
    destruct (fo_size _ Hm). split; dlia. }
  split.
  - cbn. unfold to_run at 2. cbn [fst snd]. by apply represents_grow.
  - apply Forall_app. split; [done|]. by apply List.Forall_cons; [|constructor].
Qed.

Lemma load_page m q : flat_ok m -> 0 <= q < pages m ->
  load_bytes (q * 4096) PAGE_SIZE m = (Ok (page_of q m), m).
Proof.
  intros Hm Hq. pose proof (fo_pages _ Hm). destruct (fo_size _ Hm). unfold pages in Hq.
  change (load_bytes (q * 4096) PAGE_SIZE m) with (flat_load_bytes (q * 4096) 4096 m).
  unfold flat_load_bytes. cbn [Z.eqb].
  erewrite bind_Ok by (apply check_no_overflow_ok; [split; lia|split; lia|apply Hm|split; lia]).
  by rewrite flat_read_ok by (done || lia).
Qed.

Lemma collect_dirty_spec n i l c : flat_ok (dc_memory c) -> 0 <= i ->
  i + Z.of_nat n <= pages (dc_memory c) ->
  represents (want_dirty (dc_memory c)) (dc_memory c) i (to_run <$> l) -> Forall aligned l ->
  exists l', collect_dirty n i l c = (Ok l', c) /\
    represents (want_dirty (dc_memory c)) (dc_memory c) (i + Z.of_nat n) (to_run <$> l') /\
    Forall aligned l'.
Proof.
  intros Hm. revert i l. induction n as [|n IH]; intros i l Hi Hn Hr Hal.
  { exists l. by rewrite Z.add_0_r. }
  cbn [collect_dirty]. unfold mbind, ST_bind.
  destruct (fetch_flag_page (dc_memory c) i Hm) as (f & Hf & Hfb & Hff); [lia|].
  rewrite (on_memory_same _ _ _ Hff). rewrite Nat2Z.inj_succ, <- Z.add_1_l, Z.add_assoc.
  destruct (dirty f) eqn:Hd; unfold dirty in Hd.
  - apply negb_true_iff in Hd as Hd'. rewrite Hd'.
    rewrite (page_address (dc_memory c)), (on_memory_same _ _ _ (load_page _ i Hm ltac:(lia)))
      by (done || lia).
    destruct (push_dirty_spec (dc_memory c) i f l) as [Hr' Hal']; [done|lia|done..|].
    by apply IH; [lia|lia| |].
  - apply negb_false_iff in Hd as Hd'. rewrite Hd'. apply IH; [lia|lia| |done].
    apply (represents_skip _ _ i); [done|lia|]. intros q Hq. assert (q = i) as -> by lia.
    unfold want_dirty, dirty. by rewrite Hf, Hd'.
Qed.

(** * Taking a snapshot: the pages of the data source *)

(** The entry of a tracked page that has not been written since. *)
Definition clean_entry ctx m (q : Z) : option (I * Z * Z) :=
  match flag_of q m with Some f => if dirty f then None else sc_pages ctx !! q | None => None end.

Definition want_source ctx m (q : Z) : option Z := snd <$> clean_entry ctx m q.

(** Every page tracked is a page of the memory; a clean one has the flags and the bytes
    the context says it has. *)
Definition tracked_ok ctx m : Prop :=
  map_Forall (fun q (e : I * Z * Z) => 0 <= q < pages m /\
    (clean_entry ctx m q = Some e ->
     0 <= e.1.2 /\ e.1.2 + 4096 < 2 ^ 64 /\ flag_of q m = Some e.2 /\
     exists n, source_load_data (sc_data_source ctx) e.1.1 e.1.2 4096 = Some (page_of q m, n)))
    (sc_pages ctx).

Local Abbreviation source_entry := (Z * Z * I * Z * Z)%type.
Definition source_content (d : D) (e : source_entry) : list Z :=
  match source_load_data d e.1.1.2 e.1.2 e.2 with Some (b, _) => b | None => [] end.
Definition source_run (d : D) (e : source_entry) : run :=
  (e.1.1.1.1 / 4096, e.1.1.1.2, source_content d e).

(** An entry of a snapshot that stands for tracked pages. *)
Record entry_ok ctx (e : source_entry) : Prop := {
  eo_aligned : e.1.1.1.1 mod 4096 = 0;
  eo_offset : 0 <= e.1.2;
  eo_end : e.1.2 + e.2 < 2 ^ 64;
  eo_load : exists b n, source_load_data (sc_data_source ctx) e.1.1.2 e.1.2 e.2 = Some (b, n) /\
              Z.of_nat (length b) = e.2;
  eo_pages q : covers (source_run (sc_data_source ctx) e) q = true ->
    sc_pages ctx !! q = Some (e.1.1.2, e.1.2 + (q - e.1.1.1.1 / 4096) * 4096, e.1.1.1.2);
}.

Lemma clean_tracked ctx m q id off f : tracked_ok ctx m ->
  clean_entry ctx m q = Some (id, off, f) ->
  sc_pages ctx !! q = Some (id, off, f) /\ 0 <= q < pages m /\ 0 <= off /\ off + 4096 < 2 ^ 64 /\
  flag_of q m = Some f /\
  exists n, source_load_data (sc_data_source ctx) id off 4096 = Some (page_of q m, n).
Proof.
  intros Ht Hc. assert (Hl : sc_pages ctx !! q = Some (id, off, f)).
  { unfold clean_entry in Hc. destruct (flag_of q m); [|done]. by destruct (dirty _). }
  destruct (Ht _ _ Hl) as [Hq H]. destruct (H Hc) as (? & ? & ? & ?). done.
Qed.

(** The first page of a new entry. *)
Lemma entry_new ctx m i id off f : flat_ok m -> tracked_ok ctx m ->
  clean_entry ctx m i = Some (id, off, f) ->
  entry_ok ctx (i * 4096, f, id, off, PAGE_SIZE) /\
  source_run (sc_data_source ctx) (i * 4096, f, id, off, PAGE_SIZE) = (i, f, page_of i m).
Proof.
  intros Hm Ht Hc. destruct (clean_tracked _ _ _ _ _ _ Ht Hc) as (Hl & Hi & Ho & Ho' & Hf & n & Hs).
  assert (E : source_run (sc_data_source ctx) (i * 4096, f, id, off, PAGE_SIZE) = (i, f, page_of i m)).
  { unfold source_run, source_content. cbn [fst snd]. change PAGE_SIZE with 4096.
    by rewrite Hs, Z.div_mul. }
  pose proof (page_of_length i m Hm Hi) as Hlen. split; [|done].
  constructor; [|done|done| |]; cbn [fst snd].
  - by apply Z.mod_mul.
  - exists (page_of i m), n. split; [done|]. rewrite Hlen. done.
  - intros q Hq. rewrite E in Hq. unfold covers, run_pages in Hq. cbn [fst snd] in Hq.
    rewrite Hlen in Hq. change (Z.of_nat 4096 / 4096) with 1 in Hq. bool_hyps.
    assert (q = i) as -> by lia. rewrite Z.div_mul by done. rewrite Hl. do 3 f_equal. lia.
Qed.

(** A page that continues an entry. *)
Lemma entry_grow ctx m i id off f a len : flat_ok m -> tracked_ok ctx m ->
  clean_entry ctx m i = Some (id, off, f) -> entry_ok ctx (a, f, id, off - len, len) ->
  a + len = i * 4096 -> 0 <= len ->
  entry_ok ctx (a, f, id, off - len, len + PAGE_SIZE) /\
  exists b, source_run (sc_data_source ctx) (a, f, id, off - len, len) = (a / 4096, f, b) /\
    source_run (sc_data_source ctx) (a, f, id, off - len, len + PAGE_SIZE) =
    (a / 4096, f, b ++ page_of i m).
Proof.
  intros Hm Ht Hc [E1 E2 E3 (b & n & Hb & Hbl) E5] Ha Hlen. cbn [fst snd] in *.
  destruct (clean_tracked _ _ _ _ _ _ Ht Hc) as (Hl & Hi & Ho & Ho' & Hf & n' & Hs).
  pose proof (page_of_length i m Hm Hi) as Hpl.
  destruct (source_app (sc_data_source ctx) id (off - len) len 4096 b n (page_of i m) n')
    as [n2 Happ]; [done|done|done|by rewrite Z.sub_add|by rewrite Hpl|].
  assert (R1 : source_run (sc_data_source ctx) (a, f, id, off - len, len) = (a / 4096, f, b)).
  { unfold source_run, source_content. cbn [fst snd]. by rewrite Hb. }
  assert (R2 : source_run (sc_data_source ctx) (a, f, id, off - len, len + PAGE_SIZE) =
    (a / 4096, f, b ++ page_of i m)).
  { unfold source_run, source_content. cbn [fst snd]. change PAGE_SIZE with 4096. by rewrite Happ. }
  split; [|by exists b].
  assert (Hl2 : Z.of_nat (length (b ++ page_of i m)) = len + 4096)
    by (rewrite length_app, Hpl, Nat2Z.inj_add, Hbl; done).
  constructor; cbn [fst snd]; [done|done|change PAGE_SIZE with 4096; lia| |].
  - exists (b ++ page_of i m), n2. by rewrite Hl2.
  - intros q Hq. rewrite R1 in E5. rewrite R2 in Hq. unfold covers, run_pages in *.
    cbn [fst snd] in *. rewrite Hl2 in Hq. rewrite Hbl in E5. bool_hyps.
    destruct (decide (q < a / 4096 + len / 4096)) as [Hlt|Hge].
    + apply E5. case_bools; done || lia.
    + assert (q = i) as -> by dlia. rewrite Hl. do 3 f_equal. dlia.
Qed.

Lemma push_source_spec ctx m i id off f (l : list source_entry) : flat_ok m -> tracked_ok ctx m ->
  clean_entry ctx m i = Some (id, off, f) ->
  let d := sc_data_source ctx in
  represents (want_source ctx m) m i (source_run d <$> l) -> Forall (entry_ok ctx) l ->
  represents (want_source ctx m) m (i + 1) (source_run d <$> push_source (i * 4096) f id off l) /\
  Forall (entry_ok ctx) (push_source (i * 4096) f id off l).
Proof.
  intros Hm Ht Hc d Hr Hok.
  destruct (clean_tracked _ _ _ _ _ _ Ht Hc) as (_ & Hi & Ho & Ho' & Hf & _).
  assert (Hfb : is_byte f) by exact (Forall_lookup_1 _ _ _ _ (fo_flag_bytes _ Hm) Hf).
  assert (Hw : want_source ctx m i = Some f) by (unfold want_source; by rewrite Hc).
  assert (Hnew : represents (want_source ctx m) m (i + 1)
      (source_run d <$> (l ++ [(i * 4096, f, id, off, PAGE_SIZE)])) /\
    Forall (entry_ok ctx) (l ++ [(i * 4096, f, id, off, PAGE_SIZE)])).
  { destruct (entry_new ctx m i id off f Hm Ht Hc) as [En Er]. split.
    - rewrite fmap_app. cbn. fold d in Er. rewrite Er. by apply represents_push.
    - apply Forall_app. split; [done|]. by apply List.Forall_cons; [|constructor]. }
  unfold push_source. cbv zeta. destruct (last l) as [[[[[a g] id'] off'] len]|] eqn:Hl; [|exact Hnew].
  apply last_Some in Hl as [l0 ->]. destruct (_ && _) eqn:Hb; [|exact Hnew]. bool_hyps. subst g.
  match goal with H : bool_decide _ = true |- _ => apply bool_decide_eq_true in H as -> end.
  rewrite length_app. cbn [length]. rewrite Nat.add_sub, take_app_length. rewrite fmap_app in *.
  apply Forall_app in Hok as [Hok0 [Hlast _]%Forall_cons_1].
  pose proof Hlast as [E1 E2 E3 (b & n & Hb1 & Hb2) _]. cbn [fst snd] in *.
  assert (Hro : run_ok (flat_memory_size m) (source_run d (a, f, id, off', len))).
  { pose proof (rp_ok _ _ _ _ Hr) as Hall. by apply Forall_app in Hall as [_ [? _]%Forall_cons_1]. }
  unfold source_run, source_content in Hro. cbn [fst snd] in Hro. fold d in Hb1.
  rewrite Hb1 in Hro. destruct Hro as [R1 _ _ R4 R5]. cbn [fst snd] in *. destruct (fo_size _ Hm).
  repeat match goal with H : wadd _ _ _ = _ |- _ => unfold wadd in H; rewrite wrap_small in H by (split; dlia) end.
  assert (off' = off - len) as -> by lia.
  destruct (entry_grow ctx m i id off f a len) as (En & b' & Er1 & Er2); [done..|lia|].
  unfold wadd. rewrite wrap_small by (change PAGE_SIZE with 4096; split; lia). split.
  - cbn in *. fold d in Er1, Er2. rewrite Er1 in Hr. rewrite Er2. apply represents_grow; [done..| |done].
    unfold source_run, source_content in Er1. cbn [fst snd] in Er1. rewrite Hb1 in Er1.
    injection Er1 as <-. unfold run_pages. cbn [snd]. dlia.
  - apply Forall_app. split; [done|]. by apply List.Forall_cons; [|constructor].
Qed.

Lemma sorted_keys_spec ctx :
  StronglySorted Z.lt (sorted_keys ctx) /\
  forall q, q ∈ sorted_keys ctx <-> is_Some (sc_pages ctx !! q).
Proof.
  pose proof (merge_sort_Permutation Z.le (map_to_list (sc_pages ctx)).*1) as Hp.
  pose proof (StronglySorted_merge_sort Z.le (map_to_list (sc_pages ctx)).*1) as Hs.
  fold (sorted_keys ctx) in Hp, Hs. split.
  - assert (Hnd : NoDup (sorted_keys ctx)) by (rewrite Hp; apply NoDup_fst_map_to_list).
    revert Hnd Hs. generalize (sorted_keys ctx). clear. intros l Hnd Hs.
    induction Hs as [|q l Hs IH Hq]; constructor; apply NoDup_cons in Hnd as [Hn Hnd]; [by apply IH|].
    apply list.Forall_forall. intros q' Hq'. pose proof (proj1 (list.Forall_forall _ _) Hq _ Hq').
    assert (q <> q') by (intros ->; done). cbn in *. lia.
  - intros q. rewrite Hp, list_elem_of_fmap. split.
    + intros ([q' e] & -> & He%elem_of_map_to_list). by exists e.
    + intros [e He]. exists (q, e). split; [done|]. by apply elem_of_map_to_list.
Qed.

(** [ks] are the tracked pages from [i] on. *)
Lemma collect_source_spec ctx c ks i (l : list source_entry) :
  flat_ok (dc_memory c) -> tracked_ok ctx (dc_memory c) ->
  StronglySorted Z.lt ks -> (forall q, q ∈ ks <-> i <= q /\ is_Some (sc_pages ctx !! q)) ->
  0 <= i <= pages (dc_memory c) ->
  let d := sc_data_source ctx in let m := dc_memory c in
  represents (want_source ctx m) m i (source_run d <$> l) -> Forall (entry_ok ctx) l ->
  exists l', collect_source ctx ks l c = (Ok l', c) /\
    represents (want_source ctx m) m (pages m) (source_run d <$> l') /\ Forall (entry_ok ctx) l'.
Proof.
  intros Hm Ht Hs. revert i l. induction Hs as [|k ks Hs IH Hk]; intros i l Hks Hi d m Hr Hok; fold m in Hi.
  - exists l. split_and!; [done| |done]. apply (represents_skip _ _ i); [done|lia|]. intros q Hq.
    unfold want_source, clean_entry. destruct (flag_of q m); [|done]. destruct (dirty _); [done|].
    destruct (sc_pages ctx !! q) eqn:E; [|done]. exfalso.
    by apply (not_elem_of_nil q), Hks; split; [lia|].
  - assert (Hik : i <= k /\ is_Some (sc_pages ctx !! k)) by (apply Hks; left).
    destruct Hik as [Hik [[[id off] g] Hent]]. destruct (Ht _ _ Hent) as [Hkp _]. fold m in Hkp.
    assert (Hks' : forall q, q ∈ ks <-> k + 1 <= q /\ is_Some (sc_pages ctx !! q)).
    { intros q. split.
      - intros Hq. split; [|by apply Hks; right].
        pose proof (proj1 (list.Forall_forall _ _) Hk _ Hq). cbn in *. lia.
      - intros [Hq Hq']. assert (Hin : q ∈ k :: ks) by (apply Hks; split; [lia|done]).
        apply elem_of_cons in Hin as [-> | ?]; [lia|done]. }
    assert (Hgap : represents (want_source ctx m) m k (source_run d <$> l)).
    { apply (represents_skip _ _ i); [done|lia|]. intros q Hq.
      unfold want_source, clean_entry. destruct (flag_of q m); [|done]. destruct (dirty _); [done|].
      destruct (sc_pages ctx !! q) eqn:E; [|done]. exfalso.
      assert (Hin : q ∈ k :: ks) by (apply Hks; split; [lia|done]).
      apply elem_of_cons in Hin as [-> | Hin]; [lia|]. apply Hks' in Hin. lia. }
    destruct (fetch_flag_page m k Hm Hkp) as (f & Hf & Hfb & Hff).
    cbn [collect_source]. unfold mbind, ST_bind. rewrite (on_memory_same _ _ _ Hff). fold (dirty f).
    destruct (dirty f) eqn:Hd.
    + apply (IH (k + 1)); [done|fold m; lia| |done]. apply (represents_skip _ _ k); [done|lia|]. intros q Hq.
      assert (q = k) as -> by lia. unfold want_source, clean_entry. fold m. by rewrite Hf, Hd.
    + rewrite Hent. unfold unwrap, mret, ST_ret. rewrite (page_address m) by done.
      assert (Hc : clean_entry ctx m k = Some (id, off, g)) by (unfold clean_entry; by rewrite Hf, Hd).
      destruct (push_source_spec ctx m k id off g l) as [Hr' Hok']; [done..|].
      by apply (IH (k + 1)); [|fold m; lia| |].
Qed.

Lemma make_snapshot2_spec ctx c : flat_ok (dc_memory c) -> tracked_ok ctx (dc_memory c) ->
  let m := dc_memory c in let d := sc_data_source ctx in
  exists ps ds, make_snapshot2 ctx c =
    (Ok {| s2_pages_from_source := ps; s2_dirty_pages := ds;
           s2_version := dc_version c; s2_registers := to_u64 <$> dc_registers c;
           s2_pc := to_u64 (dc_pc c); s2_cycles := dc_cycles c; s2_max_cycles := dc_max_cycles c;
           s2_load_reservation_address := flat_load_reservation_address m |}, c) /\
    represents (want_dirty m) m (pages m) (to_run <$> ds) /\ Forall aligned ds /\
    represents (want_source ctx m) m (pages m) (source_run d <$> ps) /\ Forall (entry_ok ctx) ps.
Proof.
  intros Hm Ht m d. pose proof (memory_pages_eq m Hm) as Hpg.
  pose proof (pages_nonneg m Hm) as Hp0.
  destruct (collect_dirty_spec (Z.to_nat (pages m)) 0 [] c Hm) as (ds & E1 & Hd & Hda).
  1-2: change (dc_memory c) with m; lia. { apply represents_nil. } { constructor. }
  destruct (sorted_keys_spec ctx) as [Hs1 Hs2].
  destruct (collect_source_spec ctx c (sorted_keys ctx) 0 [] Hm Ht Hs1) as (ps & E2 & Hps & Hpo).
  { intros q. rewrite Hs2. split; [|tauto]. intros [e He]. destruct (Ht _ _ He). split; [lia|done]. }
  { fold m. lia. } { apply represents_nil. } { constructor. }
  fold m in Hd. rewrite Z2Nat.id, Z.add_0_l in Hd by done.
  exists ps, ds. split; [|done].
  unfold make_snapshot2, mbind, ST_bind, gets. change (dc_memory c) with m. rewrite Hpg, E1, E2. done.
Qed.
End snapshot2.
