(* ===== verification/Snapshot2Resume.v ===== *)
(** Snapshots of the second version: resuming, and the round trip. *)
From S2P Require Import Prelude Outcome Bits Register RegisterFacts Insts Memory MemoryFacts.
From S2P Require Import MemoryOk WXorXFacts SparseFacts Machine Core Snapshot Snapshot2 Demo Pages.
From S2P Require Import SnapshotFacts Snapshot2Facts.
From stdpp Require Import base list numbers gmap sorting.
Open Scope Z_scope.

Local Abbreviation FM := (FlatMemory u64_register).
Local Abbreviation DC := (DefaultCoreMachine u64_register FM).

(** * Writing a run of pages and clearing their dirty flags *)

Section clear.
Implicit Types (m : FM) (r : run).

Definition cleared (v : Z) : Z := Z.land v (wnot 8 FLAG_DIRTY).
Definition clear_pages (p q : Z) m : FM := flat_set_flags (mark_flags cleared p q (flat_flags m)) m.

Lemma clear_pages_ok p q m : flat_ok m -> flat_ok (clear_pages p q m).
Proof.
  intros Hm. constructor; simpl; try apply Hm; [by rewrite mark_flags_length; apply Hm|].
  apply mark_flags_bytes; [intros; by apply land_byte_l|apply Hm].
Qed.

Definition source_step r m : FM :=
  clear_pages r.1.1 (r.1.1 + run_pages r - 1) (restore_step r m).
Definition source_flags r (v : Z) : Z := cleared (restored_flags r v).

Lemma source_writes : writes_run source_step source_flags.
Proof.
  constructor.
  - intros r m Hm Hr. destruct (wr_ok _ _ restore_writes r m Hm Hr) as (H1 & H2 & H3).
    split_and!; [by apply clear_pages_ok|done..].
  - intros r m q Hm Hr Hq. destruct (wr_page _ _ restore_writes r m q Hm Hr Hq) as [H1 H2].
    split; [exact H1|]. unfold source_step, clear_pages, flag_of. cbn [flat_flags flat_set_flags].
    rewrite mark_flags_lookup, Z2Nat.id by lia. unfold flag_of in H2. rewrite H2.
    destruct (flat_flags m !! Z.to_nat q); cbn; [|done]. unfold covers. f_equal.
    case_bools; try done; lia.
Qed.
End clear.

Section resume.
Context {I D : Type} `{!EqDecision I} `{!DataSource I D} `{!DataSourceOk I D}.
Local Abbreviation Ctx := (Snapshot2Context I D).
Local Abbreviation St := (S2State (R := u64_register) (M := FM) (I := I) (D := D)).
Local Abbreviation source_entry := (Z * Z * I * Z * Z)%type.
Implicit Types (m : FM) (c : DC) (ctx : Ctx).

(** Clearing the dirty flag of a page and reading its flag back. *)
Lemma clear_page_flag p m v : flat_ok m -> 0 <= p < pages m -> flat_flags m !! Z.to_nat p = Some v ->
  let m1 := flat_set_flags (<[Z.to_nat p := cleared v]> (flat_flags m)) m in
  clear_flag p FLAG_DIRTY m = (Ok tt, m1) /\ flat_ok m1 /\ fetch_flag p m1 = (Ok (cleared v), m1).
Proof.
  intros Hm Hp Hv m1.
  assert (Hm1 : m1 = clear_pages p p m).
  { unfold m1, clear_pages. f_equal. rewrite <- (mark_flags_step _ p p _ v) by (done || lia).
    by rewrite mark_flags_empty by lia. }
  assert (Hok1 : flat_ok m1) by (rewrite Hm1; by apply clear_pages_ok).
  split; [apply (flat_update_flag_in (R := u64_register) cleared); [unfold pages in Hp; lia|done]|]. split; [done|].
  assert (Hf1 : flag_of p m1 = Some (cleared v)).
  { unfold flag_of, m1. cbn [flat_flags flat_set_flags].
    by rewrite list_lookup_insert_eq by (by eapply lookup_lt_Some). }
  destruct (fetch_flag_page m1 p Hok1) as (f & Hf & _ & Hff); [change (pages m1) with (pages m); lia|].
  rewrite Hf1 in Hf. by injection Hf as <-.
Qed.

(** [n] whole pages from page [p] on become tracked and clean. *)
Lemma track_loop_spec n p id off ctx c : flat_ok (dc_memory c) -> 0 <= p ->
  p + Z.of_nat n <= pages (dc_memory c) -> 0 <= off -> off + Z.of_nat n * 4096 < 2 ^ 64 ->
  exists tbl, track_loop n (p * 4096) id off ((ctx, c) : St) =
      (Ok tt, (set_pages tbl ctx,
               with_memory (clear_pages p (p + Z.of_nat n - 1) (dc_memory c)) c)) /\
    forall q, tbl !! q =
      if (p <=? q) && (q <? p + Z.of_nat n)
      then (fun v => (id, off + (q - p) * 4096, cleared v)) <$> flag_of q (dc_memory c)
      else sc_pages ctx !! q.
Proof.
  revert p off ctx c. induction n as [|n IH]; intros p off ctx c Hm Hp Hn Ho Ho'.
  { exists (sc_pages ctx). split.
    - cbn [track_loop]. unfold mret, ST_ret, clear_pages.
      rewrite mark_flags_empty by lia. destruct ctx, c as [? ? ? ? [] ? ? ? ? ?]. done.
    - intros q. case_bools; done || lia. }
  destruct (flat_flag_lookup (dc_memory c) p Hm) as [v Hv]; [unfold pages in Hn; lia|].
  set (m1 := flat_set_flags (<[Z.to_nat p := cleared v]> (flat_flags (dc_memory c))) (dc_memory c)).
  destruct (clear_page_flag p (dc_memory c) v Hm ltac:(lia) Hv) as (Hcl & Hok1 & Hff). fold m1 in Hcl, Hok1, Hff.
  destruct (IH (p + 1) (off + 4096) (set_pages (<[p := (id, off, cleared v)]> (sc_pages ctx)) ctx)
    (with_memory m1 c)) as (tbl & E & Htbl); [done|lia|..].
  { cbn [dc_memory with_memory]. change (pages m1) with (pages (dc_memory c)). lia. } { lia. } { lia. }
  exists tbl. split.
  - cbn [track_loop]. cbv zeta. change (p * 4096 / PAGE_SIZE) with (p * 4096 / 4096). rewrite Z.div_mul by done.
    unfold mbind at 1, ST_bind at 1. rewrite (on_mem_run _ _ _ _ _ Hcl).
    unfold mbind at 1, ST_bind at 1. rewrite (on_mem_run _ _ (with_memory m1 c) _ _ Hff).
    unfold mbind at 1, ST_bind at 1, update_pages, modify. cbn [fst snd].
    pose proof (fo_pages _ Hm). destruct (fo_size _ Hm). unfold pages in Hn.
    unfold wadd. rewrite !wrap_small by (change PAGE_SIZE with 4096; split; lia).
    change PAGE_SIZE with 4096. replace (p * 4096 + 4096) with ((p + 1) * 4096) by lia.
    change (with_memory m1 (with_memory m1 c)) with (with_memory m1 c).
    cbn [dc_memory with_memory] in E. rewrite E.
    replace (clear_pages (p + 1) (p + 1 + Z.of_nat n - 1) m1)
      with (clear_pages p (p + Z.of_nat (S n) - 1) (dc_memory c)); [done|].
    unfold clear_pages, m1, flat_set_flags. cbn [flat_flags]. f_equal.
    rewrite <- (mark_flags_step cleared p _ _ v) by (done || lia). f_equal. lia.
  - intros q. rewrite Htbl. cbn [sc_pages set_pages dc_memory with_memory].
    destruct (decide (q = p)) as [->|Hne].
    + rewrite lookup_insert_eq. unfold flag_of. rewrite Hv. cbn.
      case_bools; try lia. do 3 f_equal. lia.
    + rewrite lookup_insert_ne by done.
      assert (Ef : 0 <= q -> flag_of q m1 = flag_of q (dc_memory c)).
      { intros Hq. unfold flag_of, m1. cbn [flat_flags flat_set_flags].
        by rewrite list_lookup_insert_ne by lia. }
      replace ((p + 1 <=? q) && (q <? p + 1 + Z.of_nat n)) with ((p <=? q) && (q <? p + Z.of_nat (S n)))
        by (case_bools; done || lia).
      destruct (_ && _) eqn:Hb; [|done]. bool_hyps. rewrite Ef by lia.
      destruct (flag_of q (dc_memory c)); [|done]. cbn. do 3 f_equal. lia.
Qed.

Lemma page_shift_pow p m : flat_ok m -> 0 <= p <= pages m ->
  roundup (p * 4096) PAGE_SIZE = p * 4096 /\ wsub 64 (p * 4096) (p * 4096) = 0.
Proof.
  intros Hm Hp. pose proof (fo_pages _ Hm). destruct (fo_size _ Hm). unfold pages in Hp. split.
  - change PAGE_SIZE with (2 ^ 12). rewrite roundup_eq by (split; lia). change (2 ^ 12) with 4096.
    rewrite Z.mod_opp_l_z by (done || apply Z.mod_mul; done). rewrite Z.add_0_r.
    apply wrap_small. split; lia.
  - unfold wsub. by rewrite Z.sub_diag.
Qed.

Lemma track_pages_aligned p len id off ctx c : flat_ok (dc_memory c) -> 0 <= p -> 0 <= len ->
  len mod 4096 = 0 -> p + len / 4096 <= pages (dc_memory c) -> 0 <= off -> off + len < 2 ^ 64 ->
  exists tbl, track_pages (p * 4096) len id off ((ctx, c) : St) =
      (Ok tt, (set_pages tbl ctx,
               with_memory (clear_pages p (p + len / 4096 - 1) (dc_memory c)) c)) /\
    forall q, tbl !! q =
      if (p <=? q) && (q <? p + len / 4096)
      then (fun v => (id, off + (q - p) * 4096, cleared v)) <$> flag_of q (dc_memory c)
      else sc_pages ctx !! q.
Proof.
  intros Hm Hp Hl Hk Hin Ho Ho'. assert (Hd : 0 <= len / 4096) by (apply Z.div_pos; lia).
  destruct (page_shift_pow p _ Hm) as [E1 E2]; [lia|]. unfold track_pages. cbv zeta.
  rewrite E1, E2, (proj2 (Z.ltb_ge _ _)) by lia.
  rewrite Z.sub_0_r. change PAGE_SIZE with 4096. unfold wadd. rewrite Z.add_0_r, wrap_small by (split; lia).
  destruct (track_loop_spec (Z.to_nat (len / 4096)) p id off ctx c) as (tbl & E & Ht);
    [done|done|rewrite Z2Nat.id by done; lia|done|rewrite Z2Nat.id by done; dlia|].
  rewrite Z2Nat.id in E, Ht by done. by exists tbl.
Qed.

Lemma set_flags_run p f content ctx c mem : run_ok (flat_memory_size (dc_memory c)) (p, f, content) ->
  flat_ok (dc_memory c) -> mem = restore_run p f content (dc_memory c) ->
  (on_mem (store_bytes (p * 4096) content);; set_flags (p * 4096) f content) ((ctx, c) : St) =
  (Ok tt, (ctx, with_memory mem c)).
Proof.
  intros Hr Hm ->. destruct (store_run_steps _ _ _ _ Hm Hr) as [E1 E2].
  unfold mbind, ST_bind, set_flags. rewrite (on_mem_run _ _ _ _ _ E1).
  change PAGE_SIZE with 4096. rewrite Z.div_mul by done. by erewrite on_mem_range.
Qed.

Lemma resume_dirty_spec l ctx c : flat_ok (dc_memory c) -> Forall aligned l ->
  Forall (run_ok (flat_memory_size (dc_memory c))) (to_run <$> l) ->
  resume_dirty l ((ctx, c) : St) =
  (Ok tt, (ctx, with_memory (restore_runs (to_run <$> l) (dc_memory c)) c)).
Proof.
  revert c. induction l as [|[[a f] content] l IH]; intros c Hm Hal Hok; [by destruct c|].
  apply Forall_cons_1 in Hal as [Ha Hal]. apply Forall_cons_1 in Hok as [Hr Hok].
  unfold aligned in Ha. unfold to_run in Hr. cbn [fst snd] in *. pose proof (ru_whole _ _ Hr) as Hw. cbn [snd] in Hw.
  cbn [resume_dirty]. change PAGE_SIZE with 4096. rewrite Ha, Hw. cbn [Z.eqb negb].
  assert (a = a / 4096 * 4096) as -> by dlia. set (p := a / 4096) in *.
  rewrite (bind_assoc_ok _ _ _ _ _ _ (set_flags_run p f content ctx c _ Hr Hm eq_refl)).
  destruct (wr_ok _ _ restore_writes _ _ Hm Hr) as (Hm1 & Hs1 & _).
  change (restore_step (p, f, content) (dc_memory c)) with (restore_run p f content (dc_memory c)) in *.
  rewrite IH by (cbn [dc_memory with_memory]; by rewrite ?Hs1).
  cbn [fmap list_fmap]. replace (to_run (p * 4096, f, content)) with (p, f, content); [done|].
  unfold to_run. cbn [fst snd]. by rewrite Z.div_mul.
Qed.

(** What resuming from the entry [e] records for page [q], which had flags [v]. *)
Definition source_row (d : D) (e : source_entry) (q v : Z) : I * Z * Z :=
  (e.1.1.2, e.1.2 + (q - e.1.1.1.1 / 4096) * 4096, source_flags (source_run d e) v).

(** One entry: its pages are written, flagged and tracked. *)
Lemma resume_entry ctx0 a f id off len l ctx c :
  flat_ok (dc_memory c) -> sc_data_source ctx = sc_data_source ctx0 ->
  entry_ok ctx0 (a, f, id, off, len) ->
  let d := sc_data_source ctx0 in let r := source_run d (a, f, id, off, len) in
  run_ok (flat_memory_size (dc_memory c)) r ->
  exists tbl, resume_from_source ((a, f, id, off, len) :: l) ((ctx, c) : St) =
      resume_from_source l (set_pages tbl ctx, with_memory (source_step r (dc_memory c)) c) /\
    forall q, tbl !! q = if covers r q
      then source_row d (a, f, id, off, len) q <$> flag_of q (dc_memory c) else sc_pages ctx !! q.
Proof.
  intros Hm Hd [E1 E2 E3 (b & n & Hb & Hbl) _] d r Hr. fold d in Hb. cbn [fst snd] in *.
  assert (Er : r = (a / 4096, f, b)) by (unfold r, source_run, source_content; cbn [fst snd]; by rewrite Hb).
  assert (Hap : a = a / 4096 * 4096) by dlia. rewrite Er in *. clear r Er. set (p := a / 4096) in *.
  pose proof Hr as [R1 _ _ R4 R5]. cbn [fst snd] in *.
  destruct (wr_ok _ _ restore_writes _ _ Hm Hr) as (Hm1 & Hs1 & _).
  set (m1 := restore_step (p, f, b) (dc_memory c)) in *.
  destruct (track_pages_aligned p (Z.of_nat (length b)) id off ctx (with_memory m1 c))
    as (tbl & Et & Htbl); [done|lia|lia|done| |lia|lia|].
  { cbn [dc_memory with_memory]. pose proof (fo_pages _ Hm1). unfold pages. dlia. }
  exists tbl. split.
  - cbn [resume_from_source]. change PAGE_SIZE with 4096. rewrite E1. cbn [Z.eqb negb].
    unfold mbind at 1, ST_bind at 1, load_data. cbn [fst]. rewrite Hd. fold d. rewrite Hb. cbn [fst].
    rewrite R4. cbn [Z.eqb negb]. rewrite Hap.
    rewrite (bind_assoc_ok _ _ _ _ _ _ (set_flags_run p f b ctx c m1 Hr Hm eq_refl)).
    unfold mbind, ST_bind. rewrite Et. done.
  - intros q. rewrite Htbl. cbn [dc_memory with_memory]. unfold covers, run_pages. cbn [fst snd].
    destruct (_ && _) eqn:Hc; [|done]. bool_hyps.
    destruct (wr_page _ _ restore_writes (p, f, b) (dc_memory c) q Hm Hr) as [_ Ef].
    { pose proof (fo_pages _ Hm). unfold pages. dlia. }
    fold m1 in Ef. rewrite Ef. unfold covers, run_pages. cbn [fst snd].
    rewrite (proj2 (Z.leb_le _ _)), (proj2 (Z.ltb_lt _ _)) by lia. cbn [andb].
    destruct (flag_of q (dc_memory c)); [|done]. cbn. unfold source_row, source_flags, source_run, source_content.
    cbn [fst snd]. done.
Qed.

Lemma resume_from_source_spec ctx0 (l : list source_entry) lo ctx c :
  flat_ok (dc_memory c) -> sc_data_source ctx = sc_data_source ctx0 -> Forall (entry_ok ctx0) l ->
  let d := sc_data_source ctx0 in
  Forall (run_ok (flat_memory_size (dc_memory c))) (source_run d <$> l) ->
  increasing lo (source_run d <$> l) ->
  exists tbl, resume_from_source l ((ctx, c) : St) =
      (Ok tt, (set_pages tbl ctx,
               with_memory (write_runs source_step (source_run d <$> l) (dc_memory c)) c)) /\
    forall q, tbl !! q = match find (fun e => covers (source_run d e) q) l with
      | Some e => source_row d e q <$> flag_of q (dc_memory c)
      | None => sc_pages ctx !! q
      end.
Proof.
  revert lo ctx c. induction l as [|[[[[a f] id] off] len] l IH]; intros lo ctx c Hm Hd He d Hr Hinc.
  { exists (sc_pages ctx). split; [|done]. by destruct ctx, c. }
  apply Forall_cons_1 in He as [He1 He]. apply Forall_cons_1 in Hr as [Hr1 Hr].
  destruct Hinc as [_ Hinc]. set (r := source_run d (a, f, id, off, len)) in *.
  destruct (resume_entry ctx0 a f id off len l ctx c Hm Hd He1 Hr1) as (tbl1 & -> & Ht1).
  fold d r in Ht1 |- *.
  destruct (wr_ok _ _ source_writes r (dc_memory c)) as (Hm1 & Hs1 & _); [done..|].
  destruct (IH _ (set_pages tbl1 ctx) (with_memory (source_step r (dc_memory c)) c) Hm1 Hd He
    ltac:(cbn [dc_memory with_memory]; by rewrite Hs1) Hinc) as (tbl & -> & Ht).
  exists tbl. split; [done|]. intros q. rewrite Ht. cbn [find sc_pages set_pages dc_memory with_memory].
  fold r d. destruct (find _ l) as [e'|] eqn:Hfd.
  - apply find_some in Hfd as [Hin%list_elem_of_In Hc'].
    assert (Hin' : source_run d e' ∈ source_run d <$> l) by (by apply list_elem_of_fmap_2).
    pose proof (increasing_covers _ _ _ _ Hinc Hin' Hc') as Hge.
    assert (Hc : covers r q = false) by (unfold covers; case_bools; done || lia).
    pose proof (proj1 (list.Forall_forall _ _) Hr _ Hin') as [R1 _ _ R4 R5].
    destruct (wr_page _ _ source_writes r (dc_memory c) q Hm Hr1) as [_ Ef].
    { unfold covers, run_pages in Hc'. bool_hyps. pose proof (fo_pages _ Hm). unfold pages. dlia. }
    rewrite Hc in Ef |- *. rewrite Ef. by destruct (flag_of q (dc_memory c)).
  - rewrite Ht1. by destruct (covers r q).
Qed.

(** * The round trip *)

(** [m2] can take over the dirty pages of [m] and the pages [ctx] tracks: the memories
    have the same size, no page has flags in [m2] that it lacks in [m] (a tracked one may
    be dirty in [m2]), and a page that is neither dirty nor tracked is the same in both. *)
Definition base_of2 ctx m m2 : Prop :=
  flat_memory_size m = flat_memory_size m2 /\
  forall q, 0 <= q < pages m -> forall f f', flag_of q m = Some f -> flag_of q m2 = Some f' ->
    if dirty f then Z.lor f' f = f
    else match sc_pages ctx !! q with
         | Some _ => cleared (Z.lor f' f) = f
         | None => page_of q m2 = page_of q m /\ f' = f
         end.

(** The tracked pages that have not been written since. *)
Definition clean_pages ctx m : gmap Z (I * Z * Z) :=
  map_imap (fun q _ => clean_entry ctx m q) (sc_pages ctx).

Lemma clean_pages_lookup ctx m q : clean_pages ctx m !! q = clean_entry ctx m q.
Proof.
  unfold clean_pages. rewrite map_lookup_imap. destruct (sc_pages ctx !! q) eqn:E; [done|].
  cbn. unfold clean_entry. rewrite E. destruct (flag_of q m); [|done]. by destruct (dirty _).
Qed.

Lemma cleared_restored r f f' : r.1.2 = f -> cleared (Z.lor f' f) = f -> source_flags r f' = f.
Proof.
  intros Hr H. unfold source_flags, restored_flags. rewrite Hr, <- H at 1. unfold cleared.
  rewrite !Z.land_lor_distr_l, <- !Z.land_assoc, !Z.land_diag.
  change (Z.land FLAG_DIRTY (wnot 8 FLAG_DIRTY)) with 0. rewrite Z.lor_0_r.
  rewrite <- H at 2. unfold cleared. rewrite Z.land_lor_distr_l.
  by rewrite Z.lor_assoc, Z.lor_diag.
Qed.

Lemma find_fmap (d : D) q (l : list source_entry) :
  find (fun r => covers r q) (source_run d <$> l) =
  source_run d <$> find (fun e => covers (source_run d e) q) l.
Proof. induction l as [|e l IH]; [done|]. cbn. by destruct (covers _ q). Qed.

(** Writing both kinds of runs on a base of [m] gives back [m]. *)
Lemma restored2 ctx m m2 (ps : list source_entry) (ds : list run) :
  flat_ok m -> flat_ok m2 -> base_of2 ctx m m2 ->
  let d := sc_data_source ctx in
  represents (want_dirty m) m (pages m) ds ->
  represents (want_source ctx m) m (pages m) (source_run d <$> ps) ->
  tracked_ok ctx m ->
  set_lr (flat_load_reservation_address m)
    (restore_runs ds (write_runs source_step (source_run d <$> ps) m2)) = (Ok tt, m).
Proof.
  intros Hm Hm2 [Hsz Hbase] d [D1 D2 _ D4] [S1 S2 _ S4] Ht. rewrite Hsz in D1, S1.
  destruct (write_runs_spec _ _ _ 0 m2 source_writes Hm2 S1 S2) as (Hm3 & Hs3 & _ & Hq3).
  set (m3 := write_runs source_step _ m2) in *. rewrite <- Hs3 in D1.
  destruct (write_runs_spec _ _ _ 0 m3 restore_writes Hm3 D1 D2) as (Hm4 & Hs4 & _ & Hq4).
  change (write_runs restore_step ds m3) with (restore_runs ds m3) in *.
  set (m4 := restore_runs ds m3) in *.
  change (set_lr (flat_load_reservation_address m) m4) with
    (Ok tt, Build_FlatMemory u64_register (flat_data m4) (flat_flags m4) (flat_memory_size m4)
              (flat_riscv_pages m4) (flat_load_reservation_address m)).
  f_equal. symmetry. apply pages_ext; [done| |cbn; congruence|done|].
  { destruct Hm4. constructor; try done. apply Hm. }
  intros q Hpq. change (page_of q (Build_FlatMemory _ _ _ _ _ _)) with (page_of q m4).
  change (flag_of q (Build_FlatMemory _ _ _ _ _ _)) with (flag_of q m4).
  pose proof (fo_pages _ Hm). pose proof (fo_pages _ Hm2). pose proof (fo_pages _ Hm3).
  assert (Hpq2 : 0 <= q < pages m2) by (unfold pages in *; lia).
  assert (Hpq3 : 0 <= q < pages m3) by (unfold pages in *; lia).
  destruct (fetch_flag_page m q Hm Hpq) as (f & Hf & _).
  destruct (fetch_flag_page m2 q Hm2 Hpq2) as (f' & Hf' & _).
  specialize (Hq3 q Hpq2). specialize (Hq4 q Hpq3). specialize (D4 q Hpq). specialize (S4 q Hpq).
  specialize (Hbase q Hpq f f' Hf Hf').
  unfold after_runs in Hq3, Hq4. unfold want_dirty in D4. unfold want_source, clean_entry in S4.
  rewrite Hf in D4, S4 |- *. rewrite Hf' in Hq3.
  destruct (dirty f) eqn:Hd.
  - destruct (find _ ds) as [r|]; [|done]. destruct D4 as [[= Hr] Hpg].
    destruct (find _ (source_run d <$> ps)) as [r'|]; [by destruct S4|].
    injection Hq3 as E1 E2. injection Hq4 as -> ->. rewrite E2. split; [done|]. cbn.
    unfold restored_flags. rewrite <- Hr. by rewrite restored_flag.
  - destruct (find _ ds) as [r|]; [by destruct D4|]. injection Hq4 as -> ->.
    destruct (find _ (source_run d <$> ps)) as [r'|]; injection Hq3 as -> ->.
    + destruct S4 as [Hw Hpg]. destruct (sc_pages ctx !! q) as [e|] eqn:He; [|done].
      split; [done|]. cbn in Hw. injection Hw as Hw.
      destruct (Ht _ _ He) as [_ Hcl]. destruct Hcl as (_ & _ & Hfe & _).
      { unfold clean_entry. by rewrite Hf, Hd. }
      rewrite Hf in Hfe. injection Hfe as Hfe. cbn. f_equal. symmetry.
      by apply cleared_restored; [rewrite <- Hw, Hfe|].
    + destruct (sc_pages ctx !! q); [done|]. destruct Hbase as [<- <-]. done.
Qed.

(** The page table after resuming: the clean tracked pages. *)
Lemma resumed_pages ctx m m2 (ps : list source_entry) tbl :
  flat_ok m -> flat_ok m2 -> base_of2 ctx m m2 -> tracked_ok ctx m ->
  let d := sc_data_source ctx in
  represents (want_source ctx m) m (pages m) (source_run d <$> ps) -> Forall (entry_ok ctx) ps ->
  (forall q, tbl !! q = match find (fun e => covers (source_run d e) q) ps with
                        | Some e => source_row d e q <$> flag_of q m2 | None => None end) ->
  tbl = clean_pages ctx m.
Proof.
  intros Hm Hm2 [Hsz Hbase] Ht d Hr Hok Htbl. apply map_eq. intros q.
  rewrite Htbl, clean_pages_lookup. pose proof (fo_pages _ Hm). pose proof (fo_pages _ Hm2).
  destruct (decide (0 <= q < pages m)) as [Hpq|Hout].
  - destruct Hr as [_ _ _ S4]. specialize (S4 q Hpq). rewrite find_fmap in S4.
    destruct (find _ ps) as [e|] eqn:Hfd; cbn in S4.
    + destruct S4 as [Hw _]. apply find_some in Hfd as [Hin%list_elem_of_In Hcov].
      pose proof (eo_pages _ _ (proj1 (list.Forall_forall _ _) Hok _ Hin) q Hcov) as Hlk.
      unfold want_source in Hw. destruct (clean_entry ctx m q) as [e'|] eqn:Hce; [|done].
      assert (e' = (e.1.1.2, e.1.2 + (q - e.1.1.1.1 / 4096) * 4096, e.1.1.1.2)) as ->.
      { destruct e' as [[id' off'] g']. destruct (clean_tracked _ _ _ _ _ _ Ht Hce) as [Hlk' _]. congruence. }
      destruct (clean_tracked _ _ _ _ _ _ Ht Hce) as (_ & _ & _ & _ & Hf & _).
      destruct (fetch_flag_page m2 q Hm2) as (f' & Hf' & _); [unfold pages in *; lia|].
      rewrite Hf'. cbn. unfold source_row. do 2 f_equal. apply cleared_restored; [done|].
      specialize (Hbase q Hpq _ _ Hf Hf'). rewrite Hlk in Hbase.
      unfold clean_entry in Hce. rewrite Hf in Hce. by destruct (dirty _).
    + unfold want_source in S4. by destruct (clean_entry ctx m q).
  - destruct (find _ ps) as [e|] eqn:Hfd.
    + exfalso. apply find_some in Hfd as [Hin%list_elem_of_In Hcov].
      pose proof (eo_pages _ _ (proj1 (list.Forall_forall _ _) Hok _ Hin) q Hcov) as Hlk.
      by destruct (Ht _ _ Hlk).
    + destruct (clean_entry ctx m q) as [[[id' off'] g']|] eqn:Hce; [|done].
      by destruct (clean_tracked _ _ _ _ _ _ Ht Hce) as (_ & ? & _).
Qed.

(** C13: resuming a snapshot of the second version restores the machine.  Take a snapshot
    of a 64-bit machine with a context that is right about the clean pages it tracks;
    resume it, with a context over the same data source, on any machine of the same
    version whose memory is a base of the first one's.  Both succeed, the first machine
    has not changed, and the second one has the first one's registers, pc, cycles, cycle
    limit, load reservation and memory, every byte and page flag of it; the context
    tracks what the first one tracked, less the pages written since.  Of the data source
    it relies on [DataSourceOk], which asks nothing of a length of 0; the witness has a
    source that returns the rest of the data for it, as the repository's own do. *)
Theorem snapshot2_roundtrip ctx c ctx2 c2 :
  flat_ok (dc_memory c) -> flat_ok (dc_memory c2) -> tracked_ok ctx (dc_memory c) ->
  base_of2 ctx (dc_memory c) (dc_memory c2) -> sc_data_source ctx2 = sc_data_source ctx ->
  dc_version c2 = dc_version c -> length (dc_registers c2) = length (dc_registers c) ->
  exists snap, make_snapshot2 ctx c = (Ok snap, c) /\
    resume2 snap ((ctx2, c2) : St) =
    (Ok tt, (set_pages (clean_pages ctx (dc_memory c)) ctx,
             with_memory (dc_memory c) (with_cycles (dc_cycles c) (dc_max_cycles c)
               (with_pc (dc_pc c) (dc_pc c) (with_registers (dc_registers c) c2))))).
Proof.
  intros Hm Hm2 Ht Hb Hd Hv Hl.
  destruct (make_snapshot2_spec ctx c Hm Ht) as (ps & ds & E & Rd & Al & Rs & Eo).
  eexists. split; [exact E|]. clear E. pose proof (proj1 Hb) as Hsz.
  unfold resume2. unfold mbind at 1, ST_bind at 1, gets. cbn [fst snd s2_version s2_registers s2_pc
    s2_cycles s2_max_cycles s2_pages_from_source s2_dirty_pages s2_load_reservation_address].
  change (version c2) with (dc_version c2). rewrite Hv, Z.eqb_refl. cbn [negb].
  unfold mbind at 1, ST_bind at 1, update_pages at 1, modify at 1. cbn [fst snd].
  unfold mbind at 1, ST_bind at 1, on_machine at 1, zoom at 1. cbn [fst snd].
  rewrite restore_all_registers by (rewrite length_fmap; done). rewrite u64_registers_roundtrip.
  set (c3 := with_cycles (dc_cycles c) (dc_max_cycles c)
               (with_pc (dc_pc c) (dc_pc c) (with_registers (dc_registers c) c2))).
  change ((on_machine (update_pc ?p);; on_machine commit_pc;; on_machine (set_cycles ?a);;
           on_machine (set_max_cycles ?b);; ?k) (?x, ?y)) with (k (x, c3)).
  destruct (resume_from_source_spec ctx ps 0 (set_pages ∅ ctx2) c3) as (tbl & E & Htbl);
    [done|done|done|change (dc_memory c3) with (dc_memory c2); rewrite <- Hsz; apply Rs|apply Rs|].
  change (dc_memory c3) with (dc_memory c2) in *.
  unfold mbind at 1, ST_bind at 1. rewrite E.
  destruct (write_runs_spec _ _ _ 0 (dc_memory c2) source_writes Hm2
    ltac:(rewrite <- Hsz; apply Rs) ltac:(apply Rs)) as (Hm3 & Hs3 & _).
  unfold mbind at 1, ST_bind at 1. rewrite resume_dirty_spec; cbn [dc_memory with_memory];
    [|done|done|rewrite Hs3, <- Hsz; apply Rd].
  erewrite on_mem_run by exact (restored2 ctx _ _ ps _ Hm Hm2 Hb Rd Rs Ht).
  rewrite (resumed_pages ctx (dc_memory c) (dc_memory c2) ps tbl) by
    (done || (intros q; rewrite Htbl; by destruct (find _ ps))).
  unfold set_pages. cbn [sc_data_source]. by rewrite Hd.
Qed.
End resume.

(** * Witness *)

(** A data source of one piece of data, as those of tests/test_resume2.rs and
    fuzz/fuzz_targets/snapshot2.rs cut it: a length of 0 asks for the rest of the data, and
    behind its end there is nothing. *)
Definition rest_load (data : list Z) (offset length_ : Z) : option (list Z * Z) :=
  let offset := Z.min offset (Z.of_nat (length data)) in
  let full_size := Z.of_nat (length data) - offset in
  let real_size := if 0 <? length_ then Z.min full_size length_ else full_size in
  Some (take (Z.to_nat real_size) (drop (Z.to_nat offset) data), full_size).

Section rest.
Context (data : list Z).
Hypothesis Hbytes : Forall is_byte data.
Hypothesis Hlength : Z.of_nat (length data) < 2 ^ 64.

Lemma rest_load_eq off len : 0 <= off ->
  exists n, rest_load data off len =
    Some (take (if 0 <? len then Z.to_nat len else length data) (drop (Z.to_nat off) data), n) /\
    in_u 64 n.
Proof.
  intros Ho. exists (Z.of_nat (length data) - Z.min off (Z.of_nat (length data))).
  split; [|split; lia]. unfold rest_load. cbv zeta. do 2 f_equal.
  destruct (Z.le_gt_cases off (Z.of_nat (length data))) as [Hle|Hgt].
  - rewrite !(Z.min_l off) by done. destruct (Z.ltb_spec 0 len).
    + destruct (Z.le_gt_cases len (Z.of_nat (length data) - off)); [by rewrite Z.min_r|].
      rewrite Z.min_l by lia. rewrite !take_ge by (rewrite length_drop; lia). done.
    + rewrite !take_ge by (rewrite length_drop; lia). done.
  - rewrite !(Z.min_r off) by lia. by rewrite !drop_ge, !take_nil by lia.
Qed.

Lemma rest_app off l1 l2 b1 n1 b2 n2 : 0 <= off ->
  rest_load data off l1 = Some (b1, n1) -> Z.of_nat (length b1) = l1 ->
  rest_load data (off + l1) l2 = Some (b2, n2) -> Z.of_nat (length b2) = l2 ->
  exists n, rest_load data off (l1 + l2) = Some (b1 ++ b2, n).
Proof.
  intros Ho E1 Hl1 E2 Hl2. destruct (decide (b1 = [])) as [->|Hb1].
  { exists n2. cbn in Hl1. subst l1. by rewrite Z.add_0_r in E2. }
  destruct (decide (b2 = [])) as [->|Hb2].
  { exists n1. cbn in Hl2. subst l2. by rewrite Z.add_0_r, app_nil_r. }
  assert (0 < l1) by (destruct b1; [done|]; cbn in Hl1; lia).
  assert (0 < l2) by (destruct b2; [done|]; cbn in Hl2; lia).
  destruct (rest_load_eq off l1 Ho) as (k1 & F1 & _).
  destruct (rest_load_eq (off + l1) l2 ltac:(lia)) as (k2 & F2 & _).
  destruct (rest_load_eq off (l1 + l2) Ho) as (k & F & _). exists k. rewrite F.
  rewrite E1 in F1. rewrite E2 in F2. rewrite (proj2 (Z.ltb_lt 0 (l1 + l2))) by lia.
  rewrite (proj2 (Z.ltb_lt 0 l1)) in F1 by done. rewrite (proj2 (Z.ltb_lt 0 l2)) in F2 by done.
  injection F1 as -> _. injection F2 as -> _.
  rewrite !Z2Nat.inj_add, <- drop_drop by lia.
  by rewrite take_take_drop.
Qed.

Lemma rest_slice off l b n k l' : 0 <= off -> rest_load data off l = Some (b, n) -> 0 <= k -> 0 < l' ->
  k + l' <= Z.of_nat (length b) ->
  exists n', rest_load data (off + k) l' = Some (take (Z.to_nat l') (drop (Z.to_nat k) b), n').
Proof.
  intros Ho E Hk Hl'. destruct (rest_load_eq off l Ho) as (m & F & _). rewrite E in F.
  injection F as -> _. rewrite length_take. intros Hin.
  destruct (rest_load_eq (off + k) l' ltac:(lia)) as (n' & -> & _). exists n'. do 2 f_equal.
  rewrite (proj2 (Z.ltb_lt _ _)) by done.
  rewrite skipn_firstn_comm, take_take, drop_drop. f_equal; [lia|]. f_equal. lia.
Qed.

Lemma rest_range off l b n : in_u 64 off -> rest_load data off l = Some (b, n) ->
  Forall is_byte b /\ in_u 64 n /\ off + Z.of_nat (length b) < 2 ^ 64.
Proof.
  intros [Ho Ho2] E. destruct (rest_load_eq off l Ho) as (m & F & Hm). rewrite E in F.
  injection F as -> ->. split_and!; [by apply Forall_take, Forall_drop|done|].
  rewrite length_take, length_drop. lia.
Qed.
End rest.

Definition page_ab : list Z := replicate 4096 0xab.

#[export] Instance demo_source : DataSource unit unit :=
  {| source_load_data _ _ off len := rest_load page_ab off len |}.

#[export] Instance demo_source_ok : DataSourceOk unit unit.
Proof.
  assert (Hb : Forall is_byte page_ab) by (by apply Forall_replicate).
  assert (Hl : Z.of_nat (length page_ab) < 2 ^ 64) by (unfold page_ab; by rewrite length_replicate).
  split; intros d id.
  - by apply rest_app.
  - by apply rest_slice.
  - by apply rest_range.
Qed.

(** Page 0 comes from the data source and is clean, page 1 has been written. *)
Definition context0 : Snapshot2Context unit unit :=
  {| sc_pages := {[ 0 := (tt, 0, 0) ]}; sc_data_source := tt |}.

Definition tracked_memory : FM :=
  restore_run 1 0 (replicate 4096 0xcd) (source_step (0, 0, page_ab) (flat_of 8192)).

Definition tracked_machine : DC :=
  with_registers (replicate 32 (7 : reg u64_register)) (with_memory tracked_memory core0).

Lemma tracked_run0 : run_ok 8192 (0, 0, page_ab).
Proof.
  constructor; cbn [fst snd]; [done|done|by apply Forall_replicate|..]; unfold page_ab;
    by rewrite length_replicate.
Qed.

Lemma tracked_run1 : run_ok 8192 (1, 0, replicate 4096 0xcd).
Proof.
  constructor; cbn [fst snd]; [done|done|by apply Forall_replicate|..]; by rewrite length_replicate.
Qed.

Lemma tracked_memory_ok : flat_ok tracked_memory.
Proof.
  destruct (wr_ok _ _ source_writes (0, 0, page_ab) (flat_of 8192) flat_of_ok tracked_run0) as (H & _).
  by destruct (wr_ok _ _ restore_writes (1, 0, replicate 4096 0xcd) _ H tracked_run1) as (? & _).
Qed.

Lemma tracked_page0 : page_of 0 tracked_memory = page_ab.
Proof. vm_compute. reflexivity. Qed.

Lemma context0_ok : tracked_ok context0 tracked_memory.
Proof.
  apply map_Forall_singleton. split; [split; reflexivity || lia|]. intros _. cbn [fst snd].
  split_and!; [done|done|vm_compute; reflexivity|]. exists 4096. rewrite tracked_page0.
  vm_compute. reflexivity.
Qed.

Lemma fresh_base2 : base_of2 context0 tracked_memory (dc_memory SnapshotFacts.fresh).
Proof.
  split; [reflexivity|]. intros q Hq f f' Hf Hf'.
  assert (Hq2 : q = 0 \/ q = 1) by (change (0 <= q < 2) in Hq; lia).
  destruct Hq2 as [-> | ->]; vm_compute in Hf, Hf'; injection Hf as <-; injection Hf' as <-; reflexivity.
Qed.

Lemma snapshot2_roundtrip_witness :
  exists snap, make_snapshot2 context0 tracked_machine = (Ok snap, tracked_machine) /\
    resume2 snap (context_new tt, SnapshotFacts.fresh) =
    (Ok tt, (set_pages (clean_pages context0 tracked_memory) context0,
             with_memory tracked_memory (with_cycles (dc_cycles core0) (dc_max_cycles core0)
               (with_pc (0 : reg u64_register) (0 : reg u64_register)
                  (with_registers (replicate 32 (7 : reg u64_register)) SnapshotFacts.fresh))))).
Proof.
  exact (snapshot2_roundtrip context0 tracked_machine (context_new tt) SnapshotFacts.fresh tracked_memory_ok
    flat_of_ok context0_ok fresh_base2 eq_refl eq_refl eq_refl).
Defined.
