(* ===== verification/StraightLine.v ===== *)
(** Instructions inside a basic block: they change registers and memory, and the pc moves
    to the instruction behind.  The trace machine and the assembly traces rely on it. *)
From S2P Require Import Prelude Outcome Register Insts InstsFacts Memory MemoryFacts Machine Core Execute Exec Decoder Run Demo.
From stdpp Require Import base list numbers.
Open Scope Z_scope.

(** A computation moves along [rel] however it ends. *)
Definition moves {S A} (rel : S -> S -> Prop) (c : ST S A) : Prop := forall s, rel s (c s).2.

Section moves.
Context {S : Type} (rel : S -> S -> Prop) {HR : PreOrder rel}.

Lemma moves_reads {A} (c : ST S A) : reads c -> moves rel c.
Proof. intros Hc s. by rewrite Hc. Qed.
Lemma moves_bind {A B} (c : ST S A) (k : A -> ST S B) :
  moves rel c -> (forall a, moves rel (k a)) -> moves rel (c ≫= k).
Proof.
  intros Hc Hk s. specialize (Hc s). unfold mbind, ST_bind.
  destruct (c s) as [[a|e|] s1]; [|done..]. etrans; [exact Hc|apply Hk].
Qed.
Lemma moves_if {A} (b : bool) (c c' : ST S A) : moves rel c -> moves rel c' -> moves rel (if b then c else c').
Proof. by destruct b. Qed.
Lemma moves_state {A} (c : S -> ST S A) : (forall s, moves rel (c s)) -> moves rel (fun s => c s s).
Proof. intros Hc s. apply Hc. Qed.
Lemma moves_modify f : (forall s, rel s (f s)) -> moves rel (modify f).
Proof. intros Hf s. apply Hf. Qed.
End moves.

Section straight.
Context {R : Register} {M Sy De : Type} `{!Memory R M}.
Context `{!Syscalls (DefaultCoreMachine R M) Sy} `{!Debugger (DefaultCoreMachine R M) De}.
Local Abbreviation DC := (DefaultCoreMachine R M).
Local Abbreviation DM := (DefaultMachine R M Sy De).

(** New registers and a new memory. *)
Definition reworked (regs : list (reg R)) (mem : M) (m : DM) : DM :=
  dm_set_inner (with_memory mem (with_registers regs (dm_inner m))) m.

Definition steady (m m' : DM) : Prop := exists regs mem, m' = reworked regs mem m.

#[export] Instance steady_preorder : PreOrder steady.
Proof.
  split.
  - intros [[]]. by eexists _, _.
  - intros ??? (r1 & m1 & ->) (r2 & m2 & ->). by exists r2, m2.
Qed.

Local Abbreviation stays c := (moves steady c).

Lemma register_stays i : stays (register (Mac := DM) i).
Proof.
  apply moves_state with (c := fun m => unwrap (registers m !! Z.to_nat i)).
  intros m. apply moves_reads; [apply steady_preorder|apply reads_unwrap].
Qed.

Lemma set_register_stays i v : stays (set_register (Mac := DM) i v).
Proof.
  intros [[]]. unfold set_register. cbn. unfold on_inner, zoom, unwrap, modify, mbind, ST_bind, mret, ST_ret. cbn.
  destruct (_ !! _); [by exists (<[Z.to_nat i := v]> dc_registers), dc_memory|by exists dc_registers, dc_memory].
Qed.

Lemma update_register_stays i v : stays (update_register (Mac := DM) i v).
Proof. apply moves_if; [apply set_register_stays|apply moves_reads; [apply steady_preorder|apply reads_ret]]. Qed.

Lemma memory_mut_stays {A} (c : ST M A) : stays (memory_mut (Mac := DM) c).
Proof.
  intros [[]]. unfold memory_mut. cbn. unfold on_inner, zoom. cbn.
  destruct (c _) as [o mem]. by exists dc_registers, mem.
Qed.

Lemma check_load_boundary_stays v0 a n size : stays (check_load_boundary (R := R) v0 a n size).
Proof.
  unfold check_load_boundary. apply moves_if; [|by apply moves_reads].
  destruct (woverflowing_add _ _ _). apply moves_if; by apply moves_reads.
Qed.

Ltac stay_step :=
  cbv zeta;
  lazymatch goal with
  | |- moves _ (mbind _ _) => apply moves_bind; [apply steady_preorder| |intros ?]
  | |- moves _ (if _ then _ else _) => apply moves_if
  | |- moves _ (register _) => apply register_stays
  | |- moves _ (gets _) => by apply moves_reads
  | |- moves _ (mret _) => by apply moves_reads
  | |- moves _ (fail _) => by apply moves_reads
  | |- moves _ (update_register _ _) => apply update_register_stays
  | |- moves _ (memory_mut _) => apply memory_mut_stays
  | |- moves _ (check_load_boundary _ _ _ _) => apply check_load_boundary_stays
  | |- moves _ ?c => unfold_head c
  end.

Lemma handle_table_stays :
  Forall (fun p : InstructionOpcode * (Instruction -> ST DM unit) =>
    (MINIMAL_BASIC_BLOCK_END_OPCODE <=? p.1) && (p.1 <=? MAXIMUM_BASIC_BLOCK_END_OPCODE)
      || (wrap 8 p.1 <? MINIMAL_OPCODE) = false ->
    forall inst, stays (p.2 inst)) handle_table.
Proof.
  repeat apply List.Forall_cons; [..|constructor].
  all: cbn [fst snd]; try (intros H; exfalso; vm_compute in H; discriminate).
  all: intros _ inst; repeat stay_step.
Qed.

Lemma opcode_low_byte i : wrap 8 (extract_opcode i) = wrap 8 i.
Proof.
  rewrite extract_opcode_op. apply Z.bits_inj'. intros n Hn.
  rewrite !testbit_wrap, inst_op_bit by lia. case_bools; done || lia.
Qed.

Lemma execute_instruction_stays i : is_basic_block_end_instruction i = false ->
  stays (execute_instruction i).
Proof.
  intros Hi. unfold execute_instruction. cbv zeta.
  destruct (zassoc handle_table _) as [h|] eqn:Hh; [|apply moves_reads; [apply steady_preorder|apply reads_fail]].
  apply zassoc_in in Hh. apply (proj1 (list.Forall_forall _ _) handle_table_stays _ Hh). cbn [fst].
  rewrite opcode_low_byte. exact Hi.
Qed.

(** The machine behind an instruction: new registers, a new memory, the next pc. *)
Definition advanced (i : Instruction) (regs : list (reg R)) (mem : M) (m : DM) : DM :=
  let next := overflowing_add (dc_pc (dm_inner m)) (from_u8 (instruction_length i)) in
  dm_set_inner (with_memory mem (with_registers regs (with_pc next next (dm_inner m)))) m.

Lemma execute_straight i m : is_basic_block_end_instruction i = false ->
  match execute i m with
  | (Panic, _) => True
  | (_, m') => exists regs mem, m' = advanced i regs mem m
  end.
Proof.
  intros Hi. unfold execute. cbv zeta. unfold mbind, ST_bind, gets.
  set (next := overflowing_add (pc m : reg R) (from_u8 (instruction_length i))).
  set (m1 := dm_set_inner (with_pc (dc_pc (dm_inner m)) next (dm_inner m)) m).
  change (update_pc next m) with (Ok tt : outcome unit, m1). cbv iota beta.
  destruct (execute_instruction_stays i Hi m1) as (regs & mem & E). unfold then_commit_pc.
  destruct (execute_instruction i m1) as [[a|e|] m2]; [..|done]; cbn [snd] in E; subst m2;
    by exists regs, mem.
Qed.
End straight.

(** C29: an instruction that does not end a basic block does not touch the control flow.
    Whatever it is, and whether it succeeds or fails, afterwards the pc is that of the
    instruction behind it; apart from the pc only registers and memory have changed: it
    is charged nothing, does not stop or reset the machine, does not interrupt it and
    leaves syscalls, debugger and exit code alone.  So the instructions of a trace, all
    but the last of which do not end a block, are executed one after the other. *)
Theorem straight_line (R : Register) (M : Type) (HM : Memory R M) (Sy De : Type)
  (HSy : Syscalls (DefaultCoreMachine R M) Sy) (HDe : Debugger (DefaultCoreMachine R M) De)
  (i : Instruction) (m : DefaultMachine R M Sy De) :
  is_basic_block_end_instruction i = false ->
  match execute i m with
  | (Panic, _) => True
  | (_, m') => exists regs mem, m' = advanced i regs mem m
  end.
Proof. apply execute_straight. Qed.

(** [addi a0, x0, 5] *)
Lemma straight_line_witness : is_basic_block_end_instruction (set_instruction_length_4 (Itype_new_s OP_ADDI 10 0 5)) = false /\
  match execute (set_instruction_length_4 (Itype_new_s OP_ADDI 10 0 5)) machine0 with
  | (Panic, _) => True
  | (_, m') => exists regs mem, m' = advanced (set_instruction_length_4 (Itype_new_s OP_ADDI 10 0 5)) regs mem machine0
  end.
Proof.
  split; [reflexivity|]. apply straight_line. reflexivity.
Defined.
