(* ===== verification/MachineOk.v ===== *)
(** The safety contract of a machine ([MachineOk]) and its first client: every
    instruction handler keeps the contract.

    A machine that is [mac_ok] has 32 valid registers with x0 = 0, a valid pc and a
    valid memory; no operation of the traits panics or breaks this, nor changes the
    version, the isa or the size of the memory.  [mac_rel] is what an instance
    promises of the states before and after an operation; it implies [kept]. *)
From S2P Require Import Prelude Outcome Register RegisterFacts Insts InstsFacts Memory MemoryOk.
From S2P Require Import Machine Core Execute Exec.
From stdpp Require Import base list numbers.
Open Scope Z_scope.

(** * The contract *)

Section kept.
Context {R : Register} {M Mac : Type} `{!Memory R M} `{!CoreMachine R M Mac}.

Definition kept (m m' : Mac) : Prop :=
  version m' = version m /\ isa m' = isa m /\
  memory_size (memory m') = memory_size (memory m).

#[export] Instance kept_preorder : PreOrder kept.
Proof. split; unfold kept; [done|]. intros ??? (?&?&?) (?&?&?). split_and!; congruence. Qed.
End kept.

Class MachineOk (R : Register) {HR : RegisterOk R} (M : Type) {HM : Memory R M}
  {HMO : MemoryOk R M} (Mac : Type) {HMac : Machine R M Mac} := {
  mac_ok : Mac -> Prop;
  mac_rel : Mac -> Mac -> Prop;
  mac_rel_preorder :: PreOrder mac_rel;
  mac_rel_kept m m' : mac_rel m m' -> kept m m';
  mac_length m : mac_ok m -> length (registers m) = 32%nat;
  mac_regs m : mac_ok m -> Forall reg_ok (registers m);
  mac_x0 m : mac_ok m -> registers m !! 0%nat = Some r_zero;
  mac_pc m : mac_ok m -> reg_ok (pc m);
  mac_memory m : mac_ok m -> mem_ok (memory m);
  mac_update_pc v : reg_ok v -> stable mac_ok mac_rel (update_pc v) (fun _ => True);
  mac_commit_pc : stable mac_ok mac_rel commit_pc (fun _ => True);
  mac_set_register i v : 0 < i < 32 -> reg_ok v ->
    stable mac_ok mac_rel (set_register i v) (fun _ => True);
  mac_memory_mut {A} (c : ST M A) Q :
    stable mem_ok same_size c Q -> stable mac_ok mac_rel (memory_mut c) Q;
  mac_ecall : stable mac_ok mac_rel ecall (fun _ => True);
  mac_ebreak : stable mac_ok mac_rel ebreak (fun _ => True);
}.

(** * Valid instructions

    The register operands of the instruction's format are registers. *)

Definition tag_ok (t : TaggedInstruction) : Prop :=
  match t with
  | Rtype i => is_reg (Rtype_rd i) /\ is_reg (Rtype_rs1 i) /\ is_reg (Rtype_rs2 i)
  | Itype i => is_reg (Itype_rd i) /\ is_reg (Itype_rs1 i)
  | Stype i => is_reg (Stype_rs1 i) /\ is_reg (Stype_rs2 i)
  | Utype i => is_reg (Utype_rd i)
  | R4type i => is_reg (R4type_rd i) /\ is_reg (R4type_rs1 i) /\ is_reg (R4type_rs2 i) /\
                is_reg (R4type_rs3 i)
  | R5type i => is_reg (R5type_rd i) /\ is_reg (R5type_rs1 i) /\ is_reg (R5type_rs2 i) /\
                is_reg (R5type_rs3 i) /\ is_reg (R5type_rs4 i)
  end.

Definition inst_ok (i : Instruction) : Prop :=
  match zassoc tagged_table (extract_opcode i) with
  | Some tag => tag_ok (tag i)
  | None => False
  end.

Lemma immediate_s_range i :
  in_s 32 (Itype_immediate_s i) /\ in_s 32 (Stype_immediate_s i) /\ in_s 32 (Utype_immediate_s i).
Proof. split_and!; by apply sign_range. Qed.

Lemma immediate_u_range i : in_u 32 (Itype_immediate_u i) /\ in_u 32 (Utype_immediate_u i).
Proof. split_and!; by apply wrap_range. Qed.

Lemma instruction_length_range i : in_u 8 (instruction_length i).
Proof. by apply wrap_range. Qed.

(** * The handlers *)

Section handlers.
Context {R : Register} {HR : RegisterOk R} {M : Type} {HM : Memory R M} {HMO : MemoryOk R M}.
Context {Mac : Type} {HMac : Machine R M Mac} {HMacO : MachineOk R M Mac}.
Local Abbreviation safe m Q := (stable mac_ok mac_rel m Q).

Lemma register_safe i : is_reg i -> safe (register i) reg_ok.
Proof.
  intros Hi. apply stable_state with (m := fun m => unwrap (registers m !! Z.to_nat i)).
  intros m Hm. destruct (lookup_lt_is_Some_2 (registers m) (Z.to_nat i)) as [v Hv].
  { rewrite mac_length by done. unfold is_reg in Hi. lia. }
  apply stable_unwrap with v; [done..|]. by apply (Forall_lookup_1 _ _ _ _ (mac_regs m Hm) Hv).
Qed.

Lemma update_register_safe i v : reg_ok v -> safe (update_register i v) (fun _ => True).
Proof.
  intros Hv. unfold update_register. apply stable_if; intros Hi; [|by apply stable_ret].
  bool_hyps. apply mac_set_register; [|done].
  pose proof (Z.mod_pos_bound i RISCV_GENERAL_REGISTER_NUMBER eq_refl).
  unfold RISCV_GENERAL_REGISTER_NUMBER in *. lia.
Qed.

Lemma gets_pc_safe : safe (gets pc) reg_ok.
Proof. apply stable_gets; [done|]. apply mac_pc. Qed.

Lemma gets_lr_safe : safe (gets (fun m => lr (memory m))) reg_ok.
Proof. apply stable_gets; [done|]. intros. by apply mem_lr_ok, mac_memory. Qed.

Lemma gets_size_safe : safe (gets (fun m => memory_size (memory m))) (fun _ => True).
Proof. by apply stable_gets. Qed.

Lemma check_load_boundary_safe v0 (a : reg R) n size :
  safe (check_load_boundary v0 a n size) (fun _ => True).
Proof.
  unfold check_load_boundary. apply stable_if; intros _; [|by apply stable_ret].
  destruct (woverflowing_add _ _ _). apply stable_if; intros _;
    [by apply stable_fail|by apply stable_ret].
Qed.
End handlers.

(** A value built from valid values. *)
#[export] Hint Resolve instruction_length_range shift_mask_range : regok.
#[export] Hint Extern 1 (in_s 32 (Itype_immediate_s ?i)) => exact (proj1 (immediate_s_range i)) : regok.
#[export] Hint Extern 1 (in_s 32 (Stype_immediate_s ?i)) =>
  exact (proj1 (proj2 (immediate_s_range i))) : regok.
#[export] Hint Extern 1 (in_s 32 (Utype_immediate_s ?i)) =>
  exact (proj2 (proj2 (immediate_s_range i))) : regok.
#[export] Hint Extern 1 (in_u 32 (Itype_immediate_u ?i)) => exact (proj1 (immediate_u_range i)) : regok.
#[export] Hint Extern 1 (in_u 32 (Utype_immediate_u ?i)) => exact (proj2 (immediate_u_range i)) : regok.
#[export] Hint Extern 1 (in_u _ (wsub _ _ _)) => apply wrap_range; lia : regok.
#[export] Hint Extern 1 (in_u _ (Zpos _)) => split; vm_compute; congruence : regok.
#[export] Hint Extern 1 (in_u _ Z0) => split; vm_compute; congruence : regok.
#[export] Hint Extern 1 (in_u 64 U64_MAX) => split; vm_compute; congruence : regok.
Ltac reg_ok_solve := unfold r_ne, r_ge, r_ge_s; auto 12 with regok nocore.

(** One statement of a handler. *)
Ltac safe_step :=
  cbv zeta;
  lazymatch goal with
  | |- stable _ _ (mbind _ _) _ =>
      eapply stable_bind; [done| |let a := fresh "v" in let Ha := fresh "Hv" in intros a Ha]
  | |- stable _ _ (mret _) _ => by apply stable_ret
  | |- stable _ _ (fail _) _ => by apply stable_fail
  | |- stable _ _ (register _) _ => apply register_safe; assumption
  | |- stable _ _ (gets pc) _ => apply gets_pc_safe
  | |- stable _ _ (gets (fun m => lr _)) _ => apply gets_lr_safe
  | |- stable _ _ (gets _) _ => apply gets_size_safe
  | |- stable _ _ (check_load_boundary _ _ _ _) _ => apply check_load_boundary_safe
  | |- stable _ _ (update_register _ _) _ => apply update_register_safe
  | |- stable _ _ (update_pc _) _ => apply mac_update_pc
  | |- stable _ _ (memory_mut _) _ => eapply mac_memory_mut
  | |- stable _ _ (load8 _) _ => apply mem_load8
  | |- stable _ _ (load16 _) _ => apply mem_load16
  | |- stable _ _ (load32 _) _ => apply mem_load32
  | |- stable _ _ (load64 _) _ => apply mem_load64
  | |- stable _ _ (store8 _ _) _ => apply mem_store8
  | |- stable _ _ (store16 _ _) _ => apply mem_store16
  | |- stable _ _ (store32 _ _) _ => apply mem_store32
  | |- stable _ _ (store64 _ _) _ => apply mem_store64
  | |- stable _ _ (set_lr _) _ => apply mem_set_lr
  | |- stable _ _ ecall _ => apply mac_ecall
  | |- stable _ _ ebreak _ => apply mac_ebreak
  | |- reg_ok _ => solve [reg_ok_solve]
  end.

(** The definition of the computation of the goal. *)
Ltac unfold_computation :=
  lazymatch goal with |- stable _ _ ?c _ => unfold_head c end.

Section safe.
Context {R : Register} {HR : RegisterOk R} {M : Type} {HM : Memory R M} {HMO : MemoryOk R M}.
Context {Mac : Type} {HMac : Machine R M Mac} {HMacO : MachineOk R M Mac}.
Local Abbreviation safe m Q := (stable mac_ok mac_rel m Q).

(** Every entry of the dispatch table is safe on the instructions of its format. *)
Lemma handle_table_safe :
  Forall (fun p : InstructionOpcode * (Instruction -> ST Mac unit) =>
    forall tag inst, zassoc tagged_table p.1 = Some tag -> tag_ok (tag inst) ->
      safe (p.2 inst) (fun _ => True)) handle_table.
Proof.
  repeat apply List.Forall_cons; [..|constructor].
  all: intros tag inst [= <-] Hok; cbn [tag_ok] in Hok; cbn [fst snd]; destruct_and?.
  all: repeat first [safe_step | unfold_computation].
Qed.

Lemma handle_table_range :
  Forall (fun p : InstructionOpcode * (Instruction -> ST Mac unit) =>
    MINIMAL_OPCODE <= p.1 <= MAXIMUM_OPCODE) handle_table.
Proof. repeat apply List.Forall_cons; [..|constructor]; split; vm_compute; congruence. Qed.

Lemma execute_instruction_safe inst :
  inst_ok inst -> safe (execute_instruction inst) (fun _ => True).
Proof.
  unfold inst_ok, execute_instruction. intros Hok. cbv zeta.
  destruct (zassoc handle_table _) as [h|] eqn:Hh; [|by apply stable_fail].
  apply zassoc_in in Hh.
  pose proof (proj1 (list.Forall_forall _ _) handle_table_safe _ Hh) as Hs. cbn [fst snd] in Hs.
  pose proof (tagged_lookup (extract_opcode inst)) as Ht.
  destruct (_ && _) eqn:Hb.
  - destruct Ht as [tag Htag]. rewrite Htag in Hok. by eapply Hs.
  - exfalso. pose proof (proj1 (list.Forall_forall _ _) handle_table_range _ Hh) as Hr.
    cbn [fst] in Hr. apply andb_false_iff in Hb as [Hb|Hb]; apply Z.leb_gt in Hb; lia.
Qed.

Lemma then_commit_pc_safe c Q : safe c Q -> safe (then_commit_pc c) (fun _ => True).
Proof.
  intros Hc m Hm. specialize (Hc m Hm). unfold wp, then_commit_pc in *.
  destruct (c m) as [[a|e|] m1]; [..|done].
  - destruct Hc as (_ & Hm1 & Hk1). pose proof (mac_commit_pc m1 Hm1) as H2. unfold wp in H2.
    destruct (commit_pc m1) as [[?|?|] m2]; destruct_and?; try done;
      split_and!; try done; by etrans.
  - destruct Hc as (Hm1 & Hk1). pose proof (mac_commit_pc m1 Hm1) as H2. unfold wp in H2.
    destruct (commit_pc m1) as [[?|?|] m2]; destruct_and?; try done;
      split_and!; try done; by etrans.
Qed.

Lemma execute_safe inst : inst_ok inst -> safe (execute inst) (fun _ => True).
Proof.
  intros Hok. unfold execute. cbv zeta.
  eapply stable_bind; [done|apply gets_pc_safe|]. intros pc0 Hpc.
  eapply stable_bind; [done|apply mac_update_pc; reg_ok_solve|]. intros _ _.
  by eapply then_commit_pc_safe, execute_instruction_safe.
Qed.
End safe.
