(* ===== verification/AstFacts.v ===== *)
(** Symbolic execution is sound.

    A map between two register types that commutes with every operation
    ([RegisterHom]) carries the execution of an instruction on one machine to its
    execution on the other ([execute_sim]): the handlers are written against the
    traits.  Evaluating expressions is such a map from the symbolic registers to the
    64-bit ones. *)
From S2P Require Import Prelude Outcome Register Insts InstsFacts Memory Machine Core Execute Exec Ast.
From S2P Require Import MemoryFacts MachineOk.
From stdpp Require Import base list numbers.
Open Scope Z_scope.

(** * Maps between register types *)

Record RegisterHom (R1 R2 : Register) (f : reg R1 -> reg R2) : Prop := {
  h_not x : f (r_not x) = r_not (f x);
  h_and x y : f (r_and x y) = r_and (f x) (f y);
  h_or x y : f (r_or x y) = r_or (f x) (f y);
  h_xor x y : f (r_xor x y) = r_xor (f x) (f y);
  h_shl x y : f (r_shl x y) = r_shl (f x) (f y);
  h_shr x y : f (r_shr x y) = r_shr (f x) (f y);
  h_bits : BITS R1 = BITS R2;
  h_shift_mask : SHIFT_MASK R1 = SHIFT_MASK R2;
  h_zero : f r_zero = r_zero;
  h_one : f r_one = r_one;
  h_min : f (min_value R1) = min_value R2;
  h_max : f (max_value R1) = max_value R2;
  h_eq x y : f (r_eq x y) = r_eq (f x) (f y);
  h_lt x y : f (r_lt x y) = r_lt (f x) (f y);
  h_lt_s x y : f (r_lt_s x y) = r_lt_s (f x) (f y);
  h_logical_not x : f (logical_not x) = logical_not (f x);
  h_cond x y z : f (cond x y z) = cond (f x) (f y) (f z);
  h_add x y : f (overflowing_add x y) = overflowing_add (f x) (f y);
  h_sub x y : f (overflowing_sub x y) = overflowing_sub (f x) (f y);
  h_mul x y : f (overflowing_mul x y) = overflowing_mul (f x) (f y);
  h_div x y : f (overflowing_div x y) = overflowing_div (f x) (f y);
  h_rem x y : f (overflowing_rem x y) = overflowing_rem (f x) (f y);
  h_div_s x y : f (overflowing_div_signed x y) = overflowing_div_signed (f x) (f y);
  h_rem_s x y : f (overflowing_rem_signed x y) = overflowing_rem_signed (f x) (f y);
  h_mulh x y : f (overflowing_mul_high_signed x y) = overflowing_mul_high_signed (f x) (f y);
  h_mulhu x y : f (overflowing_mul_high_unsigned x y) = overflowing_mul_high_unsigned (f x) (f y);
  h_mulhsu x y : f (overflowing_mul_high_signed_unsigned x y) =
                 overflowing_mul_high_signed_unsigned (f x) (f y);
  h_clz x : f (clz x) = clz (f x);
  h_ctz x : f (ctz x) = ctz (f x);
  h_cpop x : f (cpop x) = cpop (f x);
  h_clmul x y : f (clmul x y) = clmul (f x) (f y);
  h_clmulh x y : f (clmulh x y) = clmulh (f x) (f y);
  h_clmulr x y : f (clmulr x y) = clmulr (f x) (f y);
  h_orcb x : f (orcb x) = orcb (f x);
  h_rev8 x : f (rev8 x) = rev8 (f x);
  h_signed_shl x y : f (signed_shl x y) = signed_shl (f x) (f y);
  h_signed_shr x y : f (signed_shr x y) = signed_shr (f x) (f y);
  h_rol x y : f (rol x y) = rol (f x) (f y);
  h_ror x y : f (ror x y) = ror (f x) (f y);
  h_zero_extend x y : f (zero_extend x y) = zero_extend (f x) (f y);
  h_sign_extend x y : f (sign_extend x y) = sign_extend (f x) (f y);
  h_from_i8 v : f (from_i8 v) = from_i8 v;
  h_from_i16 v : f (from_i16 v) = from_i16 v;
  h_from_i32 v : f (from_i32 v) = from_i32 v;
  h_from_i64 v : f (from_i64 v) = from_i64 v;
  h_from_u8 v : f (from_u8 v) = from_u8 v;
  h_from_u16 v : f (from_u16 v) = from_u16 v;
  h_from_u32 v : f (from_u32 v) = from_u32 v;
  h_from_u64 v : f (from_u64 v) = from_u64 v;
}.

(** * Computations on two machines *)

(** From related states: the same way of ending, related results, related states. *)
Definition sim {S1 S2 A1 A2} (rel : S1 -> S2 -> Prop) (relA : A1 -> A2 -> Prop)
  (c1 : ST S1 A1) (c2 : ST S2 A2) : Prop :=
  forall s1 s2, rel s1 s2 ->
    match c1 s1, c2 s2 with
    | (Ok a1, t1), (Ok a2, t2) => relA a1 a2 /\ rel t1 t2
    | (Err e1, t1), (Err e2, t2) => e1 = e2 /\ rel t1 t2
    | (Panic, _), (Panic, _) => True
    | _, _ => False
    end.

Section sim.
Context {S1 S2 : Type} (rel : S1 -> S2 -> Prop).

Lemma sim_ret {A1 A2} (relA : A1 -> A2 -> Prop) a1 a2 : relA a1 a2 -> sim rel relA (mret a1) (mret a2).
Proof. by intros ? ? ?. Qed.
Lemma sim_fail {A1 A2} (relA : A1 -> A2 -> Prop) e : sim rel relA (fail e) (fail e).
Proof. by intros ? ?. Qed.
Lemma sim_gets {A1 A2} (relA : A1 -> A2 -> Prop) g1 g2 :
  (forall s1 s2, rel s1 s2 -> relA (g1 s1) (g2 s2)) -> sim rel relA (gets g1) (gets g2).
Proof. intros Hg s1 s2 Hs. split; [by apply Hg|done]. Qed.
Lemma sim_bind {A1 A2 B1 B2} (relA : A1 -> A2 -> Prop) (relB : B1 -> B2 -> Prop)
  (c1 : ST S1 A1) (c2 : ST S2 A2) (k1 : A1 -> ST S1 B1) (k2 : A2 -> ST S2 B2) :
  sim rel relA c1 c2 -> (forall a1 a2, relA a1 a2 -> sim rel relB (k1 a1) (k2 a2)) ->
  sim rel relB (c1 ≫= k1) (c2 ≫= k2).
Proof.
  intros Hc Hk s1 s2 Hs. specialize (Hc s1 s2 Hs). unfold mbind, ST_bind.
  destruct (c1 s1) as [[a1|e1|] t1], (c2 s2) as [[a2|e2|] t2]; try done.
  destruct Hc as [Ha Ht]. by apply (Hk a1 a2 Ha).
Qed.
End sim.

(** Two machines that a map of registers relates. *)
Class MachineSim {R1 R2 : Register} (f : reg R1 -> reg R2) {M1 M2 Mac1 Mac2 : Type}
  `{!Memory R1 M1} `{!Memory R2 M2} `{!Machine R1 M1 Mac1} `{!Machine R2 M2 Mac2}
  (rel : Mac1 -> Mac2 -> Prop) := {
  ms_pc m1 m2 : rel m1 m2 -> f (pc m1) = pc m2;
  ms_registers m1 m2 : rel m1 m2 -> f <$> registers m1 = registers m2;
  ms_lr m1 m2 : rel m1 m2 -> f (lr (memory m1)) = lr (memory m2);
  ms_size m1 m2 : rel m1 m2 -> memory_size (memory m1) = memory_size (memory m2);
  ms_update_pc v : sim rel eq (update_pc v) (update_pc (f v));
  ms_commit_pc : sim rel eq commit_pc commit_pc;
  ms_set_register i v : sim rel eq (set_register i v) (set_register i (f v));
  ms_ecall : sim rel eq ecall ecall;
  ms_ebreak : sim rel eq ebreak ebreak;
  ms_set_lr v : sim rel eq (memory_mut (set_lr v)) (memory_mut (set_lr (f v)));
  ms_load8 a : sim rel (fun x y => f x = y) (memory_mut (load8 a)) (memory_mut (load8 (f a)));
  ms_load16 a : sim rel (fun x y => f x = y) (memory_mut (load16 a)) (memory_mut (load16 (f a)));
  ms_load32 a : sim rel (fun x y => f x = y) (memory_mut (load32 a)) (memory_mut (load32 (f a)));
  ms_load64 a : sim rel (fun x y => f x = y) (memory_mut (load64 a)) (memory_mut (load64 (f a)));
  ms_store8 a v : sim rel eq (memory_mut (store8 a v)) (memory_mut (store8 (f a) (f v)));
  ms_store16 a v : sim rel eq (memory_mut (store16 a v)) (memory_mut (store16 (f a) (f v)));
  ms_store32 a v : sim rel eq (memory_mut (store32 a v)) (memory_mut (store32 (f a) (f v)));
  ms_store64 a v : sim rel eq (memory_mut (store64 a v)) (memory_mut (store64 (f a) (f v)));
}.

(** The loads of version 0 look at the address as a number, which a register map need
    not keep. *)
Definition version0_load (op : InstructionOpcode) : bool := existsb (Z.eqb op)
  [OP_LB_VERSION0; OP_LBU_VERSION0; OP_LH_VERSION0; OP_LHU_VERSION0; OP_LW_VERSION0;
   OP_LWU_VERSION0; OP_LD_VERSION0].

Section access.
Context {R1 R2 : Register} (f : reg R1 -> reg R2) {M1 M2 Mac1 Mac2 : Type}
  {HM1 : Memory R1 M1} {HM2 : Memory R2 M2} {HA1 : Machine R1 M1 Mac1} {HA2 : Machine R2 M2 Mac2}
  (rel : Mac1 -> Mac2 -> Prop) {HS : MachineSim f rel}.

Lemma sim_register i : sim rel (fun x y => f x = y) (register (H := machine_core) i) (register i).
Proof.
  intros m1 m2 Hm. unfold register. rewrite <- (ms_registers m1 m2 Hm), list_lookup_fmap.
  by destruct (registers m1 !! Z.to_nat i).
Qed.

Lemma sim_update_register i v :
  sim rel eq (update_register (H := machine_core) i v) (update_register i (f v)).
Proof. unfold update_register. cbv zeta. destruct (0 <? _); [apply ms_set_register|by apply sim_ret]. Qed.

Lemma sim_update_register_to i v w : f v = w ->
  sim rel eq (update_register (H := machine_core) i v) (update_register i w).
Proof. intros <-. apply sim_update_register. Qed.

Lemma sim_update_pc_to v w : f v = w -> sim rel eq (update_pc v) (update_pc w).
Proof. intros <-. apply ms_update_pc. Qed.

Lemma sim_then_commit (c1 : ST Mac1 unit) (c2 : ST Mac2 unit) :
  sim rel eq c1 c2 -> sim rel eq (then_commit_pc c1) (then_commit_pc c2).
Proof.
  intros Hc m1 m2 Hm. specialize (Hc m1 m2 Hm). unfold then_commit_pc.
  destruct (c1 m1) as [[[]|e1|] t1], (c2 m2) as [[[]|e2|] t2]; try contradiction; [| |exact Logic.I].
  - destruct Hc as [_ Ht]. pose proof (ms_commit_pc (MachineSim := HS) t1 t2 Ht) as Hp.
    destruct (commit_pc t1) as [[[]|e1|] u1], (commit_pc t2) as [[[]|e2|] u2]; exact Hp.
  - destruct Hc as [-> Ht]. pose proof (ms_commit_pc (MachineSim := HS) t1 t2 Ht) as Hp.
    destruct (commit_pc t1) as [[[]|e1|] u1], (commit_pc t2) as [[[]|e3|] u2]; try contradiction.
    + split; [reflexivity|apply Hp].
    + exact Hp.
    + exact Hp.
Qed.
End access.

Section execute.
Context {R1 R2 : Register} (f : reg R1 -> reg R2) {M1 M2 Mac1 Mac2 : Type}
  {HM1 : Memory R1 M1} {HM2 : Memory R2 M2} {HA1 : Machine R1 M1 Mac1} {HA2 : Machine R2 M2 Mac2}
  (rel : Mac1 -> Mac2 -> Prop) {HS : MachineSim f rel} (H : RegisterHom R1 R2 f).

(** An equation between register values. *)
Local Ltac hom :=
  unfold r_ne, r_ge, r_ge_s in *;
  rewrite ?(h_not _ _ _ H), ?(h_and _ _ _ H), ?(h_or _ _ _ H), ?(h_xor _ _ _ H), ?(h_shl _ _ _ H),
    ?(h_shr _ _ _ H), ?(h_zero _ _ _ H), ?(h_one _ _ _ H), ?(h_min _ _ _ H), ?(h_max _ _ _ H);
  repeat progress rewrite ?(h_eq _ _ _ H), ?(h_lt _ _ _ H), ?(h_lt_s _ _ _ H), ?(h_logical_not _ _ _ H),
    ?(h_cond _ _ _ H), ?(h_add _ _ _ H), ?(h_sub _ _ _ H), ?(h_mul _ _ _ H), ?(h_div _ _ _ H),
    ?(h_rem _ _ _ H), ?(h_div_s _ _ _ H), ?(h_rem_s _ _ _ H), ?(h_mulh _ _ _ H), ?(h_mulhu _ _ _ H),
    ?(h_mulhsu _ _ _ H), ?(h_clz _ _ _ H), ?(h_ctz _ _ _ H), ?(h_cpop _ _ _ H), ?(h_clmul _ _ _ H),
    ?(h_clmulh _ _ _ H), ?(h_clmulr _ _ _ H), ?(h_orcb _ _ _ H), ?(h_rev8 _ _ _ H),
    ?(h_signed_shl _ _ _ H), ?(h_signed_shr _ _ _ H), ?(h_rol _ _ _ H), ?(h_ror _ _ _ H),
    ?(h_zero_extend _ _ _ H), ?(h_sign_extend _ _ _ H), ?(h_from_i8 _ _ _ H), ?(h_from_i16 _ _ _ H),
    ?(h_from_i32 _ _ _ H), ?(h_from_i64 _ _ _ H), ?(h_from_u8 _ _ _ H), ?(h_from_u16 _ _ _ H),
    ?(h_from_u32 _ _ _ H), ?(h_from_u64 _ _ _ H), ?(h_not _ _ _ H), ?(h_and _ _ _ H), ?(h_or _ _ _ H),
    ?(h_xor _ _ _ H), ?(h_shl _ _ _ H), ?(h_shr _ _ _ H), ?(h_zero _ _ _ H), ?(h_one _ _ _ H),
    ?(h_shift_mask _ _ _ H), ?(h_bits _ _ _ H);
  reflexivity.

(** The argument [b] of an operation is the image of [a]. *)
Local Ltac sim_args a b t :=
  let E := fresh "E" in assert (E : f a = b) by hom; rewrite <- ?E; clear E; t.

(** One statement of a handler, on both machines. *)
Local Ltac sim_step :=
  cbv zeta;
  lazymatch goal with
  | |- sim _ _ (mbind _ _) (mbind _ _) => eapply sim_bind
  | |- forall a1 a2, _ -> sim _ _ _ _ =>
      let a1 := fresh "v" in let a2 := fresh "v" in
      intros a1 a2; cbv beta; first [intros <- | intros _]
  | |- sim _ _ (mret _) (mret _) => apply (sim_ret rel eq); reflexivity
  | |- sim _ _ (fail _) (fail _) => apply sim_fail
  | |- sim _ _ (register _) _ => eapply (sim_register f rel)
  | |- sim _ _ (gets pc) _ => apply (sim_gets rel (fun x y => f x = y)); apply (ms_pc (MachineSim := HS))
  | |- sim _ _ (gets (fun m => lr _)) _ => apply (sim_gets rel (fun x y => f x = y)); apply (ms_lr (MachineSim := HS))
  | |- sim _ _ (gets _) _ => apply (sim_gets rel eq); apply (ms_size (MachineSim := HS))
  | |- sim _ _ (check_load_boundary false _ _ _) _ => apply (sim_ret rel eq); reflexivity
  | |- sim _ _ (update_register _ _) _ => eapply (sim_update_register_to f rel); hom
  | |- sim _ _ (update_pc _) _ => eapply (sim_update_pc_to f rel); hom
  | |- sim _ _ (memory_mut (set_lr ?v)) (memory_mut (set_lr ?w)) => sim_args v w ltac:(apply (ms_set_lr (MachineSim := HS)))
  | |- sim _ _ (memory_mut (load8 ?a)) (memory_mut (load8 ?b)) => sim_args a b ltac:(apply (ms_load8 (MachineSim := HS)))
  | |- sim _ _ (memory_mut (load16 ?a)) (memory_mut (load16 ?b)) => sim_args a b ltac:(apply (ms_load16 (MachineSim := HS)))
  | |- sim _ _ (memory_mut (load32 ?a)) (memory_mut (load32 ?b)) => sim_args a b ltac:(apply (ms_load32 (MachineSim := HS)))
  | |- sim _ _ (memory_mut (load64 ?a)) (memory_mut (load64 ?b)) => sim_args a b ltac:(apply (ms_load64 (MachineSim := HS)))
  | |- sim _ _ (memory_mut (store8 ?a ?v)) (memory_mut (store8 ?b ?w)) =>
      sim_args a b ltac:(sim_args v w ltac:(apply (ms_store8 (MachineSim := HS))))
  | |- sim _ _ (memory_mut (store16 ?a ?v)) (memory_mut (store16 ?b ?w)) =>
      sim_args a b ltac:(sim_args v w ltac:(apply (ms_store16 (MachineSim := HS))))
  | |- sim _ _ (memory_mut (store32 ?a ?v)) (memory_mut (store32 ?b ?w)) =>
      sim_args a b ltac:(sim_args v w ltac:(apply (ms_store32 (MachineSim := HS))))
  | |- sim _ _ (memory_mut (store64 ?a ?v)) (memory_mut (store64 ?b ?w)) =>
      sim_args a b ltac:(sim_args v w ltac:(apply (ms_store64 (MachineSim := HS))))
  | |- sim _ _ ecall _ => apply (ms_ecall (MachineSim := HS))
  | |- sim _ _ ebreak _ => apply (ms_ebreak (MachineSim := HS))
  end.

Local Ltac unfold_both :=
  lazymatch goal with |- sim _ _ ?c1 ?c2 => unfold_head c1; unfold_head c2 end.

(** The two dispatch tables agree, entry by entry. *)
Lemma handle_table_sim :
  Forall2 (fun (p1 : InstructionOpcode * (Instruction -> ST Mac1 unit))
               (p2 : InstructionOpcode * (Instruction -> ST Mac2 unit)) =>
    p1.1 = p2.1 /\ (version0_load p1.1 = false -> forall inst, sim rel eq (p1.2 inst) (p2.2 inst)))
    handle_table handle_table.
Proof.
  unfold handle_table. repeat apply Forall2_cons; [..|constructor].
  all: split; [reflexivity|]; intros Hv inst; cbn [fst snd] in *.
  all: try discriminate Hv; clear Hv.
  all: repeat first [sim_step | unfold_both].
Qed.

Lemma execute_instruction_sim inst : version0_load (extract_opcode inst) = false ->
  sim rel eq (execute_instruction (Mac := Mac1) inst) (execute_instruction (Mac := Mac2) inst).
Proof.
  intros Hv. unfold execute_instruction. cbv zeta. revert Hv. generalize (extract_opcode inst) as op.
  intros op Hv. induction handle_table_sim as [|p1 p2 l1 l2 [Ek Hp] _ IH].
  { apply sim_fail. }
  destruct p1 as [k1 h1], p2 as [k2 h2]. cbn [fst snd zassoc] in *. subst k2.
  destruct (Z.eqb_spec op k1) as [->|_]; [by apply Hp|exact IH].
Qed.

Lemma execute_sim inst : version0_load (extract_opcode inst) = false ->
  sim rel eq (execute (Mac := Mac1) inst) (execute (Mac := Mac2) inst).
Proof.
  intros Hv. unfold execute. cbv zeta.
  eapply sim_bind; [apply (sim_gets rel (fun x y => f x = y)); apply (ms_pc (MachineSim := HS))|].
  intros pc1 pc2 <-. eapply sim_bind; [eapply (sim_update_pc_to f rel); hom|]. intros _ _ _.
  by eapply (sim_then_commit f rel), execute_instruction_sim.
Qed.
End execute.

(** * Evaluating expressions *)

Record Env := {
  env_lr : Z;
  env_register : Z -> Z;
  env_load : Z -> Z -> Z;
  env_external : Z -> Z -> Z;
}.

Definition eval1 (op : ActionOp1) : Z -> Z :=
  match op with
  | Ast.Not => wnot 64 | Ast.LogicalNot => u64_logical_not | Ast.Clz => u64_clz | Ast.Ctz => u64_ctz
  | Ast.Cpop => u64_cpop | Ast.Orcb => u64_orcb | Ast.Rev8 => u64_rev8
  end.

Definition eval2 (op : ActionOp2) : Z -> Z -> Z :=
  match op with
  | Ast.Add => u64_overflowing_add | Ast.Sub => u64_overflowing_sub | Ast.Mul => u64_overflowing_mul
  | Ast.Mulhsu => u64_overflowing_mul_high_signed_unsigned
  | Ast.Bitand => Z.land | Ast.Bitor => Z.lor | Ast.Bitxor => Z.lxor | Ast.Shl => wshl 64 | Ast.Eq => u64_eq
  | Ast.Clmul => u64_clmul | Ast.Clmulh => u64_clmulh | Ast.Clmulr => u64_clmulr
  | Ast.Rol => u64_rol | Ast.Ror => u64_ror
  end.

Definition eval_sign (op : SignActionOp2) (signed : bool) : Z -> Z -> Z :=
  match op, signed with
  | Ast.Mulh, true => u64_overflowing_mul_high_signed | Ast.Mulh, false => u64_overflowing_mul_high_unsigned
  | Ast.Div, true => u64_overflowing_div_signed | Ast.Div, false => u64_overflowing_div
  | Ast.Rem, true => u64_overflowing_rem_signed | Ast.Rem, false => u64_overflowing_rem
  | Ast.Shr, true => u64_signed_shr | Ast.Shr, false => wshr 64
  | Ast.Lt, true => u64_lt_s | Ast.Lt, false => u64_lt
  | Ast.Extend, true => u64_sign_extend | Ast.Extend, false => u64_zero_extend
  end.

Fixpoint eval (env : Env) (v : Value) : Z :=
  match v with
  | Lr => env_lr env
  | Imm imm => imm
  | Reg index => env_register env index
  | Op1 op v => eval1 op (eval env v)
  | Op2 op v1 v2 => eval2 op (eval env v1) (eval env v2)
  | SignOp2 op v1 v2 signed => eval_sign op signed (eval env v1) (eval env v2)
  | Cond c t e => u64_cond (eval env c) (eval env t) (eval env e)
  | Load address size => env_load env (eval env address) size
  | External v id => env_external env (eval env v) id
  end.

Lemma signed_shl_shl x y : u64_signed_shl x y = wshl 64 x y.
Proof.
  unfold u64_signed_shl, wshl, wrap. rewrite !Z.shiftl_mul_pow2 by (apply Z.mod_pos_bound; done).
  rewrite <- Z.mul_mod_idemp_l by done. symmetry. rewrite <- Z.mul_mod_idemp_l by done.
  fold (wrap 64 (sign 64 x)). by rewrite wrap_sign.
Qed.

(** An equation of [eval_hom], with the operations of both register types unfolded. *)
Local Ltac hom_field :=
  intros; cbv beta iota delta [
    r_not r_and r_or r_xor r_shl r_shr BITS SHIFT_MASK r_zero r_one min_value max_value r_eq
    r_lt r_lt_s logical_not cond overflowing_add overflowing_sub overflowing_mul overflowing_div
    overflowing_rem overflowing_div_signed overflowing_rem_signed overflowing_mul_high_signed
    overflowing_mul_high_unsigned overflowing_mul_high_signed_unsigned clz ctz cpop clmul clmulh
    clmulr orcb rev8 signed_shl signed_shr rol ror zero_extend sign_extend to_i8 to_i16 to_i32
    to_i64 to_u8 to_u16 to_u32 to_u64 from_i8 from_i16 from_i32 from_i64 from_u8 from_u16
    from_u32 from_u64 Value_zero Value_one Value_min_value Value_max_value Value_not
    Value_bitand Value_bitor Value_bitxor Value_shl Value_shr Value_BITS Value_SHIFT_MASK
    Value_eq Value_lt Value_lt_s Value_logical_not Value_cond Value_overflowing_add
    Value_overflowing_sub Value_overflowing_mul Value_overflowing_div Value_overflowing_rem
    Value_overflowing_div_signed Value_overflowing_rem_signed Value_overflowing_mul_high_signed
    Value_overflowing_mul_high_unsigned Value_overflowing_mul_high_signed_unsigned Value_clz
    Value_ctz Value_cpop Value_clmul Value_clmulh Value_clmulr Value_orcb Value_rev8 Value_rol
    Value_ror Value_signed_shl Value_signed_shr Value_zero_extend Value_sign_extend Value_to_i8
    Value_to_i16 Value_to_i32 Value_to_i64 Value_to_u8 Value_to_u16 Value_to_u32 Value_to_u64
    Value_from_i8 Value_from_i16 Value_from_i32 Value_from_i64 Value_from_u8 Value_from_u16
    Value_from_u32 Value_from_u64 Value_register u64_register];
  repeat match goal with x : reg _ |- _ => destruct x end;
  cbn [eval eval1 eval2 eval_sign];
  first [reflexivity | apply signed_shl_shl | symmetry; apply signed_shl_shl].

Lemma eval_hom env : RegisterHom Value_register u64_register (eval env).
Proof. constructor; hom_field. Qed.

(** C9: symbolic execution is sound.  Take a machine whose registers hold expressions and
    a 64-bit machine whose registers hold their values, with memories that agree on the
    values of addresses and data, and ecall and ebreak that agree.  Execute any
    instruction on both (the loads of version 0 apart, which convert the address to a
    number): both end the same way, with the same error if there is one, and the
    registers, the pc and the reservation of the second are again the values of the
    expressions of the first.  In particular folding immediates while the expressions
    are built changes nothing. *)
Theorem symbolic_execution (env : Env) {M1 M2 Mac1 Mac2 : Type}
  (HM1 : Memory Value_register M1) (HM2 : Memory u64_register M2)
  (HA1 : Machine Value_register M1 Mac1) (HA2 : Machine u64_register M2 Mac2)
  (rel : Mac1 -> Mac2 -> Prop) (HS : MachineSim (R1 := Value_register) (R2 := u64_register) (eval env) rel) inst :
  version0_load (extract_opcode inst) = false ->
  sim rel eq (execute (Mac := Mac1) inst) (execute (Mac := Mac2) inst).
Proof. apply (execute_sim (R1 := Value_register) (R2 := u64_register) (eval env) rel), eval_hom. Qed.

(** * Witness

    A memory whose addresses and data are expressions evaluated on the way, over the
    flat memory, and a machine without system calls over either. *)

Section concrete.
Context (env : Env).
Local Abbreviation FM := (FlatMemory u64_register).

Definition as_value (c : ST FM (reg u64_register)) : ST FM (reg Value_register) :=
  v ← c; mret (Imm v).

#[local] Instance eval_memory : Memory Value_register FM := {
  mem_new := @mem_new u64_register FM _; init_pages := @init_pages u64_register FM _; fetch_flag := @fetch_flag u64_register FM _;
  set_flag := @set_flag u64_register FM _; clear_flag := @clear_flag u64_register FM _; memory_size := @memory_size u64_register FM _;
  store_byte := @store_byte u64_register FM _; store_bytes := @store_bytes u64_register FM _; load_bytes := @load_bytes u64_register FM _;
  execute_load16 := @execute_load16 u64_register FM _; execute_load32 := @execute_load32 u64_register FM _;
  load8 a := as_value (load8 (R := u64_register) (eval env a));
  load16 a := as_value (load16 (R := u64_register) (eval env a));
  load32 a := as_value (load32 (R := u64_register) (eval env a));
  load64 a := as_value (load64 (R := u64_register) (eval env a));
  store8 a v := store8 (R := u64_register) (eval env a) (eval env v);
  store16 a v := store16 (R := u64_register) (eval env a) (eval env v);
  store32 a v := store32 (R := u64_register) (eval env a) (eval env v);
  store64 a v := store64 (R := u64_register) (eval env a) (eval env v);
  lr m := Imm (@lr u64_register FM _ m); set_lr v := set_lr (R := u64_register) (eval env v) }.

#[local] Instance bare_machine (R : Register) (M : Type) `{!Memory R M}
  : Machine R M (DefaultCoreMachine R M) := {
  machine_core := default_core_machine R M;
  ecall := fail (InvalidEcall 0); ebreak := fail Yield }.

(** The second machine is the first one with its expressions evaluated. *)
Definition value_of (v : reg Value_register) : reg u64_register := eval env v.

Definition evaluated (m : DefaultCoreMachine Value_register FM) : DefaultCoreMachine u64_register FM :=
  {| dc_registers := value_of <$> dc_registers m; dc_pc := value_of (dc_pc m);
     dc_next_pc := value_of (dc_next_pc m); dc_reset_signal := dc_reset_signal m;
     dc_memory := dc_memory m; dc_cycles := dc_cycles m; dc_max_cycles := dc_max_cycles m;
     dc_running := dc_running m; dc_isa := dc_isa m; dc_version := dc_version m |}.

Definition evaluates m1 m2 : Prop := evaluated m1 = m2.

Lemma eval_load (op : reg u64_register -> ST FM (reg u64_register)) a :
  sim evaluates (fun x y => eval env x = y)
    (memory_mut (CoreMachine := default_core_machine Value_register FM) (as_value (op (eval env a))))
    (memory_mut (op (eval env a))).
Proof.
  intros m1 m2 <-. unfold memory_mut, default_core_machine, zoom, as_value, mbind, ST_bind.
  cbn [dc_memory evaluated]. destruct (op (eval env a) (dc_memory m1)) as [[v|e|] t]; done.
Qed.

Lemma eval_memory_op (c : ST FM unit) :
  sim evaluates eq (memory_mut (CoreMachine := default_core_machine Value_register FM) c) (memory_mut c).
Proof.
  intros m1 m2 <-. unfold memory_mut, default_core_machine, zoom.
  cbn [dc_memory evaluated]. destruct (c (dc_memory m1)) as [[v|e|] t]; done.
Qed.

Instance evaluates_sim : MachineSim (R1 := Value_register) (R2 := u64_register) (eval env) evaluates.
Proof.
  constructor; try (by intros m1 m2 <-); try (by intros v m1 m2 <-);
    try (intros; apply eval_memory_op); try (intros; apply eval_load).
  intros i v m1 m2 <-. cbn [set_register machine_core bare_machine default_core_machine].
  unfold mbind, ST_bind. cbn [dc_registers evaluated]. rewrite list_lookup_fmap.
  destruct (dc_registers m1 !! Z.to_nat i); [|done]. cbn. split; [done|].
  unfold evaluates, evaluated, with_registers. cbn. by rewrite list_fmap_insert.
Qed.
End concrete.

(** x1 and x2 symbolic, the rest 0; [add x3, x1, x2]. *)
Definition demo_env : Env :=
  {| env_lr := 0; env_register i := 10 * i; env_load _ _ := 0; env_external _ _ := 0 |}.

Definition symbolic_machine : DefaultCoreMachine Value_register (FlatMemory u64_register) :=
  {| dc_registers := <[1%nat := Reg 1]> (<[2%nat := Reg 2]> (replicate 32 (Imm 0))) : list (reg Value_register);
     dc_pc := Imm 0 : reg Value_register; dc_next_pc := Imm 0 : reg Value_register;
     dc_reset_signal := false; dc_memory := flat_of 4096; dc_cycles := 0; dc_max_cycles := 100;
     dc_running := true; dc_isa := ISA_IMC; dc_version := VERSION2 |}.

Definition add_x3 : Instruction := Rtype_new OP_ADD 3 1 2.

Definition run_symbolic :=
  @execute Value_register (FlatMemory u64_register) _ (eval_memory demo_env)
    (@bare_machine Value_register _ (eval_memory demo_env)) add_x3 symbolic_machine.

Definition run_values :=
  @execute u64_register (FlatMemory u64_register) _ (flat_memory u64_register)
    (@bare_machine u64_register _ (flat_memory u64_register)) add_x3
    (evaluated demo_env symbolic_machine).

Lemma run_symbolic_x3 :
  run_symbolic.1 = Ok tt /\ dc_registers run_symbolic.2 !! 3%nat = Some (Op2 Ast.Add (Reg 1) (Reg 2)).
Proof. split; vm_compute; reflexivity. Qed.

Lemma symbolic_execution_witness :
  run_values = (Ok tt, evaluated demo_env run_symbolic.2) /\
  dc_registers run_symbolic.2 !! 3%nat = Some (Op2 Ast.Add (Reg 1) (Reg 2)).
Proof.
  pose proof (symbolic_execution demo_env (eval_memory demo_env) (flat_memory u64_register)
    (@bare_machine Value_register _ (eval_memory demo_env))
    (@bare_machine u64_register _ (flat_memory u64_register)) (evaluates demo_env)
    (evaluates_sim demo_env) add_x3 eq_refl symbolic_machine (evaluated demo_env symbolic_machine)
    eq_refl) as H.
  fold run_symbolic run_values in H. destruct run_symbolic_x3 as [E1 E2]. split; [|exact E2].
  destruct run_symbolic as [o t]. cbn [fst snd] in *. subst o.
  destruct run_values as [[[]|e|] t2]; [|contradiction..]. destruct H as [_ <-]. reflexivity.
Defined.
