(* ===== verification/CoreOk.v ===== *)
(** [DefaultCoreMachine] and [DefaultMachine] keep the machine contract.

    The syscall modules and the debugger are the embedder's; [EmbedderOk] states what
    the machine needs of them: they leave the inner machine well-formed and do not
    change its version, isa or memory size. *)
From S2P Require Import Prelude Outcome Bits Register RegisterFacts Insts Memory MemoryFacts.
From S2P Require Import MemoryOk Machine Core MachineOk.
From stdpp Require Import base list numbers.
Open Scope Z_scope.

Section core_ok.
Context {R : Register} {HR : RegisterOk R} {M : Type} {HM : Memory R M} {HMO : MemoryOk R M}.
Local Abbreviation DC := (DefaultCoreMachine R M).

Record dc_ok (m : DC) : Prop := {
  dc_ok_length : length (dc_registers m) = 32%nat;
  dc_ok_regs : Forall reg_ok (dc_registers m);
  dc_ok_x0 : dc_registers m !! 0%nat = Some r_zero;
  dc_ok_pc : reg_ok (dc_pc m);
  dc_ok_next_pc : reg_ok (dc_next_pc m);
  dc_ok_memory : mem_ok (dc_memory m);
  dc_ok_size : memory_size (dc_memory m) mod RISCV_PAGESIZE = 0;
  dc_ok_max : memory_size (dc_memory m) <= mem_max;
  dc_ok_cycles : in_u 64 (dc_cycles m);
}.

Lemma fresh_registers_ok :
  length (replicate (Z.to_nat RISCV_GENERAL_REGISTER_NUMBER) (@r_zero R)) = 32%nat /\
  Forall reg_ok (replicate (Z.to_nat RISCV_GENERAL_REGISTER_NUMBER) (@r_zero R)).
Proof. split; [by rewrite length_replicate|]. apply Forall_replicate, ok_zero. Qed.

(** A new machine is well-formed. *)
Lemma dc_new_ok {HMS : MemorySetup R M} isa0 version0 max_cycles size m :
  in_u 64 size -> size <= mem_max -> size mod RISCV_PAGESIZE = 0 ->
  dc_new_with_memory isa0 version0 max_cycles size = Ok m -> dc_ok m.
Proof.
  intros Hs Hmax Hal. unfold dc_new_with_memory.
  destruct (mem_new size) as [mem|e|] eqn:Hmem; intros [= <-].
  destruct (mem_new_ok _ _ Hs Hmax Hmem) as [Hok Hsz], fresh_registers_ok.
  constructor; cbn; try done; try apply ok_zero; by rewrite ?Hsz.
Qed.

(** An operation that leaves the configuration and the cycles alone. *)
Definition dc_frame (m m' : DC) : Prop :=
  kept m m' /\ dc_cycles m' = dc_cycles m /\ dc_max_cycles m' = dc_max_cycles m.

#[export] Instance dc_frame_preorder : PreOrder dc_frame.
Proof.
  split; unfold dc_frame; [done|]. intros m1 m2 m3 (?&?&?) (?&?&?).
  split_and!; [by etrans|congruence..].
Qed.

(** Updates of one field. *)
Lemma with_pc_ok p n m : reg_ok p -> reg_ok n -> dc_ok m ->
  dc_ok (with_pc p n m) /\ dc_frame m (with_pc p n m).
Proof. intros ?? []. split; [by constructor|done]. Qed.

Lemma with_registers_ok i v m : 0 < i < 32 -> reg_ok v -> dc_ok m ->
  dc_ok (with_registers (<[Z.to_nat i := v]> (dc_registers m)) m) /\
  dc_frame m (with_registers (<[Z.to_nat i := v]> (dc_registers m)) m).
Proof.
  intros ?? []. split; [|done]. constructor; cbn; try done.
  - by rewrite length_insert.
  - by apply Forall_insert.
  - rewrite list_lookup_insert_ne by lia. done.
Qed.

Lemma with_memory_ok t m : mem_ok t -> same_size (dc_memory m) t -> dc_ok m ->
  dc_ok (with_memory t m) /\ dc_frame m (with_memory t m).
Proof.
  unfold same_size. intros ? Hs []. split; [constructor; cbn; by rewrite ?Hs|]. by split_and!.
Qed.

Lemma with_cycles_ok c mc m : in_u 64 c -> dc_ok m ->
  dc_ok (with_cycles c mc m) /\ kept m (with_cycles c mc m).
Proof. intros ? []. split; [by constructor|done]. Qed.

Lemma with_running_ok r s m : dc_ok m ->
  dc_ok (with_running r s m) /\ dc_frame m (with_running r s m).
Proof. intros []. split; [by constructor|done]. Qed.

Local Abbreviation safe m Q := (stable dc_ok dc_frame m Q).

Lemma dc_update_pc_safe v : reg_ok v -> safe (update_pc (Mac := DC) v) (fun _ => True).
Proof.
  intros Hv. apply stable_modify. intros m Hm. apply with_pc_ok; [apply Hm|done|done].
Qed.

Lemma dc_commit_pc_safe : safe (commit_pc (Mac := DC)) (fun _ => True).
Proof. apply stable_modify. intros m Hm. apply with_pc_ok; [apply Hm..|done]. Qed.

Lemma dc_memory_mut_safe {A} (c : ST M A) Q :
  stable mem_ok same_size c Q -> safe (memory_mut (Mac := DC) c) Q.
Proof.
  apply stable_zoom; [apply dc_ok_memory|]. intros. by apply with_memory_ok.
Qed.

Lemma dc_set_register_safe i v : 0 < i < 32 -> reg_ok v ->
  safe (set_register (Mac := DC) i v) (fun _ => True).
Proof.
  intros Hi Hv m Hm. destruct (lookup_lt_is_Some_2 (dc_registers m) (Z.to_nat i)) as [r Hr].
  { rewrite dc_ok_length by done. lia. }
  unfold wp. cbn [set_register default_core_machine]. rewrite Hr.
  split; [done|]. by apply with_registers_ok.
Qed.

Lemma dc_register_safe i : is_reg i -> safe (register (Mac := DC) i) reg_ok.
Proof.
  intros Hi. apply stable_state with (m := fun m => unwrap (dc_registers m !! Z.to_nat i)).
  intros m Hm. destruct (lookup_lt_is_Some_2 (dc_registers m) (Z.to_nat i)) as [v Hv].
  { rewrite dc_ok_length by done. unfold is_reg in Hi. lia. }
  apply stable_unwrap with v; [done..|].
  by apply (Forall_lookup_1 _ _ _ _ (dc_ok_regs m Hm) Hv).
Qed.

Lemma set_running_safe b : safe (set_running b) (fun _ => True).
Proof. apply stable_modify. intros m Hm. by apply with_running_ok. Qed.

Lemma reset_signal_safe : safe reset_signal (fun _ => True).
Proof.
  apply stable_bind with (P := fun _ => True); [done|by apply stable_gets|]. intros b _.
  eapply stable_bind; [done| |intros _ _; by apply stable_ret].
  apply stable_modify. intros. by apply with_running_ok.
Qed.

Lemma reset_safe {HMS : MemorySetup R M} mc : stable dc_ok kept (reset mc) (fun _ => True).
Proof.
  intros m Hm. unfold reset. destruct Hm as [?????? Hsz Hmax ?].
  destruct (mem_new_total _ Hsz) as [mem Hmem]. unfold wp. rewrite Hmem.
  destruct (mem_new_ok _ _ (mem_size_range _ dc_ok_memory0) Hmax Hmem) as [Hok Hs].
  destruct fresh_registers_ok as [? ?].
  set (m' := with_running _ _ _).
  assert (Hm' : dc_ok m' /\ kept m m').
  { split; [constructor; cbn; rewrite ?Hs; try done; apply ok_zero|]. by split_and!. }
  destruct Hm' as [Hm' Hk].
  assert (Hmax' : reg_ok (@from_u64 R U64_MAX)) by auto with regok.
  pose proof (dc_memory_mut_safe _ _ (mem_set_lr _ Hmax') m' Hm') as Hw. unfold wp in Hw.
  destruct (memory_mut _ m') as [[?|?|] m2]; destruct_and?; [..|done];
    split_and!; try done; match goal with H : dc_frame _ _ |- _ => by etrans; [|apply H] end.
Qed.

(** What the embedder's code promises about the core machine: a preorder between
    [dc_frame] and [kept]. *)
Class CoreRel (drel : DC -> DC -> Prop) := {
  core_rel_preorder :: PreOrder drel;
  core_rel_kept m m' : drel m m' -> kept m m';
  core_rel_frame m m' : dc_frame m m' -> drel m m';
}.

#[export] Instance kept_core_rel : CoreRel kept.
Proof. split; [apply _|done|]. by intros m m' []. Qed.

(** The cycles left do not grow. *)
Definition budget (m : DC) : Z := dc_max_cycles m - dc_cycles m.
Definition spends (m m' : DC) : Prop := kept m m' /\ budget m' <= budget m.

#[export] Instance spends_core_rel : CoreRel spends.
Proof.
  split.
  - split; unfold spends; [by split|]. intros m1 m2 m3 [] []. split; [by etrans|lia].
  - by intros m m' [].
  - intros m m' (?&?&?). unfold spends, budget. split; [done|lia].
Qed.
Lemma add_cycles_safe c : 0 <= c -> stable dc_ok spends (add_cycles c) (fun _ => True).
Proof.
  intros Hc m Hm. unfold wp, add_cycles, checked_add_u64.
  destruct (Z.leb_spec (dc_cycles m + c) U64_MAX); [|done].
  destruct (_ <? _); [done|]. split; [done|].
  assert (in_u 64 (dc_cycles m + c)).
  { destruct (dc_ok_cycles m Hm). split; [lia|]. unfold U64_MAX in *. lia. }
  destruct (with_cycles_ok (dc_cycles m + c) (dc_max_cycles m) m) as [? ?]; [done..|].
  split; [done|]. split; [done|]. unfold budget. cbn. lia.
Qed.
End core_ok.

(** * The embedder's contract *)

Class EmbedderOk (R : Register) {HR : RegisterOk R} (M : Type) {HM : Memory R M}
  {HMO : MemoryOk R M} (Sy De : Type) {HSy : Syscalls (DefaultCoreMachine R M) Sy}
  {HDe : Debugger (DefaultCoreMachine R M) De}
  (drel : DefaultCoreMachine R M -> DefaultCoreMachine R M -> Prop) := {
  syscall_ecall_ok :
    stable (fun p : Sy * DefaultCoreMachine R M => dc_ok p.2) (fun p q => drel p.2 q.2)
           syscall_ecall (fun _ => True);
  syscall_initialize_ok :
    stable (fun p : Sy * DefaultCoreMachine R M => dc_ok p.2) (fun p q => drel p.2 q.2)
           syscall_initialize (fun _ => True);
  debugger_ebreak_ok :
    stable (fun p : De * DefaultCoreMachine R M => dc_ok p.2) (fun p q => drel p.2 q.2)
           debugger_ebreak (fun _ => True);
  debugger_initialize_ok :
    stable (fun p : De * DefaultCoreMachine R M => dc_ok p.2) (fun p q => drel p.2 q.2)
           debugger_initialize (fun _ => True);
}.

Section machine_ok.
Context {R : Register} {HR : RegisterOk R} {M : Type} {HM : Memory R M} {HMO : MemoryOk R M}.
Context {Sy De : Type} {HSy : Syscalls (DefaultCoreMachine R M) Sy}.
Context {HDe : Debugger (DefaultCoreMachine R M) De} (drel : DefaultCoreMachine R M -> DefaultCoreMachine R M -> Prop).
Context {HD : CoreRel drel} {HE : EmbedderOk R M Sy De drel}.
Local Abbreviation DC := (DefaultCoreMachine R M).
Local Abbreviation DM := (DefaultMachine R M Sy De).

(** The cycle function returns a u64. *)
Definition dm_ok (m : DM) : Prop :=
  dc_ok (dm_inner m) /\ forall i, 0 <= dm_instruction_cycle_func m i.

(** The inner machine moves along [drel], the cycle function stays. *)
Definition dm_rel (m m' : DM) : Prop :=
  drel (dm_inner m) (dm_inner m') /\
  dm_instruction_cycle_func m' = dm_instruction_cycle_func m.

#[export] Instance dm_rel_preorder : PreOrder dm_rel.
Proof.
  split; unfold dm_rel; [by split|]. intros m1 m2 m3 [] []. split; [by etrans|congruence].
Qed.

Local Abbreviation safe m Q := (stable dm_ok dm_rel m Q).

Lemma on_inner_safe {A} (c : ST DC A) Q : stable dc_ok drel c Q -> safe (on_inner c) Q.
Proof.
  apply stable_zoom; [by intros m []|]. intros m t [? ?] ? ?. done.
Qed.

Lemma on_inner_frame {A} (c : ST DC A) Q : stable dc_ok dc_frame c Q -> safe (on_inner c) Q.
Proof. intros Hc. apply on_inner_safe. eapply stable_rel, Hc. apply core_rel_frame. Qed.

Lemma ecall_loop_safe l l0 inner : dc_ok inner ->
  wp (ecall_loop l) (l0, inner) (fun _ p => dc_ok p.2 /\ drel inner p.2)
     (fun _ p => dc_ok p.2 /\ drel inner p.2).
Proof.
  revert l0 inner. induction l as [|s l IH]; intros l0 inner Hi; [done|].
  unfold wp. cbn [ecall_loop].
  pose proof (syscall_ecall_ok (s, inner) Hi) as Hs. unfold wp in Hs.
  destruct (syscall_ecall (s, inner)) as [[[]|e|] [s' inner']]; cbn in Hs; destruct_and?;
    try done.
  specialize (IH l inner' ltac:(done)). unfold wp in IH.
  destruct (ecall_loop l (l, inner')) as [[b|e|] [rest inner'']]; cbn in *;
    destruct_and?; try done; split; try done; by etrans.
Qed.

Lemma initialize_syscalls_safe l l0 inner : dc_ok inner ->
  wp (initialize_syscalls l) (l0, inner) (fun _ p => dc_ok p.2 /\ drel inner p.2)
     (fun _ p => dc_ok p.2 /\ drel inner p.2).
Proof.
  revert l0 inner. induction l as [|s l IH]; intros l0 inner Hi; [done|].
  unfold wp. cbn [initialize_syscalls].
  pose proof (syscall_initialize_ok (s, inner) Hi) as Hs. unfold wp in Hs.
  destruct (syscall_initialize (s, inner)) as [[[]|e|] [s' inner']]; cbn in Hs; destruct_and?;
    try done.
  specialize (IH l inner' ltac:(done)). unfold wp in IH.
  destruct (initialize_syscalls l (l, inner')) as [[b|e|] [rest inner'']]; cbn in *;
    destruct_and?; try done; split; try done; by etrans.
Qed.

Lemma dm_register_safe i : is_reg i -> safe (register (Mac := DM) i) reg_ok.
Proof.
  intros Hi m [Hm Hf]. pose proof (dc_register_safe i Hi _ Hm) as Hr.
  unfold wp, register in *. cbn [registers default_machine_core default_core_machine] in *.
  destruct (dc_registers (dm_inner m) !! Z.to_nat i) as [v|]; [|done].
  destruct Hr as [Hv _]. split; [exact Hv|]. split; [done|reflexivity].
Qed.

Lemma run_syscalls_safe : safe run_syscalls (fun _ => True).
Proof.
  intros m [Hm Hf]. pose proof (ecall_loop_safe (dm_syscalls m) (dm_syscalls m) _ Hm) as Hs.
  unfold wp, run_syscalls in *.
  by destruct (ecall_loop _ _) as [[b|e|] [l inner]]; cbn in *; destruct_and?.
Qed.

Lemma machine_ecall_safe : safe machine_ecall (fun _ => True).
Proof.
  unfold machine_ecall. eapply stable_bind; [done|by apply dm_register_safe|].
  intros a7 _. cbv zeta. apply stable_if; intros _.
  - eapply stable_bind; [done|by apply dm_register_safe|]. intros a0 _.
    eapply stable_bind; [done|by apply stable_modify|]. intros _ _.
    apply on_inner_frame, set_running_safe.
  - eapply stable_bind; [done|apply run_syscalls_safe|]. intros [] _; [|by apply stable_fail].
    eapply stable_bind with (P := fun _ => True); [done|by apply stable_gets|].
    intros [] _; [by apply stable_fail|by apply stable_ret].
Qed.

Lemma machine_ebreak_safe : safe machine_ebreak (fun _ => True).
Proof.
  intros m [Hm Hf]. unfold wp, machine_ebreak. destruct (dm_debugger m) as [d|]; [|done].
  pose proof (debugger_ebreak_ok (d, dm_inner m) Hm) as Hs. unfold wp in Hs.
  by destruct (debugger_ebreak _) as [[b|e|] [l inner]]; cbn in *; destruct_and?.
Qed.

#[export] Instance default_machine_ok : MachineOk R M DM := {
  mac_ok := dm_ok;
  mac_rel := dm_rel;
  mac_rel_kept m m' H := core_rel_kept _ _ (proj1 H);
  mac_length m Hm := dc_ok_length _ (proj1 Hm);
  mac_regs m Hm := dc_ok_regs _ (proj1 Hm);
  mac_x0 m Hm := dc_ok_x0 _ (proj1 Hm);
  mac_pc m Hm := dc_ok_pc _ (proj1 Hm);
  mac_memory m Hm := dc_ok_memory _ (proj1 Hm);
  mac_update_pc v Hv := on_inner_frame _ _ (dc_update_pc_safe v Hv);
  mac_commit_pc := on_inner_frame _ _ dc_commit_pc_safe;
  mac_set_register i v Hi Hv := on_inner_frame _ _ (dc_set_register_safe i v Hi Hv);
  mac_memory_mut A c Q Hc := on_inner_frame _ _ (dc_memory_mut_safe c Q Hc);
  mac_ecall := machine_ecall_safe;
  mac_ebreak := machine_ebreak_safe;
}.
End machine_ok.
