(* ===== verification/DecoderOk.v ===== *)
(** What the decoder produces: every instruction that comes out of a factory, the
    cache or a fusion rule has register operands below 32 and the length of the
    encoding(s) it stands for, and decoding never panics. *)
From S2P Require Import Prelude Outcome Bits Register RegisterFacts Insts InstsFacts Factories.
From S2P Require Import FactoriesFacts Memory MemoryOk Machine MachineOk Decoder Fetch.
From stdpp Require Import base list numbers.
Open Scope Z_scope.

(** * Packed instructions before their length is set *)

Definition raw_ok (i : Instruction) : Prop :=
  forall k, in_u 4 k ->
    inst_ok (Z.lor i (field8 k 24)) /\ instruction_length (Z.lor i (field8 k 24)) = 2 * k.

Lemma is_reg_wrap r : is_reg r -> is_reg (wrap 8 r).
Proof. intros ?. rewrite wrap_small; [done|]. unfold is_reg in *. split; lia. Qed.

Lemma tag_op_range op t : zassoc tagged_table op = Some t -> in_u 16 op.
Proof.
  intros Ht%zassoc_in. destruct tagged_table_range as [_ Hf].
  rewrite list.Forall_forall in Hf. specialize (Hf op).
  assert (Hin : op ∈ tagged_table.*1) by (apply list_elem_of_fmap; exists (op, t); done).
  specialize (Hf Hin). unfold MINIMAL_OPCODE, MAXIMUM_OPCODE, OP_UNLOADED, OP_CUSTOM_TRACE_END in Hf.
  split; lia.
Qed.

Section raw.
Context (op : InstructionOpcode) (d a b c e imm : Z).
Hypothesis (Hd : is_reg d) (Ha : is_reg a) (Hb : is_reg b) (Hc : is_reg c) (He : is_reg e).

(** Read the fields off the constructor's lemma. *)
Ltac raw_fields lem :=
  let Ht := fresh "Ht" in let k := fresh "k" in let Hk := fresh "Hk" in
  intros Ht k Hk;
  let F := fresh "F" in
  pose proof (lem k (tag_op_range _ _ Ht) Hk) as F; cbv zeta in F;
  let E := fresh "E" in let E0 := fresh "E" in
  destruct F as (E & E0 & F); unfold inst_ok; rewrite E, Ht; cbn [tag_ok];
  destruct_and? F;
  repeat match goal with H : _ = wrap 8 _ |- _ => rewrite H; clear H end;
  split_and!; auto using is_reg_wrap.

Lemma raw_R : zassoc tagged_table op = Some Rtype -> raw_ok (Rtype_new op d a b).
Proof. raw_fields (Rtype_fields op d a b). Qed.

Lemma raw_I : zassoc tagged_table op = Some Itype -> raw_ok (Itype_new_s op d a imm).
Proof. raw_fields (Itype_fields op d a imm). Qed.

Lemma raw_Iu : zassoc tagged_table op = Some Itype -> raw_ok (Itype_new_u op d a imm).
Proof. raw_fields (Itype_u_fields op d a imm). Qed.

Lemma raw_S : zassoc tagged_table op = Some Stype -> raw_ok (Stype_new_s op imm a b).
Proof. raw_fields (Stype_fields op a b imm). Qed.

Lemma raw_Su : zassoc tagged_table op = Some Stype -> raw_ok (Stype_new_u op imm a b).
Proof. raw_fields (Stype_u_fields op a b imm). Qed.

Lemma raw_U : zassoc tagged_table op = Some Utype -> raw_ok (Utype_new_s op d imm).
Proof. raw_fields (Utype_fields op d imm). Qed.

Lemma raw_R4 : zassoc tagged_table op = Some R4type -> raw_ok (R4type_new op d a b c).
Proof. raw_fields (R4type_fields op d a b c). Qed.

Lemma raw_R5 : zassoc tagged_table op = Some R5type -> raw_ok (R5type_new op d a b c e).
Proof. raw_fields (R5type_fields op d a b c e). Qed.

End raw.

Lemma raw_nop : raw_ok nop.
Proof. by apply raw_Iu. Qed.

Lemma raw_blank op : op = OP_ECALL \/ op = OP_EBREAK \/ op = OP_FENCEI -> raw_ok (blank_instruction op).
Proof.
  intros Hop. replace (blank_instruction op) with (Rtype_new op 0 0 0);
    [apply raw_R; [done..|]|]; by destruct Hop as [-> | [-> | ->] ].
Qed.

(** * The factories *)

(** A property of the instruction a factory returns. *)
Definition opt_all {A} (P : A -> Prop) (o : option A) : Prop := forall a, o = Some a -> P a.

Section opt_all.
Context {A B : Type} (P : A -> Prop).

Lemma opt_all_None : opt_all P None.
Proof. done. Qed.
Lemma opt_all_Some a : P a -> opt_all P (Some a).
Proof. by intros ? ? [= <-]. Qed.
Lemma opt_all_if (c : bool) o1 o2 : opt_all P o1 -> opt_all P o2 -> opt_all P (if c then o1 else o2).
Proof. by destruct c. Qed.
Lemma opt_all_fmap (f : B -> A) o : opt_all (fun b => P (f b)) o -> opt_all P (f <$> o).
Proof. destruct o as [b|]; [|done]. intros H a [= <-]. by apply H. Qed.
Lemma opt_all_or o1 o2 : opt_all P o1 -> opt_all P o2 ->
  opt_all P (match o1 with Some a => Some a | None => o2 end).
Proof. by destruct o1. Qed.

Lemma opt_all_zassoc l k : Forall (fun p => P p.2) l -> opt_all P (zassoc l k).
Proof. intros Hl a Ha%zassoc_in. by apply (proj1 (list.Forall_forall _ _) Hl _ Ha). Qed.
Lemma opt_all_zassoc2 l k1 k2 : Forall (fun p => P p.2) l -> opt_all P (zassoc2 l k1 k2).
Proof.
  induction l as [|[[x y] v] l IH]; [done|]. intros [Hv Hl]%Forall_cons_1. cbn [zassoc2].
  apply opt_all_if; [by apply opt_all_Some|by apply IH].
Qed.
Lemma opt_all_zassoc3 l k1 k2 k3 : Forall (fun p => P p.2) l -> opt_all P (zassoc3 l k1 k2 k3).
Proof.
  induction l as [|[[[x y] z] v] l IH]; [done|]. intros [Hv Hl]%Forall_cons_1. cbn [zassoc3].
  apply opt_all_if; [by apply opt_all_Some|by apply IH].
Qed.
End opt_all.

Lemma is_reg_fields b : is_reg (rd b) /\ is_reg (rs1 b) /\ is_reg (rs2 b) /\ is_reg (c_rs2 b).
Proof. split_and!; by apply (x_range b _ 5). Qed.

Lemma is_reg_compact b n : 0 <= n < 32 -> is_reg (compact_register_number b n).
Proof.
  intros Hn. unfold compact_register_number. destruct (x_range b n 3); [lia..|].
  unfold is_reg. lia.
Qed.

Lemma is_reg_nibble b n : 0 <= n < 32 ->
  is_reg (wrap 8 (wshr 32 (Z.land b (Z.shiftl 15 n)) n)).
Proof.
  intros Hn. unfold wshr. rewrite Z.mod_small, Z.shiftr_land, Z.shiftr_shiftl_l by lia.
  replace (n - n) with 0 by lia. change (Z.shiftl 15 0) with (2 ^ 4 - 1).
  rewrite land_ones_wrap by done. apply is_reg_wrap.
  destruct (wrap_range 4 (Z.shiftr b n)); [done|]. unfold is_reg. lia.
Qed.

(** Walk through the branches of a factory. *)
Ltac is_reg_solve :=
  lazymatch goal with
  | |- is_reg (rd ?b) => exact (proj1 (is_reg_fields b))
  | |- is_reg (rs1 ?b) => exact (proj1 (proj2 (is_reg_fields b)))
  | |- is_reg (rs2 ?b) => exact (proj1 (proj2 (proj2 (is_reg_fields b))))
  | |- is_reg (c_rs2 ?b) => exact (proj2 (proj2 (proj2 (is_reg_fields b))))
  | |- is_reg (compact_register_number _ _) => apply is_reg_compact; lia
  | |- is_reg (wrap _ _) => fail
  | |- is_reg _ => done
  end.
Ltac raw_solve :=
  unfold r_inst, i_inst, s_inst;
  lazymatch goal with
  | |- raw_ok (if _ then _ else _) => case_match; raw_solve
  | |- raw_ok nop => apply raw_nop
  | |- raw_ok (Rtype_new _ _ _ _) => apply raw_R; [is_reg_solve..|reflexivity]
  | |- raw_ok (Itype_new_s (if ?c then _ else _) _ _ _) => destruct c; raw_solve
  | |- raw_ok (Itype_new_u (if ?c then _ else _) _ _ _) => destruct c; raw_solve
  | |- raw_ok (Itype_new_s _ _ _ _) => apply raw_I; [is_reg_solve..|reflexivity]
  | |- raw_ok (Itype_new_u _ _ _ _) => apply raw_Iu; [is_reg_solve..|reflexivity]
  | |- raw_ok (Stype_new_s _ _ _ _) => apply raw_S; [is_reg_solve..|reflexivity]
  | |- raw_ok (Stype_new_u _ _ _ _) => apply raw_Su; [is_reg_solve..|reflexivity]
  | |- raw_ok (Utype_new_s _ _ _) => apply raw_U; [is_reg_solve..|reflexivity]
  | |- raw_ok (blank_instruction _) => apply raw_blank; tauto
  end.
Ltac factory_step :=
  cbv zeta;
  lazymatch goal with
  | |- opt_all _ None => apply opt_all_None
  | |- opt_all _ (Some _) => apply opt_all_Some
  | |- opt_all _ (if _ then _ else _) => apply opt_all_if
  | |- opt_all _ (_ <$> _) => apply opt_all_fmap
  | |- opt_all _ (match _ with Some a => Some a | None => _ end) => apply opt_all_or
  | |- opt_all _ (zassoc _ _) => apply opt_all_zassoc
  | |- opt_all _ (zassoc2 _ _ _) => apply opt_all_zassoc2
  | |- opt_all _ (zassoc3 _ _ _ _) => apply opt_all_zassoc3
  | |- Forall _ (_ ++ _) => apply Forall_app; split
  | |- Forall _ (if _ then _ else _) => case_match
  | |- Forall _ (_ :: _) => apply List.Forall_cons; cbn [fst snd]
  | |- Forall _ [] => constructor
  | |- raw_ok _ => raw_solve
  end.

Lemma i_factory_inst_raw rv64 mask b v : opt_all raw_ok (i_factory_inst rv64 mask b v).
Proof.
  unfold i_factory_inst, i_alu, i_alu_w, utils_jalr, utils_lb, utils_lbu, utils_ld, utils_lh,
    utils_lhu, utils_lw, utils_lwu. repeat factory_step.
  unfold i_fence, FenceType_new. repeat factory_step.
  apply raw_R; [..|reflexivity].
  - by apply (is_reg_nibble b 28).
  - by apply (is_reg_nibble b 24).
  - by apply (is_reg_nibble b 20).
Qed.

(** * What a decoded instruction satisfies *)

Definition decoded (i : Instruction) : Prop :=
  inst_ok i /\ (instruction_length i = 2 \/ instruction_length i = 4).

Lemma raw_decoded_4 i : raw_ok i -> decoded (set_instruction_length_4 i).
Proof.
  intros Hi. rewrite set_length_4_field. destruct (Hi 2 ltac:(by split)) as [? E].
  split; [done|]. by right.
Qed.
Lemma raw_decoded_2 i : raw_ok i -> decoded (set_instruction_length_2 i).
Proof.
  intros Hi. rewrite set_length_2_field. destruct (Hi 1 ltac:(by split)) as [? E].
  split; [done|]. by left.
Qed.

Definition factory_ok (f : InstructionFactory) : Prop := forall b v, opt_all decoded (f b v).

Lemma length_4_decoded o : opt_all raw_ok o -> opt_all decoded (set_instruction_length_4 <$> o).
Proof. intros Ho. apply opt_all_fmap. intros i Hi. by apply raw_decoded_4, Ho. Qed.
Lemma length_2_decoded o : opt_all raw_ok o -> opt_all decoded (set_instruction_length_2 <$> o).
Proof. intros Ho. apply opt_all_fmap. intros i Hi. by apply raw_decoded_2, Ho. Qed.

Section factories.
Context (R : Register).

Lemma i_factory_ok : factory_ok (i_factory R).
Proof.
  intros b v. apply opt_all_if; [done|]. apply length_4_decoded, i_factory_inst_raw.
Qed.

Lemma m_factory_ok : factory_ok (m_factory R).
Proof.
  intros b v. unfold m_factory. repeat (apply opt_all_if; [done|]).
  apply length_4_decoded. repeat factory_step.
Qed.

Lemma a_factory_ok : factory_ok (a_factory R).
Proof.
  intros b v. unfold a_factory. repeat (apply opt_all_if; [done|]).
  apply length_4_decoded. repeat factory_step.
Qed.

Lemma b_factory_ok : factory_ok (b_factory R).
Proof.
  intros b v. unfold b_factory. repeat (apply opt_all_if; [done|]).
  apply length_4_decoded. unfold b_op_0010011, b_op_0011011. repeat factory_step.
  destruct (zassoc3 b_unary_table _ _ _) as [op|] eqn:Hop; [|repeat factory_step].
  revert op Hop. apply (opt_all_zassoc3 (fun op => opt_all raw_ok (Some (r_inst b op)))).
  unfold b_unary_table. repeat factory_step.
Qed.

Lemma rvc_factory_ok : factory_ok (rvc_factory R).
Proof.
  intros b v. unfold rvc_factory. repeat (apply opt_all_if; [done|]).
  apply length_2_decoded. unfold rvc_quadrant0, rvc_quadrant1, rvc_quadrant2, rvc_alu,
    rvc_jr_mv_add, utils_lw, utils_ld, utils_jalr. repeat factory_step.
Qed.
End factories.

(** * The decoder *)

Record decoder_ok (d : DefaultDecoder) : Prop := {
  dd_ok_factories : Forall factory_ok (dd_factories d);
  dd_ok_length : length (dd_instructions_cache d) = Z.to_nat INSTRUCTION_CACHE_SIZE;
  dd_ok_cache : Forall (fun e => e.1 = U64_MAX \/ decoded e.2) (dd_instructions_cache d);
}.

Lemma empty_cache_ok :
  length empty_cache = Z.to_nat INSTRUCTION_CACHE_SIZE /\
  Forall (fun e : Z * Instruction => e.1 = U64_MAX \/ decoded e.2) empty_cache.
Proof.
  unfold empty_cache. split; [apply length_replicate|]. apply Forall_replicate. by left.
Qed.

Lemma decoder_new_ok R isa0 version0 : decoder_ok (decoder_new R isa0 version0).
Proof.
  destruct empty_cache_ok as [Hl Hc].
  unfold decoder_new, add_instruction_factory, decoder_empty. cbv zeta.
  repeat case_match; (constructor; [|exact Hl|exact Hc]); cbn [dd_factories app];
    eauto 10 using Forall_nil, List.Forall_cons, rvc_factory_ok, i_factory_ok, m_factory_ok,
      b_factory_ok, a_factory_ok.
Qed.

Lemma reset_cache_ok d : decoder_ok d -> decoder_ok (reset_instructions_cache d).
Proof. intros []. destruct empty_cache_ok. by constructor. Qed.

Lemma first_factory_ok fs b v : Forall factory_ok fs -> opt_all decoded (first_factory fs b v).
Proof.
  induction fs as [|f fs IH]; [done|]. intros [Hf Hfs]%Forall_cons_1. cbn [first_factory].
  apply opt_all_or; [apply Hf|by apply IH].
Qed.

(** The operands of a decoded instruction. *)
Lemma inst_ok_R i op : inst_ok i -> extract_opcode i = op ->
  zassoc tagged_table op = Some Rtype ->
  is_reg (Rtype_rd i) /\ is_reg (Rtype_rs1 i) /\ is_reg (Rtype_rs2 i).
Proof. unfold inst_ok. intros Hi <- Ht. by rewrite Ht in Hi. Qed.

Lemma inst_ok_I i op : inst_ok i -> extract_opcode i = op ->
  zassoc tagged_table op = Some Itype -> is_reg (Itype_rd i) /\ is_reg (Itype_rs1 i).
Proof. unfold inst_ok. intros Hi <- Ht. by rewrite Ht in Hi. Qed.

Lemma inst_ok_U i op : inst_ok i -> extract_opcode i = op ->
  zassoc tagged_table op = Some Utype -> is_reg (Utype_rd i).
Proof. unfold inst_ok. intros Hi <- Ht. by rewrite Ht in Hi. Qed.

(** Name the valid operands of the decoded instructions in the context. *)
Ltac operand_facts :=
  repeat match goal with
  | Hi : decoded ?i, E : extract_opcode ?i = ?op |- _ =>
      lazymatch goal with
      | _ : is_reg (Rtype_rd i) |- _ => fail
      | _ : is_reg (Utype_rd i) |- _ => fail
      | _ : is_reg (Itype_rd i) |- _ => fail
      | _ => first [ pose proof (inst_ok_R i op (proj1 Hi) E eq_refl) as (? & ? & ?)
                   | pose proof (inst_ok_U i op (proj1 Hi) E eq_refl)
                   | pose proof (inst_ok_I i op (proj1 Hi) E eq_refl) as (? & ?) ]
      end
  end.

Section decode.
Context {R : Register} {HR : RegisterOk R} {M : Type} {HM : Memory R M} {HMO : MemoryOk R M}.

Definition ds_ok (s : DefaultDecoder * M) : Prop := decoder_ok s.1 /\ mem_ok s.2.
(** Decoding changes neither the configuration of the decoder nor the memory's size. *)
Definition ds_kept (s s' : DefaultDecoder * M) : Prop :=
  same_size s.2 s'.2 /\ dd_mop s'.1 = dd_mop s.1 /\ dd_version s'.1 = dd_version s.1 /\
  dd_factories s'.1 = dd_factories s.1.

#[export] Instance ds_kept_preorder : PreOrder ds_kept.
Proof.
  split; unfold ds_kept; [by intros s|].
  intros s s' s'' (?&?&?&?) (?&?&?&?). split_and!; [by etrans|congruence..].
Qed.

Local Abbreviation safe m Q := (stable ds_ok ds_kept m Q).

Lemma on_memory_safe {A} (c : ST M A) Q : stable mem_ok same_size c Q -> safe (on_memory c) Q.
Proof. apply stable_zoom; [by intros s []|]. by intros s t [] ??. Qed.

Lemma decode_bits_safe pc0 : in_u 64 pc0 -> stable mem_ok same_size (decode_bits pc0) (fun _ => True).
Proof.
  intros Hpc. unfold decode_bits. apply stable_if; intros _.
  - eapply stable_bind; [done|by apply mem_execute_load32|]. intros v _.
    apply stable_if; intros _; by apply stable_ret.
  - eapply stable_bind; [done|by apply mem_execute_load16|]. intros v _.
    apply stable_if; intros _; [|by apply stable_ret].
    eapply stable_bind; [done|apply mem_execute_load16; by apply wadd_range|].
    intros h _. by apply stable_ret.
Qed.

Lemma decode_raw_safe pc0 : in_u 64 pc0 -> safe (decode_raw pc0) decoded.
Proof.
  intros Hpc s Hs. unfold decode_raw, wp.
  destruct s as [d m]. destruct Hs as [Hd Hm]. cbn in Hd, Hm.
  unfold mbind, ST_bind, gets. cbn [fst snd].
  destruct (Z.leb_spec (memory_size m) pc0) as [Hb|Hb]; [done|].
  pose proof (cache_key_lt pc0) as Hk.
  destruct (lookup_lt_is_Some_2 (dd_instructions_cache d) (Z.to_nat (cache_key pc0))) as [[p i] Hc].
  { rewrite dd_ok_length by done. unfold INSTRUCTION_CACHE_SIZE in *. lia. }
  cbv beta zeta. cbn [fst snd].
  rewrite Hc. cbn [unwrap mret ST_ret fst snd].
  destruct (Z.eqb_spec p pc0) as [->|Hne].
  - split; [|by split].
    destruct (Forall_lookup_1 _ _ _ _ (dd_ok_cache d Hd) Hc) as [E|]; [|done].
    cbn in E. exfalso. pose proof (mem_size_range m Hm) as [_ ?]. destruct Hpc. subst pc0.
    unfold U64_MAX in *. lia.
  - pose proof (on_memory_safe _ _ (decode_bits_safe pc0 Hpc) (d, m) ltac:(done)) as Hb2.
    unfold wp in Hb2.
    destruct (on_memory (decode_bits pc0) (d, m)) as [[bits|e|] [d' m']]; [|done|done].
    destruct Hb2 as (_ & [Hd' Hm'] & Hk2). cbn [fst snd] in *.
    destruct (first_factory _ _ _) as [i'|] eqn:Hf; [|done].
    pose proof (first_factory_ok _ _ _ (dd_ok_factories d' Hd') _ Hf) as Hi'.
    split; [done|]. split; [|done]. split; [|done]. destruct Hd' as [? Hl Hca].
    constructor; cbn; [done| |].
    + by rewrite length_insert.
    + apply Forall_insert; [done|]. by right.
Qed.

(** ** Fusion *)

(** What the decoder returns: an instruction with valid operands, of at least two bytes. *)
Definition sized (i : Instruction) : Prop := inst_ok i /\ 2 <= instruction_length i.

Lemma decoded_sized i : decoded i -> sized i.
Proof. intros [? [E|E]]; (split; [done|lia]). Qed.

Lemma raw_length_n i n : raw_ok i -> 2 <= n < 32 -> sized (set_instruction_length_n i n).
Proof.
  intros Hi Hn. destruct (Hi (n / 2)) as [Hok Hl].
  { split; [apply Z.div_pos; lia|apply Z.div_lt_upper_bound; lia]. }
  rewrite set_length_n_field by lia. split; [done|]. rewrite Hl. dlia.
Qed.

Lemma decoded_length i : decoded i -> 2 <= instruction_length i <= 4.
Proof. intros [_ [E|E]]; lia. Qed.

Lemma length_sum a b n m : 2 <= a <= n -> 2 <= b <= m -> n + m < 256 -> 2 <= wadd 8 a b <= n + m.
Proof. intros. unfold wadd. rewrite wrap_small by (split; lia). lia. Qed.

Lemma length_bound a n : 2 <= a <= n -> n < 32 -> 2 <= a < 32.
Proof. lia. Qed.

(** The sum of the lengths of the decoded instructions of the context. *)
Ltac sum_length :=
  first [ eapply decoded_length; eassumption
        | eapply length_sum; [sum_length|sum_length|reflexivity] ].
Ltac sum_lengths := eapply length_bound; [sum_length|reflexivity].

Ltac rule_step :=
  cbv zeta;
  lazymatch goal with
  | |- stable _ _ (if _ then _ else _) _ => apply stable_if; intros ?
  | |- stable _ _ (mbind _ (decode_raw _)) _ =>
      eapply stable_bind; [done|apply decode_raw_safe; by apply wadd_range|intros ? ?]
  | |- stable _ _ (mbind _ (gets _)) _ =>
      apply stable_bind with (P := fun _ => True); [done|by apply stable_gets|intros ? _]
  | |- stable _ _ (mret None) _ => by apply stable_ret
  | |- stable _ _ (mret (Some _)) _ =>
      apply stable_ret; [done|]; apply opt_all_Some, raw_length_n; [bool_hyps; operand_facts|sum_lengths];
      lazymatch goal with
      | |- raw_ok (Rtype_new _ _ _ _) => apply raw_R
      | |- raw_ok (R4type_new _ _ _ _ _) => apply raw_R4
      | |- raw_ok (R5type_new _ _ _ _ _ _) => apply raw_R5
      end; first [match goal with H : ?P |- ?P => exact H end | reflexivity]
  end.

Local Abbreviation rule_ok := (fun o => opt_all sized o).

Lemma rule_adc_safe pc0 i : decoded i -> extract_opcode i = OP_ADD ->
  safe (rule_adc pc0 i) rule_ok.
Proof. intros Hi Ho. unfold rule_adc. repeat rule_step. Qed.

Lemma rule_sbb_safe pc0 i : decoded i -> extract_opcode i = OP_SUB ->
  safe (rule_sbb pc0 i) rule_ok.
Proof. intros Hi Ho. unfold rule_sbb. repeat rule_step. Qed.

Lemma rule_sbbs_safe pc0 i : decoded i -> extract_opcode i = OP_SUB ->
  safe (rule_sbbs pc0 i) rule_ok.
Proof. intros Hi Ho. unfold rule_sbbs. repeat rule_step. Qed.

Lemma add3_raw i0 i1 i2 :
  decoded i0 -> decoded i1 -> decoded i2 ->
  extract_opcode i0 = OP_ADD -> extract_opcode i1 = OP_SLTU -> extract_opcode i2 = OP_ADD ->
  opt_all raw_ok (add3a i0 i1 i2) /\ opt_all raw_ok (add3b i0 i1 i2) /\
  opt_all raw_ok (add3c i0 i1 i2).
Proof.
  intros. operand_facts. unfold add3a, add3b, add3c. cbv zeta.
  split_and!; (apply opt_all_if; [|done]); apply opt_all_Some, raw_R5; by trivial.
Qed.

Lemma rule_add3_safe pc0 i : decoded i -> extract_opcode i = OP_ADD ->
  safe (rule_add3 pc0 i) rule_ok.
Proof.
  intros Hi Ho. unfold rule_add3. repeat rule_step. bool_hyps.
  match goal with |- stable _ _ (match add3a _ ?i1 ?i2 with _ => _ end) _ =>
    destruct (add3_raw i i1 i2) as (Ha & Hb & Hc); [done..|];
    destruct (add3a i i1 i2); [|destruct (add3b i i1 i2); [|destruct (add3c i i1 i2)]]
  end; [..|by apply stable_ret].
  all: apply stable_ret; [done|]; apply opt_all_Some, raw_length_n; [by auto|sum_lengths].
Qed.

Lemma rule_adcs_safe pc0 i : decoded i -> extract_opcode i = OP_ADD ->
  safe (rule_adcs pc0 i) rule_ok.
Proof.
  intros Hi Ho. unfold rule_adcs. rule_step. rule_step; [rule_step|]. cbv zeta.
  set (i0 := if _ && _ then _ else i).
  assert (H0 : is_reg (Rtype_rd i0) /\ is_reg (Rtype_rs1 i0) /\ is_reg (Rtype_rs2 i0)).
  { destruct (inst_ok_R i OP_ADD (proj1 Hi) Ho eq_refl) as (?&?&?). subst i0.
    case_match; [|done]. destruct (Rtype_fields (Rtype_op i) (Rtype_rd i) (Rtype_rs2 i)
      (Rtype_rs1 i) 0 (inst_op_range i) ltac:(by split)) as (_&_&_&E1&E2&E3).
    cbv zeta in *. change (field8 0 24) with 0 in *. rewrite Z.lor_0_r in *.
    rewrite E1, E2, E3. split_and!; by apply is_reg_wrap. }
  clearbody i0. destruct_and! H0. repeat rule_step.
Qed.

(** A rule that fails or does not apply leaves the next one to try. *)
Lemma try_rule_safe rule c :
  safe rule rule_ok -> safe c sized -> safe (try_rule rule c) sized.
Proof.
  intros Hr Hc. unfold try_rule.
  apply stable_bind with (P := fun o => forall r, o = Some r -> rule_ok r); [done| |].
  - intros s Hs. specialize (Hr s Hs). unfold wp, attempt in *.
    destruct (rule s) as [[r|e|] s']; [|by destruct Hr|done].
    destruct Hr as (Hr & ?). split; [|done]. by intros ? [= <-].
  - intros [[i|]|] Ho; [|done..]. apply stable_ret; [done|]. by eapply Ho.
Qed.

Lemma with_next_safe pc0 i k : decoded i ->
  (forall n, decoded n -> safe (k n) sized) -> safe (with_next pc0 i k) sized.
Proof.
  intros Hi Hk. unfold with_next.
  apply stable_bind with (P := fun o => forall n, o = Some n -> decoded n); [done| |].
  - intros s Hs. pose proof (decode_raw_safe (wadd 64 pc0 (instruction_length i))
      ltac:(by apply wadd_range) s Hs) as Hr. unfold wp, attempt in *.
    destruct (decode_raw _ s) as [[r|e|] s']; [|by destruct Hr|done].
    destruct Hr as (Hr & ?). split; [|done]. by intros ? [= <-].
  - intros [n|] Hn; [by apply Hk, Hn|]. apply stable_ret; [done|]. by apply decoded_sized.
Qed.

Lemma mop_add_safe pc0 i : decoded i -> extract_opcode i = OP_ADD ->
  safe (mop_add pc0 i) sized.
Proof.
  intros Hi Ho. unfold mop_add.
  repeat (apply try_rule_safe; [eauto using rule_adc_safe, rule_add3_safe, rule_adcs_safe|]).
  apply stable_ret; [done|]. by apply decoded_sized.
Qed.

Lemma mop_sub_safe pc0 i : decoded i -> extract_opcode i = OP_SUB ->
  safe (mop_sub pc0 i) sized.
Proof.
  intros Hi Ho. unfold mop_sub.
  repeat (apply try_rule_safe; [eauto using rule_sbb_safe, rule_sbbs_safe|]).
  apply stable_ret; [done|]. by apply decoded_sized.
Qed.

Ltac mop_step :=
  cbv zeta;
  lazymatch goal with
  | |- stable _ _ (if _ then _ else _) _ => apply stable_if; intros ?
  | |- stable _ _ (mbind _ (gets _)) _ =>
      apply stable_bind with (P := fun _ => True); [done|by apply stable_gets|intros ? _]
  | |- stable _ _ (match ?o with Some _ => _ | None => _ end) _ => destruct o
  | |- stable _ _ (mret (fuze _ _ _)) _ =>
      apply stable_ret; [done|]; apply raw_length_n; [bool_hyps; operand_facts|sum_lengths]
  | Hi : decoded ?i |- stable _ _ (mret ?i) _ => apply stable_ret; [done|]; by apply decoded_sized
  end.

Lemma mop_lui_safe pc0 i : decoded i -> extract_opcode i = OP_LUI ->
  safe (mop_lui pc0 i) sized.
Proof.
  intros Hi Ho. apply with_next_safe; [done|]. intros n Hn.
  repeat mop_step; by apply raw_U.
Qed.

Lemma mop_auipc_safe pc0 i : decoded i -> extract_opcode i = OP_AUIPC ->
  safe (mop_auipc pc0 i) sized.
Proof.
  intros Hi Ho. apply with_next_safe; [done|]. intros n Hn.
  repeat mop_step; by apply raw_U.
Qed.

Lemma mop_wide_safe op1 op2 op3 pc0 i : decoded i -> extract_opcode i = op1 ->
  zassoc tagged_table op1 = Some Rtype -> zassoc tagged_table op2 = Some Rtype ->
  zassoc tagged_table op3 = Some R4type ->
  safe (mop_wide op2 op3 pc0 i) sized.
Proof.
  intros Hi Ho H1 H2 H3. apply with_next_safe; [done|]. intros n Hn.
  pose proof (inst_ok_R i _ (proj1 Hi) Ho H1) as (?&?&?).
  cbv zeta. apply stable_if; intros Hop; [|mop_step]. bool_hyps.
  pose proof (inst_ok_R n _ (proj1 Hn) Hop H2) as (?&?&?).
  apply stable_if; intros _; [|mop_step].
  apply stable_ret; [done|]. apply raw_length_n; [by apply raw_R4|sum_lengths].
Qed.

Lemma decode_mop_safe pc0 : in_u 64 pc0 -> safe (decode_mop pc0) sized.
Proof.
  intros Hpc. unfold decode_mop. eapply stable_bind; [done|by apply decode_raw_safe|].
  intros i Hi. cbv zeta.
  repeat (apply stable_if; intros ?; bool_hyps;
    [lazymatch goal with
     | |- stable _ _ (mop_add _ _) _ => by apply mop_add_safe
     | |- stable _ _ (mop_sub _ _) _ => by apply mop_sub_safe
     | |- stable _ _ (mop_lui _ _) _ => by apply mop_lui_safe
     | |- stable _ _ (mop_auipc _ _) _ => by apply mop_auipc_safe
     | _ => by eapply mop_wide_safe
     end|]).
  apply stable_ret; [done|]. by apply decoded_sized.
Qed.

Lemma decode_safe pc0 : in_u 64 pc0 -> safe (decode pc0) sized.
Proof.
  intros Hpc. unfold decode.
  apply stable_bind with (P := fun _ => True); [done|by apply stable_gets|]. intros mop _.
  apply stable_if; intros _; [by apply decode_mop_safe|].
  eapply stable_mono; [by apply decode_raw_safe|]. apply decoded_sized.
Qed.

(** Nothing decodes outside the memory. *)
Lemma decode_outside pc0 (s : DefaultDecoder * M) : memory_size s.2 <= pc0 ->
  exists e, decode pc0 s = (Err e, s).
Proof.
  intros Hpc. assert (Hr : exists e, decode_raw pc0 s = (Err e, s)).
  { unfold decode_raw, mbind, ST_bind, gets. rewrite (proj2 (Z.leb_le _ _) Hpc). by eexists. }
  destruct Hr as [e E]. exists e. unfold decode, mbind, ST_bind, gets. destruct (dd_mop s.1); [|done].
  unfold decode_mop, mbind, ST_bind. by rewrite E.
Qed.
End decode.
