(* ===== verification/TracesOk.v ===== *)
(** The contracts of the decoders behind the assembly interpreter, and its driver.

    [InstDecoderOk]: decoding does not panic, keeps the memory well-formed and returns
    valid instructions.  [TraceDecoderOk]: preparing traces puts a trace of the current pc
    where the interpreter looks for it.  The three trace decoders have both contracts; the
    driver is proved against the second. *)
From S2P Require Import Prelude Outcome Bits Register RegisterFacts Insts InstsFacts Memory MemoryOk Machine Core.
From S2P Require Import Execute Decoder DecoderOk Run Asm AsmFacts AsmRefine AsmOk MachineOk CoreOk Traces TracesFacts.
From stdpp Require Import base list numbers gmap.
Open Scope Z_scope.

Class InstDecoderOk (D : Type) {HI : InstDecoder AsmMemory D} := {
  id_ok : D -> Prop;
  id_new_ok isa version : id_ok (inst_new u64_register isa version);
  id_reset_ok d : id_ok d -> id_ok (inst_reset_cache d);
  id_decode_safe pc : in_u 64 pc ->
    stable (fun s : D * AsmMemory => id_ok s.1 /\ asm_ok s.2) (fun s s' => same_size s.2 s'.2)
      (inst_decode pc) sized;
  id_decode_outside pc (s : D * AsmMemory) : asm_memory_size s.2 <= pc ->
    exists e s', inst_decode pc s = (Err e, s');
}.

#[export] Instance default_decoder_ok : InstDecoderOk DefaultDecoder.
Proof.
  refine {| id_ok := decoder_ok |}.
  - intros isa version. apply decoder_new_ok.
  - apply reset_cache_ok.
  - intros pc Hpc. eapply stable_rel; [|exact (decode_safe pc Hpc)]. by intros s s' (? & _).
  - intros pc s Hs. destruct (decode_outside (HM := asm_memory_instance) pc s Hs) as [e E]. by exists e, s.
Defined.

(** A decoder that passes decoding on to the one inside it. *)
Lemma with_decoder_safe {T D A} (okT : T -> Prop) (okD : D -> Prop) (get : T -> D) (set : D -> T -> T)
  (c : ST (D * AsmMemory) A) Q :
  (forall t, okT t -> okD (get t)) -> (forall d t, okT t -> okD d -> okT (set d t)) ->
  stable (fun s => okD s.1 /\ asm_ok s.2) (fun s s' => same_size s.2 s'.2) c Q ->
  stable (fun s => okT s.1 /\ asm_ok s.2) (fun s s' => same_size s.2 s'.2) (with_decoder get set c) Q.
Proof.
  intros Hg Hs. apply stable_zoom.
  - intros s [? ?]. split; [by apply Hg|done].
  - intros s t [? ?] [? ?] ?. split; [split; [by apply Hs|done]|done].
Qed.

Section decoders.
Context {D : Type} {HI : InstDecoder AsmMemory D} {HD : InstDecoderOk D}.
Local Abbreviation SF := (SimpleFixedTraceDecoder (D := D)).
Local Abbreviation MF := (MemoizedFixedTraceDecoder (D := D)).
Local Abbreviation MD := (MemoizedDynamicTraceDecoder (D := D)).

(** The tables have their size, and a cached trace is one of its key. *)
Definition sf_ok (t : SF) : Prop :=
  length (sf_traces t) = Z.to_nat ASM_TRACE_SIZE /\ id_ok (sf_decoder t).

(** A trace the interpreter runs at [pc]: it skips those of length 0. *)
Definition runnable_at (pc : Z) (tr : FixedTrace) : Prop := ft_address tr = pc /\ 0 < ft_length tr.
Definition keyed (cache : gmap Z FixedTrace) : Prop := map_Forall runnable_at cache.
Definition mf_ok (t : MF) : Prop := sf_ok (mf_inner t) /\ keyed (mf_cache t).
Definition md_ok (t : MD) : Prop :=
  sf_ok (md_inner t) /\ keyed (md_fixed_cache t) /\
  map_Forall (fun pc p => dt_address p.2 = pc) (md_dynamic_cache t).

Lemma decode_inner_outside {T} (get : T -> D) set pc (s : T * AsmMemory) :
  asm_memory_size s.2 <= pc -> exists e s', with_decoder get set (inst_decode pc) s = (Err e, s').
Proof.
  intros Hs. destruct (id_decode_outside pc (get s.1, s.2) Hs) as (e & s' & E).
  unfold with_decoder, zoom. rewrite E. by eexists _, _.
Qed.

#[export] Instance sf_decoder_ok : InstDecoderOk SF.
Proof.
  refine {| id_ok := sf_ok |}.
  - intros isa version. split; [apply length_replicate|apply id_new_ok].
  - intros t [? ?]. split; [done|]. by apply id_reset_ok.
  - intros pc Hpc. apply (with_decoder_safe sf_ok id_ok); [by intros t []|by intros d t [] ?|by apply id_decode_safe].
  - intros pc s. apply decode_inner_outside.
Defined.

#[export] Instance mf_decoder_ok : InstDecoderOk MF.
Proof.
  refine {| id_ok := mf_ok |}.
  - intros isa version. refine (conj (id_new_ok (D := SF) isa version) _). apply map_Forall_empty.
  - intros t [Ht ?]. exact (conj (id_reset_ok (D := SF) _ Ht) H).
  - intros pc Hpc. apply (with_decoder_safe mf_ok sf_ok); [by intros t []|by intros d t [] ?|exact (id_decode_safe (D := SF) pc Hpc)].
  - intros pc s Hs. destruct (id_decode_outside (D := SF) pc (mf_inner s.1, s.2) Hs) as (e & s' & E).
    eexists _, _. cbn. unfold with_decoder at 1, zoom at 1. cbn in E. rewrite E. done.
Defined.

#[export] Instance md_decoder_ok : InstDecoderOk MD.
Proof.
  refine {| id_ok := md_ok |}.
  - intros isa version. refine (conj (id_new_ok (D := SF) isa version) (conj _ _)); apply map_Forall_empty.
  - intros t (Ht & ?). exact (conj (id_reset_ok (D := SF) _ Ht) H).
  - intros pc Hpc. apply (with_decoder_safe md_ok sf_ok); [by intros t []|by intros d t [] ?|exact (id_decode_safe (D := SF) pc Hpc)].
  - intros pc s Hs. destruct (id_decode_outside (D := SF) pc (md_inner s.1, s.2) Hs) as (e & s' & E).
    eexists _, _. cbn. unfold with_decoder at 1, zoom at 1. cbn in E. rewrite E. done.
Defined.
End decoders.

(** * Preparing traces *)

Section prepare.
Context (asm_labels : Z -> Z) (asm_execute_address : Z)
  (box_address : gmap Z (Z * DynamicTrace) -> DynamicTrace -> Z).
Context {Sy De : Type}.
Context (drel : AsmCoreMachine -> AsmCoreMachine -> Prop) {HR : CoreRel drel}.
Local Abbreviation DM := (DefaultMachine u64_register AsmMemory Sy De).

(** A decoder and a machine, well-formed. *)
Definition ts_ok {T} {HI : InstDecoder AsmMemory T} {HT : InstDecoderOk T} (s : T * DM) : Prop :=
  id_ok s.1 /\ dm_ok s.2.
Definition ts_rel {T} (s s' : T * DM) : Prop := dm_rel drel s.2 s'.2.

#[export] Instance ts_rel_preorder {T} : PreOrder (@ts_rel T).
Proof. split; unfold ts_rel; [done|]. intros ???. by etrans. Qed.

(** The interpreter finds a trace of [pc0] in the table. *)
Definition trace_ready (traces : list FixedTrace) (pc0 : Z) : Prop :=
  exists tr, traces !! Z.to_nat (asm_calculate_slot pc0) = Some tr /\ runnable_at pc0 tr.

Definition dm_pc (m : DM) : Z := (dc_pc (dm_inner m) : reg u64_register).

(** What decoding does: no panic, the pc stays. *)
Definition decodes {T A} {HI : InstDecoder AsmMemory T} {HT : InstDecoderOk T}
  (c : ST (T * DM) A) (Q : A -> Prop) (s : T * DM) : Prop :=
  wp c s (fun a s' => Q a /\ ts_ok s' /\ ts_rel s s' /\ dm_pc s'.2 = dm_pc s.2)
         (fun _ s' => ts_ok s' /\ ts_rel s s' /\ dm_pc s'.2 = dm_pc s.2).

Section decode.
Context {T : Type} {HI : InstDecoder AsmMemory T} {HT : InstDecoderOk T}.

Lemma decodes_bind {A B} (c : ST (T * DM) A) (k : A -> ST (T * DM) B) P Q s :
  decodes c P s -> (forall a s', P a -> ts_ok s' -> decodes (k a) Q s') -> decodes (c ≫= k) Q s.
Proof.
  unfold decodes, wp. intros Hc Hk. unfold mbind, ST_bind. destruct (c s) as [[a|e|] s1]; [|done..].
  destruct Hc as (Ha & Hs1 & Hr1 & Hp1). specialize (Hk a s1 Ha Hs1).
  destruct (k a s1) as [[b|e|] s2]; [..|done].
  - destruct Hk as (? & ? & ? & ?). split_and!; [done|done|by etrans|congruence].
  - destruct Hk as (? & ? & ?). split_and!; [done|by etrans|congruence].
Qed.

Lemma decodes_ret {A} (a : A) (Q : A -> Prop) s : ts_ok s -> Q a -> decodes (mret a) Q s.
Proof. intros. unfold decodes, wp, mret, ST_ret. split_and!; try done. Qed.

Lemma trace_decode_safe pc0 s : in_u 64 pc0 -> ts_ok s -> decodes (trace_decode pc0) sized s.
Proof.
  intros Hpc [Hd [Hm Hf]]. pose proof (trace_decode_pc pc0 s) as Hp.
  pose proof (id_decode_safe pc0 Hpc (s.1, dc_memory (dm_inner s.2)) (conj Hd (dc_ok_memory _ Hm))) as H.
  unfold decodes, wp, trace_decode, zoom, dm_pc in *.
  change (memory s.2) with (dc_memory (dm_inner s.2)) in *.
  destruct (inst_decode pc0 _) as [[i|e|] [d' m']]; [..|done]; cbn [fst snd] in *.
  - destruct H as (Hi & [Hd' Hm'] & Hs).
    destruct (with_memory_ok m' (dm_inner s.2)) as [Hok Hfr]; [done..|].
    split_and!; try done; exact (conj (core_rel_frame _ _ Hfr) eq_refl).
  - destruct H as ([Hd' Hm'] & Hs).
    destruct (with_memory_ok m' (dm_inner s.2)) as [Hok Hfr]; [done..|].
    split_and!; try done; exact (conj (core_rel_frame _ _ Hfr) eq_refl).
Qed.

Lemma fetch_block_safe n pc0 s : in_u 64 pc0 -> ts_ok s ->
  decodes (fetch_block n pc0) (fun l => Forall sized l) s.
Proof.
  revert pc0 s. induction n as [|n IH]; intros pc0 s Hpc Hs; cbn [fetch_block]; [by apply decodes_ret|].
  eapply decodes_bind; [by apply trace_decode_safe|]. intros i s1 Hi Hs1.
  destruct (is_basic_block_end_instruction i); [apply decodes_ret; [done|constructor; [done|constructor]]|].
  eapply decodes_bind; [apply IH; [by apply wadd_range|done]|]. intros l s2 Hl Hs2.
  apply decodes_ret; [done|by constructor].
Qed.

Lemma pc_range s : ts_ok s -> in_u 64 (dm_pc s.2).
Proof. intros [_ [Hm _]]. exact (dc_ok_pc _ Hm). Qed.

Lemma fetch_block_nonempty pc0 s : in_u 64 pc0 -> ts_ok s ->
  decodes (fetch_block 16 pc0) (fun l => Forall sized l /\ (0 < length l <= 16)%nat) s.
Proof.
  intros Hpc Hs. pose proof (fetch_block_safe 16 pc0 s Hpc Hs) as H. unfold decodes, wp in *.
  destruct (fetch_block 16 pc0 s) as [[l|e|] s1] eqn:E; [|done..].
  destruct (fetch_block_shape _ _ _ _ _ E) as (Hl & _ & _ & Hne). destruct H as [H1 H2].
  split; [|done]. split; [done|]. specialize (Hne ltac:(done)). destruct l; [done|cbn in *; lia].
Qed.

Lemma decode_fixed_safe s : ts_ok s ->
  decodes (decode_fixed_trace asm_labels asm_execute_address None) (fun r => runnable_at (dm_pc s.2) r.1) s.
Proof.
  intros Hs. pose proof (pc_range s Hs) as Hpc. unfold decodes, wp. rewrite decode_fixed_trace_eq. cbv zeta.
  change (Z.to_nat 16) with 16%nat. change (decodes (l ← fetch_block 16 (dm_pc s.2);
    mret (fixed_trace_of asm_labels asm_execute_address (dm_instruction_cycle_func s.2) (dm_pc s.2) l,
          Z.of_nat (length l) + 1))
    (fun r => runnable_at (dm_pc s.2) r.1) s).
  apply decodes_bind with (P := fun l => Forall sized l /\ (0 < length l <= 16)%nat).
  - by apply fetch_block_nonempty.
  - intros l s1 [Hl Hn] Hs1. apply decodes_ret; [done|]. split; [done|]. cbn.
    pose proof (block_length_range l). rewrite block_end_length by (done || lia).
    destruct Hl as [|i l [_ Hi] _]; [cbn in Hn; lia|].
    change (block_length (i :: l)) with (instruction_length i + block_length l). pose proof (block_length_range l). lia.
Qed.
End decode.

(** [prepare_traces] has run on [s]. *)
Definition prepared {T} {HI : InstDecoder AsmMemory T} {HT : InstDecoderOk T}
  (traces : T -> list FixedTrace) (s : T * DM) (r : outcome unit * (T * DM)) : Prop :=
  match r with
  | (Ok _, s') => ts_ok s' /\ ts_rel s s' /\ dm_pc s'.2 = dm_pc s.2 /\
                  trace_ready (traces s'.1) (dm_pc s.2)
  | (Err _, s') => ts_ok s' /\ ts_rel s s'
  | (Panic, _) => False
  end.

Section decoders.
Context {D : Type} {HI : InstDecoder AsmMemory D} {HD : InstDecoderOk D}.
Local Abbreviation SF := (SimpleFixedTraceDecoder (D := D)).
Local Abbreviation MF := (MemoizedFixedTraceDecoder (D := D)).
Local Abbreviation MD := (MemoizedDynamicTraceDecoder (D := D)).

Lemma slot_range pc0 : (Z.to_nat (asm_calculate_slot pc0) < Z.to_nat ASM_TRACE_SIZE)%nat.
Proof.
  unfold asm_calculate_slot. change (ASM_TRACE_SIZE - 1) with (Z.ones 13).
  rewrite Z.land_ones by lia. change ASM_TRACE_SIZE with (2 ^ 13).
  pose proof (Z.mod_pos_bound (Z.shiftr pc0 2) (2 ^ 13)). lia.
Qed.

(** Putting a trace into its slot. *)
Lemma put_here tr (s : SF * DM) : sf_ok s.1 -> runnable_at (dm_pc s.2) tr ->
  exists t, sf_put_here tr s = (Ok tt, (t, s.2)) /\ sf_ok t /\ trace_ready (sf_traces t) (dm_pc s.2).
Proof.
  intros [Hl Hd] Ha. unfold sf_put_here, sf_put. change (asm_calculate_slot (pc s.2 : reg u64_register)) with (asm_calculate_slot (dm_pc s.2)).
  pose proof (slot_range (dm_pc s.2)) as Hs.
  destruct (lookup_lt_is_Some_2 (sf_traces s.1) (Z.to_nat (asm_calculate_slot (dm_pc s.2)))) as [x ->]; [lia|].
  eexists. split; [reflexivity|]. split; [split; [cbn; by rewrite length_insert|done]|].
  exists tr. split; [|done]. cbn. apply list_lookup_insert_eq. lia.
Qed.

Lemma sf_prepare_ok (s : SF * DM) : ts_ok s -> prepared sf_traces s (sf_prepare_traces asm_labels asm_execute_address s).
Proof.
  intros Hs. unfold sf_prepare_traces, on_sf. unfold mbind, ST_bind.
  rewrite (inner_decode_fixed asm_labels asm_execute_address sf_decoder sf_set_decoder) by (by intros []).
  pose proof (decode_fixed_safe s Hs) as H. unfold decodes, wp in H.
  destruct (decode_fixed_trace _ _ None s) as [[r|e|] s1]; [|by destruct H as (? & ? & _)|done].
  destruct H as (Ha & [Hd Hm] & Hr & Hp).
  destruct (put_here r.1 s1) as (t & -> & Ht & Hready); [done|by rewrite Hp|].
  rewrite Hp in Hready. done.
Qed.

(** The same inside a decoder with caches. *)
Lemma put_inner {T} (get : T -> SF) (set : SF -> T -> T) tr (s : T * DM) :
  (forall t d, get (set d t) = d) -> sf_ok (get s.1) -> runnable_at (dm_pc s.2) tr ->
  exists d, with_decoder get set (sf_put_here tr) s = (Ok tt, (set d s.1, s.2)) /\ sf_ok d /\
    trace_ready (sf_traces (get (set d s.1))) (dm_pc s.2).
Proof.
  intros Hgs Hok Ha. destruct (put_here tr (get s.1, s.2) Hok Ha) as (d & E & Hd & Hready).
  exists d. unfold with_decoder, zoom. rewrite E, Hgs. done.
Qed.

Lemma mf_prepare_eq (s : MF * DM) :
  mf_prepare_traces asm_labels asm_execute_address s =
  match mf_cache s.1 !! dm_pc s.2 with
  | Some tr => with_decoder mf_inner mf_set_inner (sf_put_here tr) s
  | None =>
      match decode_fixed_trace asm_labels asm_execute_address None s with
      | (Ok r, s') =>
          with_decoder mf_inner mf_set_inner (sf_put_here r.1)
            ({| mf_inner := mf_inner s'.1; mf_cache := <[dm_pc s.2 := r.1]> (mf_cache s'.1) |}, s'.2)
      | (Err e, s') => (Err e, s')
      | (Panic, s') => (Panic, s')
      end
  end.
Proof.
  assert (E : on_mf (on_sf (decode_fixed_trace asm_labels asm_execute_address None)) s =
    decode_fixed_trace asm_labels asm_execute_address None s).
  { rewrite <- (inner_decode_fixed asm_labels asm_execute_address mf_inner mf_set_inner); [|by intros []..|done].
    unfold on_mf, with_decoder at 1 2, zoom. unfold on_sf.
    by rewrite (inner_decode_fixed asm_labels asm_execute_address sf_decoder sf_set_decoder) by (by intros []). }
  unfold mf_prepare_traces, mbind, ST_bind, gets, mf_insert, modify, mret, ST_ret.
  change (pc s.2 : reg u64_register) with (dm_pc s.2).
  destruct (mf_cache s.1 !! dm_pc s.2); [done|]. rewrite E.
  by destruct (decode_fixed_trace _ _ None s) as [[r|e|] s'].
Qed.

(** The caches are only added to. *)
Lemma decode_fixed_mf max (s : MF * DM) :
  mf_cache (decode_fixed_trace asm_labels asm_execute_address max s).2.1 = mf_cache s.1.
Proof.
  rewrite <- (inner_decode_fixed asm_labels asm_execute_address mf_inner mf_set_inner); [|by intros []..|done].
  unfold with_decoder, zoom. by destruct (decode_fixed_trace _ _ max _).
Qed.

Lemma mf_prepare_ok (s : MF * DM) : ts_ok s ->
  prepared (fun t => sf_traces (mf_inner t)) s (mf_prepare_traces asm_labels asm_execute_address s).
Proof.
  intros Hs. pose proof Hs as [[Hi Hc] Hm]. rewrite mf_prepare_eq.
  destruct (mf_cache s.1 !! dm_pc s.2) as [tr|] eqn:E.
  - destruct (put_inner mf_inner mf_set_inner tr s) as (d & -> & Hd & Hready); [done|done|exact (Hc _ _ E)|].
    cbn [prepared fst snd]. by split_and!.
  - pose proof (decode_fixed_safe s Hs) as H. unfold decodes, wp in H.
    pose proof (decode_fixed_mf None s) as Hmf.
    destruct (decode_fixed_trace _ _ None s) as [[r|e|] s1]; [|by destruct H as (? & ? & _)|done].
    destruct H as (Ha & [[Hi1 Hc1] Hm1] & Hr & Hp). cbn [fst snd] in Hmf.
    set (t1 := {| mf_inner := _; mf_cache := _ |}).
    destruct (put_inner mf_inner mf_set_inner r.1 (t1, s1.2)) as (d & -> & Hd & Hready);
      [done|done|cbn; by rewrite Hp|]. cbn [prepared fst snd] in *. rewrite Hp in Hready.
    split; [|done]. split; [|done]. split; [done|]. by apply map_Forall_insert_2.
Qed.

(** *** The dynamic traces *)

(** A run that did not panic, and [Q] of what it returned. *)
Definition ran {A} (s : MD * DM) (r : outcome A * (MD * DM)) (Q : A -> Prop) : Prop :=
  match r with
  | (Ok a, s') => Q a /\ ts_ok s' /\ ts_rel s s' /\ dm_pc s'.2 = dm_pc s.2
  | (Err _, s') => ts_ok s' /\ ts_rel s s'
  | (Panic, _) => False
  end.

Lemma ran_trans {A} (s s1 : MD * DM) (r : outcome A * (MD * DM)) Q :
  ts_rel s s1 -> dm_pc s1.2 = dm_pc s.2 -> ran s1 r Q -> ran s r Q.
Proof.
  intros Hr Hp. destruct r as [[a|e|] s2]; cbn; [|intros [? ?]; split; [done|by etrans]|done].
  intros (? & ? & ? & ?). split_and!; [done|done|by etrans|congruence].
Qed.

Lemma dynamic_loop_safe fuel b (s : MD * DM) r : ts_ok s ->
  dynamic_loop asm_labels asm_execute_address fuel b s = Some r ->
  ran s r (fun b' => db_start_address b' = db_start_address b).
Proof.
  revert b s. induction fuel as [|fuel IH]; intros b s Hs; [done|]. cbn [dynamic_loop].
  unfold dynamic_iteration, mbind, ST_bind, gets, mret, ST_ret.
  pose proof (trace_decode_safe (builder_next_pc b) s ltac:(by apply wadd_range) Hs) as H. unfold decodes, wp in H.
  destruct (trace_decode (builder_next_pc b) s) as [[i|e|] s1]; [|intros [= <-]; by destruct H as (? & ? & _)|done].
  destruct H as (_ & Hs1 & Hr1 & Hp1). destruct (is_basic_block_end_instruction i).
  - intros [= <-]. done.
  - intros Hrun. eapply ran_trans; [done|done|]. exact (IH _ _ Hs1 Hrun).
Qed.

Lemma find_or_build_safe fuel next (s : MD * DM) r : ts_ok s ->
  find_or_build_dynamic_trace asm_labels asm_execute_address box_address fuel next s = Some r ->
  ran s r (fun _ => True).
Proof.
  intros Hs. unfold find_or_build_dynamic_trace.
  destruct (md_dynamic_cache s.1 !! next) as [[p d]|]; [intros [= <-]; cbn; by split_and!|].
  destruct (dynamic_loop _ _ fuel _ s) as [[o s1]|] eqn:E; [|done].
  pose proof (dynamic_loop_safe _ _ _ _ Hs E) as H.
  destruct o as [b|e|]; [|by intros [= <-]|done]. destruct H as (Hb & [(Hi & Hf & Hd) Hm] & Hr & Hp).
  cbn in Hb. unfold md_insert_dynamic. intros [= <-]. cbn. split_and!; try done.
  refine (conj (conj Hi (conj Hf _)) Hm). by apply map_Forall_insert_2.
Qed.

Lemma set_thread_address idx i w t :
  ft_address (set_thread idx i w t) = ft_address t /\ ft_length (set_thread idx i w t) = ft_length t.
Proof. unfold set_thread. by case_match. Qed.

Lemma extend_trace_safe fuel pc0 tr count (s : MD * DM) r : ts_ok s ->
  extend_trace asm_labels asm_execute_address box_address fuel pc0 tr count s = Some r ->
  ran s r (fun tr' => ft_address tr' = ft_address tr /\ ft_length tr' = ft_length tr).
Proof.
  intros Hs. unfold extend_trace.
  destruct (ft_thread _ tr) as [[i w]|]; [|intros [= <-]; cbn; by split_and!].
  destruct (is_basic_block_end_instruction i); [intros [= <-]; cbn; by split_and!|].
  destruct (find_or_build_dynamic_trace _ _ _ _ _ s) as [[o s1]|] eqn:E; [|done].
  pose proof (find_or_build_safe _ _ _ _ Hs E) as H.
  destruct o as [p|e|]; [|by intros [= <-]|done]. intros [= <-]. destruct H as (_ & H).
  split; [apply set_thread_address|exact H].
Qed.

Lemma put_md tr t (s s1 : MD * DM) : ts_ok s1 -> md_ok t -> ts_rel s s1 -> dm_pc s1.2 = dm_pc s.2 ->
  runnable_at (dm_pc s.2) tr ->
  prepared (fun t => sf_traces (md_inner t)) s (with_decoder md_inner md_set_inner (sf_put_here tr) (t, s1.2)).
Proof.
  intros [_ Hm] [Hi Hc] Hr Hp Ha.
  destruct (put_inner md_inner md_set_inner tr (t, s1.2)) as (d & -> & Hd & Hready); [done|done|cbn; by rewrite Hp|].
  cbn [prepared fst snd] in *. rewrite Hp in Hready. split_and!; try done.
Qed.

Lemma md_prepare_ok fuel (s : MD * DM) r : ts_ok s ->
  md_prepare_traces asm_labels asm_execute_address box_address fuel s = Some r ->
  prepared (fun t => sf_traces (md_inner t)) s r.
Proof.
  intros Hs. pose proof Hs as [Hd Hm]. unfold md_prepare_traces. cbv zeta.
  rewrite on_md_decode_fixed.
  destruct (md_fixed_cache s.1 !! (pc s.2 : reg u64_register)) as [tr|] eqn:E;
    change (pc s.2 : reg u64_register) with (dm_pc s.2) in *.
  { intros [= <-]. destruct s as [t m]. apply (put_md tr t (t, m) (t, m)); try done. destruct Hd as (_ & Hc & _). exact (Hc _ _ E). }
  pose proof (decode_fixed_safe s Hs) as H. unfold decodes, wp in H.
  destruct (decode_fixed_trace _ _ None s) as [[[tr count]|e|] s1]; [|intros [= <-]; by destruct H as (? & ? & _)|done].
  destruct H as (Ha & Hs1 & Hr1 & Hp1). cbn [fst] in Ha.
  destruct (extend_trace _ _ _ fuel (dm_pc s.2) tr count s1) as [[o s2]|] eqn:Ex; [|done].
  pose proof (ran_trans s s1 _ _ Hr1 Hp1 (extend_trace_safe _ _ _ _ _ _ Hs1 Ex)) as H.
  destruct o as [tr'|e|]; [|by intros [= <-]|done]. destruct H as (Ha2 & Hs2 & Hr2 & Hp2).
  assert (Ha' : runnable_at (dm_pc s.2) tr') by (destruct Ha, Ha2; split; [congruence|lia]).
  intros [= <-]. apply (put_md tr' _ s s2); try done.
  destruct Hs2 as [(Hi2 & Hf2 & Hd2) _]. refine (conj Hi2 (conj _ Hd2)).
  by apply map_Forall_insert_2.
Qed.
End decoders.

(** * The contract *)

Class TraceDecoderOk (T : Type) {HT : TraceDecoder (Sy := Sy) (De := De) T} := {
  td_inst_ok :: InstDecoderOk T;
  td_reset_ok t : id_ok t -> id_ok (td_reset (TraceDecoder := HT) t);
  td_prepare_ok fuel (s : T * DM) r :
    ts_ok s -> prepare_traces (TraceDecoder := HT) fuel s = Some r ->
    prepared (fixed_traces (TraceDecoder := HT)) s r;
}.

Section instances.
Context {D : Type} {HI : InstDecoder AsmMemory D} {HD : InstDecoderOk D}.

Lemma sf_reset_ok (t : SimpleFixedTraceDecoder (D := D)) : sf_ok t -> sf_ok (sf_reset t).
Proof. intros [? ?]. split; [apply length_replicate|by apply id_reset_ok]. Qed.

#[export] Instance sf_trace_decoder_ok :
  TraceDecoderOk (HT := sf_trace_decoder asm_labels asm_execute_address) (SimpleFixedTraceDecoder (D := D)).
Proof.
  eapply Build_TraceDecoderOk.
  - apply sf_reset_ok.
  - intros fuel s r Hs [= <-]. by apply sf_prepare_ok.
Defined.

#[export] Instance mf_trace_decoder_ok :
  TraceDecoderOk (HT := mf_trace_decoder asm_labels asm_execute_address) (MemoizedFixedTraceDecoder (D := D)).
Proof.
  eapply Build_TraceDecoderOk.
  - intros t [Ht _]. exact (conj (sf_reset_ok _ Ht) (map_Forall_empty _)).
  - intros fuel s r Hs [= <-]. by apply mf_prepare_ok.
Defined.

#[export] Instance md_trace_decoder_ok :
  TraceDecoderOk (HT := md_trace_decoder asm_labels asm_execute_address box_address)
    (MemoizedDynamicTraceDecoder (D := D)).
Proof.
  eapply Build_TraceDecoderOk.
  - intros t [Ht _]. exact (conj (sf_reset_ok _ Ht) (conj (map_Forall_empty _) (map_Forall_empty _))).
  - intros fuel s r Hs Hr. exact (md_prepare_ok fuel s r Hs Hr).
Defined.
End instances.
End prepare.
