(* ===== verification/TracesEnd.v ===== *)
(** Preparing a trace ends: the instructions of a dynamic trace lie one behind the other
    in the memory, each of at least two bytes, so that a decoder either finds the end of
    the basic block or the end of the memory. *)
From S2P Require Import Prelude Outcome Bits Register RegisterFacts Insts InstsFacts Memory MemoryFacts MemoryOk Machine Core.
From S2P Require Import Execute Decoder DecoderOk Run Demo Asm AsmFacts AsmRefine AsmOk MachineOk CoreOk Traces TracesFacts TracesOk.
From stdpp Require Import base list numbers gmap.
Open Scope Z_scope.

Section ends.
Context (asm_labels : Z -> Z) (asm_execute_address : Z)
  (box_address : gmap Z (Z * DynamicTrace) -> DynamicTrace -> Z).
Context {Sy De : Type}.
Context (drel : AsmCoreMachine -> AsmCoreMachine -> Prop) {HR : CoreRel drel}.
Context {D : Type} {HI : InstDecoder AsmMemory D} {HD : InstDecoderOk D}.
Local Abbreviation DM := (DefaultMachine u64_register AsmMemory Sy De).
Local Abbreviation MD := (MemoizedDynamicTraceDecoder (D := D)).

(** The size of the memory behind a decoder. *)
Definition code_size {T} (s : T * DM) : Z := asm_memory_size (dc_memory (dm_inner s.2)).

Lemma code_size_rel {T} (s s' : T * DM) : ts_rel drel s s' -> code_size s' = code_size s.
Proof. intros [H _]. apply core_rel_kept in H as (_ & _ & H). exact H. Qed.

Lemma trace_decode_outside {T} {HIT : InstDecoder AsmMemory T} {HDT : InstDecoderOk T} pc0 (s : T * DM) :
  code_size s <= pc0 -> exists e s', trace_decode pc0 s = (Err e, s').
Proof.
  intros H. destruct (id_decode_outside pc0 (s.1, dc_memory (dm_inner s.2)) H) as (e & s' & E).
  unfold trace_decode, zoom. change (memory s.2) with (dc_memory (dm_inner s.2)). rewrite E. eauto.
Qed.

(** What is left of the memory behind a builder bounds the iterations. *)
Lemma dynamic_loop_ends fuel b (s : MD * DM) : ts_ok s -> code_size s + 32 <= 2 ^ 32 ->
  0 <= db_start_address b -> 0 <= db_length b -> db_start_address b + db_length b < 2 ^ 64 ->
  code_size s - (db_start_address b + db_length b) + 2 <= 2 * Z.of_nat fuel -> (0 < fuel)%nat ->
  is_Some (dynamic_loop asm_labels asm_execute_address fuel b s).
Proof.
  revert b s. induction fuel as [|fuel IH]; intros b s Hs Hsize Hb Hl Hn Hf H0; [lia|]. cbn [dynamic_loop].
  unfold dynamic_iteration, mbind, ST_bind, gets, mret, ST_ret.
  pose proof (trace_decode_safe drel (builder_next_pc b) s ltac:(by apply wadd_range) Hs) as H.
  unfold decodes, wp in H. destruct (Z.le_gt_cases (code_size s) (builder_next_pc b)) as [Hout|Hin].
  { destruct (trace_decode_outside (builder_next_pc b) s Hout) as (e & s' & ->). done. }
  destruct (trace_decode (builder_next_pc b) s) as [[i|e|] s1]; [|done..].
  destruct H as ([_ Hi] & Hs1 & Hr1 & _). destruct (is_basic_block_end_instruction i); [done|].
  apply code_size_rel in Hr1. pose proof (instruction_length_bound i).
  assert (Hp : builder_next_pc b = db_start_address b + db_length b)
    by (unfold builder_next_pc, wadd; by rewrite wrap_small by (split; lia)).
  assert (Hlen : wadd 32 (db_length b) (instruction_length i) = db_length b + instruction_length i)
    by (unfold wadd; rewrite wrap_small by (split; lia); done).
  apply IH; cbn [builder_push db_start_address db_length]; rewrite ?Hlen; try done; lia.
Qed.

Lemma find_or_build_ends fuel next (s : MD * DM) : ts_ok s -> in_u 64 next -> code_size s + 32 <= 2 ^ 32 ->
  code_size s + 2 <= 2 * Z.of_nat fuel ->
  is_Some (find_or_build_dynamic_trace asm_labels asm_execute_address box_address fuel next s).
Proof.
  intros Hs [? ?] Hsize Hf. unfold find_or_build_dynamic_trace.
  destruct (md_dynamic_cache s.1 !! next) as [[p d]|]; [done|].
  assert (0 <= code_size s) by (destruct Hs as (_ & Hm & _); exact (proj1 (ao_size _ (dc_ok_memory _ Hm)))).
  destruct (dynamic_loop_ends fuel (builder_start next) s Hs Hsize) as [[[b|e|] s1] ->]; cbn; (done || lia).
Qed.

Lemma md_prepare_ends fuel (s : MD * DM) : ts_ok s -> code_size s + 32 <= 2 ^ 32 ->
  code_size s + 2 <= 2 * Z.of_nat fuel ->
  is_Some (md_prepare_traces asm_labels asm_execute_address box_address fuel s).
Proof.
  intros Hs Hsize Hf. unfold md_prepare_traces. cbv zeta. rewrite on_md_decode_fixed.
  destruct (md_fixed_cache s.1 !! _); [done|]. pose proof (decode_fixed_safe asm_labels asm_execute_address drel s Hs) as H.
  unfold decodes, wp in H. destruct (decode_fixed_trace _ _ None s) as [[[tr count]|e|] s1]; [|done..].
  destruct H as (_ & Hs1 & Hr1 & _). apply code_size_rel in Hr1. unfold extend_trace.
  destruct (ft_thread _ tr) as [[i w]|]; [|done]. destruct (is_basic_block_end_instruction i); [done|].
  destruct (find_or_build_ends fuel (wadd 64 (pc s.2 : reg u64_register) (ft_length tr)) s1 Hs1)
    as [[[p|e|] s2] ->]; (done || lia || by apply wadd_range).
Qed.
End ends.

(** * The theorems *)

(** C22: preparing traces gives the interpreter a trace of the current pc, or an error.
    For each of the three decoders, well-formed as [td_reset] and [inst_new] leave it,
    on a well-formed machine: [prepare_traces] does not panic, it leaves decoder and
    machine well-formed and the pc where it was, and when it succeeds the slot of the
    pc, where the interpreter looks, holds a trace for that pc that is not empty, so that the
    interpreter does not ask again.  The decoder with dynamic
    traces ends after at most half as many iterations as the memory has bytes and one
    more, so that the fuel of the model is no restriction.  The memory has at most
    2^32 - 32 bytes, for the lengths of traces are 32-bit numbers. *)
Theorem prepare_traces_ready (labels : Z -> Z) (base : Z)
  (box : gmap Z (Z * DynamicTrace) -> DynamicTrace -> Z) (Sy De D : Type)
  (HI : InstDecoder AsmMemory D) (HD : InstDecoderOk D) (m : DefaultMachine u64_register AsmMemory Sy De)
  (sf : SimpleFixedTraceDecoder (D := D)) (mf : MemoizedFixedTraceDecoder (D := D))
  (md : MemoizedDynamicTraceDecoder (D := D)) (fuel : nat) :
  dm_ok m -> sf_ok sf -> mf_ok mf -> md_ok md ->
  code_size (md, m) + 32 <= 2 ^ 32 -> code_size (md, m) + 2 <= 2 * Z.of_nat fuel ->
  prepared kept sf_traces (sf, m) (sf_prepare_traces labels base (sf, m)) /\
  prepared kept (fun t => sf_traces (mf_inner t)) (mf, m) (mf_prepare_traces labels base (mf, m)) /\
  exists r, md_prepare_traces labels base box fuel (md, m) = Some r /\
    prepared kept (fun t => sf_traces (md_inner t)) (md, m) r.
Proof.
  intros Hm Hsf Hmf Hmd Hsize Hf. split; [by apply (sf_prepare_ok labels base kept)|].
  split; [by apply (mf_prepare_ok labels base kept)|].
  destruct (md_prepare_ends labels base box kept fuel (md, m)) as [r Hr]; [done..|].
  exists r. split; [done|]. by apply (md_prepare_ok labels base box kept fuel).
Qed.

(** ** Witnesses *)

Lemma asm_demo_memory_ok : asm_ok asm_demo_memory.
Proof.
  constructor; cbn [asm_demo_memory asm_memory_size asm_frames asm_flags asm_memory asm_flags_size
    asm_frames_size asm_load_reservation_address asm_chaos_mode]; try done; try (split; lia).
  - apply Forall_app. split; [|apply Forall_replicate; by split].
    assert (H : forallb (fun b => (0 <=? b) && (b <? 256)) asm_program = true) by (vm_compute; reflexivity).
    apply List.Forall_forall. intros b Hb. eapply forallb_forall in H; [|exact Hb].
    apply andb_prop in H as [?%Z.leb_le ?%Z.ltb_lt]. by split.
  - constructor; [by split|]. apply Forall_replicate. by split.
Qed.

Lemma asm_demo_ok : dm_ok asm_demo.
Proof.
  split; [|intros i; unfold asm_demo; cbn; unfold estimate_cycles; destruct (zassoc _ _) as [c|] eqn:E; [|lia]].
  - constructor; cbn; try done; try (split; lia); try apply asm_demo_memory_ok.
    by repeat constructor.
  - revert c E. apply (opt_all_zassoc (fun c => 0 <= c)). repeat (apply List.Forall_cons; [cbn; lia|]). constructor.
Qed.

Lemma prepare_traces_ready_witness : exists r,
  md_prepare_traces (fun op => op) 0 (fun m _ => Z.of_nat (size m) + 1) (Z.to_nat 131074) asm_md_state = Some r /\
  prepared kept (fun t => sf_traces (md_inner t)) asm_md_state r.
Proof.
  destruct (prepare_traces_ready (fun op => op) 0 (fun m _ => Z.of_nat (size m) + 1) Empty_set Empty_set
    DefaultDecoder default_inst_decoder default_decoder_ok asm_demo
    (sf_new u64_register ISA_IMC VERSION2) (mf_new u64_register ISA_IMC VERSION2)
    (md_new u64_register ISA_IMC VERSION2) (Z.to_nat 131074)) as (_ & _ & H).
  - exact asm_demo_ok.
  - exact (id_new_ok (InstDecoderOk := sf_decoder_ok) ISA_IMC VERSION2).
  - exact (id_new_ok (InstDecoderOk := mf_decoder_ok) ISA_IMC VERSION2).
  - exact (id_new_ok (InstDecoderOk := md_decoder_ok) ISA_IMC VERSION2).
  - unfold code_size; cbn; lia.
  - unfold code_size; cbn; lia.
  - exact H.
Defined.
