(* ===== verification/RunOk.v ===== *)
(** Running is safe and bounded: no program makes the interpreter panic or breaks the
    machine invariant, and a run under a cycle limit ends. *)
From S2P Require Import Prelude Outcome Bits Register RegisterFacts Insts InstsFacts Memory.
From S2P Require Import MemoryFacts MemoryOk Machine Core Execute Decoder Run MachineOk CoreOk.
From S2P Require Import DecoderOk Demo.
From stdpp Require Import base list numbers.
Open Scope Z_scope.

Section run_ok.
Context {R : Register} {HR : RegisterOk R} {M : Type} {HM : Memory R M} {HMO : MemoryOk R M}.
Context {Sy De : Type} {HSy : Syscalls (DefaultCoreMachine R M) Sy}.
Context {HDe : Debugger (DefaultCoreMachine R M) De}.
Local Abbreviation DM := (DefaultMachine R M Sy De).
Local Abbreviation RS := (DefaultDecoder * DM)%type.

Definition rs_ok (s : RS) : Prop := decoder_ok s.1 /\ dm_ok s.2.

Section rel.
Context (drel : DefaultCoreMachine R M -> DefaultCoreMachine R M -> Prop).
Context {HD : CoreRel drel} {HE : EmbedderOk R M Sy De drel}.

Definition rs_rel (s s' : RS) : Prop := dm_rel drel s.2 s'.2.

#[export] Instance rs_rel_preorder : PreOrder rs_rel.
Proof. split; unfold rs_rel; [done|]. intros ???. by etrans. Qed.

Local Abbreviation safe m Q := (stable rs_ok rs_rel m Q).

Lemma on_machine_safe {A} (c : ST DM A) Q : stable dm_ok (dm_rel drel) c Q -> safe (on_machine c) Q.
Proof. apply stable_zoom; [by intros s []|]. by intros s t [] ??. Qed.

Lemma on_decoder_safe {A} (c : ST (DefaultDecoder * M) A) Q :
  stable ds_ok ds_kept c Q -> safe (on_decoder c) Q.
Proof.
  apply stable_zoom.
  - intros s [Hd [Hm _]]. split; [done|]. apply Hm.
  - intros s t [Hd [Hm Hf]] [Hd' Hm'] (Hs & _).
    destruct (with_memory_ok t.2 (dm_inner s.2)) as [Hok Hfr]; [done..|].
    split; [by split|]. split; [|done]. by apply core_rel_frame.
Qed.

Lemma handle_reset_safe : safe handle_reset (fun _ => True).
Proof.
  unfold handle_reset. eapply stable_bind; [done| |].
  - apply on_machine_safe, on_inner_frame; [done|]. apply reset_signal_safe.
  - intros [] _; [|by apply stable_ret]. apply stable_modify.
    intros s [Hd Hm]. split; [|done]. split; [by apply reset_cache_ok|done].
Qed.

Lemma execute_dm_safe i : inst_ok i -> safe (on_machine (execute i)) (fun _ => True).
Proof.
  intros Hi. apply on_machine_safe.
  by apply (execute_safe (HMacO := default_machine_ok drel)).
Qed.

Lemma interrupted_ok b s : rs_ok s -> rs_ok (interrupted b s) /\ rs_rel s (interrupted b s).
Proof. by destruct b; intros [? []]. Qed.
End rel.

(** * Safety *)

Section safety.
Context (drel : DefaultCoreMachine R M -> DefaultCoreMachine R M -> Prop).
Context {HD : CoreRel drel} {HE : EmbedderOk R M Sy De drel}.
Hypothesis Hspends : forall m m', spends m m' -> drel m m'.

Lemma on_cycles_safe c : 0 <= c ->
  stable rs_ok (rs_rel drel) (on_machine (on_inner (add_cycles c))) (fun _ => True).
Proof.
  intros Hc. apply (on_machine_safe drel), (on_inner_safe drel).
  eapply stable_rel, add_cycles_safe; done.
Qed.

Lemma step_safe : stable rs_ok (rs_rel drel) step (fun _ => True).
Proof.
  unfold step. eapply stable_bind; [done| |].
  { apply stable_gets with (Q := in_u 64); [done|].
    intros s [_ [Hm _] ]. apply to_u64_range, (dc_ok_pc _ Hm). }
  intros pc0 Hpc. eapply stable_bind; [done|by apply (on_decoder_safe drel), decode_safe|].
  intros i [Hi _]. apply stable_bind with (P := fun c => 0 <= c); [done| |].
  { apply stable_gets; [done|]. intros s [_ [_ Hf]]. apply Hf. }
  intros c Hc. eapply stable_bind; [done|by apply on_cycles_safe|].
  intros _ _. by apply (execute_dm_safe drel).
Qed.

Lemma iteration_safe : stable rs_ok (rs_rel drel) (handle_reset;; step) (fun _ => True).
Proof.
  eapply stable_bind; [done|by apply handle_reset_safe|]. intros _ _. apply step_safe.
Qed.

Lemma run_loop_safe fuel interrupts s o s' :
  rs_ok s -> run_loop fuel interrupts s = Some (o, s') ->
  o <> Panic /\ rs_ok s' /\ rs_rel drel s s'.
Proof.
  revert interrupts s. induction fuel as [|fuel IH]; intros interrupts s Hs; cbn [run_loop].
  - case_match; [done|]. intros [= <- <-]. split_and!; [done..|reflexivity].
  - case_match; [|intros [= <- <-]; split_and!; [done..|reflexivity]]. cbv zeta.
    destruct (interrupted_ok drel (interrupts 0%nat) s Hs) as [H1 Hr1].
    set (s1 := interrupted _ s) in *. case_match.
    { intros [= <- <-]. split_and!; [done| |done]. destruct H1 as [? []]. done. }
    pose proof (iteration_safe s1 H1) as Hsafe. unfold wp in Hsafe.
    destruct ((handle_reset;; step) s1) as [[?|e|] s2]; [..|done].
    + destruct Hsafe as (_ & H2 & Hr2). intros Hrun.
      destruct (IH _ _ H2 Hrun) as (? & ? & ?). split_and!; [done..|].
      etrans; [done|]. by etrans.
    + destruct Hsafe as (H2 & Hr2). intros [= <- <-]. split_and!; [done..|]. by etrans.
Qed.
End safety.

(** * Termination *)

Section termination.
Context {HE : EmbedderOk R M Sy De spends}.

(** The cycles the machine may still use. *)
Definition rs_budget (s : RS) : Z := budget (dm_inner s.2).

(** Every instruction costs something. *)
Definition costs (s : RS) : Prop := forall i, 1 <= dm_instruction_cycle_func s.2 i.

Lemma rs_rel_budget s s' : rs_rel spends s s' -> rs_budget s' <= rs_budget s /\ (costs s -> costs s').
Proof. intros [[_ Hb] Hf]. split; [done|]. unfold costs. by rewrite Hf. Qed.

(** A completed step used at least one cycle, which was there to use. *)
Lemma step_spends s s' : rs_ok s -> costs s -> step s = (Ok tt, s') ->
  1 <= rs_budget s /\ rs_budget s' < rs_budget s.
Proof.
  intros Hs Hc. unfold step.
  intros (pc0 & s0 & [= <- <-] & H)%bind_inv_Ok.
  assert (Hpc : in_u 64 (to_u64 (dc_pc (dm_inner s.2)))).
  { destruct Hs as [_ [Hm _]]. apply to_u64_range, (dc_ok_pc _ Hm). }
  apply bind_inv_Ok in H as (i & s1 & Hd & H).
  eapply (stable_Ok _ (rs_rel spends)) in Hd as (Hi & Hs1 & Hr1);
    [|by apply (on_decoder_safe spends), decode_safe|done]. destruct Hi as [Hi _].
  apply rs_rel_budget in Hr1 as [Hb1 Hc1]. specialize (Hc1 Hc).
  apply bind_inv_Ok in H as (c & s2 & [= <- <-] & H). specialize (Hc1 i).
  apply bind_inv_Ok in H as ([] & s2 & Ha & H).
  destruct (stable_Ok _ _ _ _ _ _ _ (on_cycles_safe spends ltac:(done)
    (dm_instruction_cycle_func s1.2 i) ltac:(lia)) Hs1 Ha)
    as (_ & Hs2 & _).
  eapply (stable_Ok _ (rs_rel spends)) in H as (_ & _ & Hr2);
    [|by apply (execute_dm_safe spends)|done].
  apply rs_rel_budget in Hr2 as [Hb2 _].
  revert Ha. unfold on_machine, on_inner, zoom, add_cycles, checked_add_u64.
  set (c := dm_instruction_cycle_func s1.2 i) in *. clearbody c.
  destruct (_ <=? _); [|done]. destruct (Z.ltb_spec (dc_max_cycles (dm_inner s1.2))
    (dc_cycles (dm_inner s1.2) + c)); [done|]. intros [= <-].
  unfold rs_budget, budget in *. cbn in Hb2. lia.
Qed.

Lemma run_loop_terminates fuel interrupts s :
  rs_ok s -> costs s -> (Z.to_nat (rs_budget s) < fuel)%nat ->
  is_Some (run_loop fuel interrupts s).
Proof.
  revert interrupts s. induction fuel as [|fuel IH]; intros interrupts s Hs Hc Hf; [lia|].
  cbn [run_loop]. case_match; [|done]. cbv zeta.
  destruct (interrupted_ok spends (interrupts 0%nat) s Hs) as [H1 Hr1].
  set (s1 := interrupted _ s) in *. apply rs_rel_budget in Hr1 as [Hb1 Hc1].
  case_match; [done|].
  destruct ((handle_reset;; step) s1) as [[[]|e|] s3] eqn:Hstep; [|done..].
  destruct (stable_Ok _ _ _ _ _ _ _ (iteration_safe spends ltac:(done)) H1 Hstep)
    as (_ & H3 & Hr3).
  apply bind_inv_Ok in Hstep as ([] & s2 & Hreset & Hstep).
  destruct (stable_Ok _ _ _ _ _ _ _ (handle_reset_safe spends) H1 Hreset) as (_ & H2 & Hr2).
  apply rs_rel_budget in Hr2 as [Hb2 Hc2], Hr3 as [Hb3 Hc3].
  destruct (step_spends s2 s3 H2 ltac:(auto) Hstep). apply IH; [done|auto|lia].
Qed.
End termination.
End run_ok.

(** * The theorems *)

Definition start (R : Register) {M Sy De : Type} (m : DefaultMachine R M Sy De)
  : DefaultDecoder * DefaultMachine R M Sy De :=
  (decoder_new R (dc_isa (dm_inner m)) (dc_version (dm_inner m)), m).

Lemma started_ok (R : Register) (HR : RegisterOk R) (M : Type) (HM : Memory R M)
  (HMO : MemoryOk R M) (Sy De : Type) (m : DefaultMachine R M Sy De) :
  dm_ok m ->
  rs_ok ((start R m).1, dm_set_inner (with_running true (dc_reset_signal (dm_inner m))
                                                   (dm_inner m)) m).
Proof.
  intros [Hm Hf]. split; [apply decoder_new_ok|]. split; [by apply with_running_ok|done].
Qed.

(** A run that ends does not panic and keeps the contract. *)
Lemma run_safe (R : Register) (HR : RegisterOk R) (M : Type) (HM : Memory R M)
  (HMO : MemoryOk R M) (Sy De : Type) (HSy : Syscalls (DefaultCoreMachine R M) Sy)
  (HDe : Debugger (DefaultCoreMachine R M) De) (HE : EmbedderOk R M Sy De kept)
  (fuel : nat) (interrupts : nat -> bool) (m : DefaultMachine R M Sy De) o d m' :
  dm_ok m -> run fuel interrupts m = Some (o, (d, m')) ->
  o <> Panic /\ dm_ok m' /\ kept m m'.
Proof.
  intros Hm. unfold run, run_with_decoder.
  destruct (_ && _); [intros [= <- <- <-]; by split_and!|]. intros Hrun.
  pose proof (started_ok R HR M HM HMO Sy De m Hm) as Hs. unfold start in Hs.
  eapply (run_loop_safe kept) in Hrun as (? & [_ Hm'] & [Hk _]); [|by intros ?? []|done].
  by split_and!.
Qed.

(** C2: no program can make the interpreter panic.  Whatever the memory holds, for every
    register width, every memory with the memory contract and every isa and version,
    a run from a well-formed machine that ends (exit, error or pause) ends in a
    well-formed machine: 32 valid registers with x0 = 0, a valid pc, a valid memory of
    the same size, the same version and isa; and the result is not a panic. *)
Theorem run_never_panics (R : Register) (HR : RegisterOk R) (M : Type) (HM : Memory R M)
  (HMO : MemoryOk R M) (Sy De : Type) (HSy : Syscalls (DefaultCoreMachine R M) Sy)
  (HDe : Debugger (DefaultCoreMachine R M) De) (HE : EmbedderOk R M Sy De kept)
  (fuel : nat) (interrupts : nat -> bool) (m : DefaultMachine R M Sy De) o d m' :
  dm_ok m -> run fuel interrupts m = Some (o, (d, m')) ->
  o <> Panic /\ dm_ok m' /\ kept m m' /\ registers m' !! 0%nat = Some r_zero.
Proof.
  intros Hm Hrun. destruct (run_safe _ _ _ _ _ _ _ _ _ HE _ _ _ _ _ _ Hm Hrun) as (? & Hm' & ?).
  split_and!; [done..|]. apply Hm'.
Qed.

(** C4: a run under a cycle limit ends.  When every instruction costs at least one
    cycle and the embedder's code does not give cycles back, the loop returns after at
    most as many iterations as there are cycles left, whatever the program and
    whenever other threads interrupt it. *)
Theorem run_terminates (R : Register) (HR : RegisterOk R) (M : Type) (HM : Memory R M)
  (HMO : MemoryOk R M) (Sy De : Type) (HSy : Syscalls (DefaultCoreMachine R M) Sy)
  (HDe : Debugger (DefaultCoreMachine R M) De) (HE : EmbedderOk R M Sy De spends)
  (fuel : nat) (interrupts : nat -> bool) (m : DefaultMachine R M Sy De) :
  dm_ok m -> (forall i, 1 <= dm_instruction_cycle_func m i) ->
  (Z.to_nat (dc_max_cycles (dm_inner m) - dc_cycles (dm_inner m)) < fuel)%nat ->
  exists o s, run fuel interrupts m = Some (o, s).
Proof.
  intros Hm Hc Hf. unfold run, run_with_decoder. destruct (_ && _); [eauto|].
  pose proof (started_ok R HR M HM HMO Sy De m Hm) as Hs. unfold start in Hs.
  destruct (run_loop_terminates fuel interrupts _ Hs) as [[o s] E]; [done|done|]. eauto.
Qed.

(** * Witnesses *)

#[local] Instance none_ok drel :
  EmbedderOk u64_register (FlatMemory u64_register) Empty_set Empty_set drel.
Proof. split; by intros [[] _]. Qed.


Lemma estimate_cycles_pos i : 1 <= estimate_cycles i.
Proof.
  unfold estimate_cycles. destruct (zassoc _ _) as [c|] eqn:Hc; [|lia]. revert c Hc.
  apply (opt_all_zassoc (fun c => 1 <= c)). repeat (apply List.Forall_cons; [cbn; lia|]).
  constructor.
Qed.

Lemma machine0_ok : dm_ok machine0.
Proof.
  split; [|intros i; pose proof (estimate_cycles_pos i); cbn; lia].
  destruct (flat_new_ok u64_register u64_ok 4096 (flat_of 4096)) as [];
    [by split|done|].
  constructor; try (by split); try done.
  - by repeat constructor.
  - constructor; try done.
    + apply (Forall_app is_byte program); split; [by repeat constructor|].
      apply Forall_replicate. by split.
    + by repeat constructor.
Qed.

Lemma run_never_panics_witness :
  exists o d m', run 10 (fun _ => false) machine0 = Some (o, (d, m')) /\ o <> Panic /\ dm_ok m'.
Proof.
  destruct (run 10 (fun _ => false) machine0) as [[o [d m']]|] eqn:E.
  - exists o, d, m'. split; [reflexivity|].
    destruct (run_never_panics _ _ _ _ _ _ _ _ _ (none_ok kept) 10 (fun _ => false) machine0
      o d m' machine0_ok E) as (H1 & H2 & _). exact (conj H1 H2).
  - exfalso. pose proof demo_run as H. rewrite E in H. exact H.
Defined.

Lemma run_terminates_witness :
  exists o s, run 1001 (fun _ => false) machine0 = Some (o, s).
Proof.
  apply (run_terminates _ _ _ _ _ _ _ _ _ (none_ok spends) 1001 (fun _ => false) machine0
    machine0_ok estimate_cycles_pos). apply Nat.ltb_lt. vm_compute. reflexivity.
Defined.
