(* ===== verification/AsmRunOk.v ===== *)
(** The driver of the assembly interpreter is safe: whatever the assembly code returns, as
    long as it leaves a well-formed machine, the run does not panic. *)
From S2P Require Import Prelude Outcome Bits Register RegisterFacts Insts Memory MemoryOk Machine Core.
From S2P Require Import Execute Decoder DecoderOk Run Demo Asm AsmFacts AsmRefine AsmOk MachineOk CoreOk.
From S2P Require Import Traces TracesFacts TracesOk TracesEnd.
From stdpp Require Import base list numbers gmap.
Open Scope Z_scope.

Section driver.
Context {Sy De : Type} {HSy : Syscalls AsmCoreMachine Sy} {HDe : Debugger AsmCoreMachine De}.
Context (drel : AsmCoreMachine -> AsmCoreMachine -> Prop) {HR : CoreRel drel}.
Context {HE : EmbedderOk u64_register AsmMemory Sy De drel}.
Local Abbreviation DM := (DefaultMachine u64_register AsmMemory Sy De).
Context (ckb_vm_asm_execute : InvokeData -> AsmCoreMachine -> Z * AsmCoreMachine).

(** The assembly code leaves a well-formed machine. *)
Definition interpreter_ok : Prop := forall data c, dc_ok c ->
  dc_ok (ckb_vm_asm_execute data c).2 /\ drel c (ckb_vm_asm_execute data c).2.
Hypothesis Hexec : interpreter_ok.

Context {T : Type} {HT : TraceDecoder (Sy := Sy) (De := De) T} {HTO : TraceDecoderOk drel T (HT := HT)}.
Local Abbreviation safe c Q := (stable (ts_ok (T := T) (Sy := Sy) (De := De)) (ts_rel drel) c Q).

Lemma on_asm_safe {A} (c : ST DM A) Q : stable dm_ok (dm_rel drel) c Q -> safe (on_asm c) Q.
Proof. apply stable_zoom; [by intros s []|]. by intros s t [] ??. Qed.

Lemma asm_invoke_safe data : safe (asm_invoke ckb_vm_asm_execute data) (fun _ => True).
Proof.
  intros s [Hd [Hm Hf]]. unfold wp, asm_invoke. pose proof (Hexec data (dm_inner s.2) Hm) as H.
  destruct (ckb_vm_asm_execute data (dm_inner s.2)) as [r c]. cbn [snd] in H. destruct H. done.
Qed.

Lemma asm_handle_reset_safe : safe asm_handle_reset (fun _ => True).
Proof.
  unfold asm_handle_reset. eapply stable_bind; [done| |].
  - apply on_asm_safe, on_inner_frame, reset_signal_safe. done.
  - intros [] _; [|by apply stable_ret]. apply stable_modify.
    intros s [Hd Hm]. split; [|done]. split; [by apply td_reset_ok|done].
Qed.

Lemma asm_invoke_traces_safe : safe (asm_invoke_traces ckb_vm_asm_execute) (fun _ => True).
Proof.
  unfold asm_invoke_traces. eapply stable_bind with (P := fun _ => True); [done|by apply stable_gets|].
  intros data _. apply asm_invoke_safe.
Qed.

Lemma slow_path_safe : safe slow_path (fun _ => True).
Proof.
  unfold slow_path. apply stable_bind with (P := in_u 64); [done| |].
  { apply stable_gets; [done|]. intros s _. apply wrap_range. lia. }
  intros pc0 Hpc. apply stable_bind with (P := sized); [done| |].
  - intros s Hs. pose proof (trace_decode_safe drel pc0 s Hpc Hs) as H. unfold decodes, wp in *.
    destruct (trace_decode pc0 s) as [[i|e|] s1]; [..|done]; by destruct_and?.
  - intros i [Hi _]. apply on_asm_safe.
    by apply (execute_instruction_safe (HMacO := default_machine_ok drel)).
Qed.

Lemma handle_result_safe result : safe (handle_result result) (fun _ => True).
Proof.
  unfold handle_result.
  repeat (apply stable_if; intros _);
    try (by apply stable_fail); try (by apply stable_ret);
    try (eapply stable_bind with (P := fun _ => True); [done|by apply stable_gets|intros ? _; by apply stable_fail]).
  - apply on_asm_safe, (machine_ecall_safe drel).
  - apply on_asm_safe, (machine_ebreak_safe drel).
  - apply slow_path_safe.
  - eapply stable_bind; [done|apply on_asm_safe; by apply stable_modify|]. intros _ _. by apply stable_fail.
Qed.

(** What a step of the loop leaves. *)
Definition survives {A} (s : T * DM) (r : outcome A * (T * DM)) : Prop :=
  r.1 <> Panic /\ ts_ok r.2 /\ ts_rel drel s r.2.

Lemma stable_survives {A} (c : ST (T * DM) A) Q s : safe c Q -> ts_ok s -> survives s (c s).
Proof.
  intros Hc Hs. specialize (Hc s Hs). unfold wp, survives in *.
  destruct (c s) as [[a|e|] s']; [..|done]; by destruct_and?.
Qed.

Lemma survives_trans {A} s s1 (r : outcome A * (T * DM)) : ts_rel drel s s1 -> survives s1 r -> survives s r.
Proof. intros Hr (? & ? & ?). split_and!; [done|done|by etrans]. Qed.

Lemma asm_iteration_safe fuel s r : ts_ok s ->
  asm_iteration ckb_vm_asm_execute fuel s = Some r -> survives s r.
Proof.
  intros Hs. unfold asm_iteration.
  assert (H : survives s ((asm_handle_reset;; asm_invoke_traces ckb_vm_asm_execute) s)).
  { eapply stable_survives; [|done]. eapply stable_bind; [done|apply asm_handle_reset_safe|].
    intros _ _. apply asm_invoke_traces_safe. }
  destruct ((asm_handle_reset;; _) s) as [[result|e|] s1]; [|intros [= <-]; destruct H as (_ & ? & ?); by split_and!|by destruct H].
  destruct H as (_ & Hs1 & Hr1). case_bool.
  - intros Hprep. apply (survives_trans s s1); [done|].
    pose proof (td_prepare_ok drel fuel s1 r Hs1 Hprep) as H. unfold prepared in H.
    destruct r as [[a|err|] s2]; [..|done]; destruct_and?; by split_and!.
  - intros [= <-]. apply (survives_trans s s1); [done|]. eapply stable_survives; [apply handle_result_safe|done].
Qed.

Lemma asm_interrupted_ok b (s : T * DM) : ts_ok s -> ts_ok (asm_interrupted b s) /\ ts_rel drel s (asm_interrupted b s).
Proof. by destruct b; intros [? []]. Qed.

Lemma asm_run_loop_safe fuel trace_fuel interrupts s r : ts_ok s ->
  asm_run_loop ckb_vm_asm_execute fuel trace_fuel interrupts s = Some r -> survives s r.
Proof.
  revert interrupts s. induction fuel as [|fuel IH]; intros interrupts s Hs; cbn [asm_run_loop].
  - case_match; [done|]. intros [= <-]. by split_and!.
  - case_match; [|intros [= <-]; by split_and!].
    destruct (asm_interrupted_ok (interrupts O) s Hs) as [H1 Hr1].
    destruct (asm_iteration _ _ _) as [[o s2]|] eqn:E; [|done].
    pose proof (asm_iteration_safe _ _ _ H1 E) as H2.
    apply (survives_trans s) in H2; [|exact Hr1]. destruct o as [[]|e|];
      [|intros [= <-]; destruct H2 as (_ & ? & ?); by split_and!|by destruct H2].
    destruct H2 as (_ & Hs2 & Hr2). intros Hrun. apply (survives_trans s s2); [done|]. by eapply IH.
Qed.
End driver.

(** * The theorem *)

(** C21: the driver of the assembly interpreter is panic free.  For every interpreter,
    syscall modules and debugger that leave a well-formed machine well-formed, and each
    of the trace decoders, a run that ends does so with an exit code or an error value:
    no state the loop reaches makes it panic, whatever the interpreter returns, and
    whenever other threads interrupt it.  The machine is left well-formed, with the same
    isa, version and memory size. *)
Theorem asm_run_never_panics (Sy De : Type) (HSy : Syscalls AsmCoreMachine Sy)
  (HDe : Debugger AsmCoreMachine De) (HE : EmbedderOk u64_register AsmMemory Sy De kept)
  (asm_execute : InvokeData -> AsmCoreMachine -> Z * AsmCoreMachine)
  (T : Type) (HT : TraceDecoder (Sy := Sy) (De := De) T) (HTO : TraceDecoderOk kept T (HT := HT))
  (fuel trace_fuel : nat) (interrupts : nat -> bool) (t : T)
  (m : DefaultMachine u64_register AsmMemory Sy De) o t' m' :
  interpreter_ok kept asm_execute -> id_ok t -> dm_ok m ->
  asm_run_with_decoder (TraceDecoder0 := HT) asm_execute fuel trace_fuel interrupts (t, m) = Some (o, (t', m')) ->
  o <> Panic /\ id_ok t' /\ dm_ok m' /\ kept (dm_inner m) (dm_inner m').
Proof.
  intros Hx Ht Hm. unfold asm_run_with_decoder. destruct (_ && _); [by intros [= <- <- <-]|]. cbv zeta.
  pose proof (with_running_ok true (dc_reset_signal (dm_inner m)) _ (proj1 Hm)) as [Hr Hk].
  intros Hrun. eapply (asm_run_loop_safe kept asm_execute Hx) in Hrun as (Ho & [? ?] & [? _]); [|split; [done|]].
  - by split_and!.
  - split; [done|apply Hm].
Qed.

(** ** Witness: an interpreter that asks for a trace, and then runs out of cycles *)

#[local] Instance no_embedder_ok drel : EmbedderOk u64_register AsmMemory Empty_set Empty_set drel.
Proof. split; by intros [[] _]. Qed.

Definition asking (data : InvokeData) (c : AsmCoreMachine) : Z * AsmCoreMachine :=
  match iv_fixed_traces data !! 0%nat with
  | Some t => (if ft_length t =? 0 then RET_DECODE_TRACE else RET_MAX_CYCLES_EXCEEDED, c)
  | None => (RET_DECODE_TRACE, c)
  end.

Lemma asking_ok : interpreter_ok kept asking.
Proof. intros data c Hc. unfold asking. by case_match. Qed.

Definition asking_run := asm_run_with_decoder
  (TraceDecoder0 := md_trace_decoder (fun op => op) 0 (fun m _ => Z.of_nat (size m) + 1)) asking 10 100
  (fun _ => false) asm_md_state.

Lemma asking_run_ends : exists t m, asking_run = Some (Err CyclesExceeded, (t, m)).
Proof.
  assert (H : match asking_run with Some (Err CyclesExceeded, _) => true | _ => false end = true)
    by (vm_compute; reflexivity).
  destruct asking_run as [[[z|e|] [t m]]|]; try done. destruct e; try done. by exists t, m.
Qed.

Lemma asm_run_never_panics_witness : exists t m, asking_run = Some (Err CyclesExceeded, (t, m)) /\ dm_ok m.
Proof.
  destruct asking_run_ends as (t & m & E). exists t, m. split; [exact E|].
  destruct (asm_run_never_panics Empty_set Empty_set none_syscalls none_debugger (no_embedder_ok kept) asking
    MemoizedDynamicTraceDecoder
    (md_trace_decoder (fun op => op) 0 (fun m _ => Z.of_nat (size m) + 1))
    (md_trace_decoder_ok (fun op => op) 0 (fun m _ => Z.of_nat (size m) + 1) kept) 10 100 (fun _ => false)
    asm_md_state.1 asm_demo (Err CyclesExceeded) t m) as (_ & _ & H & _).
  - exact asking_ok.
  - exact (id_new_ok (InstDecoderOk := md_decoder_ok) ISA_IMC VERSION2).
  - exact asm_demo_ok.
  - exact E.
  - exact H.
Defined.
