(* ===== verification/CodeKept.v ===== *)
(** Under the W^X layer code does not change: no store reaches an executable page, so the
    bytes and permissions of these pages are those of the start, whatever the guest does
    and however it ends. *)
From S2P Require Import Prelude Outcome Bits Register RegisterFacts Insts Memory MemoryFacts.
From S2P Require Import MemoryOk WXorXFacts SparseFacts Machine Core Fetch FetchMem Pages MachineOk CoreOk Run RunOk Demo.
From stdpp Require Import base list numbers.
Open Scope Z_scope.

Section code.
Context {R : Register} {HR : RegisterOk R}.
Local Abbreviation FM := (FlatMemory R).
Local Abbreviation WM := (WXorXMemory FM).
Implicit Types m : FM.

(** * Code pages *)

(** The permission of a page, [None] outside the memory. *)
Definition permission (q : Z) m : option Z := (fun v => Z.land v FLAG_WXORX_BIT) <$> flag_of q m.
Definition executable (q : Z) m : Prop := permission q m = Some (Z.land FLAG_EXECUTABLE FLAG_WXORX_BIT).

(** The same permissions, and the same bytes on executable pages. *)
Record code_same (m0 m : FM) : Prop := {
  cs_size : flat_memory_size m = flat_memory_size m0;
  cs_permission q : 0 <= q < pages m0 -> permission q m = permission q m0;
  cs_page q : 0 <= q < pages m0 -> executable q m0 -> page_of q m = page_of q m0;
}.

Definition code_kept (m0 m : FM) : Prop := flat_ok m /\ flat_ok m0 /\ code_same m0 m.

Lemma pages_size m m' : flat_ok m -> flat_ok m' -> flat_memory_size m = flat_memory_size m' -> pages m = pages m'.
Proof. intros H1 H2 E. pose proof (fo_pages _ H1). pose proof (fo_pages _ H2). unfold pages. lia. Qed.

#[export] Instance code_kept_symmetric : Symmetric code_kept.
Proof.
  intros m1 m2 (H2 & H1 & Hs). split_and!; [done..|].
  pose proof (pages_size m1 m2 H1 H2 ltac:(by rewrite (cs_size _ _ Hs))) as Hp.
  constructor; [by rewrite (cs_size _ _ Hs)|..]; rewrite <- Hp; intros q Hq.
  - by rewrite (cs_permission _ _ Hs).
  - intros Hx. rewrite (cs_page _ _ Hs); [done..|]. unfold executable in *. by rewrite <- (cs_permission _ _ Hs).
Qed.

#[export] Instance code_kept_transitive : Transitive code_kept.
Proof.
  intros m1 m2 m3 (H2 & H1 & Ha) (H3 & _ & Hb). split_and!; [done..|].
  pose proof (pages_size m1 m2 H1 H2 ltac:(by rewrite (cs_size _ _ Ha))) as Hp.
  constructor; [by rewrite (cs_size _ _ Hb), (cs_size _ _ Ha)|..]; intros q Hq.
  - rewrite (cs_permission _ _ Hb) by lia. by apply (cs_permission _ _ Ha).
  - intros Hx. rewrite (cs_page _ _ Hb); [by apply (cs_page _ _ Ha)|lia|].
    unfold executable in *. by rewrite (cs_permission _ _ Ha).
Qed.

Lemma code_kept_refl m : flat_ok m -> code_kept m m.
Proof. by intros. Qed.

(** * Stores *)

(** The pages from [p] on are writable. *)
Lemma no_mismatch flags flag p (n : nat) k : first_mismatch flags flag p n = None ->
  p + Z.of_nat n <= Z.of_nat (length flags) -> 0 <= p -> p <= k < p + Z.of_nat n ->
  exists v, flags !! Z.to_nat k = Some v /\ Z.land v FLAG_WXORX_BIT = Z.land flag FLAG_WXORX_BIT.
Proof.
  revert p. induction n as [|n IH]; intros p Hf Hn Hp Hk; [lia|]. cbn [first_mismatch] in Hf.
  destruct (lookup_lt_is_Some_2 flags (Z.to_nat p)) as [v Hv]; [lia|]. rewrite Hv in Hf.
  destruct (Z.eqb_spec (Z.land v FLAG_WXORX_BIT) (Z.land flag FLAG_WXORX_BIT)); [|done].
  destruct (Z.eq_dec k p) as [->|]; [by exists v|]. apply (IH (p + 1)); [done|lia..].
Qed.

Lemma put_permission a bs m q : permission q (flat_put a bs m) = permission q m.
Proof.
  unfold permission, flag_of, flat_put. cbn [flat_flags]. rewrite mark_flags_lookup.
  assert (E : forall v, Z.land (Z.lor v FLAG_DIRTY) FLAG_WXORX_BIT = Z.land v FLAG_WXORX_BIT)
    by (intros v; rewrite Z.land_lor_distr_l; apply Z.lor_0_r).
  destruct (flat_flags m !! Z.to_nat q) as [v|]; [|done]. unfold fmap, option_fmap, option_map.
  destruct (_ && _); [by rewrite E|done].
Qed.

(** A write to writable pages keeps the code. *)
Lemma put_code_kept m0 a bs m : code_kept m0 m -> in_u 64 a -> 0 < Z.of_nat (length bs) -> Forall is_byte bs ->
  in_bounds a (Z.of_nat (length bs)) (flat_memory_size m) ->
  first_mismatch (flat_flags m) FLAG_WRITABLE (a / 4096) (pages_touched a (Z.of_nat (length bs))) = None ->
  code_kept m0 (flat_put a bs m).
Proof.
  intros (Hm & H0 & Hs) Ha Hn Hbs Hb Hw. split_and!; [by apply flat_put_ok|done|].
  pose proof (pages_size m m0 Hm H0 (cs_size _ _ Hs)) as Hp. pose proof (fo_pages _ Hm). pose proof (fo_flags _ Hm).
  destruct Ha, Hb. unfold pages in *.
  constructor; [by rewrite <- (cs_size _ _ Hs)|..]; intros q Hq; [rewrite put_permission; by apply Hs|].
  intros Hx. rewrite <- (cs_page _ _ Hs q Hq Hx). unfold page_of, pages in *. apply flat_get_put_ne; try lia; [done|].
  destruct (Z.le_gt_cases (q * 4096 + 4096) a); [by left|right].
  destruct (Z.le_gt_cases (a + Z.of_nat (length bs)) (q * 4096)); [done|exfalso].
  unfold pages_touched in Hw.
  assert (a / 4096 <= q <= (a + Z.of_nat (length bs) - 1) / 4096) by dlia.
  assert (0 <= a / 4096) by (apply Z.div_pos; lia).
  assert ((a + Z.of_nat (length bs) - 1) / 4096 < flat_riscv_pages m) by dlia.
  destruct (no_mismatch _ _ _ _ q Hw ltac:(lia) ltac:(lia) ltac:(lia)) as (v & Hv & Ev).
  unfold executable in Hx. rewrite <- (cs_permission _ _ Hs q Hq) in Hx.
  unfold permission, flag_of in Hx. rewrite Hv in Hx. cbn in Hx. rewrite Ev in Hx. done.
Qed.

(** * The contract of a memory that keeps its code *)

Definition code_ok (m0 : FM) (w : WM) : Prop := code_kept m0 (wx_inner w).
Local Abbreviation kept_size := (@same_size R WM _).

Lemma code_ok_wx m0 w : code_ok m0 w -> wx_ok w.
Proof. intros [H _]. exact H. Qed.

Lemma reads_code_stable {A} m0 (c : ST WM A) Q :
  reads c -> stable wx_ok kept_size c Q -> stable (code_ok m0) kept_size c Q.
Proof.
  intros Hr Hc w Hw. specialize (Hc w (code_ok_wx m0 w Hw)). specialize (Hr w). unfold wp in *.
  destruct (c w) as [[a|e|] w']; cbn [snd] in Hr; subst w'; by destruct_and?.
Qed.

Lemma wx_lift_reads {A} (c : ST FM A) : reads c -> reads (wx_lift c).
Proof. apply reads_zoom. by intros []. Qed.

Lemma wx_check_reads a n flag : reads (S := WM) (wx_check a n flag).
Proof.
  apply reads_bind.
  - intros w. unfold check_no_overflow. destruct (woverflowing_add _ _ _). by repeat case_match.
  - intros _. unfold check_permission, for_pages. destruct (get_page_indices a n) as [p q]. cbn [fst snd].
    generalize (Z.to_nat (q - p + 1)) as k. intros k. revert p. induction k as [|k IH]; intros p; [done|].
    cbn [for_range]. apply reads_bind; [|intros _; apply IH].
    apply reads_bind; [apply wx_lift_reads, flat_fetch_flag_reads|intros v].
    apply reads_if; [apply reads_fail|apply reads_ret].
Qed.

(** A store through the layer: [inner] writes [bs]. *)
Lemma wx_store_code_stable m0 a bs (inner : ST FM unit) :
  in_u 64 a -> in_u 64 (Z.of_nat (length bs)) -> 0 < Z.of_nat (length bs) -> Forall is_byte bs ->
  (forall m, flat_ok m -> in_bounds a (Z.of_nat (length bs)) (flat_memory_size m) ->
     inner m = (Ok tt, flat_put a bs m)) ->
  stable (code_ok m0) kept_size (wx_check a (Z.of_nat (length bs)) FLAG_WRITABLE;; wx_lift inner) (fun _ => True).
Proof.
  intros Ha Hn Hpos Hbs Hin w Hw. pose proof (code_ok_wx _ _ Hw) as Hwx.
  pose proof (guarded_intro FLAG_WRITABLE a (Z.of_nat (length bs)) inner w Hwx Ha Hn Hpos) as Hg.
  unfold guarded in Hg. unfold wp. case_decide as Hb; [|destruct Hg as [b ->]; done].
  destruct (refused_page _ _ _ _) eqn:Hp; rewrite Hg; [done|]. rewrite (Hin (wx_inner w)) by done.
  split; [done|]. split; [|done]. apply put_code_kept; done.
Qed.

Lemma wx_stores_code_stable m0 (a v : reg R) : reg_ok a -> reg_ok v ->
  stable (code_ok m0) kept_size (wx_store8 a v) (fun _ => True) /\
  stable (code_ok m0) kept_size (wx_store16 a v) (fun _ => True) /\
  stable (code_ok m0) kept_size (wx_store32 a v) (fun _ => True) /\
  stable (code_ok m0) kept_size (wx_store64 a v) (fun _ => True).
Proof.
  intros Ha Hv. assert (H := fun m Hm => flat_accesses m a v Hm Ha Hv).
  assert (Hput : forall (n : nat) to op, (0 < n <= 8)%nat ->
    (forall m, flat_ok m -> is_flat_store n to op m a v) ->
    stable (code_ok m0) kept_size (wx_check (to_u64 a) (Z.of_nat n) FLAG_WRITABLE;; wx_lift (op a v)) (fun _ => True)).
  { intros n to op Hn Hop. rewrite <- (length_Z_to_le n (to v)).
    apply wx_store_code_stable; rewrite ?length_Z_to_le; try (by apply to_u64_range); try (split; lia); try lia;
      [apply Z_to_le_bytes|].
    intros m Hm Hb. specialize (Hop m Hm). unfold is_flat_store in Hop. cbv zeta in Hop.
    by rewrite decide_True in Hop by done. }
  refine (conj (Hput 1%nat to_u8 flat_store8 _ _) (conj (Hput 2%nat to_u16 flat_store16 _ _)
    (conj (Hput 4%nat to_u32 flat_store32 _ _) (Hput 8%nat to_u64 flat_store64 _ _)))); try lia; apply H.
Qed.

Definition code_memory_ok (m0 : FM) : MemoryOk R WM.
Proof.
  refine {| mem_ok := code_ok m0; mem_max := mem_max (M := FM) |}.
  - intros w Hw. exact (mem_size_range w (code_ok_wx _ _ Hw)).
  - intros w Hw. exact (mem_lr_ok w (code_ok_wx _ _ Hw)).
  - intros v Hv [m] (Hm & H0 & Hs). refine (conj I (conj _ eq_refl)). split_and!; [|done|].
    + by apply (fi_lr (FlatInv := flat_ok_inv) v m).
    + destruct Hs. by constructor.
  - intros a Ha. apply reads_code_stable; [apply wx_lift_reads, flat_loads_read|exact (mem_load8 (M := WM) a Ha)].
  - intros a Ha. apply reads_code_stable; [apply wx_lift_reads, flat_loads_read|exact (mem_load16 (M := WM) a Ha)].
  - intros a Ha. apply reads_code_stable; [apply wx_lift_reads, flat_loads_read|exact (mem_load32 (M := WM) a Ha)].
  - intros a Ha. apply reads_code_stable; [apply wx_lift_reads, flat_loads_read|exact (mem_load64 (M := WM) a Ha)].
  - apply wx_stores_code_stable.
  - apply wx_stores_code_stable.
  - apply wx_stores_code_stable.
  - apply wx_stores_code_stable.
  - intros a Ha. apply reads_code_stable; [|exact (mem_execute_load16 (M := WM) a Ha)].
    apply reads_bind; [apply wx_check_reads|intros _; apply wx_lift_reads, flat_fetches_read].
  - intros a Ha. apply reads_code_stable; [|exact (mem_execute_load32 (M := WM) a Ha)].
    apply reads_bind; [apply wx_check_reads|intros _; apply wx_lift_reads, flat_fetches_read].
  - intros a n Ha Hn. apply reads_code_stable; [|exact (mem_load_bytes (M := WM) a n Ha Hn)].
    apply wx_lift_reads. apply reads_if; [apply reads_ret|].
    apply reads_bind; [apply flat_check_reads|intros _; apply flat_read_reads].
  - intros a l Ha Hl Hb. change (store_bytes a l) with (wx_store_bytes (M := FM) a l).
    unfold wx_store_bytes. apply stable_if; intros Hz; [by apply stable_ret|]. bool_hyps.
    assert (Hne : l <> []) by (by intros ->).
    apply wx_store_code_stable; [done..| |done|].
    + destruct l; [done|cbn; lia].
    + intros m Hm Hin. change (store_bytes a l m) with (flat_store_bytes a l m). unfold flat_store_bytes.
      cbv zeta. rewrite (proj2 (Z.eqb_neq _ _)) by (destruct l; [done|cbn; lia]). by apply flat_store_raw_ok.
  - intros a n v Ha Hn Hv. change (store_byte a n v) with (wx_store_byte (M := FM) a n v).
    unfold wx_store_byte. apply stable_if; intros Hz; [by apply stable_ret|]. bool_hyps. destruct Hn as [? ?].
    pose proof (wx_store_code_stable m0 a (replicate (Z.to_nat n) v) (store_byte a n v)) as Hw.
    rewrite length_replicate, Z2Nat.id in Hw by lia.
    apply Hw; [done|by split|lia|by apply Forall_replicate|].
    intros m Hm Hin. change (store_byte a n v m) with (flat_store_byte a n v m). unfold flat_store_byte.
    rewrite (proj2 (Z.eqb_neq n 0)) by done.
    pose proof (flat_store_raw_ok a (replicate (Z.to_nat n) v) m) as E.
    rewrite length_replicate, Z2Nat.id in E by lia. apply E; [done..| |done].
    destruct (Z.to_nat n) eqn:En; [lia|done].
  - intros p Hp. apply reads_code_stable; [apply wx_lift_reads, flat_fetch_flag_reads|exact (mem_fetch_flag (M := WM) p Hp)].
Defined.
End code.

(** * Fetching from memories with the same code *)

Section fetch.
Local Abbreviation FM := (FlatMemory u64_register).
Local Abbreviation WM := (WXorXMemory FM).

Lemma code_bytes m0 m a n : code_kept m0 m -> 0 <= a -> 0 < n -> a + n <= flat_memory_size m0 ->
  (forall q, a / 4096 <= q <= (a + n - 1) / 4096 -> executable q m0) ->
  flat_get a n m = flat_get a n m0.
Proof.
  intros (Hm & H0 & Hs) Ha Hn Hb Hx. pose proof (fo_pages _ H0). unfold flat_get.
  apply list_eq. intros i. destruct (decide (i < Z.to_nat n)%nat) as [Hi|Hi];
    [|rewrite !lookup_ge_None_2; [done|rewrite length_take; lia..]].
  rewrite !lookup_take_lt, !lookup_drop, !page_byte by done.
  set (j := (Z.to_nat a + i)%nat). assert (Hj : a <= Z.of_nat j <= a + n - 1) by (unfold j; lia).
  rewrite (cs_page _ _ Hs); [done|unfold pages; dlia|]. apply Hx. split; apply Z.div_le_mono; lia.
Qed.

Lemma same_mismatch m0 m flag p (n : nat) : code_kept m0 m -> 0 <= p -> p + Z.of_nat n <= pages m0 ->
  first_mismatch (flat_flags m) flag p n = first_mismatch (flat_flags m0) flag p n.
Proof.
  intros (Hm & H0 & Hs). pose proof (pages_size m m0 Hm H0 (cs_size _ _ Hs)) as Hpg.
  pose proof (fo_flags _ Hm). pose proof (fo_flags _ H0). unfold pages in Hpg.
  revert p. induction n as [|n IH]; intros p Hp Hn; [done|]. cbn [first_mismatch].
  pose proof (cs_permission _ _ Hs p ltac:(lia)) as E. unfold permission, flag_of in E.
  unfold pages in Hn.
  destruct (lookup_lt_is_Some_2 (flat_flags m) (Z.to_nat p)) as [v Hv]; [lia|].
  destruct (lookup_lt_is_Some_2 (flat_flags m0) (Z.to_nat p)) as [v0 Hv0]; [lia|].
  rewrite Hv, Hv0 in *. cbn in E. injection E as ->. rewrite IH by (unfold pages; lia). done.
Qed.

Definition wx_code_same (w w' : WM) : Prop := code_kept (wx_inner w) (wx_inner w').
#[local] Instance wx_code_same_sym : Symmetric wx_code_same.
Proof. intros w w'. unfold wx_code_same. by symmetry. Qed.
#[local] Instance wx_code_same_trans : Transitive wx_code_same.
Proof. intros w w' w''. unfold wx_code_same. by etrans. Qed.

Lemma check_size_same a n (w w' : WM) : flat_memory_size (wx_inner w') = flat_memory_size (wx_inner w) ->
  check_no_overflow a n (wx_memory_size w') w' = ((check_no_overflow a n (wx_memory_size w) w).1, w').
Proof.
  intros Hz. change (wx_memory_size w') with (flat_memory_size (wx_inner w')). rewrite Hz.
  change (wx_memory_size w) with (flat_memory_size (wx_inner w)).
  unfold check_no_overflow. destruct (woverflowing_add _ _ _). by repeat case_match.
Qed.

(** A fetch checks that all its pages are executable and reads their bytes. *)
Lemma wx_fetch_respects {A} a n (f : list Z -> A) (inner : ST FM A) : in_u 64 a -> in_u 64 n -> 0 < n ->
  (forall m, flat_ok m -> in_bounds a n (flat_memory_size m) -> inner m = (Ok (f (flat_get a n m)), m)) ->
  respects wx_code_same (wx_check a n FLAG_EXECUTABLE;; wx_lift inner).
Proof.
  intros Ha Hn Hpos Hin w w' Hw. pose proof Hw as (Hm' & Hm & Hs).
  assert (Hrel : wx_code_same w w) by exact (code_kept_refl _ Hm).
  destruct (decide (in_bounds a n (flat_memory_size (wx_inner w)))) as [Hb|Hb].
  - pose proof (wx_check_spec FLAG_EXECUTABLE a n w Hm Ha Hn Hpos Hb) as E.
    assert (Hb' : in_bounds a n (flat_memory_size (wx_inner w'))) by (by rewrite (cs_size _ _ Hs)).
    pose proof (wx_check_spec FLAG_EXECUTABLE a n w' Hm' Ha Hn Hpos Hb') as E'.
    pose proof (fo_pages _ Hm). destruct Ha, Hb.
    assert (Hpt : a / 4096 + Z.of_nat (pages_touched a n) <= pages (wx_inner w))
      by (unfold pages_touched, pages; rewrite Z2Nat.id; [dlia|]; assert (a / 4096 <= (a + n - 1) / 4096) by (apply Z.div_le_mono; lia); lia).
    assert (Er : refused_page w' FLAG_EXECUTABLE a n = refused_page w FLAG_EXECUTABLE a n)
      by (apply same_mismatch; [done|apply Z.div_pos; lia|done]).
    rewrite Er in E'. destruct (refused_page w FLAG_EXECUTABLE a n) as [q|] eqn:Hr.
    + erewrite !bind_Err by eassumption. done.
    + erewrite !bind_Ok by eassumption. unfold wx_lift, zoom.
      rewrite !Hin by done. cbn [fst snd]. split; [|by destruct w].
      f_equal. f_equal. symmetry. apply code_bytes; [done|lia..|]. intros q Hq. unfold refused_page in Hr.
      pose proof (fo_flags _ Hm). unfold pages_touched, pages in *.
      destruct (no_mismatch _ _ _ _ q Hr ltac:(cbn; lia) ltac:(apply Z.div_pos; lia) ltac:(lia)) as (v & Hv & Ev).
      unfold executable, permission, flag_of. change (mem_flags (wx_inner w)) with (flat_flags (wx_inner w)) in Hv.
      rewrite Hv. cbn. by rewrite Ev.
  - unfold wx_check. destruct (check_no_overflow_err a n (wx_memory_size w) w Ha Hn) as [b Hc]; [apply Hm|done|].
    pose proof (check_size_same a n w w' (cs_size _ _ Hs)) as Hc'. rewrite Hc in Hc'.
    unfold mbind, ST_bind. by rewrite Hc, Hc'.
Qed.

Lemma flat_fetches_spec a m : flat_ok m -> in_u 64 a ->
  (in_bounds a 2 (flat_memory_size m) ->
   flat_execute_load16 (R := u64_register) a m = (Ok (wrap 16 (le_to_Z (flat_get a 2 m))), m)) /\
  (in_bounds a 4 (flat_memory_size m) ->
   flat_execute_load32 (R := u64_register) a m = (Ok (wrap 32 (le_to_Z (flat_get a 4 m))), m)).
Proof.
  intros Hm Ha. destruct (flat_accesses (R := u64_register) m a a Hm Ha Ha) as (_ & H2 & H4 & _).
  unfold is_flat_load in H2, H4. cbv zeta in H2, H4. change (@to_u64 u64_register a) with a in *.
  split; intros Hb; rewrite decide_True in * by done;
    [unfold flat_execute_load16|unfold flat_execute_load32];
    change (@from_u64 u64_register a) with a; erewrite bind_Ok by eassumption; done.
Qed.

Definition code_fetch_ok : FetchOk u64_register WM.
Proof.
  refine {| same_code := wx_code_same |}.
  - intros w w' (_ & _ & Hs). symmetry. exact (cs_size _ _ Hs).
  - intros a Ha. apply (wx_fetch_respects a 2 (fun l => wrap 16 (le_to_Z l))); [done|split; lia|lia|].
    intros m Hm. by apply flat_fetches_spec.
  - intros a Ha. apply (wx_fetch_respects a 4 (fun l => wrap 32 (le_to_Z l))); [done|split; lia|lia|].
    intros m Hm. by apply flat_fetches_spec.
Defined.
End fetch.

(** * The theorem *)

(** C7: no guest can change code.  On a machine behind the W^X layer, of either register
    width, run any program for any number of instructions, with system calls that do not
    write code themselves: however the run ends, every page has the permission it had and
    every executable page holds the bytes it held.  The program that runs is the program
    that was loaded. *)
Theorem guest_keeps_code (R : Register) (HR : RegisterOk R) (Sy De : Type)
  (HSy : Syscalls (DefaultCoreMachine R (WXorXMemory (FlatMemory R))) Sy)
  (HDe : Debugger (DefaultCoreMachine R (WXorXMemory (FlatMemory R))) De) (m0 : FlatMemory R)
  (HE : EmbedderOk R (WXorXMemory (FlatMemory R)) (HMO := code_memory_ok m0) Sy De kept)
  (fuel : nat) (interrupts : nat -> bool)
  (m m' : DefaultMachine R (WXorXMemory (FlatMemory R)) Sy De) o d :
  dm_ok m -> wx_inner (dc_memory (dm_inner m)) = m0 ->
  Run.run fuel interrupts m = Some (o, (d, m')) ->
  o <> Panic /\ dm_ok m' /\ code_same m0 (wx_inner (dc_memory (dm_inner m'))).
Proof.
  intros [[] Hc] Hm0 Hrun.
  destruct (run_safe R HR _ _ (code_memory_ok m0) Sy De _ _ HE
    fuel interrupts m o d m') as (? & [[] ?] & ?); [|done|].
  - split; [|done]. constructor; try done. by split_and!; rewrite <- ?Hm0.
  - match goal with H : mem_ok _ |- _ => destruct H as (? & ? & ?) end.
    split_and!; [done| |done]. split; [|done]. by constructor.
Qed.

(** ** Witness: the demo program on an executable page *)

Definition code_memory : FlatMemory u64_register := flat_set_flags [FLAG_EXECUTABLE] memory0.

Definition code_machine : DefaultMachine u64_register (WXorXMemory (FlatMemory u64_register)) Empty_set Empty_set :=
  build (builder_instruction_cycle_func estimate_cycles (builder_new
    {| dc_registers := replicate 32 (0 : reg u64_register); dc_pc := (0 : reg u64_register);
       dc_next_pc := (0 : reg u64_register); dc_reset_signal := false;
       dc_memory := WXorX code_memory; dc_cycles := 0; dc_max_cycles := 1000; dc_running := false;
       dc_isa := ISA_IMC; dc_version := VERSION2 |})).

Lemma code_machine_ok : dm_ok code_machine.
Proof.
  destruct machine0_ok as [[H1 H2 H3 H4 H5 H6 H7 H8 H9] Hc]. split; [|exact Hc].
  constructor; try done. destruct H6 as [? ? ? ? ? ? ?]. constructor; try done.
  repeat constructor; vm_compute; congruence.
Qed.

#[local] Instance none_code_ok drel : EmbedderOk u64_register (WXorXMemory (FlatMemory u64_register))
  (HMO := code_memory_ok code_memory) Empty_set Empty_set drel.
Proof. split; by intros [[] _]. Qed.

Lemma code_machine_runs : exists d m', Run.run 10 (fun _ => false) code_machine = Some (Ok 5, (d, m')).
Proof.
  assert (H : match Run.run 10 (fun _ => false) code_machine with
    | Some (Ok c, _) => c =? 5 | _ => false end = true) by (vm_compute; reflexivity).
  destruct (Run.run 10 (fun _ => false) code_machine) as [[[c|e|] [d m']]|]; try done.
  apply Z.eqb_eq in H as ->. by exists d, m'.
Qed.

Lemma guest_keeps_code_witness : exists d m', Run.run 10 (fun _ => false) code_machine = Some (Ok 5, (d, m')) /\
  code_same code_memory (wx_inner (dc_memory (dm_inner m'))).
Proof.
  destruct code_machine_runs as (d & m' & E). exists d, m'. split; [exact E|].
  apply (guest_keeps_code u64_register u64_ok Empty_set Empty_set none_syscalls none_debugger code_memory
    (none_code_ok kept) 10 (fun _ => false) code_machine m' (Ok 5) d code_machine_ok eq_refl E).
Defined.
