(* ===== verification/Threads.v ===== *)
(** Two facts the trace machine rests on: the thread table and the dispatch of
    instructions agree, and decoding only reads the memory. *)
From S2P Require Import Prelude Outcome Bits Register RegisterFacts Insts InstsFacts Memory Machine Core.
From S2P Require Import Execute Exec Decoder Run Demo StraightLine.
From stdpp Require Import base list numbers.
Open Scope Z_scope.

(** * The thread table *)

(** A list of pairs whose keys count up from [lo] is an array. *)
Lemma zassoc_array {A} (l : list (Z * A)) lo op : l.*1 = seqZ lo (Z.of_nat (length l)) -> lo <= op ->
  zassoc l op = snd <$> l !! Z.to_nat (op - lo).
Proof.
  revert lo. induction l as [|[k v] l IH]; intros lo; [done|]. cbn [fmap list_fmap fst length].
  rewrite Nat2Z.inj_succ, seqZ_cons by lia. intros [= -> E] Hop. cbn [zassoc].
  destruct (Z.eqb_spec op lo) as [->|Hne]; [by rewrite Z.sub_diag|].
  rewrite (IH (Z.succ lo)) by (lia || by rewrite E; f_equal; lia).
  replace (Z.to_nat (op - lo)) with (S (Z.to_nat (op - Z.succ lo))) by lia. done.
Qed.

Section threads.
Context {R : Register} {M Mac : Type} `{!Memory R M} `{!Machine R M Mac}.

Lemma handle_table_array :
  (handle_table (Mac := Mac)).*1 = seqZ MINIMAL_OPCODE (Z.of_nat (length (handle_table (Mac := Mac)))).
Proof. reflexivity. Qed.

Lemma thread_lookup op : in_u 16 op ->
  ThreadFactory_get (ThreadFactory_create (Mac := Mac)) op = zassoc handle_table op.
Proof.
  intros [H0 H1]. unfold ThreadFactory_get, ThreadFactory_create.
  change (map snd handle_table) with ((handle_table (Mac := Mac)).*2). rewrite list_lookup_fmap.
  destruct (Z.le_gt_cases MINIMAL_OPCODE op) as [Hle|Hlt].
  - rewrite (zassoc_array _ MINIMAL_OPCODE) by (done || apply handle_table_array).
    unfold wsub. change MINIMAL_OPCODE with 16 in *. rewrite wrap_small by (split; lia). done.
  - unfold wsub. change MINIMAL_OPCODE with 16 in *.
    replace (wrap 64 (op - 16)) with (op - 16 + 2 ^ 64)
      by (unfold wrap; apply Z.mod_unique with (-1); lia).
    assert (Hlen : (length (handle_table (Mac := Mac)) <= 1000)%nat) by (apply Nat.leb_le; reflexivity).
    rewrite lookup_ge_None_2 by lia. symmetry.
    destruct (zassoc handle_table op) as [h|] eqn:E; [|done]. exfalso. apply zassoc_in in E.
    apply (list_elem_of_fmap_2 fst) in E.
    assert (Hs : op ∈ seqZ MINIMAL_OPCODE (Z.of_nat (length (handle_table (Mac := Mac)))))
      by (rewrite <- handle_table_array; exact E).
    apply elem_of_seqZ in Hs. change MINIMAL_OPCODE with 16 in Hs. lia.
Qed.

Lemma opcode_in inst : in_u 16 (extract_opcode inst).
Proof. rewrite extract_opcode_op. apply inst_op_range. Qed.

Lemma thread_execute inst thread (m : Mac) :
  ThreadFactory_get ThreadFactory_create (extract_opcode inst) = Some thread ->
  execute_with_thread inst thread m = execute inst m.
Proof.
  rewrite thread_lookup by apply opcode_in. intros E.
  unfold execute_with_thread, execute, execute_instruction. cbv zeta. by rewrite E.
Qed.

Lemma thread_some inst : MINIMAL_OPCODE <= extract_opcode inst <= MAXIMUM_OPCODE ->
  is_Some (ThreadFactory_get (ThreadFactory_create (Mac := Mac)) (extract_opcode inst)).
Proof.
  intros [H1 H2]. rewrite thread_lookup by apply opcode_in.
  rewrite (zassoc_array _ MINIMAL_OPCODE) by (done || apply handle_table_array).
  apply fmap_is_Some, lookup_lt_is_Some.
  assert (Hlen : length (handle_table (Mac := Mac)) = Z.to_nat (MAXIMUM_OPCODE - MINIMAL_OPCODE + 1)) by reflexivity.
  change InstructionOpcode with Z in *. lia.
Qed.

(** C30: the trace machine's thread table is the interpreter's dispatch.  Whatever the
    instruction: if the table has a thread for its opcode, executing the instruction with
    that thread is executing it; if not, which would be an index out of range, the opcode
    is none of the declared ones. *)
Theorem threads_dispatch (inst : Instruction) (m : Mac) :
  match ThreadFactory_get ThreadFactory_create (extract_opcode inst) with
  | Some thread => execute_with_thread inst thread m = execute inst m
  | None => ~ MINIMAL_OPCODE <= extract_opcode inst <= MAXIMUM_OPCODE
  end.
Proof.
  destruct (ThreadFactory_get _ _) as [thread|] eqn:E; [by apply thread_execute|].
  intros H. destruct (thread_some inst H) as [thread E']. by rewrite E' in E.
Qed.
End threads.

(** * Decoding reads *)

Section decoding.
Context {R : Register} {M : Type} `{!Memory R M}.
Hypothesis Hread16 : forall a, reads (execute_load16 (M := M) a).
Hypothesis Hread32 : forall a, reads (execute_load32 (M := M) a).

Definition same_memory (s s' : DefaultDecoder * M) : Prop := s'.2 = s.2.
#[local] Instance same_memory_preorder : PreOrder same_memory.
Proof. split; unfold same_memory; [done|congruence]. Qed.

Lemma decode_bits_reads pc : reads (decode_bits (M := M) pc).
Proof.
  unfold decode_bits. apply reads_if; (apply reads_bind; [done|intros ?]).
  - apply reads_if; apply reads_ret.
  - apply reads_if; [|apply reads_ret]. apply reads_bind; [done|intros ?; apply reads_ret].
Qed.

Lemma decode_raw_memory pc : moves same_memory (decode_raw pc).
Proof.
  unfold decode_raw. apply moves_bind; [done|by apply moves_reads|intros size].
  apply moves_if; [by apply moves_reads|]. cbv zeta.
  apply moves_bind; [done|by apply moves_reads|intros cache].
  apply moves_bind; [done|apply moves_reads; [done|apply reads_unwrap]|intros c].
  apply moves_if; [by apply moves_reads|].
  apply moves_bind; [done| |intros bits].
  { apply moves_reads; [done|]. apply reads_zoom; [by intros []|apply decode_bits_reads]. }
  apply moves_bind; [done|by apply moves_reads|intros d].
  destruct (first_factory _ _ _); [|by apply moves_reads].
  apply moves_bind; [done|by apply moves_modify|by intros _; apply moves_reads].
Qed.

Lemma attempt_memory {A} (c : ST (DefaultDecoder * M) A) : moves same_memory c -> moves same_memory (attempt c).
Proof. intros Hc s. specialize (Hc s). unfold attempt. by destruct (c s) as [[]]. Qed.

Ltac memory_step :=
  cbv zeta;
  lazymatch goal with
  | |- moves _ (mbind _ _) => apply moves_bind; [done| |intros ?]
  | |- moves _ (mret _) => by apply moves_reads
  | |- moves _ (fail _) => by apply moves_reads
  | |- moves _ (gets _) => by apply moves_reads
  | |- moves _ (if _ then _ else _) => apply moves_if
  | |- moves _ (match ?o with _ => _ end) => destruct o
  | |- moves _ (attempt _) => apply attempt_memory
  | |- moves _ (decode_raw _) => apply decode_raw_memory
  | |- moves _ ?c => unfold_head c
  end.

Lemma decode_memory pc s : (Decoder.decode pc s).2.2 = s.2.
Proof.
  assert (H : moves same_memory (Decoder.decode pc)); [|exact (H s)].
  unfold Decoder.decode. repeat memory_step.
Qed.
End decoding.
