(* ===== verification/TraceOk.v ===== *)
(** The trace machine (src/src/machine/trace.rs) is safe, for every register width and
    memory: no index of its tables is out of range and it keeps the machine invariant. *)
From S2P Require Import Prelude Outcome Bits Register RegisterFacts Insts InstsFacts Memory MemoryOk Machine Core Execute Decoder Run MachineOk CoreOk DecoderOk RunOk Threads.
From stdpp Require Import base list numbers.
Open Scope Z_scope.

Section trace_ok.
Context {R : Register} {HR : RegisterOk R} {M : Type} {HM : Memory R M} {HMO : MemoryOk R M}.
Context {Sy De : Type} {HSy : Syscalls (DefaultCoreMachine R M) Sy}.
Context {HDe : Debugger (DefaultCoreMachine R M) De} {HE : EmbedderOk R M Sy De kept}.
Local Abbreviation DM := (DefaultMachine R M Sy De).
Local Abbreviation TS := (@TraceState R M Sy De).
Local Abbreviation Trace := (@Trace R M Sy De).

(** * The tables *)

(** The first [k] entries: valid instructions, each with its thread. *)
Record filled (k : nat) (t : Trace) : Prop := {
  fl_instructions : length (tr_instructions t) = Z.to_nat TRACE_ITEM_LENGTH;
  fl_threads : length (tr_threads t) = Z.to_nat TRACE_ITEM_LENGTH;
  fl_entries : forall j, (j < k)%nat -> exists i th, tr_instructions t !! j = Some i /\ inst_ok i /\
    tr_threads t !! j = Some th /\ ThreadFactory_get ThreadFactory_create (extract_opcode i) = Some th;
}.

Definition trace_ok (t : Trace) : Prop :=
  exists k, tr_instruction_count t = Z.of_nat k /\ filled k t.

Definition table_valid (trs : list Trace) : Prop :=
  length trs = Z.to_nat TRACE_SIZE /\ Forall trace_ok trs.

Lemma default_filled : filled 0 Trace_default.
Proof. constructor; [done..|]. intros j Hj. lia. Qed.

Lemma default_table n : table_valid (replicate n Trace_default) <-> n = Z.to_nat TRACE_SIZE.
Proof.
  unfold table_valid. rewrite length_replicate. split; [by intros []|]. intros ->. split; [done|].
  apply Forall_replicate. exists 0%nat. split; [done|apply default_filled].
Qed.

(** Slots are inside the table. *)
Lemma slot_lookup {A} pc (l : list A) : length l = Z.to_nat TRACE_SIZE -> is_Some (l !! Z.to_nat (calculate_slot pc)).
Proof.
  intros Hl. apply lookup_lt_is_Some. rewrite Hl. unfold calculate_slot. change TRACE_MASK with (Z.ones 13).
  rewrite Z.land_ones by lia. change TRACE_SIZE with (2 ^ 13).
  pose proof (Z.mod_pos_bound (wshr 64 pc TRACE_ADDRESS_SHIFTS) (2 ^ 13)). lia.
Qed.

Lemma filled_put i inst th t : (i < Z.to_nat TRACE_ITEM_LENGTH)%nat -> filled i t -> inst_ok inst ->
  ThreadFactory_get ThreadFactory_create (extract_opcode inst) = Some th ->
  filled (S i) (trace_put i inst th t).
Proof.
  intros Hi [H1 H2 H3] Hok Hth. constructor; cbn [trace_put tr_instructions tr_threads]; [by rewrite length_insert..|].
  intros j Hj. destruct (decide (j = i)) as [->|Hne].
  - exists inst, th. rewrite !list_lookup_insert_eq by lia. done.
  - rewrite !list_lookup_insert_ne by done. apply H3. lia.
Qed.

(** * The state *)

Definition ts_with (trs : list Trace) (s : TS) : Prop :=
  rs_ok (ts_run s) /\ ts_factory s = ThreadFactory_create /\ ts_traces s = trs.
Definition ts_rel (s s' : TS) : Prop := rs_rel kept (ts_run s) (ts_run s').

#[local] Instance ts_rel_preorder : PreOrder ts_rel.
Proof. split; unfold ts_rel; [done|]. intros ???. by etrans. Qed.

Lemma on_run_safe {A} trs (c : ST (DefaultDecoder * DM) A) Q :
  stable rs_ok (rs_rel kept) c Q -> stable (ts_with trs) ts_rel (on_run c) Q.
Proof.
  apply stable_zoom; [by intros s []|]. intros s r (_ & Hf & Ht) Hr Hrel.
  exact (conj (conj Hr (conj Hf Ht)) Hrel).
Qed.

Lemma trace_at_safe trs slot t : trs !! Z.to_nat slot = Some t ->
  stable (ts_with trs) ts_rel (trace_at slot) (fun t' => t' = t).
Proof.
  intros Ht s Hs. unfold wp, trace_at. destruct Hs as (H1 & H2 & H3). rewrite H3, Ht.
  split; [done|]. split; [exact (conj H1 (conj H2 H3))|reflexivity].
Qed.

(** Failing, the machine is as valid as before. *)
Definition failed (s : TS) (e : Error) (s' : TS) : Prop := rs_ok (ts_run s') /\ ts_rel s s'.

(** Every valid instruction has a thread. *)
Lemma valid_thread i : inst_ok i -> is_Some (ThreadFactory_get (ThreadFactory_create (Mac := DM)) (extract_opcode i)).
Proof.
  intros Hi. apply thread_some. unfold inst_ok in Hi. pose proof (tagged_lookup (extract_opcode i)) as Ht.
  destruct (_ && _) eqn:Hb; [bool_hyps; split; done|]. by rewrite Ht in Hi.
Qed.

Lemma build_trace_safe n slot i pc0 t trs s : ts_with trs s -> trs !! Z.to_nat slot = Some t -> filled i t ->
  (n + i)%nat = Z.to_nat TRACE_ITEM_LENGTH -> in_u 64 pc0 ->
  wp (build_trace n slot i pc0) s
     (fun r s' => exists t', ts_with (<[Z.to_nat slot := t']> trs) s' /\ ts_rel s s' /\ filled r.1 t' /\
        (r.1 <= Z.to_nat TRACE_ITEM_LENGTH)%nat)
     (failed s).
Proof.
  revert i pc0 t trs s. induction n as [|n IH]; intros i pc0 t trs s Hs Ht Hf Hn Hpc.
  { exists t. rewrite list_insert_id by done. cbn [Nat.add] in Hn. refine (conj Hs (conj _ (conj Hf _))); [reflexivity|cbn; lia]. }
  cbn [build_trace]. apply wp_bind. eapply wp_mono.
  { apply (on_run_safe trs (on_decoder (Decoder.decode pc0)) sized); [|done].
    by apply (on_decoder_safe kept), decode_safe. }
  2: { intros e s1 [[H1 _] H2]. by split. }
  intros inst s1 ([Hok _] & Hs1 & Hr1). cbv zeta. apply wp_bind. eapply wp_mono; [by eapply trace_at_safe| |].
  2: { intros e s2 [[H1 _] H2]. split; [done|]. by etrans. }
  intros t' s2 (-> & Hs2 & Hr2). destruct (valid_thread inst Hok) as [th Hth].
  apply wp_bind, wp_gets, wp_bind. rewrite (proj1 (proj2 Hs2)).
  apply wp_unwrap with th; [done|]. apply wp_bind, wp_modify.
  assert (Hlt : (i < Z.to_nat TRACE_ITEM_LENGTH)%nat) by lia.
  pose proof (filled_put i inst th t Hlt Hf Hok Hth) as Hf'.
  set (s3 := ts_set_traces _ s2).
  assert (Hs3 : ts_with (<[Z.to_nat slot := trace_put i inst th t]> trs) s3)
    by (destruct Hs2 as (? & ? & E); refine (conj _ (conj _ _)); [done..|cbn; by rewrite E]).
  assert (Hr3 : ts_rel s s3) by (etrans; [exact Hr1|exact Hr2]).
  pose proof (lookup_lt_Some _ _ _ Ht) as Hlen.
  apply wp_if; intros _.
  - eexists. refine (conj Hs3 (conj Hr3 (conj Hf' _))). cbn. lia.
  - eapply wp_mono; [eapply IH; [exact Hs3|by apply list_lookup_insert_eq|exact Hf'|lia|by apply wrap_range]| |].
    + intros r s4 (t' & H1 & H2 & H3 & H4). exists t'. rewrite list_insert_insert_eq in H1.
      refine (conj H1 (conj _ (conj H3 H4))). by etrans.
    + intros e s4 [H1 H2]. split; [done|]. by etrans.
Qed.

Lemma table_insert trs slot t : table_valid trs -> trace_ok t -> table_valid (<[slot := t]> trs).
Proof. intros [Hl Hok] Ht. split; [by rewrite length_insert|by apply Forall_insert]. Qed.

(** A valid machine with valid tables. *)
Definition ts_ok (s : TS) : Prop := exists trs, ts_with trs s /\ table_valid trs.

Lemma new_trace_safe slot pc0 trs s : ts_with trs s -> table_valid trs -> is_Some (trs !! Z.to_nat slot) ->
  in_u 64 pc0 ->
  wp (new_trace slot pc0) s
     (fun _ s' => exists trs' t, ts_with trs' s' /\ ts_rel s s' /\ table_valid trs' /\
        trs' !! Z.to_nat slot = Some t /\ trace_ok t)
     (failed s).
Proof.
  intros (Hr & Hfac & Htr) Htab [t0 Ht0] Hpc. pose proof (lookup_lt_Some _ _ _ Ht0) as Hlen.
  unfold new_trace, trace_set. apply wp_bind, wp_modify. set (s1 := ts_set_traces _ s).
  assert (Hs1 : ts_with (<[Z.to_nat slot := Trace_default]> trs) s1)
    by (refine (conj Hr (conj Hfac _)); cbn; by rewrite Htr).
  assert (Hr1 : ts_rel s s1) by (unfold ts_rel; reflexivity).
  apply wp_bind. eapply wp_mono.
  { eapply (build_trace_safe _ slot 0 pc0 Trace_default); [exact Hs1|by apply list_lookup_insert_eq|apply default_filled|done|done]. }
  2: { intros e s2 [H1 H2]. split; [done|]. by etrans. }
  intros [j q] s2 (t & Hs2 & Hr2 & Hf & Hj). cbn [fst] in Hf, Hj. rewrite list_insert_insert_eq in Hs2.
  apply wp_bind. eapply wp_mono; [eapply trace_at_safe, Hs2; by apply list_lookup_insert_eq| |].
  2: { intros e s3 [[H1 _] H2]. split; [done|]. etrans; [exact Hr1|]. by etrans. }
  intros t' s3 (-> & Hs3 & Hr3). apply wp_modify.
  destruct Hs3 as (Hm3 & Hfac3 & Htr3). eexists _, _. refine (conj (conj Hm3 (conj Hfac3 eq_refl)) _).
  cbn [ts_traces ts_set_traces]. rewrite Htr3, list_insert_insert_eq.
  refine (conj _ (conj _ (conj (list_lookup_insert_eq _ _ _ Hlen) _))).
  - change (ts_rel s s3). etrans; [exact Hr1|]. by etrans.
  - apply table_insert; [done|]. exists j. destruct Hf. split; [|by constructor].
    cbn. apply wrap_small. change (Z.to_nat TRACE_ITEM_LENGTH) with 16%nat in Hj. split; lia.
  - exists j. destruct Hf. split; [|by constructor].
    cbn. apply wrap_small. change (Z.to_nat TRACE_ITEM_LENGTH) with 16%nat in Hj. split; lia.
Qed.

Lemma run_trace_safe n slot i t trs : trs !! Z.to_nat slot = Some t -> filled (n + i) t ->
  stable (ts_with trs) ts_rel (run_trace n slot i) (fun _ => True).
Proof.
  intros Ht. revert i. induction n as [|n IH]; intros i Hf; [by apply stable_ret|].
  destruct (fl_entries _ _ Hf i ltac:(lia)) as (inst & th & Hi & Hok & Hth & Et).
  cbn [run_trace]. eapply stable_bind; [done|by eapply trace_at_safe|]. intros t' ->.
  eapply stable_bind with (P := fun i' => i' = inst); [done|by eapply stable_unwrap|]. intros i' ->.
  apply stable_bind with (P := fun c => 0 <= c); [done| |].
  { apply stable_gets; [done|]. intros s [[_ [_ Hc]] _]. apply Hc. }
  intros c Hc. eapply stable_bind; [done| |].
  { apply on_run_safe, (on_machine_safe kept), (on_inner_safe kept).
    eapply stable_rel, add_cycles_safe; [|done]. by intros ?? []. }
  intros _ _. eapply stable_bind with (P := fun th' => th' = th); [done|by eapply stable_unwrap|]. intros th' ->.
  eapply stable_bind; [done| |].
  { apply on_run_safe, (on_machine_safe kept). intros m Hm. unfold wp. rewrite (thread_execute inst th m Et).
    by apply (execute_safe (HMacO := default_machine_ok kept)). }
  intros _ _. apply IH. by rewrite Nat.add_succ_r.
Qed.

Lemma trace_reset_safe s : ts_ok s ->
  wp trace_reset s (fun _ s' => ts_ok s' /\ ts_rel s s') (failed s).
Proof.
  intros (trs & Hs & Htab). unfold trace_reset. apply wp_bind. eapply wp_mono.
  { apply (on_run_safe trs _ (fun _ => True)); [|exact Hs].
    apply (on_machine_safe kept), (on_inner_frame kept), reset_signal_safe. }
  2: { intros e s1 [[H1 _] H2]. by split. }
  intros signal s1 (_ & Hs1 & Hr1). destruct signal.
  - apply wp_bind. unfold on_run, zoom, modify, wp. cbn.
    destruct Hs1 as ([Hd Hm] & Hf & Htr). split; [|exact Hr1].
    eexists. split; [refine (conj (conj _ Hm) (conj Hf eq_refl))|]; [by apply reset_cache_ok|].
    cbn. rewrite Htr. destruct Htab as [Hl _]. split; [by rewrite length_map|].
    apply List.Forall_map, List.Forall_forall. intros t _. exists 0%nat. split; [done|apply default_filled].
  - split; [by exists trs|done].
Qed.

Lemma trace_iteration_safe s : ts_ok s ->
  wp trace_iteration s (fun _ s' => ts_ok s' /\ ts_rel s s') (failed s).
Proof.
  intros Hs. unfold trace_iteration. apply wp_bind. eapply wp_mono; [by apply trace_reset_safe| |done].
  intros _ s1 [(trs & Hs1 & Htab) Hr1]. apply wp_bind, wp_gets.
  assert (Hpc : in_u 64 (to_u64 (pc (ts_run s1).2))).
  { destruct Hs1 as [[_ [Hm _]] _]. apply to_u64_range, (dc_ok_pc _ Hm). }
  set (pc0 := to_u64 (pc (ts_run s1).2)) in *. cbv zeta. clearbody pc0.
  destruct (slot_lookup pc0 trs (proj1 Htab)) as [t Ht].
  pose proof (Forall_lookup_1 _ _ _ _ (proj2 Htab) Ht) as Hok.
  apply wp_bind. eapply wp_mono; [by eapply trace_at_safe| |].
  2: { intros e s2 [[H1 _] H2]. split; [done|]. by etrans. }
  intros t' s2 (-> & Hs2 & Hr2). apply wp_bind, wp_gets, wp_bind.
  eapply wp_mono with (Q := fun _ s' => exists trs' t', ts_with trs' s' /\ ts_rel s2 s' /\ table_valid trs' /\
    trs' !! Z.to_nat (calculate_slot pc0) = Some t' /\ trace_ok t') (E := failed s2).
  { apply wp_if; intros _; [by eapply new_trace_safe|].
    exists trs, t. refine (conj Hs2 (conj _ (conj Htab (conj Ht Hok)))). reflexivity. }
  2: { intros e s3 [H1 H2]. split; [done|]. etrans; [exact Hr1|]. by etrans. }
  intros _ s3 (trs3 & t3 & Hs3 & Hr3 & Htab3 & Ht3 & (k & Hk & Hf)).
  assert (Hr : ts_rel s s3) by (etrans; [exact Hr1|]; by etrans).
  apply wp_bind. eapply wp_mono; [by eapply trace_at_safe| |].
  2: { intros e s4 [[H1 _] H2]. split; [done|]. by etrans. }
  intros t'' s4 (-> & Hs4 & Hr4). rewrite Hk, Nat2Z.id.
  eapply wp_mono; [eapply run_trace_safe; [exact Ht3|by rewrite Nat.add_0_r|exact Hs4]| |].
  - intros _ s5 (_ & Hs5 & Hr5). split; [by exists trs3|]. etrans; [exact Hr|]. by etrans.
  - intros e s5 [[H1 _] H2]. split; [done|]. etrans; [exact Hr|]. by etrans.
Qed.

(** * The loop *)

Lemma trace_loop_safe fuel interrupts s o s' : ts_ok s -> trace_loop fuel interrupts s = Some (o, s') ->
  o <> Panic /\ rs_ok (ts_run s') /\ ts_rel s s'.
Proof.
  revert interrupts s. induction fuel as [|fuel IH]; intros interrupts s Hs; cbn [trace_loop].
  - case_match; [done|]. intros [= <- <-]. destruct Hs as (trs & [Hr _] & _).
    refine (conj _ (conj Hr _)); [done|reflexivity].
  - pose proof Hs as (trs & (Hr & Hf & Htr) & Htab).
    case_match; [|intros [= <- <-]; refine (conj _ (conj Hr _)); [done|reflexivity]]. cbv zeta.
    destruct (interrupted_ok kept (interrupts 0%nat) (ts_run s) Hr) as [Hr1 Hrel1].
    set (s1 := ts_set_run _ s). assert (Hs1 : ts_ok s1) by (exists trs; exact (conj (conj Hr1 (conj Hf Htr)) Htab)).
    assert (H1 : ts_rel s s1) by exact Hrel1. case_match.
    { intros [= <- <-]. destruct Hr1 as [Hd Hm].
      refine (conj _ (conj (conj Hd _) _)); [done|exact Hm|exact H1]. }
    pose proof (trace_iteration_safe s1 Hs1) as Hw. unfold wp in Hw.
    destruct (trace_iteration s1) as [[?|e|] s2]; [..|done].
    + destruct Hw as [Hs2 H2]. intros Hrun. destruct (IH _ _ Hs2 Hrun) as (Ho & Hr' & H3).
      refine (conj Ho (conj Hr' _)). etrans; [exact H1|]. by etrans.
    + destruct Hw as [Hr2 H2]. intros [= <- <-]. refine (conj _ (conj Hr2 _)); [done|]. by etrans.
Qed.

Lemma trace_run_safe fuel interrupts (m : DM) o s :
  dm_ok m -> trace_run fuel interrupts m = Some (o, s) ->
  o <> Panic /\ dm_ok (ts_run s).2 /\ kept m (ts_run s).2.
Proof.
  intros Hm Hrun. pose proof (started_ok R HR M HM HMO Sy De m Hm) as Hs.
  eapply trace_loop_safe in Hrun as (Ho & [_ Hm'] & [Hk _]); [exact (conj Ho (conj Hm' Hk))|].
  eexists. split; [exact (conj Hs (conj eq_refl eq_refl))|].
  unfold resize_traces. cbn [TraceMachine_new ts_traces ts_set_run]. rewrite take_nil, app_nil_l. cbn [length].
  rewrite Nat.sub_0_r. by apply default_table.
Qed.
End trace_ok.
