(* ===== verification/TraceSim.v ===== *)
(** The trace machine (src/src/machine/trace.rs) runs programs like the interpreter.

    Both are set behind the W^X layer, where code does not change ([CodeKept]): a pc
    decodes to the same instruction whenever it is reached ([code]), so a block decoded
    when it was first run is still the block in memory.  Inside a block the pc moves from
    one instruction to the next ([StraightLine]); the thread of an instruction executes
    it ([Threads]). *)
From S2P Require Import Prelude Outcome Bits Register RegisterFacts Insts InstsFacts Memory MemoryFacts MemoryOk WXorXFacts Machine Core Execute Exec Decoder Run Fetch FetchMem StraightLine MachineOk CoreOk DecoderOk RunOk CodeKept Threads TraceOk Demo.
From stdpp Require Import base list numbers.
Open Scope Z_scope.

Section sim.
Local Abbreviation WM := (WXorXMemory (FlatMemory u64_register)).
Local Abbreviation DC := (DefaultCoreMachine u64_register WM).
Context {Sy De : Type} {HSy : Syscalls DC Sy} {HDe : Debugger DC De}.
Local Abbreviation DM := (DefaultMachine u64_register WM Sy De).
Context (m0 : FlatMemory u64_register) (H0 : flat_ok m0) (Hsize : flat_memory_size m0 < U64_MAX).
#[local] Instance sim_memory : MemoryOk u64_register WM | 0 := code_memory_ok m0.
#[local] Instance sim_fetch : FetchOk u64_register WM | 0 := code_fetch_ok.
Context {HE : EmbedderOk u64_register WM Sy De kept}.
Context (isa0 version0 : Z) (Hversion : VERSION2 <= version0).

(** * What the code decodes to *)

Definition decoder0 : DefaultDecoder := decoder_new u64_register isa0 version0.
Definition code_at (pc : Z) : outcome Instruction := (Decoder.decode pc (decoder0, WXorX m0)).1.

(** A decoder that decodes this code. *)
Definition knows (d : DefaultDecoder) : Prop := alike (decoder0, WXorX m0) (d, WXorX m0).

Lemma code_memory0 : code_ok m0 (WXorX m0).
Proof. by apply code_kept_refl. Qed.

Lemma decoder0_coherent : coherent (decoder0, WXorX m0).
Proof. by apply decoder_new_coherent; [apply code_kept_refl|]. Qed.

Lemma knows_new : knows decoder0.
Proof. apply alike_refl, decoder0_coherent. Qed.

Lemma knows_reset d : knows d -> knows (reset_instructions_cache d).
Proof. unfold knows. intros H. etrans; [exact H|]. by apply alike_reset, H. Qed.

Lemma code_fetches_read a :
  reads (execute_load16 (M := WM) a) /\ reads (execute_load32 (M := WM) a).
Proof.
  split; (apply reads_bind; [apply wx_check_reads|intros _; apply wx_lift_reads, flat_fetches_read]).
Qed.

Lemma decode_known pc d w : in_u 64 pc -> knows d -> code_ok m0 w ->
  exists d', Decoder.decode pc (d, w) = (code_at pc, (d', w)) /\ knows d'.
Proof.
  intros Hpc Hd Hw.
  assert (Hdw : alike (d, w) (decoder0, WXorX m0)).
  { symmetry. unfold knows in Hd. etrans; [exact Hd|]. apply alike_memory; [apply Hd|exact Hw]. }
  destruct (decode_respects pc Hpc _ _ Hdw) as [E Hr].
  pose proof (decode_memory (fun a => proj1 (code_fetches_read a)) (fun a => proj2 (code_fetches_read a)) pc (d, w)) as Em.
  destruct (Decoder.decode pc (d, w)) as [o [d' w']]. cbn [fst snd] in *. subst w'.
  exists d'. split; [by rewrite E|].
  assert (Hdw' : alike (decoder0, WXorX m0) (d', w)) by (etrans; [by symmetry|done]).
  unfold knows. etrans; [exact Hdw'|]. apply alike_memory; [apply Hdw'|]. symmetry. exact Hw.
Qed.

Lemma code_sized pc : in_u 64 pc ->
  match code_at pc with Ok i => sized i | Err _ => True | Panic => False end.
Proof.
  intros Hpc.
  pose proof (decode_safe pc Hpc (decoder0, WXorX m0) (conj (decoder_new_ok _ _ _) code_memory0)) as H.
  unfold wp, code_at in *. destruct (Decoder.decode pc _) as [[i|e|] t]; cbn; [apply H|done|done].
Qed.

(** * Executing a sequence of instructions *)

(** What both machines do with a decoded instruction. *)
Definition perform (i : Instruction) : ST DM unit :=
  cycles ← gets (fun m => dm_instruction_cycle_func m i);
  on_inner (add_cycles cycles);;
  execute i.

Fixpoint perform_all (l : list Instruction) : ST DM unit :=
  match l with
  | [] => mret tt
  | i :: l' => perform i;; perform_all l'
  end.

Lemma perform_all_app l1 l2 m : perform_all (l1 ++ l2) m = (perform_all l1;; perform_all l2) m.
Proof.
  revert m. induction l1 as [|i l1 IH]; intros m; [done|].
  cbn [app perform_all]. unfold mbind, ST_bind. destruct (perform i m) as [[[]|e|] m1]; [|done..].
  apply IH.
Qed.

Lemma perform_safe i : inst_ok i -> stable dm_ok (dm_rel kept) (perform i) (fun _ => True).
Proof.
  intros Hi. unfold perform. apply stable_bind with (P := fun c => 0 <= c); [done| |].
  { apply stable_gets; [done|]. intros m [_ Hf]. apply Hf. }
  intros c Hc. eapply stable_bind; [done| |].
  - apply (on_inner_safe kept). eapply stable_rel, add_cycles_safe; [|done]. by intros ?? [].
  - intros _ _. by apply (execute_safe (HMacO := default_machine_ok kept)).
Qed.

Definition pc_of (m : DM) : Z := dc_pc (dm_inner m).

(** The loop goes on with the next instruction: nobody stopped, interrupted or reset
    the machine. *)
Record going (m : DM) : Prop := {
  go_running : dc_running (dm_inner m) = true;
  go_pause : Pause_has_interrupted (dm_pause m) = false;
  go_reset : dc_reset_signal (dm_inner m) = false;
}.

Lemma perform_going i m m' : is_basic_block_end_instruction i = false -> going m ->
  perform i m = (Ok tt, m') ->
  going m' /\ pc_of m' = wadd 64 (pc_of m) (instruction_length i).
Proof.
  intros Hi [H1 H2 H3]. unfold perform. intros (c & ? & [= <- <-] & H)%bind_inv_Ok.
  apply bind_inv_Ok in H as ([] & m1 & Hc & H).
  assert (Hm1 : exists cycles, m1 = dm_set_inner (with_cycles cycles (dc_max_cycles (dm_inner m)) (dm_inner m)) m).
  { revert Hc. unfold on_inner, zoom, add_cycles. destruct (checked_add_u64 _ _); [|done].
    destruct (_ <? _); [done|]. intros [= <-]. by eexists. }
  destruct Hm1 as [cycles ->]. match type of H with execute i ?m1 = _ => pose proof (execute_straight i m1 Hi) as Hs end.
  rewrite H in Hs. destruct Hs as (regs & mem & ->). by split.
Qed.

(** * Blocks of the code *)

(** The instructions [l], decoded one after the other from [pc] on; [q] is behind them. *)
Fixpoint line (pc : Z) (l : list Instruction) (q : Z) : Prop :=
  match l with
  | [] => q = pc
  | i :: l' => code_at pc = Ok i /\ line (wadd 64 pc (instruction_length i)) l' q
  end.
Definition inner (l : list Instruction) : Prop :=
  Forall (fun i => is_basic_block_end_instruction i = false) l.
(** All but the last do not end a basic block. *)
Definition block (pc : Z) (l : list Instruction) : Prop :=
  exists l1 i q, l = l1 ++ [i] /\ inner l1 /\ line pc l q.

Lemma block_nonempty pc l : block pc l -> (0 < length l)%nat.
Proof. intros (l1 & i & q & -> & _). rewrite length_app. cbn. lia. Qed.

Lemma line_app pc l1 l2 q : line pc (l1 ++ l2) q <-> exists p, line pc l1 p /\ line p l2 q.
Proof.
  revert pc. induction l1 as [|i l1 IH]; intros pc; cbn [app line].
  - split; [intros H; by exists pc|]. by intros (p & -> & ?).
  - rewrite IH. naive_solver.
Qed.

Lemma line_range pc l q : in_u 64 pc -> line pc l q -> in_u 64 q.
Proof.
  revert pc. induction l as [|i l IH]; intros pc Hpc; [by intros ->|].
  intros [_ H]. eapply IH, H. apply wadd64_range.
Qed.

(** * The interpreter on a block *)

(** Nobody interrupts before iteration [k]. *)
Definition off (k : nat) (f : nat -> bool) : Prop := forall j, (j < k)%nat -> f j = false.
(** The interrupts from iteration [k] on. *)
Definition shift (k : nat) (f : nat -> bool) : nat -> bool := fun j => f (k + j)%nat.
Local Abbreviation never := (fun _ : nat => false).

Lemma run_loop_ext n f g (s : DefaultDecoder * DM) : (forall k, f k = g k) -> run_loop n f s = run_loop n g s.
Proof.
  revert f g s. induction n as [|n IH]; intros f g s H; cbn [run_loop]; [done|].
  rewrite (H O). case_match; [|done]. case_match; [done|]. destruct ((handle_reset;; step) _) as [[?|?|] s']; [|done..].
  apply IH. intros k. apply H.
Qed.

Lemma off_S k f : off (S k) f -> f O = false /\ off k (shift 1 f).
Proof. intros H. split; [apply H; lia|]. intros j Hj. apply (H (S j)). lia. Qed.

Lemma off_le k k' f : (k' <= k)%nat -> off k f -> off k' f.
Proof. intros Hk H j Hj. apply H. lia. Qed.

Definition quiet (m : DM) : DM :=
  dm_set_inner (with_running (dc_running (dm_inner m)) false (dm_inner m)) m.
(** The reset signal has been handled. *)
Definition after_reset (s : DefaultDecoder * DM) : DefaultDecoder * DM :=
  (if dc_reset_signal (dm_inner s.2) then reset_instructions_cache s.1 else s.1, quiet s.2).

Lemma handle_reset_eq s : handle_reset s = (Ok tt, after_reset s).
Proof. destruct s as [d [[???[]??????]]]; done. Qed.

Lemma quiet_id m : dc_reset_signal (dm_inner m) = false -> quiet m = m.
Proof. destruct m as [[]]. cbn. by intros ->. Qed.

Lemma after_reset_id s : dc_reset_signal (dm_inner s.2) = false -> after_reset s = s.
Proof. destruct s as [d m]. intros H. unfold after_reset. cbn [fst snd] in *. by rewrite H, quiet_id. Qed.

Lemma run_loop_reset n f s : dc_running (dm_inner s.2) = true ->
  Pause_has_interrupted (dm_pause s.2) = false -> ((0 < n)%nat -> f O = false) ->
  run_loop n f s = run_loop n f (after_reset s).
Proof.
  intros H1 H2 Hf. destruct n; cbn [run_loop]; rewrite H1;
    change (dc_running (dm_inner (after_reset s).2)) with (dc_running (dm_inner s.2)); rewrite H1; [done|].
  rewrite Hf by lia. cbn [interrupted]. change (dm_pause (after_reset s).2) with (dm_pause s.2). rewrite H2.
  unfold mbind, ST_bind. rewrite !handle_reset_eq. by rewrite (after_reset_id (after_reset s)).
Qed.

(** One iteration on a machine that goes on. *)
Lemma step_known d m : knows d -> dm_ok m ->
  exists d', knows d' /\
    step (d, m) = match code_at (pc_of m) with
                  | Ok i => let '(o, m') := perform i m in (o, (d', m'))
                  | Err e => (Err e, (d', m))
                  | Panic => (Panic, (d', m))
                  end.
Proof.
  intros Hd [Hm Hf]. pose proof (to_u64_range _ (dc_ok_pc _ Hm)) as Hpc. pose proof (dc_ok_memory _ Hm) as Hw.
  destruct (decode_known (pc_of m) d (dc_memory (dm_inner m)) Hpc Hd Hw) as (d' & E & Hd'). exists d'. split; [done|].
  unfold step, mbind, ST_bind, gets. cbn [snd].
  change (to_u64 (pc m)) with (pc_of m).
  assert (Eta : dm_set_inner (with_memory (dc_memory (dm_inner m)) (dm_inner m)) m = m) by by destruct m as [[]].
  unfold on_decoder, zoom. cbn [fst snd]. change (memory m) with (dc_memory (dm_inner m)). rewrite E. cbn [fst snd]. rewrite Eta.
  destruct (code_at _) as [i|e|]; [|done..]. unfold perform, mbind, ST_bind, gets, on_machine, zoom. cbn [fst snd].
  destruct (on_inner (add_cycles _) m) as [[[]|e|] m1]; [|done..]. cbn [fst snd].
  by destruct (execute i m1).
Qed.

Lemma run_loop_step d m : knows d -> dm_ok m -> going m ->
  exists d', knows d' /\ forall n f, f O = false ->
    run_loop (S n) f (d, m) = match code_at (pc_of m) with
      | Ok i => match perform i m with
                | (Ok _, m') => run_loop n (shift 1 f) (d', m')
                | (Err e, m') => Some (Err e, (d', m'))
                | (Panic, m') => Some (Panic, (d', m'))
                end
      | Err e => Some (Err e, (d', m))
      | Panic => Some (Panic, (d', m))
      end.
Proof.
  intros Hd Hm [H1 H2 H3]. destruct (step_known d m Hd Hm) as (d' & Hd' & E). exists d'. split; [done|].
  intros n f Hf. cbn [run_loop snd]. rewrite H1, Hf. cbn [interrupted snd]. rewrite H2.
  unfold mbind, ST_bind. rewrite handle_reset_eq, after_reset_id by done. rewrite E.
  destruct (code_at _) as [i|e|]; [|done..]. by destruct (perform i m) as [[[]|e|] m'].
Qed.

Lemma line_sized pc l q : in_u 64 pc -> line pc l q -> Forall sized l.
Proof.
  revert pc. induction l as [|i l IH]; intros pc Hpc; [constructor|]. intros [E H].
  pose proof (code_sized pc Hpc) as Hi. rewrite E in Hi. constructor; [done|].
  eapply IH, H. apply wadd64_range.
Qed.

Lemma perform_all_safe l : Forall sized l -> stable dm_ok (dm_rel kept) (perform_all l) (fun _ => True).
Proof.
  induction 1 as [|i l [Hi _] _ IH]; [by apply stable_ret|].
  eapply stable_bind; [done|by apply perform_safe|]. by intros _ _.
Qed.

Lemma pc_of_range m : dm_ok m -> in_u 64 (pc_of m).
Proof. intros [Hm _]. exact (to_u64_range _ (dc_ok_pc _ Hm)). Qed.

(** The interpreter on the instructions inside a block. *)
Lemma run_line l q d m : knows d -> dm_ok m -> going m -> inner l -> line (pc_of m) l q ->
  match perform_all l m with
  | (Ok _, m') => going m' /\ pc_of m' = q /\ dm_ok m' /\
      exists d', knows d' /\ forall n f, off (length l) f -> run_loop (length l + n) f (d, m) = run_loop n (shift (length l) f) (d', m')
  | (Err e, m') => exists d', forall n f, off (length l) f -> run_loop (length l + n) f (d, m) = Some (Err e, (d', m'))
  | (Panic, _) => False
  end.
Proof.
  revert d m. induction l as [|i l IH]; intros d m Hd Hm Hg Hi Hl.
  { split_and!; [done..|]. by exists d. }
  apply Forall_cons_1 in Hi as [Hi Hl']. pose proof (line_sized _ _ _ (pc_of_range _ Hm) Hl) as Hs.
  apply Forall_cons_1 in Hs as [[Hok _] _]. destruct Hl as [E Hl].
  destruct (run_loop_step d m Hd Hm Hg) as (d1 & Hd1 & Er). rewrite E in Er.
  pose proof (perform_safe i Hok m Hm) as Hp. unfold wp in Hp.
  cbn [perform_all length Nat.add]. unfold mbind, ST_bind.
  destruct (perform i m) as [[[]|e|] m1] eqn:Ep; [|exists d1; intros n f [Hf _]%off_S; by rewrite Er|done].
  destruct Hp as (_ & Hm1 & _). destruct (perform_going i m m1 Hi Hg Ep) as [Hg1 Hpc].
  specialize (IH d1 m1 Hd1 Hm1 Hg1 Hl'). rewrite Hpc in IH. specialize (IH Hl).
  destruct (perform_all l m1) as [[[]|e|] m2]; [| |done].
  - destruct IH as (? & ? & ? & d2 & Hd2 & E2). split_and!; [done..|]. exists d2. split; [done|].
    intros n f [Hf0 Hf]%off_S. by rewrite Er, E2.
  - destruct IH as (d2 & E2). exists d2. intros n f [Hf0 Hf]%off_S. by rewrite Er, E2.
Qed.

(** It does not stop inside a block. *)
Lemma run_line_short l q n f d m : knows d -> dm_ok m -> going m -> inner l -> line (pc_of m) l q ->
  (perform_all l m).1 = Ok tt -> (n <= length l)%nat -> off n f -> run_loop n f (d, m) = None.
Proof.
  intros Hd Hm Hg Hi Hl Hp Hn Hf. rewrite <- (take_drop n l) in Hi, Hl, Hp.
  apply Forall_app in Hi as [Hi _]. apply line_app in Hl as (p & Hl & _).
  rewrite perform_all_app in Hp.
  pose proof (run_line (take n l) p d m Hd Hm Hg Hi Hl) as H. unfold mbind, ST_bind in Hp.
  destruct (perform_all (take n l) m) as [[[]|e|] m1]; [|done..].
  destruct H as (Hg1 & _ & _ & d1 & _ & E). specialize (E 0%nat f).
  rewrite Nat.add_0_r, length_take_le in E by done. rewrite E by done. cbn [run_loop snd]. by rewrite (go_running _ Hg1).
Qed.

Lemma run_block l d m : knows d -> dm_ok m -> going m -> block (pc_of m) l ->
  match perform_all l m with
  | (Ok _, m') => dm_ok m' /\ kept m m' /\ (forall n f, (n < length l)%nat -> off n f -> run_loop n f (d, m) = None) /\
      exists d', knows d' /\ forall n f, off (length l) f -> run_loop (length l + n) f (d, m) = run_loop n (shift (length l) f) (d', m')
  | (Err e, m') => exists d', forall n f, off (length l) f -> run_loop (length l + n) f (d, m) = Some (Err e, (d', m'))
  | (Panic, _) => False
  end.
Proof.
  intros Hd Hm Hg (l1 & i & q & -> & Hi & Hl).
  pose proof (perform_all_safe _ (line_sized _ _ _ (pc_of_range _ Hm) Hl) m Hm) as Hs. unfold wp in Hs.
  apply line_app in Hl as (p & Hl1 & [Ei _]).
  assert (Hsplit : perform_all (l1 ++ [i]) m = (perform_all l1;; perform_all [i]) m) by apply perform_all_app.
  pose proof (run_line l1 p d m Hd Hm Hg Hi Hl1) as H.
  pose proof (fun k f => run_line_short l1 p k f d m Hd Hm Hg Hi Hl1) as Hshort.
  rewrite Hsplit in *. unfold mbind, ST_bind in *. rewrite length_app. cbn [length].
  assert (Hlen : forall n, (length l1 + 1 + n = length l1 + S n)%nat) by lia.
  destruct (perform_all l1 m) as [[[]|e|] m1]; [|destruct H as [d1 H]; exists d1; intros n f Hf; rewrite Hlen; apply H, (off_le _ _ _ (Nat.le_add_r _ _) Hf)|done].
  destruct H as (Hg1 & Hpc & Hm1 & d1 & Hd1 & E1).
  destruct (run_loop_step d1 m1 Hd1 Hm1 Hg1) as (d2 & Hd2 & E2).
  rewrite Hpc, Ei in E2. cbn [perform_all] in *. unfold mbind, ST_bind in *.
  destruct (perform i m1) as [[[]|e|] m2]; cbn [mret ST_ret] in *; [| |done].
  - destruct Hs as (_ & Hm2 & [Hk _]). split_and!; [done|exact Hk| |].
    + intros n f Hn. apply Hshort; [done|lia].
    + exists d2. split; [done|]. intros n f Hf.
      rewrite Hlen, E1, E2 by (first [apply Hf; lia|apply (off_le _ _ _ (Nat.le_add_r _ _) Hf)]).
      apply run_loop_ext. intros k. unfold shift. f_equal. lia.
  - exists d2. intros n f Hf.
    by rewrite Hlen, E1, E2 by (first [apply Hf; lia|apply (off_le _ _ _ (Nat.le_add_r _ _) Hf)]).
Qed.

(** Where the code cannot be decoded behind a line, the interpreter fails too. *)
Lemma run_line_error l q e n f d m : knows d -> dm_ok m -> going m -> inner l -> line (pc_of m) l q ->
  code_at q = Err e -> off (length l + 1) f ->
  exists e' s', run_loop (length l + S n) f (d, m) = Some (Err e', s').
Proof.
  intros Hd Hm Hg Hi Hl Eq Hf. pose proof (off_le _ _ _ (Nat.le_add_r _ _) Hf) as Hf'.
  pose proof (run_line l q d m Hd Hm Hg Hi Hl) as H.
  destruct (perform_all l m) as [[[]|e'|] m1]; [|destruct H as [d1 H]; rewrite H by done; by eauto|done].
  destruct H as (Hg1 & Hpc & Hm1 & d1 & Hd1 & H). rewrite H by done.
  destruct (run_loop_step d1 m1 Hd1 Hm1 Hg1) as (d2 & _ & ->); [|by unfold shift; apply Hf; lia]. rewrite Hpc, Eq. by eauto.
Qed.

(** * Traces *)

Local Abbreviation TS := (@TraceState u64_register WM Sy De).
Local Abbreviation Trace := (@Trace u64_register WM Sy De).

(** The thread that executes an instruction. *)
Definition thread_of (i : Instruction) : option (Thread (Mac := DM)) :=
  ThreadFactory_get ThreadFactory_create (extract_opcode i).

(** The instructions and threads from index [k] on are those of [l]. *)
Definition holds (k : nat) (l : list Instruction) (t : Trace) : Prop :=
  forall j i, l !! j = Some i ->
    tr_instructions t !! (k + j)%nat = Some i /\ exists th, tr_threads t !! (k + j)%nat = Some th /\ thread_of i = Some th.

(** A trace is empty or a block of the code. *)
Definition good (t : Trace) : Prop :=
  tr_instruction_count t = 0 \/
  exists l, tr_instruction_count t = Z.of_nat (length l) /\ block (tr_address t) l /\ holds 0 l t.

Lemma holds_cons k i l t : holds k (i :: l) t ->
  tr_instructions t !! k = Some i /\ (exists th, tr_threads t !! k = Some th /\ thread_of i = Some th) /\
  holds (S k) l t.
Proof.
  intros H. destruct (H 0%nat i eq_refl) as [H1 H2]. rewrite Nat.add_0_r in H1, H2.
  split_and!; [done..|]. intros j i' Hj. specialize (H (S j) i' Hj).
  by rewrite Nat.add_succ_r in H.
Qed.

(** ** Running a trace is performing its instructions *)

Lemma run_trace_perform slot t l k d m (ts : TS) :
  ts_traces ts !! Z.to_nat slot = Some t -> holds k l t ->
  run_trace (length l) slot k (ts_set_run (d, m) ts) =
  let '(o, m') := perform_all l m in (o, ts_set_run (d, m') ts).
Proof.
  intros Ht. revert k m. induction l as [|i l IH]; intros k m Hl; [done|].
  apply holds_cons in Hl as (Hi & (th & Hth & Et) & Hl).
  cbn [length run_trace perform_all].
  assert (Hat : forall s : DefaultDecoder * DM, trace_at slot (ts_set_run s ts) = (Ok t, ts_set_run s ts))
    by (intros s; unfold trace_at; cbn [ts_traces ts_set_run]; by rewrite Ht).
  unfold mbind at 1, ST_bind at 1. rewrite Hat, Hi. unfold perform.
  unfold mbind, ST_bind, gets, unwrap, mret, ST_ret, on_run, on_machine, zoom. cbn [ts_run ts_set_run fst snd].
  destruct (on_inner (add_cycles _) m) as [[[]|e|] m1]; [|done..].
  rewrite Hth. cbn [fst snd ts_run ts_set_run]. rewrite (thread_execute i th m1 Et).
  destruct (execute i m1) as [[[]|e|] m2]; [|done..]. apply (IH (S k) m2 Hl).
Qed.

(** ** Building a trace *)

Definition roomy (t : Trace) : Prop :=
  length (tr_instructions t) = Z.to_nat TRACE_ITEM_LENGTH /\ length (tr_threads t) = Z.to_nat TRACE_ITEM_LENGTH.

Lemma holds_snoc l i th t : roomy t -> (length l < Z.to_nat TRACE_ITEM_LENGTH)%nat ->
  holds 0 l t -> thread_of i = Some th ->
  holds 0 (l ++ [i]) (trace_put (length l) i th t) /\ roomy (trace_put (length l) i th t).
Proof.
  intros [H1 H2] Hl Hh Hth. split; [|by split; cbn; rewrite length_insert].
  intros j i' Hj. cbn [tr_instructions tr_threads trace_put Nat.add].
  apply lookup_app_Some in Hj as [Hj|[Hge Hj]].
  - pose proof (lookup_lt_Some _ _ _ Hj). rewrite !list_lookup_insert_ne by lia. by apply (Hh j).
  - apply list_lookup_singleton_Some in Hj as [Hj <-]. replace j with (length l) by lia.
    rewrite !list_lookup_insert_eq by lia. split; [done|]. by exists th.
Qed.

Lemma block_full pc l q : inner l -> line pc l q -> (0 < length l)%nat -> block pc l.
Proof.
  intros Hi Hl Hn. destruct (exists_last (l := l)) as (l1 & i & ->); [by destruct l; [cbn in Hn; lia|]|].
  exists l1, i, q. apply Forall_app in Hi as [Hi _]. done.
Qed.

Lemma line_snoc pc l q i : line pc l q -> code_at q = Ok i -> line pc (l ++ [i]) (wadd 64 q (instruction_length i)).
Proof. intros Hl Hi. apply line_app. by exists q. Qed.

(** The state of the trace machine, with the thread table [TraceMachine_new] makes. *)
Definition state (d : DefaultDecoder) (m : DM) (trs : list Trace) : TS :=
  {| ts_run := (d, m); ts_factory := ThreadFactory_create; ts_traces := trs |}.

Lemma build_trace_spec n pc slot l q d m (t : Trace) trs :
  in_u 64 pc -> knows d -> dm_ok m -> trs !! Z.to_nat slot = Some t -> roomy t ->
  (n + length l)%nat = Z.to_nat TRACE_ITEM_LENGTH -> inner l -> line pc l q -> holds 0 l t ->
  match build_trace n slot (length l) q (state d m trs) with
  | (Ok (j, _), ts') => exists d' t' l', knows d' /\ ts' = state d' m (<[Z.to_nat slot := t']> trs) /\
      j = length l' /\ (length l' <= Z.to_nat TRACE_ITEM_LENGTH)%nat /\ block pc l' /\ holds 0 l' t'
  | (Err e, _) => exists l' q', inner l' /\ line pc l' q' /\ code_at q' = Err e
  | (Panic, _) => False
  end.
Proof.
  intros Hpc. revert l q d t trs. induction n as [|n IH]; intros l q d t trs Hd Hm Ht Hr Hn Hi Hl Hh.
  { exists d, t, l. rewrite list_insert_id by done. cbn [Nat.add] in Hn.
    split_and!; [done|done|done|by rewrite Hn| |done].
    eapply block_full; [done..|]. rewrite Hn. apply Nat.ltb_lt. reflexivity. }
  destruct (decode_known q d (dc_memory (dm_inner m)) (line_range _ _ _ Hpc Hl) Hd (dc_ok_memory _ (proj1 Hm)))
    as (d1 & E & Hd1).
  pose proof (code_sized q (line_range _ _ _ Hpc Hl)) as Hs.
  cbn [build_trace]. unfold state, mbind, ST_bind, on_run, on_decoder, zoom. cbn [ts_run ts_set_run fst snd].
  change (memory m) with (dc_memory (dm_inner m)). rewrite E. cbn [fst snd ts_set_run ts_factory ts_traces].
  assert (Eta : dm_set_inner (with_memory (dc_memory (dm_inner m)) (dm_inner m)) m = m) by by destruct m as [[]].
  rewrite Eta. destruct (code_at q) as [i|e|] eqn:Ei; [|by exists l, q|done].
  destruct (valid_thread (M := WM) (Sy := Sy) (De := De) i (proj1 Hs)) as [th Hth].
  unfold trace_at, gets. cbn [ts_set_run ts_traces ts_factory]. rewrite Ht. cbn [unwrap mret ST_ret].
  cbv iota beta. cbn [ts_set_run ts_factory ts_traces]. unfold thread_of in Hth. rewrite Hth. cbn [unwrap mret ST_ret trace_set modify ts_set_traces ts_run ts_factory ts_traces].
  destruct (holds_snoc l i th t Hr ltac:(lia) Hh Hth) as [Hh' Hr'].
  pose proof (line_snoc pc l q i Hl Ei) as Hl'.
  pose proof (lookup_lt_Some _ _ _ Ht) as Hlt.
  destruct (is_basic_block_end_instruction i) eqn:Hend.
  - cbv iota beta. eexists d1, _, (l ++ [i]). split_and!; [done|reflexivity|by rewrite length_app, Nat.add_1_r| | |done].
    + rewrite length_app. cbn. lia.
    + by exists l, i, (wadd 64 q (instruction_length i)).
  - specialize (IH (l ++ [i]) (wadd 64 q (instruction_length i)) d1 (trace_put (length l) i th t)
      (<[Z.to_nat slot := trace_put (length l) i th t]> trs) Hd1 Hm).
    rewrite length_app, Nat.add_1_r in IH. cbn [length] in IH.
    rewrite list_lookup_insert_eq in IH by done. specialize (IH eq_refl Hr' ltac:(lia)).
    specialize (IH ltac:(apply Forall_app; split; [done|by constructor]) Hl' Hh').
    destruct (build_trace _ _ _ _ _) as [[[j q']|e|] ts']; [|done..].
    destruct IH as (d' & t' & l' & H). rewrite list_insert_insert_eq in H. by exists d', t', l'.
Qed.

Record table_ok (trs : list Trace) : Prop := {
  tb_length : length trs = Z.to_nat TRACE_SIZE;
  tb_good : Forall good trs;
}.

(** The slot holds a block of the code that starts at [pc]. *)
Definition ready (slot pc : Z) (l : list Instruction) (t : Trace) (trs : list Trace) : Prop :=
  table_ok trs /\ trs !! Z.to_nat slot = Some t /\ tr_instruction_count t = Z.of_nat (length l) /\
  block pc l /\ holds 0 l t.

(** Decoding fails behind some instructions inside a block at [pc]. *)
Definition broken (pc : Z) (e : Error) : Prop := exists l q, inner l /\ line pc l q /\ code_at q = Err e.

Lemma default_roomy : roomy Trace_default.
Proof. by split. Qed.

Lemma new_trace_spec slot pc d m trs : in_u 64 pc -> knows d -> dm_ok m -> table_ok trs ->
  is_Some (trs !! Z.to_nat slot) ->
  match new_trace slot pc (state d m trs) with
  | (Ok _, ts') => exists d' trs' t l, knows d' /\ ts' = state d' m trs' /\ ready slot pc l t trs'
  | (Err e, _) => broken pc e
  | (Panic, _) => False
  end.
Proof.
  intros Hpc Hd Hm [Hlen Hgood] [t0 Ht0]. pose proof (lookup_lt_Some _ _ _ Ht0) as Hlt.
  unfold new_trace, mbind, ST_bind. cbn [trace_set modify].
  change (ts_set_traces _ _) with (state d m (<[Z.to_nat slot := Trace_default]> trs)).
  pose proof (build_trace_spec (Z.to_nat TRACE_ITEM_LENGTH) pc slot [] pc d m Trace_default
    (<[Z.to_nat slot := Trace_default]> trs) Hpc Hd Hm) as H.
  rewrite list_lookup_insert_eq in H by done. specialize (H eq_refl default_roomy ltac:(by rewrite Nat.add_0_r)).
  specialize (H ltac:(constructor) eq_refl ltac:(intros j i; by rewrite lookup_nil)). cbn [length] in H.
  destruct (build_trace _ _ _ _ _) as [[[j q]|e|] ts']; [|exact H|done].
  destruct H as (d' & t' & l & Hd' & -> & -> & Hle & Hb & Hh).
  unfold trace_at. cbn [ts_traces state]. rewrite list_insert_insert_eq, list_lookup_insert_eq by done.
  cbn [unwrap mret ST_ret trace_set modify fst].
  unfold ts_set_traces. cbn [ts_run ts_factory ts_traces state]. rewrite list_insert_insert_eq.
  eexists d', _, _, l. split; [done|]. split; [reflexivity|].
  assert (Hc : wrap 8 (Z.of_nat (length l)) = Z.of_nat (length l)).
  { apply wrap_small. change (Z.to_nat TRACE_ITEM_LENGTH) with 16%nat in Hle. split; lia. }
  rewrite Hc. split_and!; [|by apply list_lookup_insert_eq|done|done|exact Hh].
  constructor; [by rewrite length_insert|]. apply Forall_insert; [done|]. right. by exists l.
Qed.

(** ** One iteration *)

Lemma clear_table (trs : list Trace) : table_ok trs -> table_ok (map (fun _ => Trace_default) trs).
Proof.
  intros [Hl _]. constructor; [by rewrite length_map|]. apply List.Forall_map, List.Forall_forall.
  intros. by left.
Qed.

Lemma trace_reset_eq d m trs : knows d -> table_ok trs -> exists d' trs', knows d' /\ table_ok trs' /\
  trace_reset (state d m trs) = (Ok tt, state d' (quiet m) trs').
Proof.
  intros Hd Ht. destruct (dc_reset_signal (dm_inner m)) eqn:Hs.
  - exists (reset_instructions_cache d), (map (fun _ => Trace_default) trs).
    split_and!; [by apply knows_reset|by apply clear_table|].
    destruct m as [[]]. cbn in Hs. by subst.
  - exists d, trs. split_and!; [done..|]. destruct m as [[]]. cbn in Hs. by subst.
Qed.

(** The part of an iteration that finds or builds the trace. *)
Definition lookup_trace (pc0 slot : Z) : ST TS unit :=
  t ← trace_at slot;
  version ← gets (fun s => version (ts_run s).2);
  let address_match :=
    if version <? VERSION2 then wrap 32 pc0 =? tr_address t else pc0 =? tr_address t in
  if negb address_match || (tr_instruction_count t =? 0) then new_trace slot pc0 else mret tt.

Lemma lookup_trace_spec d m trs : knows d -> dm_ok m -> VERSION2 <= dc_version (dm_inner m) -> table_ok trs ->
  let pc0 := pc_of m in
  match lookup_trace pc0 (calculate_slot pc0) (state d m trs) with
  | (Ok _, ts') => exists d' trs' t l, knows d' /\ ts' = state d' m trs' /\ ready (calculate_slot pc0) pc0 l t trs'
  | (Err e, _) => broken pc0 e
  | (Panic, _) => False
  end.
Proof.
  intros Hd Hm Hv Ht pc0. destruct (slot_lookup pc0 trs (tb_length _ Ht)) as [t E].
  unfold lookup_trace, mbind, ST_bind, trace_at. cbn [ts_traces state]. rewrite E. cbn [unwrap mret ST_ret gets].
  change (version (ts_run (state d m trs)).2) with (dc_version (dm_inner m)).
  rewrite (proj2 (Z.ltb_ge _ _)) by done.
  destruct (_ || _) eqn:Hb; [by apply new_trace_spec; [apply pc_of_range| | | |]|].
  apply orb_false_iff in Hb as [Ha%negb_false_iff Hc].
  apply Z.eqb_eq in Ha. apply Z.eqb_neq in Hc.
  destruct (Forall_lookup_1 _ _ _ _ (tb_good _ Ht) E) as [H|(l & Hn & Hbl & Hh)]; [done|].
  exists d, trs, t, l. rewrite <- Ha in Hbl. done.
Qed.

Lemma trace_iteration_eq d m trs d1 trs1 :
  trace_reset (state d m trs) = (Ok tt, state d1 (quiet m) trs1) ->
  trace_iteration (state d m trs) =
  (lookup_trace (pc_of m) (calculate_slot (pc_of m));;
   t ← trace_at (calculate_slot (pc_of m));
   run_trace (Z.to_nat (tr_instruction_count t)) (calculate_slot (pc_of m)) 0) (state d1 (quiet m) trs1).
Proof.
  intros E. unfold trace_iteration. unfold mbind at 1, ST_bind at 1. rewrite E.
  unfold mbind at 1, ST_bind at 1. cbn [gets].
  change (to_u64 (pc (ts_run (state d1 (quiet m) trs1)).2)) with (pc_of m).
  unfold lookup_trace, mbind, ST_bind. cbv zeta.
  destruct (trace_at _ _) as [[t|e|] s1]; [|done..]. by destruct (gets _ s1) as [[v|e|] s2].
Qed.

(** An iteration is some steps of the interpreter, or it fails with it. *)
Lemma trace_iteration_spec d m trs : knows d -> dm_ok m -> VERSION2 <= dc_version (dm_inner m) -> table_ok trs ->
  dc_running (dm_inner m) = true -> Pause_has_interrupted (dm_pause m) = false ->
  match trace_iteration (state d m trs) with
  | (Ok _, ts') => exists d' m' trs' k, ts' = state d' m' trs' /\ knows d' /\ dm_ok m' /\
      VERSION2 <= dc_version (dm_inner m') /\ table_ok trs' /\ (0 < k)%nat /\
      forall d1, knows d1 ->
        (forall n f, (n < k)%nat -> off n f -> run_loop n f (d1, m) = None) /\
        exists d2, knows d2 /\
          forall n f, off k f -> run_loop (k + n) f (d1, m) = run_loop n (shift k f) (d2, m')
  | (Err e, ts') => exists k, forall d1, knows d1 ->
      exists e' s', run_loop k never (d1, m) = Some (Err e', s') /\
        (e' = e /\ s'.2 = (ts_run ts').2 \/ exists q, code_at q = Err e)
  | (Panic, _) => False
  end.
Proof.
  intros Hd Hm Hv Ht Hrun Hpause. destruct (trace_reset_eq d m trs Hd Ht) as (d0' & trs0 & Hd0 & Ht0 & E).
  rewrite (trace_iteration_eq _ _ _ _ _ E).
  assert (Hq : dm_ok (quiet m)) by (destruct Hm as [Hm Hf]; split; [by apply with_running_ok|done]).
  assert (Hg : going (quiet m)) by (by constructor).
  (* the interpreter handles the reset signal too *)
  assert (Hr : forall d1, knows d1 -> exists d2, knows d2 /\
    forall n f, ((0 < n)%nat -> f O = false) -> run_loop n f (d1, m) = run_loop n f (d2, quiet m)).
  { intros d1 Hd1. exists (after_reset (d1, m)).1. split; [|intros n f Hf; by apply run_loop_reset].
    unfold after_reset. cbn [fst snd]. case_match; [by apply knows_reset|done]. }
  pose proof (lookup_trace_spec d0' (quiet m) trs0 Hd0 Hq Hv Ht0) as Hl. cbv zeta in Hl.
  change (pc_of (quiet m)) with (pc_of m) in Hl. unfold mbind, ST_bind.
  destruct (lookup_trace _ _ _) as [[u|e|] s1]; [| |done].
  - destruct Hl as (d1 & trs1 & t & l & Hd1 & -> & (Htab & Hlk & Hn & Hbl & Hh)).
    unfold trace_at. cbn [ts_traces state]. rewrite Hlk. cbn [unwrap mret ST_ret].
    rewrite Hn, Nat2Z.id.
    change (state d1 (quiet m) trs1) with (ts_set_run (d1, quiet m) (state d1 (quiet m) trs1)).
    rewrite (run_trace_perform _ t l 0) by done.
    pose proof (fun d2 Hd2 => run_block l d2 (quiet m) Hd2 Hq Hg Hbl) as Hrb.
    destruct (perform_all l (quiet m)) as [[[]|e|] m1]; [| |by apply (Hrb d1)].
    + destruct (Hrb d1 Hd1) as (Hm1 & (Hkv & _) & _).
      exists d1, m1, trs1, (length l). split; [done|]. split; [done|]. split; [done|].
      split; [by rewrite (Hkv : dc_version (dm_inner m1) = _)|]. split; [done|].
      split; [exact (block_nonempty _ _ Hbl)|].
      intros d2 Hd2. destruct (Hr d2 Hd2) as (d3 & Hd3 & E3). destruct (Hrb d3 Hd3) as (_ & _ & Hs & d4 & Hd4 & E4).
      split; [intros n f Hlt Hf; rewrite E3 by (intros; by apply Hf); by apply Hs|]. exists d4. split; [done|]. intros n f Hf.
      rewrite E3 by (intros; apply Hf, (block_nonempty _ _ Hbl)). by rewrite E4.
    + exists (length l + 0)%nat. intros d2 Hd2. destruct (Hr d2 Hd2) as (d3 & Hd3 & E3). rewrite E3 by done.
      destruct (Hrb d3 Hd3) as (d4 & E4). rewrite E4 by done. eexists e, _. split; [reflexivity|]. by left.
  - destruct Hl as (l & q & Hi & Hl & Eq). exists (length l + 1)%nat. intros d2 Hd2.
    destruct (Hr d2 Hd2) as (d3 & Hd3 & E3). rewrite E3 by done.
    destruct (run_line_error l q e 0 never d3 (quiet m) Hd3 Hq Hg Hi Hl Eq) as (e' & s' & ->).
    { done. }
    exists e', s'. split; [done|]. right. by exists q.
Qed.

(** * The loop *)

(** The trace machine ended with [o] in the machine [m], the interpreter with [o'] in
    [m']: the same, unless the trace machine failed to decode ahead. *)
Definition agrees (o : outcome Z) (m : DM) (o' : outcome Z) (m' : DM) : Prop :=
  o' = o /\ m' = m \/ exists pc e e', o = Err e /\ o' = Err e' /\ code_at pc = Err e.

(** Interrupts that begin [k] iterations later. *)
Fixpoint delay (k : nat) (f : nat -> bool) : nat -> bool :=
  match k with
  | O => f
  | S k' => fun j => match j with O => false | S j' => delay k' f j' end
  end.

Lemma delay_off k f : off k (delay k f).
Proof. induction k as [|k IH]; intros [|j] Hj; [lia|lia|done|]. apply IH. lia. Qed.

Lemma shift_delay k f : shift k (delay k f) = f.
Proof. induction k as [|k IH]; [done|exact IH]. Qed.

(** [g] interrupts only if [f] does. *)
Definition raised_by (f g : nat -> bool) : Prop := forall j, g j = true -> exists k, f k = true.

Lemma raised_delay f g k : raised_by (shift 1 f) g -> raised_by f (delay k g).
Proof.
  intros H. induction k as [|k IH]; [intros j Hj; destruct (H j Hj) as [i Hi]; by exists (S i)|].
  intros [|j] Hj; [done|]. by apply (IH j).
Qed.

Lemma trace_loop_sim fuel f d m trs o ts' : knows d -> dm_ok m -> VERSION2 <= dc_version (dm_inner m) -> table_ok trs ->
  trace_loop fuel f (state d m trs) = Some (o, ts') ->
  o <> Panic /\ forall d1, knows d1 -> exists n g o' s', raised_by f g /\ run_loop n g (d1, m) = Some (o', s') /\
    agrees o (ts_run ts').2 o' s'.2.
Proof.
  revert f d m trs. induction fuel as [|fuel IH]; intros f d m trs Hd Hm Hv Ht; cbn [trace_loop];
    change (dm_inner (ts_run (state d m trs)).2) with (dm_inner m);
    destruct (dc_running (dm_inner m)) eqn:Hrun.
  1: done.
  1,3: intros [= <- <-]; split; [done|]; intros d1 _; exists 0%nat, never; cbn [run_loop snd]; rewrite Hrun;
    eexists _, _; split; [done|]; split; [reflexivity|by left].
  destruct (Pause_has_interrupted (dm_pause (interrupted (f O) (d, m)).2)) eqn:Hpause.
  { cbn [state ts_run ts_set_run] in *. rewrite Hpause. intros [= <- <-]. split; [done|].
    intros d1 _. exists 1%nat, f. cbn [run_loop snd]. rewrite Hrun.
    assert (E : forall d2 : DefaultDecoder, (interrupted (f O) (d2, m)).2 = (interrupted (f O) (d, m)).2) by by destruct (f O).
    rewrite E, Hpause. eexists _, _. split; [by intros j Hj; exists j|].
    split; [reflexivity|]. cbn [fst snd ts_run ts_set_run]. by left. }
  cbn [state ts_run ts_set_run] in *. rewrite Hpause. destruct (f O) eqn:Hf; [done|].
  pose proof (trace_iteration_spec d m trs Hd Hm Hv Ht Hrun Hpause) as H. unfold state in H.
  change (ts_set_run _ _) with (state d m trs). unfold state.
  destruct (trace_iteration _) as [[[]|e|] s1]; [| |done].
  - destruct H as (d' & m' & trs' & k & -> & Hd' & Hm' & Hv' & Ht' & _ & Hk). intros Hrest.
    destruct (IH _ d' m' trs' Hd' Hm' Hv' Ht' Hrest) as [Ho Hr]. split; [done|]. intros d1 Hd1.
    destruct (Hk d1 Hd1) as [_ (d2 & Hd2 & E)]. destruct (Hr d2 Hd2) as (n & g & o' & s' & Hg & E' & Ha).
    exists (k + n)%nat, (delay k g), o', s'. split; [by apply raised_delay|].
    by rewrite E, shift_delay by apply delay_off.
  - intros [= <- <-]. split; [done|]. intros d1 Hd1. destruct H as [k H].
    destruct (H d1 Hd1) as (e' & s' & E & Ha). exists k, never, (Err e'), s'. split; [done|]. split; [exact E|].
    destruct Ha as [[-> Hs]|[q Hq]]; [by left|right; by exists q, e, e'].
Qed.

(** The trace machine, interrupted or not, needs no more iterations than the interpreter. *)
Lemma trace_loop_total fuel n f d d1 m trs : knows d -> knows d1 -> dm_ok m ->
  VERSION2 <= dc_version (dm_inner m) -> table_ok trs -> (n <= fuel)%nat ->
  is_Some (run_loop n never (d1, m)) -> is_Some (trace_loop fuel f (state d m trs)).
Proof.
  revert n f d d1 m trs. induction fuel as [|fuel IH]; intros n f d d1 m trs Hd Hd1 Hm Hv Ht Hn Hr; cbn [trace_loop];
    change (dm_inner (ts_run (state d m trs)).2) with (dm_inner m);
    destruct (dc_running (dm_inner m)) eqn:Hrun; try done.
  { replace n with 0%nat in Hr by lia. cbn [run_loop snd] in Hr. by rewrite Hrun in Hr. }
  cbn [state ts_run ts_set_run]. destruct (Pause_has_interrupted _) eqn:Hpause; [done|].
  destruct (f O); [done|].
  pose proof (trace_iteration_spec d m trs Hd Hm Hv Ht Hrun Hpause) as H. unfold state in H.
  change (ts_set_run _ _) with (state d m trs). unfold state.
  destruct (trace_iteration _) as [[[]|e|] s1]; [|done..].
  destruct H as (d' & m' & trs' & k & -> & Hd' & Hm' & Hv' & Ht' & Hk0 & Hk).
  destruct (Hk d1 Hd1) as [Hshort (d2 & Hd2 & E)].
  destruct (Nat.lt_ge_cases n k) as [Hlt|Hge]; [rewrite Hshort in Hr by done; by destruct Hr|].
  replace n with (k + (n - k))%nat in Hr by lia. rewrite E in Hr by done.
  apply (IH (n - k)%nat _ d' d2 m' trs'); try done. lia.
Qed.

Lemma resize_new : table_ok (resize_traces []).
Proof.
  unfold resize_traces. rewrite take_nil, app_nil_l. cbn [length]. rewrite Nat.sub_0_r.
  constructor; [by rewrite length_replicate|]. apply Forall_replicate. by left.
Qed.
End sim.

(** * The theorem *)

Section runs.
Context {Sy De : Type} {HSy : Syscalls (DefaultCoreMachine u64_register (WXorXMemory (FlatMemory u64_register))) Sy}.
Context {HDe : Debugger (DefaultCoreMachine u64_register (WXorXMemory (FlatMemory u64_register))) De}.
Context (m0 : FlatMemory u64_register).
Context {HE : EmbedderOk u64_register (WXorXMemory (FlatMemory u64_register)) (HMO := code_memory_ok m0) Sy De kept}.
Local Abbreviation DM := (DefaultMachine u64_register (WXorXMemory (FlatMemory u64_register)) Sy De).

(** A machine with the code [m0], ready to run. *)
Lemma loaded_ok (m : DM) : dm_ok m -> wx_inner (dc_memory (dm_inner m)) = m0 ->
  flat_ok m0 /\ flat_memory_size m0 < U64_MAX /\
  dm_ok (HMO := code_memory_ok m0) (dm_set_inner (with_running true (dc_reset_signal (dm_inner m)) (dm_inner m)) m).
Proof.
  intros [[] Hc] Hm0. assert (H0 : flat_ok m0) by by rewrite <- Hm0.
  pose proof (fo_size _ H0) as [_ Hz]. pose proof (fo_pages _ H0) as Hp.
  split; [done|]. split; [unfold U64_MAX; lia|]. split; [|done].
  constructor; try done. by split_and!; rewrite <- ?Hm0.
Qed.

Lemma run_started fuel interrupts (m : DM) : VERSION2 <= dc_version (dm_inner m) ->
  Run.run fuel interrupts m = run_loop fuel interrupts
    (decoder0 (dc_isa (dm_inner m)) (dc_version (dm_inner m)),
     dm_set_inner (with_running true (dc_reset_signal (dm_inner m)) (dm_inner m)) m).
Proof.
  intros Hv. unfold Run.run, run_with_decoder. cbn [snd].
  change (version m) with (dc_version (dm_inner m)). unfold VERSION0, VERSION2 in *.
  rewrite (proj2 (Z.eqb_neq (dc_version (dm_inner m)) 0)) by lia. by rewrite andb_false_r.
Qed.
End runs.

(** C6: the trace machine runs programs like the interpreter.  On a 64-bit machine of
    version 2 or later behind the W^X layer, whenever other threads interrupt it: a run of
    the trace machine that ends does not panic, and some run of the interpreter, interrupted
    only if the trace machine is, ends with the same exit code or error in the same machine,
    register by register, byte by byte and cycle by cycle.
    The one difference is that the trace machine decodes a block before it runs it: when
    it ends because some code does not decode, the interpreter ends with an error too,
    but perhaps with that of an instruction before.  And when the interpreter ends without
    an interrupt, so does the trace machine, interrupted or not, within as many iterations. *)
Theorem trace_machine_runs (Sy De : Type)
  (HSy : Syscalls (DefaultCoreMachine u64_register (WXorXMemory (FlatMemory u64_register))) Sy)
  (HDe : Debugger (DefaultCoreMachine u64_register (WXorXMemory (FlatMemory u64_register))) De)
  (m0 : FlatMemory u64_register)
  (HE : EmbedderOk u64_register (WXorXMemory (FlatMemory u64_register)) (HMO := code_memory_ok m0) Sy De kept)
  (fuel : nat) (interrupts : nat -> bool)
  (m : DefaultMachine u64_register (WXorXMemory (FlatMemory u64_register)) Sy De) :
  dm_ok m -> wx_inner (dc_memory (dm_inner m)) = m0 -> VERSION2 <= dc_version (dm_inner m) ->
  (forall o s, trace_run fuel interrupts m = Some (o, s) ->
     o <> Panic /\ exists n interrupts' o' s', raised_by interrupts interrupts' /\
       Run.run n interrupts' m = Some (o', s') /\
       agrees m0 (dc_isa (dm_inner m)) (dc_version (dm_inner m)) o (ts_run s).2 o' s'.2) /\
  (is_Some (Run.run fuel (fun _ => false) m) -> is_Some (trace_run fuel interrupts m)).
Proof.
  intros Hm Hm0 Hv. destruct (loaded_ok m0 m Hm Hm0) as (H0 & Hsize & Hok).
  pose proof (knows_new m0 H0 Hsize (dc_isa (dm_inner m)) (dc_version (dm_inner m))) as Hk.
  split.
  - intros o s Hr. destruct (trace_loop_sim m0 H0 _ _ fuel _ _ _ _ o s Hk Hok Hv (resize_new m0 _ _) Hr) as [Ho Hs].
    split; [done|]. destruct (Hs _ Hk) as (n & g & o' & s' & Hg & E & Ha). exists n, g, o', s'.
    rewrite run_started by done. by split_and!.
  - rewrite run_started by done. intros Hr.
    exact (trace_loop_total m0 H0 _ _ fuel fuel _ _ _ _ _ Hk Hk Hok Hv (resize_new m0 _ _) (Nat.le_refl _) Hr).
Qed.

Lemma code_machine_traces : exists s, trace_run 10 (fun _ => false) code_machine = Some (Ok 5, s).
Proof.
  assert (H : match trace_run 10 (fun _ => false) code_machine with
    | Some (Ok c, _) => c =? 5 | _ => false end = true) by (vm_compute; reflexivity).
  destruct (trace_run 10 (fun _ => false) code_machine) as [[[c|e|] s]|]; try done.
  apply Z.eqb_eq in H as ->. by exists s.
Qed.

Lemma trace_machine_runs_witness : exists s, trace_run 10 (fun _ => false) code_machine = Some (Ok 5, s) /\
  exists n interrupts' o' s', raised_by (fun _ => false) interrupts' /\
    Run.run n interrupts' code_machine = Some (o', s') /\
    agrees code_memory ISA_IMC VERSION2 (Ok 5) (ts_run s).2 o' s'.2.
Proof.
  destruct code_machine_traces as [s E]. exists s. split; [exact E|].
  destruct (trace_machine_runs Empty_set Empty_set none_syscalls none_debugger code_memory
    (none_code_ok kept) 10 (fun _ => false) code_machine code_machine_ok eq_refl (Z.le_refl _)) as [H _].
  exact (proj2 (H (Ok 5) s E)).
Defined.
