(* ===== verification/LibOk.v ===== *)
(** Loading a program and running it (src/src/lib.rs) is safe: [load_elf],
    [initialize_stack], [load_program] and the entry points do not panic, whatever the
    program and its arguments. *)
From S2P Require Import Prelude Outcome Bits Register RegisterFacts Insts Memory MemoryFacts MemoryOk Machine Core Decoder Run Elf ElfFacts MachineOk CoreOk RunOk TraceOk.
From stdpp Require Import base list numbers strings.
Open Scope Z_scope.

(** * Loading *)

Section load.
Context {R : Register} {HR : RegisterOk R} {M : Type} {HM : Memory R M} {HMO : MemoryOk R M} {HMS : MemorySetup R M}.
Local Abbreviation DC := (DefaultCoreMachine R M).
Local Abbreviation safe c Q := (stable (@dc_ok R HR M HM HMO) dc_frame c Q).

(** Bytes, as many as a [usize] counts. *)
Definition bytes_ok (l : list Z) : Prop := Forall is_byte l /\ in_u 64 (Z.of_nat (length l)).

(** A loading action whose source lies in the program. *)
Definition loadable (program : list Z) (a : LoadingAction) : Prop :=
  action_ok a /\ is_Some (bytes_slice program (la_source a)).

Lemma bytes_slice_ok program source l : bytes_ok program -> bytes_slice program source = Some l -> bytes_ok l.
Proof.
  intros [Hb [_ Hl]]. unfold bytes_slice, slice_get. repeat case_match; intros [= <-].
  split; [by apply Forall_take, Forall_drop|]. rewrite length_take, length_drop. split; lia.
Qed.

Lemma load_actions_safe program actions bytes : bytes_ok program -> Forall (loadable program) actions ->
  safe (load_actions program actions bytes) (fun _ => True).
Proof.
  intros Hp Ha. revert bytes. induction Ha as [|a actions [[] [l Hl]] _ IH]; intros bytes; [by apply stable_ret|].
  cbn [load_actions]. eapply stable_bind with (P := fun l' => l' = l); [done|by eapply stable_unwrap|]. intros l' ->.
  pose proof (bytes_slice_ok _ _ _ Hp Hl) as [Hlb Hll].
  eapply stable_bind; [done|by apply dc_memory_mut_safe, mem_init_pages|]. intros _ _.
  eapply stable_bind with (P := fun _ => True); [done|by apply stable_gets|]. intros v _.
  eapply stable_bind with (P := fun _ => True); [done| |].
  - apply stable_if; intros _; [|by apply stable_ret]. apply dc_memory_mut_safe, mem_store_byte; [done..|by split].
  - intros _ _. destruct (checked_add_u64 _ _); [apply IH|by apply stable_fail].
Qed.

(** What loading needs of a parser: metadata of machine integers, about this file. *)
Definition parser_ok (parse : list Z -> Z -> Error + ProgramMetadata) : Prop :=
  forall program version md, bytes_ok program -> Z.of_nat (length program) < 2 ^ 63 ->
    parse program version = inr md -> in_u 64 (pm_entry md) /\ Forall (loadable program) (pm_actions md).

Lemma load_elf_safe parse program b : parser_ok parse -> bytes_ok program -> Z.of_nat (length program) < 2 ^ 63 ->
  safe (load_elf parse program b) (fun _ => True).
Proof.
  intros Hparse Hp Hl. unfold load_elf, load_elf_inner.
  eapply stable_bind with (P := fun _ => True); [done|by apply stable_gets|]. intros v _.
  destruct (parse program v) as [e|md] eqn:E; [by apply stable_fail|].
  destruct (Hparse _ _ _ Hp Hl E) as [He Ha].
  unfold load_binary, load_binary_inner. eapply stable_bind; [done|by apply load_actions_safe|]. intros n _.
  eapply stable_bind with (P := fun _ => True); [done| |intros _ _; by apply stable_ret].
  apply stable_if; intros _; [|by apply stable_ret].
  eapply stable_bind; [done|apply dc_update_pc_safe; auto with regok|]. intros _ _. apply dc_commit_pc_safe.
Qed.

(** * The stack *)

Definition arg_ok (a : arg) : Prop := match a with inl _ => True | inr l => bytes_ok l end.

Lemma set_sp_safe v : reg_ok v -> safe (set_register (Mac := DC) SP v) (fun _ => True).
Proof. by apply dc_set_register_safe. Qed.
Lemma sp_safe : safe (register (Mac := DC) SP) reg_ok.
Proof. by apply dc_register_safe. Qed.
Lemma version_safe : safe (gets (version (Mac := DC))) (fun _ => True).
Proof. by apply stable_gets. Qed.

Lemma push_args_safe args start values : Forall arg_ok args -> Forall reg_ok values ->
  safe (push_args args start values) (Forall reg_ok).
Proof.
  intros Ha. revert values. induction Ha as [|a args Ha _ IH]; intros values Hv; [by apply stable_ret|].
  destruct a as [e|l]; [by apply stable_fail|]. destruct Ha as [Hb Hl]. cbn [push_args]. cbv zeta.
  eapply stable_bind; [done|apply sp_safe|]. intros sp Hsp.
  assert (Hw : in_u 64 (wadd 64 (Z.of_nat (length l)) 1)) by by apply wrap_range.
  assert (Haddr : reg_ok (overflowing_sub sp (from_u64 (wadd 64 (Z.of_nat (length l)) 1)))) by auto with regok.
  set (address := overflowing_sub _ _) in *.
  eapply stable_bind; [done|apply dc_memory_mut_safe, mem_store_bytes; [by apply to_u64_range|done..]|]. intros _ _.
  eapply stable_bind; [done|apply dc_memory_mut_safe, mem_store_byte; [by apply wrap_range|split; lia|by split]|]. intros _ _.
  eapply stable_bind; [done|by apply set_sp_safe|]. intros _ _.
  eapply stable_bind; [done|apply version_safe|]. intros v _.
  apply stable_if; intros _; [by apply stable_fail|]. apply IH. apply Forall_app. split; [done|by constructor].
Qed.

Lemma push_values_safe values : Forall reg_ok values -> safe (push_values values) (fun _ => True).
Proof.
  induction 1 as [|v values Hv _ IH]; [by apply stable_ret|]. cbn [push_values]. cbv zeta.
  eapply stable_bind; [done|apply sp_safe|]. intros sp Hsp.
  assert (Haddr : reg_ok (overflowing_sub sp (from_u8 (BITS R / 8)))).
  { apply ok_sub; [done|]. apply ok_from_u8. destruct (bits_width (R := R)) as [E|E]; rewrite E; by split. }
  set (address := overflowing_sub _ _) in *.
  eapply stable_bind; [done|apply version_safe|]. intros w _.
  eapply stable_bind with (P := fun _ => True); [done| |].
  - apply stable_if; intros _; [apply stable_if; intros _|]; apply dc_memory_mut_safe;
      auto using mem_store32, mem_store64.
  - intros _ _. eapply stable_bind; [done|by apply set_sp_safe|]. by intros _ _.
Qed.

Lemma initialize_stack_safe n args start size : in_u 64 n -> Forall arg_ok args ->
  safe (initialize_stack n args start size) (fun _ => True).
Proof.
  intros Hn Ha. unfold initialize_stack. cbv zeta. eapply stable_bind; [done|apply version_safe|]. intros v _.
  assert (Hw : forall x, in_u 64 (wrap 64 x)) by (intros; by apply wrap_range).
  apply stable_if; intros _.
  - eapply stable_bind; [done| |intros _ _; by apply stable_ret].
    apply set_sp_safe, ok_from_u64, land_range_l; [lia|apply Hw].
  - eapply stable_bind; [done|apply set_sp_safe, ok_from_u64, Hw|]. intros _ _.
    eapply stable_bind with (P := Forall reg_ok); [done| |].
    { apply push_args_safe; [done|]. constructor; [by apply ok_from_u64|constructor]. }
    intros values Hv. eapply stable_bind with (P := Forall reg_ok); [done| |].
    + apply stable_if; intros _; [|by apply stable_ret].
      eapply stable_bind; [done|apply sp_safe|]. intros sp Hsp.
      eapply stable_bind; [done|apply sp_safe|]. intros sp' Hsp'.
      eapply stable_bind; [done| |].
      * apply set_sp_safe, ok_sub; [done|]. apply ok_from_u64, Hw.
      * intros _ _. apply stable_ret; [done|]. apply Forall_app. split; [done|]. constructor; [apply ok_zero|constructor].
    + intros values' Hv'. eapply stable_bind; [done| |].
      * apply push_values_safe. by apply List.Forall_rev.
      * intros _ _. eapply stable_bind; [done|apply sp_safe|]. intros sp Hsp.
        apply stable_if; intros _; [by apply stable_fail|by apply stable_ret].
Qed.
End load.

(** * load_program *)

Section program.
Context {R : Register} {HR : RegisterOk R} {M : Type} {HM : Memory R M} {HMO : MemoryOk R M} {HMS : MemorySetup R M}.
Context {Sy De : Type} {HSy : Syscalls (DefaultCoreMachine R M) Sy}.
Context {HDe : Debugger (DefaultCoreMachine R M) De} {HE : EmbedderOk R M Sy De kept}.
Local Abbreviation DM := (DefaultMachine R M Sy De).

Lemma run_initialize_safe : stable (@dm_ok R HR M HM HMO Sy De) (dm_rel kept) run_initialize (fun _ => True).
Proof.
  intros m [Hm Hf]. pose proof (initialize_syscalls_safe kept (dm_syscalls m) (dm_syscalls m) _ Hm) as H.
  unfold wp, run_initialize in *. destruct (initialize_syscalls _ _) as [[u|e|] [l inner]]; [..|done].
  - destruct H as [H1 H2]. exact (conj I (conj (conj H1 Hf) (conj H2 eq_refl))).
  - destruct H as [H1 H2]. exact (conj (conj H1 Hf) (conj H2 eq_refl)).
Qed.

Lemma run_debugger_initialize_safe :
  stable (@dm_ok R HR M HM HMO Sy De) (dm_rel kept) run_debugger_initialize (fun _ => True).
Proof.
  intros m [Hm Hf]. unfold wp, run_debugger_initialize. destruct (dm_debugger m) as [d|].
  - pose proof (debugger_initialize_ok (d, dm_inner m) Hm) as H. unfold wp in H.
    destruct (debugger_initialize _) as [[u|e|] [d' inner]]; [..|done].
    + destruct H as (_ & H1 & H2). exact (conj I (conj (conj H1 Hf) (conj H2 eq_refl))).
    + destruct H as [H1 H2]. exact (conj (conj H1 Hf) (conj H2 eq_refl)).
  - refine (conj I (conj (conj Hm Hf) _)). reflexivity.
Qed.

Lemma load_program_safe parse program n args : parser_ok parse -> bytes_ok program ->
  Z.of_nat (length program) < 2 ^ 63 -> in_u 64 n -> Forall arg_ok args ->
  stable (@dm_ok R HR M HM HMO Sy De) (dm_rel kept) (load_program parse program n args) (fun _ => True).
Proof.
  intros Hparse Hp Hl Hn Ha. unfold load_program.
  eapply stable_bind; [done|by apply (on_inner_frame kept), load_elf_safe|]. intros b _.
  eapply stable_bind with (P := fun _ => True); [done| |].
  - unfold initialize. eapply stable_bind; [done|apply run_initialize_safe|]. intros _ _.
    eapply stable_bind; [done|apply run_debugger_initialize_safe|]. intros _ _.
    eapply stable_bind with (P := fun _ => True); [done|by apply stable_gets|]. intros size _.
    by apply (on_inner_frame kept), initialize_stack_safe.
  - intros b' _. destruct (checked_add_u64 _ _); [by apply stable_ret|by apply stable_fail].
Qed.
End program.

(** * parse_elf *)

(** The fields goblin returns have their machine widths. *)
Definition goblin_ok (R : Register) (g : Goblin) : Prop :=
  forall program entry hs, bytes_ok program -> read_headers R g program = inr (entry, hs) ->
    in_u 64 entry /\ Forall header_ok hs.

Lemma parse_elf_ok R g0 g1 : goblin_ok R g0 -> goblin_ok R g1 -> parser_ok (parse_elf R g0 g1).
Proof.
  intros H0 H1 program version md Hb Hlen. unfold parse_elf.
  destruct (read_headers R (if _ : bool then g0 else g1) program) as [e|[entry hs]] eqn:E; [done|].
  assert (Hh : in_u 64 entry /\ Forall header_ok hs) by (destruct (version <? VERSION1); [eapply H0|eapply H1]; done).
  destruct Hh as [He Hh].
  pose proof (parse_segments_spec g0 (Z.of_nat (length program)) version hs 0 [] ltac:(lia) Hh ltac:(lia)) as Hs.
  destruct (parse_segments _ _ _ _ _ _) as [e|actions]; [done|]. destruct Hs as (Hac & l & -> & Hde & Hok).
  intros [= <-]. split; [done|]. cbn [pm_actions app].
  apply List.Forall_forall. intros a Hin. apply list_elem_of_In in Hin.
  split; [by eapply Forall_forall in Hok|].
  apply list_elem_of_lookup_1 in Hin as [k Hk].
  destruct (Forall2_lookup_r _ _ _ _ _ Hde Hk) as (h & Hk' & Hd).
  pose proof (Forall_lookup_1 _ _ _ _ Hac Hk') as [Hsrc _ _].
  assert (Hho : header_ok h).
  { unfold loads in Hk'. apply list_elem_of_lookup_2, list_elem_of_filter in Hk' as [_ Hin'].
    by eapply Forall_forall in Hin'. }
  destruct Hho as (_ & [Ho _] & _ & [Hf _] & _).
  unfold bytes_slice. rewrite (de_source _ _ _ _ Hd). cbn [fst snd].
  rewrite (proj2 (Z.leb_le _ _)) by lia. rewrite slice_get_Some by lia. done.
Qed.

(** * The entry points *)

#[local] Instance no_embedder_ok (R : Register) (HR : RegisterOk R) (M : Type) (HM : Memory R M) (HMO : MemoryOk R M) :
  EmbedderOk R (WXorXMemory M) Empty_set Empty_set (HSy := no_syscalls) (HDe := no_debugger) kept.
Proof. split; by intros [[] _]. Qed.

(** C3: the library's entry point never panics.  Whatever bytes the program is and whatever
    its arguments, for either register width and any memory with the contract of a memory
    behind the W^X layer: parsing, loading, setting up the stack and running on the trace
    machine end with an exit code or an error, no index is out of range and no slice of
    the file is taken outside of it. *)
Theorem lib_run_never_panics (R : Register) (HR : RegisterOk R) (M : Type) (HM : Memory R M)
  (HMO : MemoryOk R M) (HMS : MemorySetup R M) (g0 g1 : Goblin) (fuel : nat) (interrupts : nat -> bool)
  (program : list Z) (args : list (list Z)) (memory_size : Z) :
  goblin_ok R g0 -> goblin_ok R g1 ->
  bytes_ok program -> Z.of_nat (length program) < 2 ^ 63 ->
  Forall bytes_ok args -> in_u 64 (Z.of_nat (length args)) ->
  in_u 64 memory_size -> memory_size <= mem_max (M := M) -> memory_size mod RISCV_PAGESIZE = 0 ->
  lib_run_with_memory (M := M) fuel interrupts (parse_elf R g0 g1) program args memory_size <> Some Panic.
Proof.
  intros H0 H1 Hp Hl Ha Hn Hm Hmax Hal. unfold lib_run_with_memory.
  destruct (mem_new_total (M := WXorXMemory M) memory_size Hal) as [mem Emem].
  destruct (dc_new_with_memory _ _ _ _) as [core|e|] eqn:Ecore; [|done|].
  2: { unfold dc_new_with_memory in Ecore. by rewrite Emem in Ecore. }
  pose proof (dc_new_ok (M := WXorXMemory M) _ _ _ _ _ Hm Hmax Hal Ecore) as Hcore.
  set (m := build (builder_new core)).
  assert (Hmo : dm_ok m) by by split.
  assert (Hargs : Forall arg_ok (map inr args)) by (apply List.Forall_map; exact Ha).
  pose proof (load_program_safe (HSy := no_syscalls) (HDe := no_debugger) (parse_elf R g0 g1) program
    (Z.of_nat (length args)) (map inr args) (parse_elf_ok R g0 g1 H0 H1) Hp Hl Hn
    Hargs m Hmo) as Hload.
  unfold wp in Hload. destruct (load_program _ _ _ _ _) as [[b|e|] m1]; [|done..].
  destruct Hload as (_ & Hm1 & _).
  destruct (trace_run _ _ _) as [[o s]|] eqn:Er; [|done].
  destruct (trace_run_safe (HSy := no_syscalls) (HDe := no_debugger) fuel interrupts m1 o s Hm1 Er) as (Ho & _).
  intros [= E]. done.
Qed.

(** ** Witness: a file of one [ecall], on four pages *)

Lemma field_range program off n : Forall is_byte program -> in_u (8 * Z.of_nat n) (field_at program off n).
Proof.
  intros Hb. unfold field_at. pose proof (le_to_Z_range (take n (drop off program)) ltac:(by apply Forall_take, Forall_drop)) as [H1 H2].
  split; [done|]. eapply Z.lt_le_trans; [exact H2|]. apply Z.pow_le_mono_r; [lia|]. rewrite length_take. lia.
Qed.

Lemma elf64_ok : goblin_ok u64_register elf64.
Proof.
  intros program entry hs [Hb _]. unfold read_headers. cbn -[field_at Z.to_nat seq take drop].
  intros [= <- <-]. split; [apply (field_range _ 24 8 Hb)|].
  apply List.Forall_map, List.Forall_map, List.Forall_forall. intros i _.
  assert (Hh : Forall is_byte (take 56 (drop (Z.to_nat (field_at program 32 8) + 56 * i) program)))
    by by apply Forall_take, Forall_drop.
  refine (conj (field_range _ 4 4 Hh) (conj (field_range _ 8 8 Hh) (conj (field_range _ 16 8 Hh)
    (conj (field_range _ 32 8 Hh) (field_range _ 40 8 Hh))))).
Qed.

Lemma tiny_elf_bytes : bytes_ok tiny_elf.
Proof. split; [by apply (bool_decide_unpack _); vm_compute|by split]. Qed.

Lemma lib_run_tiny : lib_run_with_memory (R := u64_register) (M := FlatMemory u64_register) 5 (fun _ => false)
  (parse_elf u64_register elf64 elf64) tiny_elf [[97]; [98; 99]] 0x4000 = Some (Err (InvalidEcall 0)).
Proof. vm_compute. reflexivity. Qed.

Lemma lib_run_never_panics_witness :
  let run := lib_run_with_memory (R := u64_register) (M := FlatMemory u64_register) 5 (fun _ => false)
    (parse_elf u64_register elf64 elf64) tiny_elf [[97]; [98; 99]] 0x4000 in
  run = Some (Err (InvalidEcall 0)) /\ run <> Some Panic.
Proof.
  split; [exact lib_run_tiny|].
  refine (lib_run_never_panics u64_register u64_ok _ _ _ _ elf64 elf64 5 (fun _ => false) tiny_elf _ 0x4000
    elf64_ok elf64_ok tiny_elf_bytes _ _ _ _ _ _); try done.
  repeat constructor; done.
Defined.
