(* ===== verification/StackFacts.v ===== *)
(** What the program finds on its stack: [initialize_stack] writes the arguments and the
    vector of their addresses, and [FlattenedArgsReader] reads them back. *)
From S2P Require Import Prelude Outcome Bits Register RegisterFacts Insts Memory MemoryFacts MemoryOk SparseFacts Machine Core Run Demo CoreOk DecoderOk RunOk.
From stdpp Require Import base list numbers.
Open Scope Z_scope.

Section writes.
Local Abbreviation FM := (FlatMemory u64_register).
Implicit Types m : FM.

(** * What is written *)

(** [m'] is [m] with the bytes [bs] at [a]. *)
Record writes (a : Z) (bs : list Z) m m' : Prop := {
  wr_ok : flat_ok m';
  wr_size : flat_memory_size m' = flat_memory_size m;
  wr_get : flat_get a (Z.of_nat (length bs)) m' = bs;
  wr_other b n : 0 <= b -> 0 <= n -> b + n <= flat_memory_size m -> b + n <= a \/ a + Z.of_nat (length bs) <= b ->
    flat_get b n m' = flat_get b n m;
}.

Definition room (a : Z) (bs : list Z) m : Prop := 0 <= a /\ a + Z.of_nat (length bs) <= flat_memory_size m.

Lemma writes_nil a m : flat_ok m -> writes a [] m m.
Proof. by constructor. Qed.

Lemma put_writes a bs m : flat_ok m -> Forall is_byte bs -> room a bs m -> bs <> [] -> writes a bs m (flat_put a bs m).
Proof.
  intros Hm Hb [Ha Hs] Hne. pose proof (fo_size _ Hm) as [_ Hz].
  assert (0 < Z.of_nat (length bs)) by (destruct bs; [done|cbn; lia]).
  constructor; [|done|by apply flat_get_put|intros b n ????; by apply flat_get_put_ne].
  apply flat_put_ok; [done..|split; lia|split; lia].
Qed.

Lemma flat_get_split a n1 n2 m : 0 <= a -> 0 <= n1 -> 0 <= n2 ->
  flat_get a (n1 + n2) m = flat_get a n1 m ++ flat_get (a + n1) n2 m.
Proof. intros. by rewrite flat_get_app. Qed.

(** Two writes side by side. *)
Lemma writes_app a l1 l2 m m1 m2 : 0 <= a -> a + Z.of_nat (length (l1 ++ l2)) <= flat_memory_size m ->
  writes a l1 m m1 -> writes (a + Z.of_nat (length l1)) l2 m1 m2 -> writes a (l1 ++ l2) m m2.
Proof.
  intros Ha Hs [_ Hz1 Hg1 Ho1] [Hm Hz2 Hg2 Ho2]. rewrite length_app in Hs.
  constructor; [done|congruence| |].
  - rewrite length_app, Nat2Z.inj_add, flat_get_split, Hg2 by lia. rewrite Ho2 by lia. by rewrite Hg1.
  - intros b n ?? Hb Hd. rewrite length_app in Hd. rewrite Ho2 by lia. apply Ho1; lia.
Qed.

(** The second write below the first. *)
Lemma writes_below a l1 l2 m m1 m2 : 0 <= a -> a + Z.of_nat (length (l1 ++ l2)) <= flat_memory_size m ->
  writes (a + Z.of_nat (length l1)) l2 m m1 -> writes a l1 m1 m2 -> writes a (l1 ++ l2) m m2.
Proof.
  intros Ha Hs [_ Hz1 Hg1 Ho1] [Hm Hz2 Hg2 Ho2]. rewrite length_app in Hs.
  constructor; [done|congruence| |].
  - rewrite length_app, Nat2Z.inj_add, flat_get_split, Hg2 by lia. f_equal. rewrite Ho2 by lia. done.
  - intros b n ?? Hb Hd. rewrite length_app in Hd. rewrite Ho2 by lia. apply Ho1; lia.
Qed.

(** A part of what was written. *)
Lemma flat_get_part a n k l m : 0 <= a -> 0 <= k -> 0 <= l -> k + l <= n ->
  flat_get (a + k) l m = take (Z.to_nat l) (drop (Z.to_nat k) (flat_get a n m)).
Proof.
  intros. unfold flat_get. rewrite skipn_firstn_comm, take_take, drop_drop. f_equal; [lia|f_equal; lia].
Qed.

Lemma writes_part a l1 l2 l3 m m' : 0 <= a -> writes a (l1 ++ l2 ++ l3) m m' ->
  flat_get (a + Z.of_nat (length l1)) (Z.of_nat (length l2)) m' = l2.
Proof.
  intros Ha [_ _ Hg _]. erewrite flat_get_part; [rewrite Hg|lia..|rewrite !length_app; lia].
  by rewrite !Nat2Z.id, drop_app_length, take_app_length.
Qed.
End writes.

(** * The layout *)

(** The strings, the first argument on top, each with its terminator. *)
Fixpoint strings (args : list (list Z)) : list Z :=
  match args with
  | [] => []
  | l :: args' => strings args' ++ (l ++ [0])
  end.

(** The addresses of the strings below [sp]. *)
Fixpoint addresses (sp : Z) (args : list (list Z)) : list Z :=
  match args with
  | [] => []
  | l :: args' => let a := sp - Z.of_nat (length (l ++ [0])) in a :: addresses a args'
  end.

Definition words (l : list Z) : list Z := concat (map (Z_to_le 8) l).

Lemma length_words l : length (words l) = (8 * length l)%nat.
Proof. unfold words. induction l as [|x l IH]; [done|]. cbn [map concat length]. rewrite length_app, IH, length_Z_to_le. lia. Qed.

Lemma words_app l1 l2 : words (l1 ++ l2) = words l1 ++ words l2.
Proof. unfold words. by rewrite map_app, concat_app. Qed.

Lemma words_bytes l : Forall is_byte (words l).
Proof. unfold words. induction l as [|x l IH]; [constructor|]. apply Forall_app. split; [apply Z_to_le_bytes|done]. Qed.

Lemma length_addresses sp args : length (addresses sp args) = length args.
Proof. revert sp. induction args as [|l args IH]; intros sp; [done|]. cbn. by rewrite IH. Qed.

(** * The operations on the core machine *)

Section stack.
Local Abbreviation FM := (FlatMemory u64_register).
Local Abbreviation DC := (DefaultCoreMachine u64_register FM).
Context (c : DC) (Hlen : length (dc_registers c) = 32%nat).

(** [c] with another stack pointer and memory. *)
Definition at_sp (sp : Z) (m : FM) : DC :=
  with_memory m (with_registers (<[Z.to_nat SP := (sp : reg u64_register)]> (dc_registers c)) c).

Lemma get_sp sp m : register (Mac := DC) SP (at_sp sp m) = (Ok (sp : reg u64_register), at_sp sp m).
Proof.
  unfold register. cbn [registers default_core_machine at_sp dc_registers with_memory with_registers].
  rewrite list_lookup_insert_eq; [done|]. rewrite Hlen. apply Nat.ltb_lt. reflexivity.
Qed.

Lemma set_sp v sp m : set_register (Mac := DC) SP (v : reg u64_register) (at_sp sp m) = (Ok tt, at_sp v m).
Proof.
  cbn [set_register default_core_machine]. unfold mbind, ST_bind, unwrap. cbn [at_sp dc_registers with_memory with_registers].
  rewrite list_lookup_insert_eq by (rewrite Hlen; apply Nat.ltb_lt; reflexivity).
  unfold mret, ST_ret, modify, at_sp. cbn. by rewrite list_insert_insert_eq.
Qed.

Lemma set_sp_first v : set_register (Mac := DC) SP (v : reg u64_register) c = (Ok tt, at_sp v (dc_memory c)).
Proof.
  cbn [set_register default_core_machine]. unfold mbind, ST_bind, unwrap.
  destruct (lookup_lt_is_Some_2 (dc_registers c) (Z.to_nat SP)) as [w E]; [rewrite Hlen; apply Nat.ltb_lt; reflexivity|].
  rewrite E. unfold at_sp. by destruct c.
Qed.

Lemma on_mem {A} (op : ST FM A) sp m a m' : op m = (Ok a, m') ->
  memory_mut (Mac := DC) op (at_sp sp m) = (Ok a, at_sp sp m').
Proof. intros E. cbn [memory_mut default_core_machine]. unfold zoom. cbn [at_sp dc_memory with_memory]. by rewrite E. Qed.

(** A string with its terminator. *)
Lemma push_string a l m : flat_ok m -> Forall is_byte l -> room a (l ++ [0]) m ->
  exists m1 m2, store_bytes a l m = (Ok tt, m1) /\
    store_byte (wadd 64 a (Z.of_nat (length l))) 1 0 m1 = (Ok tt, m2) /\ writes a (l ++ [0]) m m2.
Proof.
  intros Hm Hb [Ha Hs]. pose proof (fo_size _ Hm) as [_ Hz]. pose proof Hs as Hs'. rewrite length_app in Hs'. cbn [length] in Hs'.
  assert (H1 : exists m1, store_bytes a l m = (Ok tt, m1) /\ writes a l m m1).
  { change (store_bytes a l m) with (flat_store_bytes a l m). unfold flat_store_bytes. cbv zeta.
    destruct (decide (l = [])) as [->|Hne]; [exists m; split; [done|by apply writes_nil]|].
    assert (0 < Z.of_nat (length l)) by (destruct l; [done|cbn; lia]).
    rewrite (proj2 (Z.eqb_neq _ _)) by lia. eexists.
    rewrite flat_store_raw_ok; [|done|split; lia|done|split; lia]. split; [reflexivity|].
    apply put_writes; [done|done|split; lia|done]. }
  destruct H1 as (m1 & E1 & W1). pose proof (wr_ok _ _ _ _ W1) as Hm1. pose proof (wr_size _ _ _ _ W1) as Hz1.
  assert (Ew : wadd 64 a (Z.of_nat (length l)) = a + Z.of_nat (length l)) by (apply wrap_small; split; lia).
  exists m1, (flat_put (a + Z.of_nat (length l)) [0] m1). rewrite Ew. split; [done|].
  assert (W2 : writes (a + Z.of_nat (length l)) [0] m1 (flat_put (a + Z.of_nat (length l)) [0] m1)).
  { apply put_writes; [done|by repeat constructor|split; cbn; lia|done]. }
  split; [|by apply (writes_app a l [0] m m1)].
  change (store_byte ?b 1 0 m1) with (flat_store_byte b 1 0 m1). unfold flat_store_byte. change (1 =? 0) with false. cbv iota.
  apply (flat_store_raw_ok (a + Z.of_nat (length l)) [0] m1); [done|split; lia|done|split; cbn; lia].
Qed.

Lemma push_args_spec start args values sp m : flat_ok m -> Forall (Forall is_byte) args ->
  0 <= start -> start <= sp - Z.of_nat (length (strings args)) -> sp <= flat_memory_size m ->
  exists m', push_args (map inr args) start values (at_sp sp m) =
      (Ok (values ++ addresses sp args : list (reg u64_register)), at_sp (sp - Z.of_nat (length (strings args))) m') /\
    writes (sp - Z.of_nat (length (strings args))) (strings args) m m'.
Proof.
  intros Hm Hb. revert values sp m Hm.
  induction Hb as [|l args Hl _ IH]; intros values sp m Hm Hst Hsp Hsz.
  { exists m. cbn. rewrite app_nil_r, Z.sub_0_r. split; [done|by apply writes_nil]. }
  cbn [strings addresses map push_args]. cbn [strings] in Hsp. rewrite length_app, length_app, Nat2Z.inj_add in Hsp.
  pose proof (fo_size _ Hm) as [_ Hz]. set (n := Z.of_nat (length l + 1)).
  assert (Hn : Z.of_nat (length (l ++ [0])) = n) by (rewrite length_app; done).
  assert (Hn1 : n = Z.of_nat (length l) + 1) by (unfold n; lia). cbn [length] in Hsp.
  set (a := sp - n). destruct (push_string a l m Hm Hl) as (m1 & m2 & E1 & E2 & W); [split; lia|].
  pose proof (wr_ok _ _ _ _ W) as Hm2. pose proof (wr_size _ _ _ _ W) as Hz2.
  destruct (IH (values ++ [a : reg u64_register]) a m2 Hm2 Hst) as (m' & E & W'); [lia..|].
  exists m'. cbv zeta. erewrite bind_Ok by apply get_sp.
  change (@from_u64 u64_register ?x) with x. change (@to_u64 u64_register ?x) with x.
  assert (Ea : @overflowing_sub u64_register sp (wadd 64 (Z.of_nat (length l)) 1) = a).
  { change (wsub 64 sp (wadd 64 (Z.of_nat (length l)) 1) = a). unfold wadd, wsub. rewrite (wrap_small 64 (_ + _)) by (split; lia).
    rewrite wrap_small by (split; lia). lia. }
  rewrite Ea.
  erewrite bind_Ok by (by apply on_mem). erewrite bind_Ok by (by apply on_mem). erewrite bind_Ok by apply set_sp.
  unfold gets, mbind, ST_bind. rewrite (proj2 (Z.ltb_ge a start)) by lia. rewrite andb_false_r.
  rewrite E, <- app_assoc. rewrite (length_app (strings args)), Nat2Z.inj_add, Hn.
  replace (sp - (Z.of_nat (length (strings args)) + n)) with (a - Z.of_nat (length (strings args))) by (unfold a; lia).
  split; [done|].
  apply (writes_below _ _ _ _ m2); [lia|rewrite length_app, Nat2Z.inj_add, Hn; lia| |exact W'].
  by replace (a - Z.of_nat (length (strings args)) + Z.of_nat (length (strings args))) with a by lia.
Qed.

Hypothesis Hversion : VERSION1 <= dc_version c.

Lemma version_at sp m : gets (version (Mac := DC)) (at_sp sp m) = (Ok (dc_version c), at_sp sp m).
Proof. done. Qed.

Lemma push_word a v m : flat_ok m -> in_u 64 v -> room a (Z_to_le 8 v) m ->
  exists m', store64 (a : reg u64_register) (v : reg u64_register) m = (Ok tt, m') /\ writes a (Z_to_le 8 v) m m'.
Proof.
  intros Hm Hv [Ha Hs]. pose proof (fo_size _ Hm) as [_ Hz]. rewrite length_Z_to_le in Hs.
  exists (flat_put a (Z_to_le 8 v) m). split; [|apply put_writes; [done|apply Z_to_le_bytes|by split; rewrite ?length_Z_to_le|done]].
  assert (Ha' : in_u 64 a) by (split; lia).
  destruct (flat_accesses (R := u64_register) m a v Hm Ha' Hv) as (_ & _ & _ & _ & _ & _ & _ & H).
  unfold is_flat_store in H. cbv zeta in H. change (@to_u64 u64_register ?x) with x in H.
  rewrite decide_True in H; [exact H|split; lia].
Qed.

Lemma push_values_spec l sp m : flat_ok m -> Forall (in_u 64) l ->
  0 <= sp - 8 * Z.of_nat (length l) -> sp <= flat_memory_size m ->
  exists m', push_values (R := u64_register) l (at_sp sp m) = (Ok tt, at_sp (sp - 8 * Z.of_nat (length l)) m') /\
    writes (sp - 8 * Z.of_nat (length l)) (words (rev l)) m m'.
Proof.
  intros Hm Hl. revert sp m Hm.
  induction Hl as [|v l Hv _ IH]; intros sp m Hm Hsp Hsz.
  { exists m. cbn. rewrite Z.sub_0_r. split; [done|by apply writes_nil]. }
  cbn [length] in *. rewrite Nat2Z.inj_succ in *. pose proof (fo_size _ Hm) as [_ Hz].
  destruct (push_word (sp - 8) v m Hm Hv) as (m1 & E1 & W1); [split; [lia|rewrite length_Z_to_le; lia]|].
  pose proof (wr_ok _ _ _ _ W1) as Hm1. pose proof (wr_size _ _ _ _ W1) as Hz1.
  destruct (IH (sp - 8) m1 Hm1) as (m' & E & W); [lia..|].
  exists m'. cbn [push_values]. erewrite bind_Ok by apply get_sp. cbv zeta.
  assert (Ea : @overflowing_sub u64_register sp (from_u8 (BITS u64_register / 8)) = sp - 8).
  { change (wsub 64 sp 8 = sp - 8). apply wrap_small. split; lia. }
  rewrite Ea. erewrite bind_Ok by apply version_at.
  rewrite (proj2 (Z.leb_le _ _)) by done. change (BITS u64_register =? 64) with true. cbv iota.
  erewrite bind_Ok by (by apply on_mem). erewrite bind_Ok by apply set_sp. rewrite E.
  replace (sp - 8 - 8 * Z.of_nat (length l)) with (sp - 8 * Z.succ (Z.of_nat (length l))) in * by lia.
  split; [done|]. cbn [rev]. rewrite words_app. unfold words at 2. cbn [map concat]. rewrite app_nil_r.
  apply (writes_below _ _ _ _ m1); [lia|rewrite length_app, length_words, length_rev, length_Z_to_le; lia| |done].
  rewrite length_words, length_rev.
  by replace (sp - 8 * Z.succ (Z.of_nat (length l)) + Z.of_nat (8 * length l)) with (sp - 8) by lia.
Qed.

(** * The stack *)

Context (start size : Z) (args : list (list Z)).
Definition top : Z := start + size.
Definition bottom : Z := top - Z.of_nat (length (strings args)).
(** The count, the addresses and the final null. *)
Definition vector : list Z := Z.of_nat (length args) :: addresses top args ++ [0].
Definition final_sp : Z := (bottom - 8 * Z.of_nat (length vector)) / 16 * 16.

Hypothesis (Hargs : Forall (Forall is_byte) args) (Hne : args <> []).
Hypothesis (Hstart : 0 <= start) (Hfits : start <= final_sp).
Hypothesis (Hmem : flat_ok (dc_memory c)) (Htop : top <= flat_memory_size (dc_memory c)).

Lemma addresses_range sp l : 0 <= sp - Z.of_nat (length (strings l)) -> sp < 2 ^ 64 -> Forall (in_u 64) (addresses sp l).
Proof.
  revert sp. induction l as [|x l IH]; intros sp H1 H2; [constructor|]. cbn [addresses strings] in *.
  rewrite (length_app (strings l)) in H1. constructor; [split; lia|apply IH; lia].
Qed.

Lemma sp_mask u : in_u 64 u -> Z.land u (wnot 64 15) = u / 16 * 16.
Proof.
  intros Hu. transitivity (u - u mod 2 ^ 4); [exact (rounddown_eq u 4 Hu ltac:(lia))|]. change (2 ^ 4) with 16. dlia.
Qed.

Lemma length_vector : Z.of_nat (length vector) = Z.of_nat (length args) + 2.
Proof. unfold vector. cbn [length]. rewrite length_app, length_addresses. cbn [length]. lia. Qed.

(** Nothing wraps around. *)
Lemma stack_bounds : top < 2 ^ 64 /\ 0 <= final_sp /\ final_sp + 8 * Z.of_nat (length vector) <= bottom <= top /\
  bottom - 8 * Z.of_nat (length vector) < final_sp + 16.
Proof.
  pose proof (fo_size _ Hmem) as [_ Hz]. pose proof length_vector. unfold final_sp, bottom in *. split_and!; dlia.
Qed.

Lemma initialize_stack_writes :
  exists m1 m', initialize_stack (Z.of_nat (length args)) (map inr args) start size c = (Ok (top - final_sp), at_sp final_sp m') /\
    writes bottom (strings args) (dc_memory c) m1 /\ writes final_sp (words vector) m1 m'.
Proof.
  destruct stack_bounds as (Htop64 & Hf0 & Hfb & Hal). pose proof length_vector as Hlv.
  assert (0 < Z.of_nat (length args)) by (destruct args; [done|cbn; lia]).
  destruct (push_args_spec start args [Z.of_nat (length args) : reg u64_register] top (dc_memory c) Hmem Hargs) as (m1 & E1 & W1);
    [done|fold bottom; lia|done|].
  fold bottom in E1, W1. pose proof (wr_ok _ _ _ _ W1) as Hm1. pose proof (wr_size _ _ _ _ W1) as Hz1.
  set (w := 8 * Z.of_nat (length vector)) in *.
  destruct (push_values_spec (rev vector) (final_sp + w) m1 Hm1) as (m' & E2 & W2).
  { apply List.Forall_rev. unfold vector. constructor; [split; lia|]. apply Forall_app. split; [|repeat constructor; done].
    apply addresses_range; [fold bottom; lia|done]. }
  { rewrite length_rev. fold w. lia. }
  { lia. }
  rewrite length_rev in E2, W2. fold w in E2, W2. replace (final_sp + w - w) with final_sp in E2, W2 by lia.
  rewrite rev_involutive in W2. exists m1, m'. split; [|done].
  unfold initialize_stack. cbv zeta. erewrite (bind_Ok (gets _)) by reflexivity.
  change (version c) with (dc_version c). rewrite (proj2 (Z.leb_le VERSION1 _)), (proj2 (Z.eqb_neq _ 0)) by (done || lia).
  cbn [andb]. change (@from_u64 u64_register) with (fun x : Z => x). cbv beta.
  assert (Et : wadd 64 start size = top) by (apply wrap_small; unfold top in *; split; lia). rewrite Et.
  erewrite bind_Ok by apply set_sp_first. erewrite bind_Ok by exact E1.
  change (([Z.of_nat (length args)] ++ addresses top args) ++ [@r_zero u64_register]) with vector.
  change (@to_u64 u64_register) with (fun x : Z => x). cbv beta. change (BITS u64_register / 8) with 8.
  change (8 * Z.of_nat (@length (reg u64_register) vector)) with w.
  rewrite (wrap_small 64 w) by (split; lia).
  change (@overflowing_sub u64_register) with (wsub 64).
  assert (Eu : wsub 64 bottom w = bottom - w) by (apply wrap_small; split; lia).
  unfold mbind, ST_bind. rewrite get_sp, Eu, sp_mask by (split; lia). fold w. change ((bottom - w) / 16 * 16) with final_sp.
  rewrite get_sp. assert (Ed : wsub 64 bottom (wsub 64 (bottom - w) final_sp) = final_sp + w)
    by (unfold wsub; rewrite (wrap_small 64 (bottom - w - final_sp)), wrap_small by (split; lia); lia).
  rewrite Ed, set_sp. cbn [mret ST_ret]. change (@rev (reg u64_register) vector) with (@rev Z vector). rewrite E2, get_sp.
  rewrite (proj2 (Z.ltb_ge final_sp start)) by done.
  unfold wsub. by rewrite wrap_small by (split; lia).
Qed.
End stack.

(** * Reading the arguments back *)

Section reader.
Local Abbreviation FM := (FlatMemory u64_register).
Context (m : FM) (Hm : flat_ok m).

(** What a client of the iterator collects. *)
Fixpoint read_args (n fuel : nat) (r : FlattenedArgsReader u64_register) (m : FM) : option (list (list Z)) :=
  match n with
  | O => None
  | S n' =>
      match far_next fuel r m with
      | Some (None, _, _) => Some []
      | Some (Some (Ok l), r', m') => cons l <$> read_args n' fuel r' m'
      | _ => None
      end
  end.

Lemma in_bounds_room a n : 0 <= a -> 0 < n -> a + n <= flat_memory_size m -> in_bounds a n (flat_memory_size m) /\ in_u 64 a.
Proof. pose proof (fo_size _ Hm) as [_ ?]. unfold in_bounds. repeat split; lia. Qed.

Lemma read_word a v : 0 <= a -> a + 8 <= flat_memory_size m -> in_u 64 v -> flat_get a 8 m = Z_to_le 8 v ->
  load64 (a : reg u64_register) m = (Ok (v : reg u64_register), m).
Proof.
  intros Ha Hs Hv E. destruct (in_bounds_room a 8) as [Hb Hu]; [lia..|].
  destruct (flat_accesses (R := u64_register) m a a Hm Hu Hu) as (_ & _ & _ & H & _).
  unfold is_flat_load in H. cbv zeta in H. change (@to_u64 u64_register) with (fun x : Z => x) in H. cbv beta in H.
  rewrite decide_True in H by exact Hb. change (Z.of_nat 8) with 8 in H. rewrite E, le_to_Z_to_le, wrap_small in H by exact Hv. exact H.
Qed.

Lemma read_byte a b : 0 <= a -> a + 1 <= flat_memory_size m -> is_byte b -> flat_get a 1 m = [b] ->
  load8 (a : reg u64_register) m = (Ok (b : reg u64_register), m).
Proof.
  intros Ha Hs Hv E. destruct (in_bounds_room a 1) as [Hb Hu]; [lia..|].
  destruct (flat_accesses (R := u64_register) m a a Hm Hu Hu) as (H & _).
  unfold is_flat_load in H. cbv zeta in H. change (@to_u64 u64_register) with (fun x : Z => x) in H. cbv beta in H.
  rewrite decide_True in H by exact Hb. change (Z.of_nat 1) with 1 in H. rewrite E in H.
  change (le_to_Z [b]) with (b + 256 * 0) in H. rewrite Z.add_0_r in H. exact H.
Qed.

Lemma read_string l fuel a buffer : 0 <= a -> a + Z.of_nat (length (l ++ [0])) <= flat_memory_size m ->
  Forall (fun b => is_byte b /\ b <> 0) l -> flat_get a (Z.of_nat (length (l ++ [0]))) m = l ++ [0] ->
  (length l < fuel)%nat ->
  load_c_string_loop fuel (a : reg u64_register) buffer m = Some (Ok (buffer ++ l), m).
Proof.
  intros Ha Hs Hl. revert fuel a buffer Ha Hs. pose proof (fo_size _ Hm) as [_ Hz].
  induction Hl as [|b l [Hb Hb0] _ IH]; intros fuel a buffer Ha Hs E Hf; (destruct fuel as [|fuel]; [cbn in Hf; lia|]); cbn [load_c_string_loop].
  - cbn in Hs. rewrite (read_byte a 0) by (done || lia). by rewrite app_nil_r.
  - cbn [app length] in *. rewrite Nat2Z.inj_succ in *. rewrite <- Z.add_1_l, flat_get_split in E by lia.
    assert (Hg : flat_get a 1 m = [b] /\ flat_get (a + 1) (Z.of_nat (length (l ++ [0]))) m = l ++ [0]).
    { apply (app_inj_1 _ [b]); [|exact E]. rewrite (flat_get_length a 1 m) by (done || lia). done. }
    destruct Hg as [E1 E2]. rewrite (read_byte a b) by (done || lia). cbv zeta.
    assert (Eb : @to_u8 u64_register b = b) by (apply wrap_small; exact Hb).
    rewrite Eb, (proj2 (Z.eqb_neq b 0)) by done.
    assert (Ea : @overflowing_add u64_register a (from_u8 1) = a + 1)
      by (change (wadd 64 a 1 = a + 1); apply wrap_small; split; lia).
    rewrite Ea, IH by (done || lia). by rewrite <- app_assoc.
Qed.

Lemma reached cidx argc : (to_u8 (@r_ge u64_register cidx argc) =? 1) = (argc <=? cidx).
Proof.
  unfold r_ge. change (@r_lt u64_register cidx argc) with (b2r (cidx <? argc)).
  destruct (Z.leb_spec argc cidx), (Z.ltb_spec cidx argc); (reflexivity || lia).
Qed.

(** The iterator over a vector of addresses and the strings they point to. *)
Lemma read_args_spec args fuel sp argv cidx argc : Forall (Forall (fun b => is_byte b /\ b <> 0)) args ->
  Forall (fun l => (length l < fuel)%nat) args ->
  0 <= cidx -> argc = cidx + Z.of_nat (length args) -> argc < 2 ^ 64 ->
  0 <= argv -> argv + Z.of_nat (length (words (addresses sp args))) <= flat_memory_size m ->
  flat_get argv (Z.of_nat (length (words (addresses sp args)))) m = words (addresses sp args) ->
  0 <= sp - Z.of_nat (length (strings args)) -> sp <= flat_memory_size m ->
  flat_get (sp - Z.of_nat (length (strings args))) (Z.of_nat (length (strings args))) m = strings args ->
  read_args (S (length args)) fuel {| far_argc := (argc : reg u64_register); far_argv := (argv : reg u64_register); far_cidx := (cidx : reg u64_register) |} m
  = Some args.
Proof.
  intros Ha Hfuel. revert sp argv cidx. pose proof (fo_size _ Hm) as [_ Hz].
  induction args as [|l args IH]; intros sp argv cidx Hc Hargc Hmax Hv Hvs Ev Hs Hss Es; cbn [length read_args]; unfold far_next at 1;
    cbn [far_cidx far_argc far_argv]; rewrite reached.
  { cbn in Hargc. by rewrite (proj2 (Z.leb_le _ _)) by lia. }
  apply Forall_cons_1 in Ha as [Hl Ha]. apply Forall_cons_1 in Hfuel as [Hlf Hfuel].
  cbn [length addresses strings] in *. rewrite (proj2 (Z.leb_gt _ _)) by lia.
  change (BITS u64_register =? 32) with false. change (BITS u64_register =? 64) with true. cbv iota.
  set (n := Z.of_nat (length (l ++ [0]))) in *. rewrite length_app, Nat2Z.inj_add in *. fold n in Hs, Es.
  set (k := Z.of_nat (length (strings args))) in *. set (a := sp - n) in *.
  assert (Hn : 0 < n) by (unfold n; rewrite length_app; cbn; lia). assert (Hk : 0 <= k) by lia.
  change (words (a :: addresses a args)) with (Z_to_le 8 a ++ words (addresses a args)) in *.
  rewrite length_app, length_Z_to_le, Nat2Z.inj_add in *. change (Z.of_nat 8) with 8 in *.
  set (w := Z.of_nat (length (words (addresses a args)))) in *.
  rewrite flat_get_split in Ev by lia. apply app_inj_1 in Ev as [Ev1 Ev2];
    [|by rewrite flat_get_length, length_Z_to_le by (done || lia)].
  rewrite flat_get_split in Es by lia. apply app_inj_1 in Es as [Es1 Es2];
    [|rewrite flat_get_length by (done || lia); unfold k; lia].
  replace (sp - (k + n) + k) with a in Es2 by (unfold a; lia).
  replace (sp - (k + n)) with (a - k) in Es1 by (unfold a; lia).
  rewrite (read_word argv a) by (done || lia || (split; lia)).
  unfold load_c_string_byte_by_byte. rewrite (read_string l fuel a []) by (done || lia).
  assert (E1 : @overflowing_add u64_register argv (from_u8 (BITS u64_register / 8)) = argv + 8)
    by (change (wadd 64 argv 8 = argv + 8); apply wrap_small; split; lia).
  assert (E2 : @overflowing_add u64_register cidx (from_u8 1) = cidx + 1)
    by (change (wadd 64 cidx 1 = cidx + 1); apply wrap_small; split; lia).
  rewrite E1, E2, app_nil_l. cbn [read_args] in IH. rewrite (IH Ha Hfuel a (argv + 8) (cidx + 1)) by (done || lia). done.
Qed.
End reader.

(** * The theorem *)

Lemma words_vector start size args : words (vector start size args) =
  Z_to_le 8 (Z.of_nat (length args)) ++ words (addresses (top start size) args) ++ Z_to_le 8 0.
Proof.
  unfold vector. change (words (?x :: ?l)) with (Z_to_le 8 x ++ words l). by rewrite words_app.
Qed.

(** C16: programs get their arguments.  When the arguments, C strings, fit into the stack,
    [initialize_stack] succeeds; the stack pointer is 16-byte aligned and inside the
    stack; there the program finds the count, the vector of the arguments' addresses and
    a null; the iterator [FlattenedArgsReader] over that vector returns exactly the
    arguments, in order, and then ends; and memory below the stack pointer and above the
    stack is untouched. *)
Theorem stack_roundtrip (c : DefaultCoreMachine u64_register (FlatMemory u64_register))
  (start size : Z) (args : list (list Z)) (fuel : nat) :
  let m := dc_memory c in
  let argc := Z.of_nat (length args) in
  let sp := final_sp start size args in
  length (dc_registers c) = 32%nat -> flat_ok m -> VERSION1 <= dc_version c ->
  args <> [] -> Forall (Forall (fun b => is_byte b /\ b <> 0)) args -> Forall (fun l => (length l < fuel)%nat) args ->
  0 <= start -> start <= sp -> start + size <= flat_memory_size m ->
  exists c', initialize_stack argc (map inr args) start size c = (Ok (start + size - sp), c') /\
    let m' := dc_memory c' in
    dc_registers c' !! Z.to_nat SP = Some (sp : reg u64_register) /\ sp mod 16 = 0 /\
    load64 (sp : reg u64_register) m' = (Ok (argc : reg u64_register), m') /\
    load64 (sp + 8 + 8 * argc : reg u64_register) m' = (Ok (0 : reg u64_register), m') /\
    read_args (S (length args)) fuel (far_new (argc : reg u64_register) (sp + 8 : reg u64_register)) m' = Some args /\
    forall b n, 0 <= b -> 0 <= n -> b + n <= flat_memory_size m -> b + n <= sp \/ start + size <= b ->
      flat_get b n m' = flat_get b n m.
Proof.
  intros m argc sp Hlen Hm Hv Hne Hargs Hfuel Hstart Hfits Htop.
  assert (Hbytes : Forall (Forall is_byte) args)
    by (eapply List.Forall_impl, Hargs; intros l Hl; eapply List.Forall_impl, Hl; by intros ? []).
  destruct (initialize_stack_writes c Hlen Hv start size args Hbytes Hne Hstart Hfits Hm Htop) as (m1 & m' & E & W1 & W2).
  destruct (stack_bounds c Hlen start size args Hstart Hfits Hm Htop) as (H64 & Hf0 & [Hfb Hbt] & _).
  fold sp in E, W2, Hf0, Hfb. pose proof (wr_ok _ _ _ _ W2) as Hm'.
  assert (Hz : flat_memory_size m' = flat_memory_size m) by (rewrite (wr_size _ _ _ _ W2); apply W1).
  pose proof (length_vector c Hlen start size args) as Hlv. fold argc in Hlv.
  exists (at_sp c sp m'). split; [exact E|]. cbv zeta. cbn [at_sp dc_memory dc_registers with_memory with_registers].
  rewrite words_vector in W2. set (ws := words (addresses (top start size) args)) in *.
  assert (Hws : Z.of_nat (length ws) = 8 * argc) by (unfold ws; rewrite length_words, length_addresses; unfold argc; lia).
  assert (Hlw : forall x, Z.of_nat (length (Z_to_le 8 x)) = 8) by (intros; by rewrite length_Z_to_le).
  pose proof (writes_part sp [] _ _ _ _ Hf0 W2) as G1. rewrite Z.add_0_r, Hlw in G1.
  pose proof (writes_part sp (Z_to_le 8 (Z.of_nat (length args))) _ _ _ _ Hf0 W2) as G2. rewrite Hlw in G2.
  assert (G3 : flat_get (sp + 8 + 8 * argc) 8 m' = Z_to_le 8 0).
  { rewrite app_assoc, <- (app_nil_r (Z_to_le 8 0)) in W2.
    pose proof (writes_part sp _ _ _ _ _ Hf0 W2) as G. rewrite length_app, Nat2Z.inj_add, !Hlw, Hws in G.
    by rewrite Z.add_assoc in G. }
  assert (G4 : flat_get (bottom start size args) (Z.of_nat (length (strings args))) m' = strings args).
  { rewrite (wr_other _ _ _ _ W2); [apply W1|lia|lia| |].
    - rewrite (wr_size _ _ _ _ W1). unfold bottom, top in *. fold m. lia.
    - right. rewrite !length_app, !Nat2Z.inj_add, !Hlw, Hws. lia. }
  unfold bottom, top in *. pose proof (fo_size _ Hm) as [_ Hsz]. pose proof length_Z_to_le.
  split_and!.
  - apply list_lookup_insert_eq. rewrite Hlen. apply Nat.ltb_lt. reflexivity.
  - unfold sp, final_sp. apply Z_mod_mult.
  - apply read_word; [done|lia|lia|split; lia|exact G1].
  - apply read_word; [done|lia|lia|by split|exact G3].
  - unfold far_new. apply (read_args_spec m' Hm' args fuel (start + size)); try done; try lia.
    change (words (addresses (start + size) args)) with ws. rewrite Hws. lia.
  - intros b n Hb Hn Hbn Hd. rewrite (wr_other _ _ _ _ W2); [apply (wr_other _ _ _ _ W1); [done|done|done|]|done|done| |].
    + lia.
    + rewrite (wr_size _ _ _ _ W1). exact Hbn.
    + rewrite !length_app, !Nat2Z.inj_add, !Hlw, Hws. lia.
Qed.

(** [argv = ["a"; "bc"]] on the last kilobyte of the demo machine *)
Lemma stack_roundtrip_witness :
  let args := [[97]; [98; 99]] in
  final_sp 3072 1024 args = 4048 /\
  exists c', initialize_stack 2 (map inr args) 3072 1024 core0 = (Ok 48, c') /\
    load64 (4048 : reg u64_register) (dc_memory c') = (Ok (2 : reg u64_register), dc_memory c') /\
    read_args 3 10 (far_new (2 : reg u64_register) (4056 : reg u64_register)) (dc_memory c') = Some args.
Proof.
  intros args. split; [reflexivity|].
  assert (Hm : flat_ok memory0) by exact (dc_ok_memory _ (proj1 machine0_ok)).
  destruct (stack_roundtrip core0 3072 1024 args 10) as (c' & E & _ & _ & H1 & _ & H2 & _);
    [reflexivity|exact Hm|vm_compute; discriminate|done| | |done|vm_compute; discriminate|vm_compute; discriminate|].
  - repeat constructor; done.
  - repeat constructor; apply Nat.ltb_lt; reflexivity.
  - exists c'. exact (conj E (conj H1 H2)).
Defined.
