(* ===== verification/CkbVmRunner.v ===== *)
(** The command line runner (src/examples/ckb_vm_runner.rs): its syscall [DebugSyscall],
    an implementation of [Syscalls] that prints a string of the guest, and its interpreter
    modes, which load a program with its arguments and run it.

    Standard output is part of the model: the strings printed are the state of
    [DebugSyscall].  Reading the command line and the file is not modelled. *)
From S2P Require Import Prelude Outcome Bits Register RegisterFacts Insts Memory MemoryFacts MemoryOk Machine Core Execute Decoder Run Asm Traces StackFacts Demo.
From stdpp Require Import base list numbers strings.
Open Scope Z_scope.

(** * Strings *)

Definition between (lo hi b : Z) : bool := (lo <=? b) && (b <=? hi).
Definition continuation : Z -> bool := between 0x80 0xBF.

(** [String::from_utf8] accepts the bytes. *)
Fixpoint from_utf8 (l : list Z) : bool :=
  match l with
  | [] => true
  | b0 :: l1 =>
      if between 0 0x7F b0 then from_utf8 l1 else
      match l1 with
      | [] => false
      | b1 :: l2 =>
          if between 0xC2 0xDF b0 then continuation b1 && from_utf8 l2 else
          match l2 with
          | [] => false
          | b2 :: l3 =>
              if between 0xE0 0xEF b0 then
                between (if b0 =? 0xE0 then 0xA0 else 0x80) (if b0 =? 0xED then 0x9F else 0xBF) b1 &&
                continuation b2 && from_utf8 l3
              else
                match l3 with
                | [] => false
                | b3 :: l4 =>
                    between 0xF0 0xF4 b0 &&
                    between (if b0 =? 0xF0 then 0x90 else 0x80) (if b0 =? 0xF4 then 0x8F else 0xBF) b1 &&
                    continuation b2 && continuation b3 && from_utf8 l4
                end
          end
      end
  end.

Example utf8_ascii : from_utf8 [104; 105] = true. Proof. reflexivity. Qed.
Example utf8_euro : from_utf8 [0xE2; 0x82; 0xAC] = true. Proof. reflexivity. Qed.
Example utf8_surrogate : from_utf8 [0xED; 0xA0; 0x80] = false. Proof. reflexivity. Qed.

(** * DebugSyscall *)

(** The strings printed so far. *)
Definition DebugSyscall : Type := list (list Z).

(** What is printed at the end: the exit code or error, the cycles and the number in a1;
    and what the program has printed. *)
Record Report := {
  rp_exit : outcome Z;
  rp_cycles : Z;
  rp_a1 : option Z;
  rp_printed : list DebugSyscall;
}.

Section syscall.
Context {R : Register} {M : Type} `{!Memory R M}.
Local Abbreviation DC := (DefaultCoreMachine R M).

(** The loop that reads the string; [None] when the fuel runs out. *)
Fixpoint debug_string (fuel : nat) (addr : Z) (buffer : list Z) (m : M) : option (outcome (list Z) * M) :=
  match fuel with
  | O => None
  | S fuel' =>
      match load8 (from_u64 addr) m with
      | (Ok v, m') =>
          let byte := to_u8 v in
          if byte =? 0 then Some (Ok buffer, m')
          else debug_string fuel' (wadd 64 addr 1) (buffer ++ [byte]) m'
      | (Err e, m') => Some (Err e, m')
      | (Panic, m') => Some (Panic, m')
      end
  end.

(** One byte more than the memory has is enough fuel ([debug_string_ends]). *)
Definition debug_fuel (m : M) : nat := Z.to_nat (memory_size m + 1).

Definition debug_ecall : ST (DebugSyscall * DC) bool := fun '(printed, m) =>
  match registers m !! Z.to_nat A7, registers m !! Z.to_nat A0 with
  | Some code, Some a0 =>
      if negb (to_i32 code =? 2177) then (Ok false, (printed, m))
      else
        match debug_string (debug_fuel (memory m)) (to_u64 a0) [] (memory m) with
        | None => (Panic, (printed, m))
        | Some (Ok buffer, mem) =>
            let m := with_memory mem m in
            if from_utf8 buffer then (Ok true, (printed ++ [buffer], m)) else (Panic, (printed, m))
        | Some (Err e, mem) => (Err e, (printed, with_memory mem m))
        | Some (Panic, mem) => (Panic, (printed, with_memory mem m))
        end
  | _, _ => (Panic, (printed, m))
  end.

#[export] Instance debug_syscalls : Syscalls DC DebugSyscall := {
  syscall_initialize := mret tt;
  syscall_ecall := debug_ecall;
}.

(** No debugger. *)
#[local] Instance runner_debugger : Debugger DC Empty_set := {
  debugger_initialize := fun '(s, _) => match s with end;
  debugger_ebreak := fun '(s, _) => match s with end }.

(** * The interpreter modes *)

(** [main_interpreter32] and [main_interpreter64], which differ in the register type. *)
Definition main_interpreter (fuel : nat) (interrupts : nat -> bool)
  (parse : list Z -> Z -> Error + ProgramMetadata) (code : list Z) (args : list (list Z))
  : option (outcome Report) :=
  match dc_new (Z.lor (Z.lor (Z.lor ISA_IMC ISA_B) ISA_A) ISA_MOP) VERSION2 U64_MAX with
  | Ok core_machine =>
      let machine := build (De := Empty_set)
        (builder_syscall [] (builder_instruction_cycle_func estimate_cycles (builder_new core_machine))) in
      match load_program parse code (Z.of_nat (length args)) (map inr args) machine with
      | (Ok _, machine) =>
          '(exit, s) ← run fuel interrupts machine;
          Some (Ok {| rp_exit := exit; rp_cycles := dc_cycles (dm_inner s.2);
                      rp_a1 := to_u64 <$> registers s.2 !! Z.to_nat A1; rp_printed := dm_syscalls s.2 |})
      | (Err e, _) => Some (Err e)
      | (Panic, _) => Some Panic
      end
  | Err e => Some (Err e)
  | Panic => Some Panic
  end.
End syscall.

(** [main_asm64], given the assembly interpreter: its entry point, the address it is
    loaded at and the labels of its instructions. *)
Section asm.
Context (asm_labels : Z -> Z) (asm_execute_address : Z).
Context (ckb_vm_asm_execute : InvokeData -> AsmCoreMachine -> Z * AsmCoreMachine).

#[local] Instance asm_debugger : Debugger AsmCoreMachine Empty_set := {
  debugger_initialize := fun '(s, _) => match s with end;
  debugger_ebreak := fun '(s, _) => match s with end }.
#[local] Instance asm_decoder : TraceDecoder (Sy := DebugSyscall) (De := Empty_set)
    (SimpleFixedTraceDecoder (D := DefaultDecoder)) :=
  sf_trace_decoder asm_labels asm_execute_address.

Definition main_asm64 (fuel : nat) (interrupts : nat -> bool) (chaos_mode_by_default : bool) (garbage : list Z)
  (parse : list Z -> Z -> Error + ProgramMetadata) (code : list Z) (args : list (list Z))
  : option (outcome Report) :=
  match AsmCoreMachine_new chaos_mode_by_default garbage
          (Z.lor (Z.lor (Z.lor ISA_IMC ISA_B) ISA_A) ISA_MOP) VERSION2 U64_MAX DEFAULT_MEMORY_SIZE with
  | Ok asm_core =>
      let core := build (De := Empty_set)
        (builder_syscall [] (builder_instruction_cycle_func estimate_cycles (builder_new asm_core))) in
      match load_program parse code (Z.of_nat (length args)) (map inr args) core with
      | (Ok _, machine) =>
          '(exit, s) ← asm_run ckb_vm_asm_execute fuel 0 interrupts machine;
          Some (Ok {| rp_exit := exit; rp_cycles := dc_cycles (dm_inner s.2);
                      rp_a1 := to_u64 <$> registers s.2 !! Z.to_nat A1; rp_printed := dm_syscalls s.2 |})
      | (Err e, _) => Some (Err e)
      | (Panic, _) => Some Panic
      end
  | Err e => Some (Err e)
  | Panic => Some Panic
  end.

(** [main], from the mode on; the interpreters run on the sparse memory. *)
Definition main (fuel : nat) (interrupts : nat -> bool) (chaos_mode_by_default : bool) (garbage : list Z)
  (parse : list Z -> Z -> Error + ProgramMetadata) (mode : string) (code : list Z) (program_args : list (list Z))
  : option (outcome Report) :=
  if decide (mode = "asm64"%string) then
    main_asm64 fuel interrupts chaos_mode_by_default garbage parse code program_args
  else if decide (mode = "interpreter32"%string) then
    main_interpreter (R := u32_register) (M := SparseMemory u32_register) fuel interrupts parse code program_args
  else if decide (mode = "interpreter64"%string) then
    main_interpreter (R := u64_register) (M := SparseMemory u64_register) fuel interrupts parse code program_args
  else Some Panic.
End asm.

(** * What DebugSyscall does *)

Section facts.
Context (m : FlatMemory u64_register) (Hm : flat_ok m).

(** It reads the string as [load_c_string_byte_by_byte] does. *)
Lemma debug_string_c_string fuel a buffer mem :
  debug_string fuel a buffer mem = load_c_string_loop fuel (a : reg u64_register) buffer (mem : FlatMemory u64_register).
Proof.
  revert a buffer mem. induction fuel as [|fuel IH]; intros a buffer mem; [done|].
  cbn [debug_string load_c_string_loop]. change (@from_u64 u64_register a) with a.
  destruct (load8 (a : reg u64_register) mem) as [[v|e|] mem']; [|done..]. cbv zeta. destruct (_ =? 0); [done|].
  rewrite IH. done.
Qed.

(** Behind the end of the memory the loop ends with an error, so it always ends. *)
Lemma debug_string_ends fuel a buffer : in_u 64 a -> (Z.to_nat (flat_memory_size m - a) < fuel)%nat ->
  exists o, debug_string fuel a buffer m = Some (o, m) /\ o <> Panic.
Proof.
  revert a buffer. pose proof (fo_size _ Hm) as [_ Hz].
  induction fuel as [|fuel IH]; intros a buffer Ha Hf; [lia|]. cbn [debug_string].
  change (@from_u64 u64_register a) with a.
  destruct (flat_accesses (R := u64_register) m a a Hm Ha Ha) as (H & _).
  unfold is_flat_load in H. cbv zeta in H. change (@to_u64 u64_register) with (fun x : Z => x) in H. cbv beta in H.
  change (Z.of_nat 1) with 1 in H. change (load8 (a : reg u64_register) m) with (flat_load8 (R := u64_register) a m).
  destruct (decide (in_bounds a 1 (flat_memory_size m))) as [Hb|Hb].
  - rewrite H. cbv zeta. destruct (_ =? 0); [by eexists|]. destruct Hb, Ha.
    assert (Ew : wadd 64 a 1 = a + 1) by (apply wrap_small; split; lia).
    rewrite Ew. apply IH; [split; lia|lia].
  - destruct H as [b E]. rewrite E. by eexists.
Qed.
End facts.

(** A string of the guest, printed - or a panic when it is not UTF-8. *)
Lemma debug_ecall_prints (printed : DebugSyscall) (l : list Z)
  (m : DefaultCoreMachine u64_register (FlatMemory u64_register)) a :
  flat_ok (dc_memory m) -> 0 <= a ->
  dc_registers m !! Z.to_nat A7 = Some (2177 : reg u64_register) -> dc_registers m !! Z.to_nat A0 = Some (a : reg u64_register) ->
  a + Z.of_nat (length (l ++ [0])) <= flat_memory_size (dc_memory m) ->
  Forall (fun b => is_byte b /\ b <> 0) l ->
  flat_get a (Z.of_nat (length (l ++ [0]))) (dc_memory m) = l ++ [0] ->
  debug_ecall (printed, m) = if from_utf8 l then (Ok true, (printed ++ [l], m)) else (Panic, (printed, m)).
Proof.
  intros Hm Ha E7 E0 Hs Hl Eg. unfold debug_ecall. change (registers m) with (dc_registers m). rewrite E7, E0.
  change (@to_i32 u64_register (2177 : reg u64_register)) with 2177. cbn [Z.eqb negb].
  change (@to_u64 u64_register a) with a. change (memory m) with (dc_memory m).
  rewrite debug_string_c_string, (read_string (dc_memory m) Hm l _ a []); try done.
  - cbn [app]. by destruct m.
  - unfold debug_fuel. change (memory_size (dc_memory m)) with (flat_memory_size (dc_memory m)).
    rewrite length_app in Hs. cbn in Hs. lia.
Qed.
