(* ===== verification/Tracked.v ===== *)
(** Snapshots of the second version: the context stays right about its pages.

    A write to the memory leaves a page as it is or marks it dirty ([keeps_clean]), so
    the guest cannot make the context wrong; nor do the context's own operations. *)
From S2P Require Import Prelude Outcome Bits Register RegisterFacts Insts Memory MemoryFacts.
From S2P Require Import MemoryOk WXorXFacts SparseFacts Machine Core Snapshot Snapshot2 Run Demo Pages.
From S2P Require Import SnapshotFacts Snapshot2Facts Snapshot2Resume MachineOk CoreOk RunOk.
From stdpp Require Import base list numbers gmap sorting.
Open Scope Z_scope.

Local Abbreviation FM := (FlatMemory u64_register).
Local Abbreviation DC := (DefaultCoreMachine u64_register FM).

(** * Writes mark pages dirty *)

Section keeps.
Implicit Types m : FM.

Definition is_dirty (o : option Z) : bool := match o with Some f => dirty f | None => false end.

(** Every page is the same, or is dirty now. *)
Definition keeps_clean m m' : Prop :=
  pages m' = pages m /\
  forall q, 0 <= q < pages m ->
    is_dirty (flag_of q m') = true \/ flag_of q m' = flag_of q m /\ page_of q m' = page_of q m.

#[export] Instance keeps_clean_preorder : PreOrder keeps_clean.
Proof.
  split; unfold keeps_clean.
  - intros m. split; [done|]. by right.
  - intros m1 m2 m3 [H1 H2] [H3 H4]. split; [congruence|]. intros q Hq.
    destruct (H4 q ltac:(lia)) as [?|[E1 E2]]; [by left|]. rewrite E1, E2. by apply H2.
Qed.

Lemma dirty_lor v : dirty (Z.lor v FLAG_DIRTY) = true.
Proof.
  unfold dirty. apply negb_true_iff, Z.eqb_neq. rewrite Z.land_lor_distr_l, Z.land_diag.
  intros [_ H]%Z.lor_eq_0_iff. done.
Qed.

Lemma put_keeps_clean a bs m : flat_ok m -> in_u 64 a ->
  in_bounds a (Z.of_nat (length bs)) (flat_memory_size m) -> keeps_clean m (flat_put a bs m).
Proof.
  intros Hm Ha Hb. split; [done|]. intros q Hq. pose proof (fo_pages _ Hm). destruct Ha, Hb.
  unfold pages in Hq. destruct (flat_flag_lookup m q Hm Hq) as [v Hv].
  unfold flag_of, flat_put. cbn [flat_flags]. rewrite mark_flags_lookup, Z2Nat.id, Hv by lia. cbn.
  destruct (_ && _) eqn:Hc; [left; apply dirty_lor|]. right. split; [done|].
  destruct (decide (bs = [])) as [->|Hne].
  { unfold page_of, flat_get. cbn [flat_data]. cbn. by rewrite Nat.add_0_r, take_drop. }
  assert (0 < Z.of_nat (length bs)) by (destruct bs; cbn; [done|lia]).
  apply flat_get_put_ne; try lia; [done|].
  apply andb_false_iff in Hc as [Hc|Hc]; apply Z.leb_gt in Hc; [left|right]; dlia.
Qed.

(** Marking pages dirty. *)
Lemma mark_keeps_clean p q m : flat_ok m ->
  keeps_clean m (flat_set_flags (mark_flags (fun v => Z.lor v FLAG_DIRTY) p q (flat_flags m)) m).
Proof.
  intros Hm. split; [done|]. intros k Hk. destruct (flat_flag_lookup m k Hm Hk) as [v Hv].
  unfold flag_of. cbn [flat_flags flat_set_flags]. rewrite mark_flags_lookup, Z2Nat.id, Hv by lia. cbn.
  destruct (_ && _); [left; apply dirty_lor|by right].
Qed.
End keeps.

Section tracked.
Context {I D : Type} `{!EqDecision I} `{!DataSource I D} `{!DataSourceOk I D}.
Local Abbreviation Ctx := (Snapshot2Context I D).
Local Abbreviation St := (S2State (R := u64_register) (M := FM) (I := I) (D := D)).
Implicit Types (m : FM) (c : DC) (ctx : Ctx).

Lemma clean_entry_not_dirty ctx m q e : clean_entry ctx m q = Some e -> is_dirty (flag_of q m) = false.
Proof. unfold clean_entry. destruct (flag_of q m); [|done]. by cbn; destruct (dirty _). Qed.

Lemma tracked_keeps ctx m m' : keeps_clean m m' -> tracked_ok ctx m -> tracked_ok ctx m'.
Proof.
  intros [Hp Hk] Ht q e He. destruct (Ht q e He) as [Hq Hcl]. rewrite Hp. split; [done|]. intros Hc.
  destruct (Hk q Hq) as [Hd|[Ef Eg]].
  { by rewrite (clean_entry_not_dirty _ _ _ _ Hc) in Hd. }
  rewrite Ef, Eg. apply Hcl. unfold clean_entry in *. by rewrite <- Ef.
Qed.

Definition tracking ctx m : Prop := flat_ok m /\ tracked_ok ctx m.

#[export] Instance tracking_inv ctx : FlatInv (tracking ctx).
Proof.
  split.
  - by intros m [].
  - intros a bs m [Hm Ht] Hbs Ha Hb. split; [by apply flat_put_ok|].
    by eapply tracked_keeps; [apply put_keeps_clean|].
  - intros v m [Hm Ht] Hv. split; [|done]. by apply (fi_lr (FlatInv := flat_ok_inv)).
Qed.

(** C15: a guest program cannot make the context wrong.  Run a 64-bit machine, whatever
    its memory holds, for any number of instructions, with system calls that keep the
    context right: if the context was right about the clean pages it tracks before the
    run, it is right after it, however the run ends.  Every page the program wrote is
    dirty, so a snapshot will include it. *)
Theorem guest_keeps_tracked ctx (Sy De : Type) (HSy : Syscalls DC Sy) (HDe : Debugger DC De)
  (HE : EmbedderOk u64_register FM (HMO := flat_memory_inv (tracking ctx)) Sy De kept)
  (fuel : nat) (interrupts : nat -> bool) (m m' : DefaultMachine u64_register FM Sy De) o d :
  dm_ok m -> tracked_ok ctx (dc_memory (dm_inner m)) ->
  Run.run fuel interrupts m = Some (o, (d, m')) ->
  o <> Panic /\ dm_ok m' /\ tracked_ok ctx (dc_memory (dm_inner m')).
Proof.
  intros [[] Hc] Ht Hrun.
  destruct (run_safe u64_register u64_ok FM _ (flat_memory_inv (tracking ctx)) Sy De _ _ HE
    fuel interrupts m o d m') as (? & [[] ?] & ?); [|done|].
  - split; [|done]. by constructor.
  - match goal with H : mem_ok _ |- _ => destruct H as [? ?] end.
    split_and!; [done| |done]. split; [|done]. by constructor.
Qed.

(** * The context's own operations *)

(** Pages that hold data of the source become tracked. *)
Lemma tracked_after_track ctx m p (n : nat) id off tbl : flat_ok m -> tracked_ok ctx m ->
  0 <= p -> p + Z.of_nat n <= pages m -> 0 <= off -> off + Z.of_nat n * 4096 < 2 ^ 64 ->
  (forall q, p <= q < p + Z.of_nat n -> exists k,
     source_load_data (sc_data_source ctx) id (off + (q - p) * 4096) 4096 = Some (page_of q m, k)) ->
  (forall q, tbl !! q =
     if (p <=? q) && (q <? p + Z.of_nat n)
     then (fun v => (id, off + (q - p) * 4096, cleared v)) <$> flag_of q m
     else sc_pages ctx !! q) ->
  tracked_ok (set_pages tbl ctx) (clear_pages p (p + Z.of_nat n - 1) m).
Proof.
  intros Hm Ht Hp Hn Ho Ho' Hsrc Htbl q e He. cbn [sc_pages set_pages] in He.
  rewrite Htbl in He.
  change (page_of q (clear_pages p (p + Z.of_nat n - 1) m)) with (page_of q m).
  change (pages (clear_pages p (p + Z.of_nat n - 1) m)) with (pages m).
  assert (Hf : 0 <= q -> flag_of q (clear_pages p (p + Z.of_nat n - 1) m) =
    (fun v => if (p <=? q) && (q <? p + Z.of_nat n) then cleared v else v) <$> flag_of q m).
  { intros Hq. unfold clear_pages, flag_of. cbn [flat_flags flat_set_flags].
    rewrite mark_flags_lookup, Z2Nat.id by done.
    destruct (flat_flags m !! Z.to_nat q); cbn; [|done]. f_equal. case_bools; done || lia. }
  destruct (_ && _) eqn:Hc.
  - bool_hyps. split; [lia|]. intros _. rewrite Hf by lia. destruct (flag_of q m) as [v|]; [|done].
    injection He as <-. cbn [fst snd]. split_and!; [lia|lia|done|]. apply Hsrc. lia.
  - destruct (Ht q e He) as [Hq Hcl]. split; [done|]. intros Hce. rewrite Hf by lia.
    assert (Hid : (fun v : Z => v) <$> flag_of q m = flag_of q m) by (by destruct (flag_of q m)).
    rewrite Hid. apply Hcl. unfold clean_entry in *. rewrite Hf, Hid in Hce by lia.
    destruct (flag_of q m); [|done]. destruct (dirty _); [done|]. cbn [sc_pages set_pages] in Hce.
    rewrite Htbl, Hc in Hce. done.
Qed.

Lemma tracked_delete ctx m p : tracked_ok ctx m ->
  tracked_ok (set_pages (delete p (sc_pages ctx)) ctx) m.
Proof.
  intros Ht q e He. cbn [sc_pages set_pages] in He. apply lookup_delete_Some in He as [Hne He].
  destruct (Ht q e He) as [Hq Hcl]. split; [done|]. intros Hc. apply Hcl. unfold clean_entry in *.
  destruct (flag_of q m); [|done]. destruct (dirty _); [done|]. done.
Qed.

(** The state the operations keep, over the data source [d]. *)
Record s2_ok (d : D) (s : St) : Prop := {
  so_source : sc_data_source s.1 = d;
  so_tracking : tracking s.1 (dc_memory s.2);
  so_registers : length (dc_registers s.2) = 32%nat;
}.

Definition s2_rel (s s' : St) : Prop :=
  dc_version s'.2 = dc_version s.2 /\
  flat_memory_size (dc_memory s'.2) = flat_memory_size (dc_memory s.2).

#[export] Instance s2_rel_preorder : PreOrder s2_rel.
Proof. split; unfold s2_rel; [done|]. intros ??? [] []. split; congruence. Qed.

Local Abbreviation safe d c Q := (stable (s2_ok d) s2_rel c Q).

Lemma on_mem_safe {A} d (k : ST FM A) Q :
  (forall ctx, stable (tracking ctx) same_size k Q) -> safe d (on_mem k) Q.
Proof.
  intros Hk [ctx c] [Hs Ht Hr]. cbn [fst snd] in *. specialize (Hk ctx (dc_memory c) Ht).
  unfold wp in *. destruct (k (dc_memory c)) as [o mem] eqn:E. rewrite (on_mem_run _ _ _ _ _ E).
  assert (Hw : tracking ctx mem -> same_size (dc_memory c) mem ->
    s2_ok d (ctx, with_memory mem c) /\ s2_rel (ctx, c) (ctx, with_memory mem c)) by done.
  destruct o as [a|e|]; [|destruct Hk; by apply Hw|done]. destruct Hk as (? & ? & ?). split; [done|by apply Hw].
Qed.

Lemma set_dirty_tracking ctx p : 0 <= p ->
  stable (tracking ctx) same_size (set_flag p FLAG_DIRTY) (fun _ => True).
Proof.
  intros Hp m [Hm Ht].
  pose proof (flat_update_flag_stable (fun v => Z.lor v FLAG_DIRTY) p Hp
    (fun v Hv => lor_byte v FLAG_DIRTY Hv ltac:(done)) m Hm) as Hs.
  unfold wp in *.
  change (set_flag p FLAG_DIRTY m) with (flat_update_flag (fun v => Z.lor v FLAG_DIRTY) p m).
  destruct (Z.lt_ge_cases p (flat_riscv_pages m)) as [Hlt|Hge].
  - destruct (flat_flag_lookup m p Hm) as [v Hv]; [lia|].
    rewrite (flat_update_flag_in _ p m v) in * by (done || lia). destruct Hs as (_ & Hok & Hsz).
    split_and!; [done| |done]. split; [done|]. eapply tracked_keeps; [|done].
    rewrite <- (mark_one (fun v => Z.lor v FLAG_DIRTY) p v) by (done || lia).
    by apply mark_keeps_clean.
  - unfold flat_update_flag. rewrite (proj2 (Z.ltb_ge _ _)) by lia. done.
Qed.

Lemma untrack_pages_safe d start length : in_u 64 start ->
  safe d (untrack_pages start length) (fun _ => True).
Proof.
  intros Hs. unfold untrack_pages. apply stable_if; intros _; [by apply stable_ret|].
  unfold for_pages. pose proof (page_index_range start length Hs) as Hp.
  destruct (get_page_indices start length) as [p q]. destruct Hp as [_ Hp].
  apply stable_for_range; [done|]. intros i Hi. cbn [fst snd] in Hi. apply Hp in Hi.
  eapply stable_bind; [done|apply on_mem_safe; intros; apply set_dirty_tracking, Hi|]. intros _ _.
  apply stable_modify. intros [ctx c] [Hd [Hm Ht] Hr]. cbn [fst snd] in *. split; [|done].
  constructor; [done| |done]. split; [done|]. by apply tracked_delete.
Qed.

(** The memory holds [data] at [addr]. *)
Definition holds m addr (data : list Z) : Prop :=
  addr + Z.of_nat (length data) <= flat_memory_size m /\
  flat_get addr (Z.of_nat (length data)) m = data.

Lemma roundup_inside m a : flat_ok m -> 0 <= a <= flat_memory_size m ->
  exists p, roundup a PAGE_SIZE = p * 4096 /\ a <= p * 4096 < a + 4096.
Proof.
  intros Hm Ha. pose proof (fo_pages _ Hm). destruct (fo_size _ Hm).
  exists ((a + 4095) / 4096). change PAGE_SIZE with (2 ^ 12). rewrite roundup_eq by (split; lia).
  change (2 ^ 12) with 4096. rewrite wrap_small by (split; dlia). split; dlia.
Qed.

(** Nothing is tracked for no data. *)
Lemma track_nothing addr id off (s : St) : track_pages addr 0 id off s = (Ok tt, s).
Proof.
  unfold track_pages. cbv zeta. destruct (Z.ltb_spec 0 (wsub 64 (roundup addr PAGE_SIZE) addr)); [done|].
  assert (0 <= wsub 64 (roundup addr PAGE_SIZE) addr) by (apply wrap_range; lia).
  replace (wsub 64 (roundup addr PAGE_SIZE) addr) with 0 by lia. done.
Qed.

Lemma track_pages_safe d addr id off l data n (s : St) : s2_ok d s -> 0 <= addr -> in_u 64 off ->
  source_load_data d id off l = Some (data, n) ->
  data = [] \/ holds (dc_memory s.2) addr data ->
  exists s', track_pages addr (Z.of_nat (length data)) id off s = (Ok tt, s') /\
    s2_ok d s' /\ s2_rel s s'.
Proof.
  intros Hs Ha Ho Hl Hh. assert (Hd : data = [] \/ data <> []) by (destruct data; auto).
  destruct Hd as [->|Hne]; [exists s; by rewrite track_nothing|]. destruct Hh as [?|[Hin Hget]]; [done|].
  destruct s as [ctx c]. destruct Hs as [Hd [Hm Ht] Hr]. cbn [fst snd] in *.
  destruct (source_range _ _ _ _ _ _ Ho Hl) as (_ & _ & Hoff). destruct (Ho) as [Ho0 _].
  destruct (fo_size _ Hm). pose proof (fo_pages _ Hm).
  destruct (roundup_inside (dc_memory c) addr Hm) as (p & Er & Hp); [lia|].
  assert (Es : wsub 64 (p * 4096) addr = p * 4096 - addr) by (apply wrap_small; split; lia).
  unfold track_pages. cbv zeta. rewrite Er, Es. destruct (Z.ltb_spec (Z.of_nat (length data)) (p * 4096 - addr)).
  { by exists (ctx, c). }
  set (ab := p * 4096 - addr) in *. unfold wadd. rewrite wrap_small by (split; lia).
  change PAGE_SIZE with 4096. set (k := Z.to_nat ((Z.of_nat (length data) - ab) / 4096)).
  assert (Hk : Z.of_nat k * 4096 <= Z.of_nat (length data) - ab) by (subst k; rewrite Z2Nat.id; dlia).
  destruct (track_loop_spec k p id (off + ab) ctx c) as (tbl & E & Htbl);
    [done|lia|unfold pages; lia|lia|lia|].
  eexists. split; [exact E|]. split; [|done]. constructor; [done| |done].
  split; [by apply clear_pages_ok|]. cbn [fst snd dc_memory with_memory].
  eapply (tracked_after_track _ _ p k id (off + ab)); try done; try lia; [unfold pages; lia|].
  intros q Hq. destruct (source_slice d id off l data n (ab + (q - p) * 4096) 4096) as [n' Hsl];
    [lia|done|lia|lia|lia|].
  exists n'. rewrite Hd, <- Z.add_assoc, Hsl. do 2 f_equal. unfold page_of. rewrite <- Hget.
  replace (q * 4096) with (addr + (ab + (q - p) * 4096)) by lia. symmetry. apply flat_get_sub; lia.
Qed.

Lemma store_bytes_tracking ctx a l : in_u 64 a -> in_u 64 (Z.of_nat (length l)) -> Forall is_byte l ->
  stable (tracking ctx) same_size (store_bytes a l) (fun _ => True).
Proof. intros. by apply (flat_store_bytes_stable (ok := tracking ctx)). Qed.

Lemma store_bytes_out m a bs : flat_ok m -> in_u 64 a -> in_u 64 (Z.of_nat (length bs)) ->
  ~ in_bounds a (Z.of_nat (length bs)) (flat_memory_size m) ->
  bs = [] \/ exists e, store_bytes a bs m = (Err e, m).
Proof.
  intros Hm Ha Hb Hob. destruct bs as [|b bs]; [by left|]. right.
  change (store_bytes a (b :: bs) m) with (flat_store_bytes a (b :: bs) m).
  unfold flat_store_bytes. rewrite (proj2 (Z.eqb_neq _ _)) by (cbn; lia).
  match goal with |- context [(flat_check _ ?n ≫= ?k) _] =>
    destruct (flat_check_err a n m k) as [x Hx]; [done..|] end.
  rewrite Hx. by eexists.
Qed.

(** Storing data of the source and tracking the pages it fills. *)
Lemma store_track_safe d addr id off l data n : in_u 64 addr -> in_u 64 off ->
  source_load_data d id off l = Some (data, n) ->
  safe d (on_mem (store_bytes addr data);; track_pages addr (Z.of_nat (length data)) id off)
    (fun _ => True).
Proof.
  intros Ha Ho Hl s Hs. destruct (source_range _ _ _ _ _ _ Ho Hl) as (Hb & _ & Hlen). destruct Ha, (Ho).
  pose proof (on_mem_safe d (store_bytes addr data) (fun _ => True)) as Hsafe.
  specialize (Hsafe ltac:(intros; apply store_bytes_tracking; [split; lia|split; lia|done]) s Hs).
  unfold wp, mbind, ST_bind in *. destruct (on_mem _ s) as [[[]|e|] s1] eqn:E; [|done..].
  destruct Hsafe as (_ & Hs1 & Hr1).
  destruct (track_pages_safe d addr id off l data n s1) as (s2 & -> & Hs2 & Hr2); [done..| |].
  - destruct data as [|b data]; [by left|]. right. set (bs := b :: data) in *.
    destruct s as [ctx c]. destruct Hs as [_ [Hm _] _]. cbn [fst snd] in *.
    destruct (decide (in_bounds addr (Z.of_nat (length bs)) (flat_memory_size (dc_memory c)))) as [Hib|Hob].
    + destruct Hib. pose proof (flat_store_bytes_fill addr bs (dc_memory c) Hm ltac:(split; lia) ltac:(lia)) as Ef.
      rewrite (on_mem_run _ _ _ _ _ Ef) in E. injection E as <-. cbn [snd dc_memory with_memory].
      split; [cbn [flat_memory_size flat_put]; lia|]. by apply (get_fill addr bs).
    + exfalso. pose proof (store_bytes_out (dc_memory c) addr bs Hm ltac:(split; lia) ltac:(split; lia) Hob) as Ef.
      destruct Ef as [?|[e Ef]]; [done|]. by rewrite (on_mem_run _ _ _ _ _ Ef) in E.
  - split_and!; [done|done|by etrans].
Qed.

Lemma stable_assoc {S A B} (ok : S -> Prop) rel (a : ST S unit) (b : ST S A) (k : A -> ST S B) Q :
  stable ok rel ((a;; b) ≫= k) Q -> stable ok rel (a;; (b ≫= k)) Q.
Proof.
  intros H s Hs. specialize (H s Hs). revert H. unfold wp, mbind, ST_bind.
  by destruct (a s) as [[[]|e|] s1].
Qed.

Lemma load_data_safe d id off l :
  safe d (load_data id off l) (fun r => source_load_data d id off l = Some r).
Proof.
  intros s Hs. unfold wp, load_data. rewrite (so_source _ _ Hs).
  destruct (source_load_data d id off l); [by split_and!|by split].
Qed.

Lemma context_store_bytes_safe d addr id off l size_addr :
  in_u 64 addr -> in_u 64 off -> in_u 64 size_addr ->
  safe d (context_store_bytes addr id off l size_addr) (fun _ => True).
Proof.
  intros Ha Ho Hs. unfold context_store_bytes. eapply stable_bind; [done|apply load_data_safe|].
  intros [data full] Hl. destruct (source_range _ _ _ _ _ _ Ho Hl) as (_ & Hf & _).
  eapply stable_bind; [done| |intros _ _].
  { apply on_mem_safe. intros ctx. by apply (flat_stores_stable (ok := tracking ctx)). }
  eapply stable_bind; [done|by apply untrack_pages_safe|intros _ _]. apply stable_assoc.
  eapply stable_bind; [done|by eapply store_track_safe|intros _ _]. by apply stable_ret.
Qed.

(** A run of pages written and flagged: the pages are dirty. *)
Lemma restore_keeps_clean m r : flat_ok m -> run_ok (flat_memory_size m) r ->
  keeps_clean m (restore_step r m).
Proof.
  intros Hm Hr. destruct (wr_ok _ _ restore_writes r m Hm Hr) as (Hm' & Hs & _).
  split; [pose proof (fo_pages _ Hm); pose proof (fo_pages _ Hm'); unfold pages; lia|]. intros q Hq.
  destruct (wr_page _ _ restore_writes r m q Hm Hr Hq) as [-> ->].
  destruct (flat_flag_lookup m q Hm Hq) as [v Hv]. unfold flag_of. rewrite Hv. cbn.
  destruct (covers r q); [left|by right]. unfold dirty, restored_flags.
  apply negb_true_iff, Z.eqb_neq. rewrite !Z.land_lor_distr_l, Z.land_diag.
  intros [[_ H]%Z.lor_eq_0_iff _]%Z.lor_eq_0_iff. done.
Qed.

Lemma store_flags_safe d a f content (s : St) : s2_ok d s -> in_u 64 a -> a mod 4096 = 0 ->
  is_byte f -> Forall is_byte content -> in_u 64 (Z.of_nat (length content)) ->
  Z.of_nat (length content) mod 4096 = 0 ->
  wp (on_mem (store_bytes a content);; set_flags a f content) s
    (fun _ s' => (content = [] \/ holds (dc_memory s'.2) a content) /\ s2_ok d s' /\ s2_rel s s')
    (fun _ s' => s2_ok d s' /\ s2_rel s s').
Proof.
  intros Hs Ha Hal Hf Hc Hlen Hw. destruct s as [ctx c]. pose proof Hs as [Hd [Hm Ht] Hr]. cbn [fst snd] in *.
  assert (Hcs : content = [] \/ content <> []) by (destruct content; auto).
  destruct Hcs as [->|Hne].
  { unfold wp, mbind, ST_bind. rewrite (on_mem_run _ _ _ (Ok tt) (dc_memory c)) by done.
    unfold set_flags. cbn. split_and!; [by left|by destruct c|done]. }
  destruct (decide (in_bounds a (Z.of_nat (length content)) (flat_memory_size (dc_memory c)))) as [[? Hb]|Hob].
  - assert (Hap : exists p, a = p * 4096) by (exists (a / 4096); dlia). destruct Hap as [p ->].
    assert (Hp : 0 <= p) by (destruct Ha; lia).
    assert (Hrun : run_ok (flat_memory_size (dc_memory c)) (p, f, content)) by (constructor; done).
    destruct (wr_ok _ _ restore_writes _ _ Hm Hrun) as (Hm' & Hsz & _).
    pose proof (restore_keeps_clean _ _ Hm Hrun) as Hk.
    change (restore_step (p, f, content) (dc_memory c)) with (restore_run p f content (dc_memory c)) in *.
    unfold wp. rewrite (set_flags_run p f content ctx c _ Hrun Hm eq_refl). split_and!; [right| |by split].
    + split; [cbn [snd dc_memory with_memory]; by rewrite Hsz|].
      apply (get_fill (p * 4096) content (dc_memory c) Hm); [lia|done].
    + constructor; [done| |done]. split; [done|]. by eapply tracked_keeps.
  - destruct (store_bytes_out _ _ _ Hm Ha Hlen Hob) as [?|[e E]]; [done|].
    unfold wp, mbind, ST_bind. rewrite (on_mem_run _ _ _ _ _ E). by destruct c.
Qed.

(** A snapshot whose fields have their types. *)
Record snapshot_wf (snap : Snapshot2 I) : Prop := {
  sw_source : Forall (fun e => in_u 64 e.1.1.1.1 /\ is_byte e.1.1.1.2 /\ in_u 64 e.1.2)
                (s2_pages_from_source snap);
  sw_dirty : Forall (fun t => in_u 64 t.1.1 /\ is_byte t.1.2 /\ Forall is_byte t.2 /\
                              in_u 64 (Z.of_nat (length t.2))) (s2_dirty_pages snap);
  sw_registers : length (s2_registers snap) = 32%nat;
  sw_lr : in_u 64 (s2_load_reservation_address snap);
}.

Lemma resume_from_source_safe d l :
  Forall (fun e : Z * Z * I * Z * Z => in_u 64 e.1.1.1.1 /\ is_byte e.1.1.1.2 /\ in_u 64 e.1.2) l ->
  safe d (resume_from_source l) (fun _ => True).
Proof.
  induction 1 as [|[[[[a f] id] off] len] l (Ha & Hf & Ho) Hl IH]; [by apply stable_ret|].
  cbn [resume_from_source fst snd] in *. apply stable_if; intros Hal; [by apply stable_fail|].
  apply negb_false_iff, Z.eqb_eq in Hal. change PAGE_SIZE with 4096 in *.
  eapply stable_bind; [done|apply load_data_safe|]. intros [data full] Hld. cbv zeta. cbn [fst].
  apply stable_if; intros Hw; [by apply stable_fail|]. apply negb_false_iff, Z.eqb_eq in Hw.
  destruct (source_range _ _ _ _ _ _ Ho Hld) as (Hb & _ & Hend). destruct (Ho) as [Ho0 _].
  apply stable_assoc. intros s Hs. apply wp_bind. eapply wp_mono.
  { apply (store_flags_safe d a f data s Hs Ha Hal Hf Hb); [split; lia|done]. }
  - intros [] s1 (Hh & Hs1 & Hr1). destruct Ha as [Ha _].
    destruct (track_pages_safe d a id off len data full s1 Hs1 Ha Ho Hld Hh) as (s2 & E & Hs2 & Hr2).
    apply wp_bind. unfold wp at 1. rewrite E. eapply wp_mono; [by apply IH| |].
    + intros [] s3 (_ & ? & ?). split_and!; [done|done|]. etrans; [done|]. by etrans.
    + intros e s3 (? & ?). split; [done|]. etrans; [done|]. by etrans.
  - intros e s1 [? ?]. done.
Qed.

Lemma resume_dirty_safe d l :
  Forall (fun t : Z * Z * list Z => in_u 64 t.1.1 /\ is_byte t.1.2 /\ Forall is_byte t.2 /\
                                    in_u 64 (Z.of_nat (length t.2))) l ->
  safe d (resume_dirty l) (fun _ => True).
Proof.
  induction 1 as [|[[a f] content] l (Ha & Hf & Hc & Hlen) Hl IH]; [by apply stable_ret|].
  cbn [resume_dirty fst snd] in *. change PAGE_SIZE with 4096.
  apply stable_if; intros Hal; [by apply stable_fail|]. apply negb_false_iff, Z.eqb_eq in Hal.
  apply stable_if; intros Hw; [by apply stable_fail|]. apply negb_false_iff, Z.eqb_eq in Hw.
  apply stable_assoc. eapply (stable_bind _ _ _ _ (fun _ => True)); [|intros _ _; exact IH].
  intros s Hs. eapply wp_mono; [by apply (store_flags_safe d a f content s)| |done].
  intros [] s' (_ & ? & ?). done.
Qed.

(** A change of the machine that leaves the memory and the version alone. *)
Lemma on_context_safe {A} d (k : ST DC A) Q :
  stable (fun c => length (dc_registers c) = 32%nat)
    (fun c c' => dc_memory c' = dc_memory c /\ dc_version c' = dc_version c) k Q ->
  safe d (Snapshot2.on_machine k) Q.
Proof.
  apply stable_zoom; [by intros [ctx c] []|].
  intros [ctx c] c' [Hd Ht Hr] Hc' [Em Ev]. cbn [fst snd] in *. split; [|split; cbn; congruence].
  constructor; [done|cbn; by rewrite Em|done].
Qed.

Local Ltac then_safe t := eapply (stable_bind _ _ _ _ (fun _ => True)); [t|intros _ _].

Lemma resume2_safe d snap : snapshot_wf snap -> safe d (resume2 snap) (fun _ => True).
Proof.
  intros [W1 W2 W3 W4]. unfold resume2. eapply (stable_bind _ _ _ _ (fun _ => True)); [by apply stable_gets|].
  intros v _. apply stable_if; intros _; [by apply stable_fail|].
  then_safe ltac:(idtac).
  { apply stable_modify. intros [ctx c] [Hd [Hm Ht] Hr]. split; [|done]. constructor; [done| |done].
    split; [done|]. apply map_Forall_empty. }
  then_safe ltac:(apply on_context_safe).
  { intros c Hc. unfold wp. rewrite restore_all_registers by congruence.
    split_and!; [exact Logic.I| |done..]. cbn. by rewrite length_fmap. }
  do 4 then_safe ltac:(apply on_context_safe; by intros c Hc).
  then_safe ltac:(by apply resume_from_source_safe).
  then_safe ltac:(by apply resume_dirty_safe).
  apply on_mem_safe. intros ctx m Hm. split_and!; [done| |done].
  by apply (fi_lr (ok := tracking ctx)), ok_from_u64.
Qed.

(** C14: the context's own operations keep it right.  Storing data of the source into the
    memory, untracking pages and resuming any snapshot, of whatever content, do not
    panic; whether they succeed or fail half-way, afterwards every clean page the context
    tracks has the flags and the bytes of the source that the context says it has, and
    the memory is well-formed and of the same size.  Of the data source this relies on
    [DataSourceOk], which asks nothing of a length of 0; the witness has a source that
    returns the rest of the data for it, as the repository's own do. *)
Theorem context_invariant d addr id off length size_addr snap :
  in_u 64 addr -> in_u 64 off -> in_u 64 size_addr -> snapshot_wf snap ->
  safe d (context_store_bytes addr id off length size_addr) (fun _ => True) /\
  safe d (untrack_pages addr length) (fun _ => True) /\
  safe d (resume2 snap) (fun _ => True).
Proof.
  intros. split_and!; [by apply context_store_bytes_safe|by apply untrack_pages_safe|by apply resume2_safe].
Qed.
End tracked.

(** * Witnesses *)

(** The demo program, tracked: its page is the data source's. *)
Definition program_page : list Z := program ++ replicate 4084 0.

#[export] Instance program_source : DataSource unit bool :=
  {| source_load_data _ _ off len := rest_load program_page off len |}.

#[export] Instance program_source_ok : DataSourceOk unit bool.
Proof.
  assert (Hb : Forall is_byte program_page).
  { apply (Forall_app is_byte program); split; [by repeat constructor|].
    apply Forall_replicate. by split. }
  assert (Hl : Z.of_nat (length program_page) < 2 ^ 64)
    by (unfold program_page; by rewrite length_app, length_replicate).
  split; intros d id.
  - by apply rest_app.
  - by apply rest_slice.
  - by apply rest_range.
Qed.

Definition program_context : Snapshot2Context unit bool :=
  {| sc_pages := {[ 0 := (tt, 0, 0) ]}; sc_data_source := true |}.

Lemma program_context_ok : tracked_ok program_context memory0.
Proof.
  apply map_Forall_singleton. split; [split; reflexivity || lia|]. intros _. cbn [fst snd].
  split_and!; [done|done|reflexivity|]. exists 4096. vm_compute. reflexivity.
Qed.

#[local] Instance none_tracking drel :
  EmbedderOk u64_register FM (HMO := flat_memory_inv (tracking program_context)) Empty_set Empty_set drel.
Proof. split; by intros [[] _]. Qed.

Lemma guest_keeps_tracked_witness :
  exists o d m', Run.run 10 (fun _ => false) machine0 = Some (o, (d, m')) /\ o <> Panic /\
    tracked_ok program_context (dc_memory (dm_inner m')).
Proof.
  destruct (Run.run 10 (fun _ => false) machine0) as [[o [d m']]|] eqn:E.
  - exists o, d, m'. split; [reflexivity|].
    destruct (guest_keeps_tracked program_context Empty_set Empty_set _ _ (none_tracking kept)
      10 (fun _ => false) machine0 m' o d machine0_ok program_context_ok E) as (H1 & _ & H3).
    exact (conj H1 H3).
  - exfalso. pose proof demo_run as H. rewrite E in H. exact H.
Defined.

Definition snapshot0 : Snapshot2 unit :=
  {| s2_pages_from_source := [(0, 0, tt, 0, 4096)]; s2_dirty_pages := []; s2_version := VERSION2;
     s2_registers := replicate 32 7; s2_pc := 0; s2_cycles := 0; s2_max_cycles := 100;
     s2_load_reservation_address := 0 |}.

Lemma context_invariant_witness :
  snapshot_wf snapshot0 /\
  stable (s2_ok true) s2_rel (context_store_bytes 0 tt 0 4096 8) (fun _ => True).
Proof.
  assert (Hw : snapshot_wf snapshot0).
  { constructor; cbn; [by repeat constructor|by constructor|done|done]. }
  split; [exact Hw|].
  exact (proj1 (context_invariant true 0 tt 0 4096 8 snapshot0
    ltac:(done) ltac:(done) ltac:(done) Hw)).
Defined.
