(* ===== verification/Isa.v ===== *)
(** The RV64IM instruction set of the RISC-V ISA manual, with FENCE.I, written as a
    specification, and the packed form of its instructions.

    The specification is independent of the implementation's types: instructions are an
    inductive type, their arithmetic is integer arithmetic on [Z] read as signed or
    unsigned words, and [isa_exec] says which registers, pc and memory result.  Loads
    and stores go to the machine's memory through its interface, environment calls and
    breakpoints to its system call modules and debugger.  With a single hart that executes
    in order, the fences order nothing. *)
From S2P Require Import Prelude Outcome Register Insts Memory Factories Machine Core Exec.
From stdpp Require Import base list numbers.
Open Scope Z_scope.

(** * The instructions *)

Inductive reg_op :=
  | ADD | SUB | SLL | SLT | SLTU | XOR | SRL | SRA | OR | AND
  | ADDW | SUBW | SLLW | SRLW | SRAW
  | MUL | MULH | MULHSU | MULHU | DIV | DIVU | REM | REMU
  | MULW | DIVW | DIVUW | REMW | REMUW.
Inductive imm_op := ADDI | SLTI | SLTIU | XORI | ORI | ANDI | ADDIW.
Inductive shift_op := SLLI | SRLI | SRAI | SLLIW | SRLIW | SRAIW.
Inductive load_op := LB | LH | LW | LD | LBU | LHU | LWU.
Inductive store_op := SB | SH | SW | SD.
Inductive branch_op := BEQ | BNE | BLT | BGE | BLTU | BGEU.

Inductive rv64im :=
  | RegReg (o : reg_op) (rd rs1 rs2 : Z)
  | RegImm (o : imm_op) (rd rs1 imm : Z)
  | Shift (o : shift_op) (rd rs1 shamt : Z)
  | Load (o : load_op) (rd rs1 imm : Z)
  | Store (o : store_op) (rs1 rs2 imm : Z)
  | Branch (o : branch_op) (rs1 rs2 imm : Z)
  | Lui (rd imm : Z)
  | Auipc (rd imm : Z)
  | Jal (rd imm : Z)
  | Jalr (rd rs1 imm : Z)
  | Fence (fm pred succ : Z)
  | FenceI
  | Ecall
  | Ebreak.

(** * Arithmetic *)

(** The 64-bit register value of a 32-bit result. *)
Definition sext32 (z : Z) : Z := wrap 64 (sign 32 z).

Definition reg_sem (o : reg_op) (a b : Z) : Z :=
  let sa := sign 64 a in let sb := sign 64 b in
  let aw := wrap 32 a in let bw := wrap 32 b in
  let saw := sign 32 a in let sbw := sign 32 b in
  match o with
  | ADD => wrap 64 (a + b) | SUB => wrap 64 (a - b)
  | SLL => wrap 64 (a * 2 ^ (b mod 64))
  | SRL => a / 2 ^ (b mod 64)
  | SRA => wrap 64 (sa / 2 ^ (b mod 64))
  | SLT => if sa <? sb then 1 else 0
  | SLTU => if a <? b then 1 else 0
  | XOR => Z.lxor a b | OR => Z.lor a b | AND => Z.land a b
  | ADDW => sext32 (a + b) | SUBW => sext32 (a - b)
  | SLLW => sext32 (a * 2 ^ (b mod 32))
  | SRLW => sext32 (aw / 2 ^ (b mod 32))
  | SRAW => sext32 (saw / 2 ^ (b mod 32))
  | MUL => wrap 64 (a * b)
  | MULH => wrap 64 (sa * sb / 2 ^ 64)
  | MULHSU => wrap 64 (sa * b / 2 ^ 64)
  | MULHU => wrap 64 (a * b / 2 ^ 64)
  | DIV => if b =? 0 then wrap 64 (-1) else wrap 64 (Z.quot sa sb)
  | DIVU => if b =? 0 then wrap 64 (-1) else a / b
  | REM => if b =? 0 then a else wrap 64 (Z.rem sa sb)
  | REMU => if b =? 0 then a else a mod b
  | MULW => sext32 (a * b)
  | DIVW => if bw =? 0 then wrap 64 (-1) else sext32 (Z.quot saw sbw)
  | DIVUW => if bw =? 0 then wrap 64 (-1) else sext32 (aw / bw)
  | REMW => if bw =? 0 then sext32 a else sext32 (Z.rem saw sbw)
  | REMUW => if bw =? 0 then sext32 a else sext32 (aw mod bw)
  end.

Definition imm_sem (o : imm_op) (a imm : Z) : Z :=
  match o with
  | ADDI => wrap 64 (a + imm)
  | SLTI => if sign 64 a <? imm then 1 else 0
  | SLTIU => if a <? wrap 64 imm then 1 else 0
  | XORI => Z.lxor a (wrap 64 imm) | ORI => Z.lor a (wrap 64 imm)
  | ANDI => Z.land a (wrap 64 imm)
  | ADDIW => sext32 (a + imm)
  end.

Definition shift_sem (o : shift_op) (a shamt : Z) : Z :=
  match o with
  | SLLI => wrap 64 (a * 2 ^ shamt)
  | SRLI => a / 2 ^ shamt
  | SRAI => wrap 64 (sign 64 a / 2 ^ shamt)
  | SLLIW => sext32 (a * 2 ^ shamt)
  | SRLIW => sext32 (wrap 32 a / 2 ^ shamt)
  | SRAIW => sext32 (sign 32 a / 2 ^ shamt)
  end.
Definition shift_width (o : shift_op) : Z :=
  match o with SLLI | SRLI | SRAI => 64 | SLLIW | SRLIW | SRAIW => 32 end.

(** A loaded value as a register. *)
Definition load_sem (o : load_op) (v : Z) : Z :=
  match o with
  | LB => wrap 64 (sign 8 v) | LH => wrap 64 (sign 16 v) | LW => sext32 v
  | LD => wrap 64 v
  | LBU | LHU | LWU => v
  end.

Definition branch_sem (o : branch_op) (a b : Z) : bool :=
  match o with
  | BEQ => a =? b | BNE => negb (a =? b)
  | BLT => sign 64 a <? sign 64 b | BGE => sign 64 b <=? sign 64 a
  | BLTU => a <? b | BGEU => b <=? a
  end.

(** * Execution *)

Section isa.
Context {M Sy De : Type} `{!Memory u64_register M}.
Context `{!Syscalls (DefaultCoreMachine u64_register M) Sy}.
Context `{!Debugger (DefaultCoreMachine u64_register M) De}.
Local Abbreviation DM := (DefaultMachine u64_register M Sy De).
(** The updates of a 64-bit machine, whose registers are integers. *)
Local Abbreviation x_set := (set_x (R := u64_register)).
Local Abbreviation pc_set := (set_pc (R := u64_register)).
Local Abbreviation at_pc := (at_next (R := u64_register)).

Definition load_mem (o : load_op) : Z -> ST M Z :=
  match o with
  | LB | LBU => load8 | LH | LHU => load16 | LW | LWU => load32 | LD => load64
  end.
Definition store_mem (o : store_op) : Z -> Z -> ST M unit :=
  match o with SB => store8 | SH => store16 | SW => store32 | SD => store64 end.

(** The result of a memory access: a failing access still moves to the next
    instruction, and keeps what the memory has become. *)
Definition after_access {A} (r : outcome A * M) (next : Z) (k : A -> DM -> DM) (m : DM)
  : outcome unit * DM :=
  match r with
  | (Ok v, mem) => (Ok tt, pc_set next (k v (set_memory mem m)))
  | (Err e, mem) => (Err e, pc_set next (set_memory mem m))
  | (Panic, mem) => (Panic, at_pc next (set_memory mem m))
  end.

(** The machine goes on at the next pc it has been given. *)
Definition resume_at (r : outcome unit * DM) : outcome unit * DM :=
  match r with
  | (Panic, m) => (Panic, m)
  | (o, m) => (o, pc_set (dc_next_pc (dm_inner m)) m)
  end.

(** The machine stopped with an exit code. *)
Definition exited (code : Z) (m : DM) : DM :=
  dm_set_inner (with_running false (dc_reset_signal (dm_inner m)) (dm_inner m))
    (dm_set_exit_code code m).

(** The request to the execution environment: call 93, in [a7], stops the machine with the
    signed low byte of [a0] as exit code; any other is offered to the system call modules
    in order, and is an error when none of them takes it.  A module may spend cycles. *)
Definition environment_call (m : DM) : outcome unit * DM :=
  let call := xreg m 17 in
  if call =? 93 then (Ok tt, exited (sign 8 (xreg m 10)) m)
  else
    match run_syscalls m with
    | (Ok taken, m') =>
        if negb taken then (Err (InvalidEcall call), m')
        else if dc_max_cycles (dm_inner m') <? dc_cycles (dm_inner m')
        then (Err CyclesExceeded, m') else (Ok tt, m')
    | (Err e, m') => (Err e, m')
    | (Panic, m') => (Panic, m')
    end.

(** The request to a debugger: nothing happens without one. *)
Definition environment_break (m : DM) : outcome unit * DM :=
  match dm_debugger m with
  | None => (Ok tt, m)
  | Some d =>
      match debugger_ebreak (d, dm_inner m) with
      | (o, (d', inner)) => (o, dm_set_debugger (Some d') inner m)
      end
  end.

(** The transition of the instruction [i] of [len] bytes at the pc. *)
Definition isa_exec (len : Z) (i : rv64im) (m : DM) : outcome unit * DM :=
  let here := dc_pc (dm_inner m) in
  let next := wrap 64 (here + len) in
  let x := xreg m in
  match i with
  | RegReg o rd a b => (Ok tt, pc_set next (x_set rd (reg_sem o (x a) (x b)) m))
  | RegImm o rd a imm => (Ok tt, pc_set next (x_set rd (imm_sem o (x a) imm) m))
  | Shift o rd a sh => (Ok tt, pc_set next (x_set rd (shift_sem o (x a) sh) m))
  | Load o rd a imm =>
      after_access (load_mem o (wrap 64 (x a + imm)) (dc_memory (dm_inner m))) next
        (fun v => x_set rd (load_sem o v)) m
  | Store o a b imm =>
      after_access (store_mem o (wrap 64 (x a + imm)) (x b) (dc_memory (dm_inner m))) next
        (fun _ m => m) m
  | Branch o a b imm =>
      (Ok tt, pc_set (if branch_sem o (x a) (x b) then wrap 64 (here + imm) else next) m)
  | Lui rd imm => (Ok tt, pc_set next (x_set rd (wrap 64 imm) m))
  | Auipc rd imm => (Ok tt, pc_set next (x_set rd (wrap 64 (here + imm)) m))
  | Jal rd imm => (Ok tt, pc_set (wrap 64 (here + imm)) (x_set rd next m))
  | Jalr rd a imm =>
      (Ok tt, pc_set (2 * (wrap 64 (x a + imm) / 2)) (x_set rd next m))
  | Fence _ _ _ | FenceI => (Ok tt, pc_set next m)
  | Ecall => resume_at (environment_call (at_pc next m))
  | Ebreak => resume_at (environment_break (at_pc next m))
  end.
End isa.

(** * The internal instruction of an ISA instruction

    The opcodes of version 1 and later: version 0 keeps its own load and JALR
    opcodes. *)

Definition reg_opcode (o : reg_op) : InstructionOpcode :=
  match o with
  | ADD => OP_ADD | SUB => OP_SUB | SLL => OP_SLL | SLT => OP_SLT | SLTU => OP_SLTU
  | XOR => OP_XOR | SRL => OP_SRL | SRA => OP_SRA | OR => OP_OR | AND => OP_AND
  | ADDW => OP_ADDW | SUBW => OP_SUBW | SLLW => OP_SLLW | SRLW => OP_SRLW | SRAW => OP_SRAW
  | MUL => OP_MUL | MULH => OP_MULH | MULHSU => OP_MULHSU | MULHU => OP_MULHU
  | DIV => OP_DIV | DIVU => OP_DIVU | REM => OP_REM | REMU => OP_REMU | MULW => OP_MULW
  | DIVW => OP_DIVW | DIVUW => OP_DIVUW | REMW => OP_REMW | REMUW => OP_REMUW
  end.
Definition imm_opcode (o : imm_op) : InstructionOpcode :=
  match o with
  | ADDI => OP_ADDI | SLTI => OP_SLTI | SLTIU => OP_SLTIU | XORI => OP_XORI | ORI => OP_ORI
  | ANDI => OP_ANDI | ADDIW => OP_ADDIW
  end.
Definition shift_opcode (o : shift_op) : InstructionOpcode :=
  match o with
  | SLLI => OP_SLLI | SRLI => OP_SRLI | SRAI => OP_SRAI
  | SLLIW => OP_SLLIW | SRLIW => OP_SRLIW | SRAIW => OP_SRAIW
  end.
Definition load_opcode (o : load_op) : InstructionOpcode :=
  match o with
  | LB => OP_LB_VERSION1 | LH => OP_LH_VERSION1 | LW => OP_LW_VERSION1 | LD => OP_LD_VERSION1
  | LBU => OP_LBU_VERSION1 | LHU => OP_LHU_VERSION1 | LWU => OP_LWU_VERSION1
  end.
Definition store_opcode (o : store_op) : InstructionOpcode :=
  match o with SB => OP_SB | SH => OP_SH | SW => OP_SW | SD => OP_SD end.
Definition branch_opcode (o : branch_op) : InstructionOpcode :=
  match o with
  | BEQ => OP_BEQ | BNE => OP_BNE | BLT => OP_BLT | BGE => OP_BGE | BLTU => OP_BLTU
  | BGEU => OP_BGEU
  end.

(** [i] is the packed form of the ISA instruction [r]. *)
Definition packs (i : Instruction) (r : rv64im) : Prop :=
  match r with
  | RegReg o rd a b =>
      extract_opcode i = reg_opcode o /\ Rtype_rd i = rd /\ Rtype_rs1 i = a /\ Rtype_rs2 i = b
  | RegImm o rd a imm =>
      extract_opcode i = imm_opcode o /\ Itype_rd i = rd /\ Itype_rs1 i = a /\
      Itype_immediate_s i = imm
  | Shift o rd a sh =>
      extract_opcode i = shift_opcode o /\ Itype_rd i = rd /\ Itype_rs1 i = a /\
      Itype_immediate_u i = sh
  | Load o rd a imm =>
      extract_opcode i = load_opcode o /\ Itype_rd i = rd /\ Itype_rs1 i = a /\
      Itype_immediate_s i = imm
  | Store o a b imm =>
      extract_opcode i = store_opcode o /\ Stype_rs1 i = a /\ Stype_rs2 i = b /\
      Stype_immediate_s i = imm
  | Branch o a b imm =>
      extract_opcode i = branch_opcode o /\ Stype_rs1 i = a /\ Stype_rs2 i = b /\
      Stype_immediate_s i = imm
  | Lui rd imm => extract_opcode i = OP_LUI /\ Utype_rd i = rd /\ Utype_immediate_s i = imm
  | Auipc rd imm => extract_opcode i = OP_AUIPC /\ Utype_rd i = rd /\ Utype_immediate_s i = imm
  | Jal rd imm => extract_opcode i = OP_JAL /\ Utype_rd i = rd /\ Utype_immediate_s i = imm
  | Jalr rd a imm =>
      extract_opcode i = OP_JALR_VERSION1 /\ Itype_rd i = rd /\ Itype_rs1 i = a /\
      Itype_immediate_s i = imm
  | Fence fm pred succ =>
      extract_opcode i = OP_FENCE /\ FenceType_fm i = fm /\ FenceType_pred i = pred /\
      FenceType_succ i = succ
  | FenceI => extract_opcode i = OP_FENCEI
  | Ecall => extract_opcode i = OP_ECALL
  | Ebreak => extract_opcode i = OP_EBREAK
  end.

(** Operands are registers, shift amounts are below the width of the operation,
    immediates and fields are in the ranges of their formats. *)
Definition rv_ok (r : rv64im) : Prop :=
  match r with
  | RegReg _ rd a b => is_reg rd /\ is_reg a /\ is_reg b
  | RegImm _ rd a imm | Load _ rd a imm | Jalr rd a imm =>
      is_reg rd /\ is_reg a /\ in_s 12 imm
  | Shift o rd a sh => is_reg rd /\ is_reg a /\ 0 <= sh < shift_width o
  | Store _ a b imm => is_reg a /\ is_reg b /\ in_s 12 imm
  | Branch _ a b imm => is_reg a /\ is_reg b /\ in_s 13 imm /\ Z.testbit imm 0 = false
  | Lui rd imm | Auipc rd imm => is_reg rd /\ in_s 32 imm /\ wrap 12 imm = 0
  | Jal rd imm => is_reg rd /\ in_s 21 imm /\ Z.testbit imm 0 = false
  | Fence fm pred succ => in_u 4 fm /\ in_u 4 pred /\ in_u 4 succ
  | FenceI | Ecall | Ebreak => True
  end.
