(* ===== verification/IsaFacts.v ===== *)
(** [execute] implements the RV64IM specification of [Isa]: the arithmetic of each
    handler is the ISA's, and executing the packed form of an instruction is the
    transition the specification gives. *)
From S2P Require Import Prelude Outcome Register RegisterFacts Insts InstsFacts Memory.
From S2P Require Import Machine Core Execute Exec Isa.
From stdpp Require Import base list numbers.
Open Scope Z_scope.

(** * The arithmetic of the handlers *)

Lemma land_63 b : Z.land b 63 = b mod 64.
Proof. change 63 with (2 ^ 6 - 1). by rewrite land_ones_wrap by lia. Qed.
Lemma land_31 b : Z.land b 31 = b mod 32.
Proof. change 31 with (2 ^ 5 - 1). by rewrite land_ones_wrap by lia. Qed.

Lemma mod_64_range b : 0 <= b mod 64 < 64.
Proof. by apply Z.mod_pos_bound. Qed.
Lemma mod_32_range b : 0 <= b mod 32 < 32.
Proof. by apply Z.mod_pos_bound. Qed.

Lemma wshl_pow w a n : 0 <= n < w -> wshl w a n = wrap w (a * 2 ^ n).
Proof. intros. unfold wshl. rewrite Z.mod_small, Z.shiftl_mul_pow2 by lia. done. Qed.
Lemma wshr_pow w a n : 0 <= n < w -> wshr w a n = a / 2 ^ n.
Proof. intros. unfold wshr. rewrite Z.mod_small, Z.shiftr_div_pow2 by lia. done. Qed.
Lemma signed_shr_pow a n : 0 <= n < 64 -> u64_signed_shr a n = wrap 64 (sign 64 a / 2 ^ n).
Proof.
  intros. unfold u64_signed_shr. rewrite Z.mod_small, Z.shiftr_div_pow2 by lia. done.
Qed.

Lemma sign_extend_32 v : u64_sign_extend v 32 = sext32 v.
Proof. by apply u64_sign_extend_eq. Qed.

(** [sext32] sees the low 32 bits only. *)
Lemma sext32_wrap v : sext32 (wrap 32 v) = sext32 v.
Proof. unfold sext32. by rewrite sign_wrap. Qed.
Lemma sext32_wrap64 v : sext32 (wrap 64 v) = sext32 v.
Proof. rewrite <- sext32_wrap, wrap_wrap_le, sext32_wrap by lia. done. Qed.

Lemma sign64_small v : in_s 64 v -> sign 64 (wrap 64 v) = v.
Proof. intros. rewrite sign_wrap. by apply sign_small. Qed.

Lemma land_not_one v : in_u 64 v -> Z.land v (wnot 64 u64_one) = 2 * (v / 2).
Proof.
  intros Hv. apply Z.bits_inj'. intros j Hj.
  rewrite Z.land_spec. unfold wnot. rewrite testbit_wrap, Z.lnot_spec by lia.
  replace (2 * (v / 2)) with (Z.shiftl (Z.shiftr v 1) 1)
    by (rewrite Z.shiftl_mul_pow2, Z.shiftr_div_pow2 by lia; change (2 ^ 1) with 2; lia).
  destruct (Z.eq_dec j 0) as [->|].
  - rewrite testbit_shiftl by lia. apply andb_false_r.
  - rewrite testbit_shiftl, Z.shiftr_spec by lia. replace (j - 1 + 1) with j by lia.
    replace (Z.testbit u64_one j) with false
      by (symmetry; apply (testbit_high 1); unfold u64_one, in_u; lia).
    destruct (Z.ltb_spec j 64); [by rewrite andb_true_r|].
    rewrite andb_false_l, andb_false_r. symmetry. by apply (testbit_high 64).
Qed.

(** * Division and high products *)

Lemma div_signed_eq a b : u64_overflowing_div_signed a b =
  if b =? 0 then wrap 64 (-1) else wrap 64 (Z.quot (sign 64 a) (sign 64 b)).
Proof.
  unfold u64_overflowing_div_signed, overflowing_div_s.
  destruct (b =? 0); [done|]. destruct (_ && _) eqn:E; [|done]. bool_hyps.
  by rewrite H, H0.
Qed.

Lemma rem_signed_eq a b : u64_overflowing_rem_signed a b =
  if b =? 0 then a else wrap 64 (Z.rem (sign 64 a) (sign 64 b)).
Proof.
  unfold u64_overflowing_rem_signed, overflowing_rem_s.
  destruct (b =? 0); [done|]. destruct (_ && _) eqn:E; [|done]. bool_hyps.
  by rewrite H, H0.
Qed.

Lemma div_unsigned_eq a b : u64_overflowing_div a b = if b =? 0 then wrap 64 (-1) else a / b.
Proof. done. Qed.

Lemma mulh_eq a b : u64_overflowing_mul_high_signed a b = wrap 64 (sign 64 a * sign 64 b / 2 ^ 64).
Proof.
  unfold u64_overflowing_mul_high_signed. pose proof (sign_range 64 a eq_refl) as [? ?].
  pose proof (sign_range 64 b eq_refl) as [? ?].
  rewrite sign_small, Z.shiftr_div_pow2 by (lia || apply (mul_in_s 64); lia). done.
Qed.

Lemma mulhsu_eq a b : in_u 64 b ->
  u64_overflowing_mul_high_signed_unsigned a b = wrap 64 (sign 64 a * b / 2 ^ 64).
Proof.
  intros [? ?]. unfold u64_overflowing_mul_high_signed_unsigned.
  pose proof (sign_range 64 a eq_refl) as [? ?].
  rewrite sign_small, Z.shiftr_div_pow2 by (lia || apply (mul_in_s 64); lia). done.
Qed.

Lemma mulhu_eq a b : in_u 64 a -> in_u 64 b ->
  u64_overflowing_mul_high_unsigned a b = wrap 64 (a * b / 2 ^ 64).
Proof.
  intros [? ?] [? ?]. unfold u64_overflowing_mul_high_unsigned.
  rewrite (wrap_small 128), Z.shiftr_div_pow2; [done|lia|].
  split; [lia|]. change (2 ^ 128) with (2 ^ 64 * 2 ^ 64). nia.
Qed.

(** Operands reduced to 32 bits. *)
Lemma sign_sext32 v : sign 64 (sext32 v) = sign 32 v.
Proof. apply sign64_small. eapply in_s_le, sign_range; lia. Qed.

Lemma sext32_zero v : (sext32 v =? 0) = (wrap 32 v =? 0).
Proof.
  assert (Hs : sext32 v = 0 <-> wrap 32 v = 0); [|destruct (Z.eqb_spec (sext32 v) 0), (Z.eqb_spec (wrap 32 v) 0); tauto].
  split; intros H.
  - assert (E : wrap 32 (sext32 v) = wrap 32 0) by by rewrite H.
    unfold sext32 in E. by rewrite wrap_wrap_le, wrap_sign in E by lia.
  - rewrite <- sext32_wrap, H. done.
Qed.

Lemma sext32_sext32 v : sext32 (sext32 v) = sext32 v.
Proof.
  unfold sext32 at 2. rewrite sext32_wrap64, <- sext32_wrap, wrap_sign, sext32_wrap by lia. done.
Qed.

Lemma mulw_eq a b : sext32 (wrap 32 a * wrap 32 b) = sext32 (a * b).
Proof.
  rewrite <- sext32_wrap, <- (sext32_wrap (a * b)). f_equal. unfold wrap. symmetry.
  apply Z.mul_mod. done.
Qed.

(** * The handlers *)

Section exec.
Context {M Sy De : Type} `{!Memory u64_register M}.
Context `{!Syscalls (DefaultCoreMachine u64_register M) Sy}.
Context `{!Debugger (DefaultCoreMachine u64_register M) De}.
Local Abbreviation DM := (DefaultMachine u64_register M Sy De).
Local Abbreviation x_set := (set_x (R := u64_register)).
Local Abbreviation at_pc := (at_next (R := u64_register)).

Lemma cond_branch (c : reg u64_register) (b : bool) imm len (m : DM) : c = b2r b ->
  cond c (overflowing_add (from_i32 imm) (pc m)) (overflowing_add (from_u8 len) (pc m)) =
  if b then wrap 64 (dc_pc (dm_inner m) + imm) else wrap 64 (dc_pc (dm_inner m) + len).
Proof.
  intros ->. destruct b; unfold cond, overflowing_add; cbn; unfold u64_overflowing_add, wadd,
    u64_from_i32; rewrite ?wrap_add_l; f_equal; unfold u64_from_u8; lia.
Qed.

Lemma logical_not_b2r b : u64_logical_not (b2r b) = b2r (negb b).
Proof. by destruct b. Qed.

(** Turn the register operations of a goal into words. *)
Ltac u64_ops :=
  cbn [r_not r_and r_or r_xor r_shl r_shr r_zero r_one r_eq r_lt r_lt_s SHIFT_MASK logical_not
       cond overflowing_add overflowing_sub overflowing_mul overflowing_div overflowing_rem
       overflowing_div_signed overflowing_rem_signed overflowing_mul_high_signed
       overflowing_mul_high_unsigned overflowing_mul_high_signed_unsigned signed_shr
       zero_extend sign_extend from_u8 from_u32 from_i32 u64_register];
  unfold u64_from_u8, u64_from_u32, u64_from_i32, u64_SHIFT_MASK, u64_overflowing_add,
    u64_overflowing_sub, u64_overflowing_mul, wadd, wsub, wmul.
Ltac shift_range :=
  lazymatch goal with
  | |- 0 <= ?b mod 64 < 64 => apply (mod_64_range b)
  | |- 0 <= ?b mod 32 < _ => pose proof (mod_32_range b); lia
  | |- _ => lia
  end.
Ltac word_rewrite :=
  rewrite ?sign_extend_32, ?u64_zero_extend_eq, ?land_63, ?land_31 by lia;
  rewrite ?wshl_pow, ?wshr_pow, ?signed_shr_pow by
    shift_range;
  rewrite ?div_signed_eq, ?rem_signed_eq, ?mulh_eq;
  rewrite ?mulhsu_eq, ?mulhu_eq by assumption;
  rewrite ?sext32_wrap64, ?mulw_eq.
Ltac word_arith x H :=
  let Hx := fresh "Hx" in pose proof H as Hx; revert Hx; generalize x; intros ? Hx.

Lemma reg_handler o (i : Instruction) : exists h,
  zassoc (handle_table (Mac := DM)) (reg_opcode o) = Some h /\
  forall m, regs_ok m -> is_reg (Rtype_rd i) -> is_reg (Rtype_rs1 i) -> is_reg (Rtype_rs2 i) ->
    h i m = (Ok tt, x_set (Rtype_rd i)
                          (reg_sem o (xreg m (Rtype_rs1 i)) (xreg m (Rtype_rs2 i))) m).
Proof.
  destruct o; (eexists; split; [reflexivity|]); intros m Hm Hd Ha Hb;
    repeat run_step; result_eq.
  all: word_arith (xreg m (Rtype_rs1 i)) (xreg_ok m (Rtype_rs1 i) Hm Ha);
       word_arith (xreg m (Rtype_rs2 i)) (xreg_ok m (Rtype_rs2 i) Hm Hb).
  all: u64_ops; word_rewrite; unfold reg_sem; try reflexivity.
  all: rewrite ?sign_sext32, ?sext32_zero; unfold u64_overflowing_div, u64_overflowing_rem;
       repeat case_match; rewrite ?sext32_wrap64, ?sext32_sext32, ?sext32_wrap; reflexivity.
Qed.

Lemma imm_handler o (i : Instruction) : exists h,
  zassoc (handle_table (Mac := DM)) (imm_opcode o) = Some h /\
  forall m, regs_ok m -> is_reg (Itype_rd i) -> is_reg (Itype_rs1 i) ->
    in_s 12 (Itype_immediate_s i) ->
    h i m = (Ok tt, x_set (Itype_rd i)
                          (imm_sem o (xreg m (Itype_rs1 i)) (Itype_immediate_s i)) m).
Proof.
  destruct o; (eexists; split; [reflexivity|]); intros m Hm Hd Ha Hi;
    repeat run_step; result_eq.
  all: word_arith (xreg m (Itype_rs1 i)) (xreg_ok m (Itype_rs1 i) Hm Ha).
  all: u64_ops; word_rewrite; unfold imm_sem; rewrite ?wrap_add_r, ?sext32_wrap64;
       try reflexivity.
  - unfold u64_lt_s. rewrite sign64_small; [by case_match|]. eapply in_s_le, Hi; lia.
  - rewrite <- sext32_wrap64, wrap_add_r, sext32_wrap64. done.
Qed.

Lemma shift_handler o (i : Instruction) : exists h,
  zassoc (handle_table (Mac := DM)) (shift_opcode o) = Some h /\
  forall m, regs_ok m -> is_reg (Itype_rd i) -> is_reg (Itype_rs1 i) ->
    0 <= Itype_immediate_u i < shift_width o ->
    h i m = (Ok tt, x_set (Itype_rd i)
                          (shift_sem o (xreg m (Itype_rs1 i)) (Itype_immediate_u i)) m).
Proof.
  destruct o; cbn [shift_width]; (eexists; split; [reflexivity|]); intros m Hm Hd Ha Hi;
    repeat run_step; result_eq; u64_ops; word_rewrite; rewrite ?sign_sext32; reflexivity.
Qed.

Lemma branch_handler o (i : Instruction) : exists h,
  zassoc (handle_table (Mac := DM)) (branch_opcode o) = Some h /\
  forall m, regs_ok m -> is_reg (Stype_rs1 i) -> is_reg (Stype_rs2 i) ->
    h i m = (Ok tt, at_pc
      (if branch_sem o (xreg m (Stype_rs1 i)) (xreg m (Stype_rs2 i))
       then wrap 64 (dc_pc (dm_inner m) + Stype_immediate_s i)
       else wrap 64 (dc_pc (dm_inner m) + instruction_length i)) m).
Proof.
  destruct o; (eexists; split; [reflexivity|]); intros m Hm Ha Hb;
    repeat run_step; result_eq.
  all: word_arith (xreg m (Stype_rs1 i)) (xreg_ok m (Stype_rs1 i) Hm Ha);
       word_arith (xreg m (Stype_rs2 i)) (xreg_ok m (Stype_rs2 i) Hm Hb).
  all: apply cond_branch; unfold r_ne, r_ge, r_ge_s, branch_sem; u64_ops;
       unfold u64_eq, u64_lt, u64_lt_s; rewrite ?logical_not_b2r, ?Z.leb_antisym; reflexivity.
Qed.

Lemma lui_handler (i : Instruction) : exists h,
  zassoc (handle_table (Mac := DM)) OP_LUI = Some h /\
  forall m, regs_ok m -> is_reg (Utype_rd i) ->
    h i m = (Ok tt, x_set (Utype_rd i) (wrap 64 (Utype_immediate_s i)) m).
Proof. eexists; split; [reflexivity|]. intros. by repeat run_step. Qed.

Lemma auipc_handler (i : Instruction) : exists h,
  zassoc (handle_table (Mac := DM)) OP_AUIPC = Some h /\
  forall m, regs_ok m -> is_reg (Utype_rd i) ->
    h i m = (Ok tt, x_set (Utype_rd i) (wrap 64 (dc_pc (dm_inner m) + Utype_immediate_s i)) m).
Proof.
  eexists; split; [reflexivity|]. intros. repeat run_step. result_eq. u64_ops.
  by rewrite wrap_add_r.
Qed.

Lemma jal_handler (i : Instruction) : exists h,
  zassoc (handle_table (Mac := DM)) OP_JAL = Some h /\
  forall m, regs_ok m -> is_reg (Utype_rd i) ->
    h i m = (Ok tt, at_pc (wrap 64 (dc_pc (dm_inner m) + Utype_immediate_s i))
               (x_set (Utype_rd i) (wrap 64 (dc_pc (dm_inner m) + instruction_length i)) m)).
Proof.
  eexists; split; [reflexivity|]. intros. repeat run_step. result_eq. u64_ops.
  rewrite wrap_add_r. cbn [pc default_machine machine_core default_machine_core
    default_core_machine]. by rewrite set_x_pc.
Qed.

Lemma jalr_handler (i : Instruction) : exists h,
  zassoc (handle_table (Mac := DM)) OP_JALR_VERSION1 = Some h /\
  forall m, regs_ok m -> is_reg (Itype_rd i) -> is_reg (Itype_rs1 i) ->
    h i m = (Ok tt, at_pc (2 * (wrap 64 (xreg m (Itype_rs1 i) + Itype_immediate_s i) / 2))
               (x_set (Itype_rd i) (wrap 64 (dc_pc (dm_inner m) + instruction_length i)) m)).
Proof.
  eexists; split; [reflexivity|]. intros. repeat run_step. result_eq. u64_ops.
  rewrite wrap_add_r. apply land_not_one, wrap_range. lia.
Qed.

Lemma load_handler o (i : Instruction) : exists h,
  zassoc (handle_table (Mac := DM)) (load_opcode o) = Some h /\
  forall m, regs_ok m -> is_reg (Itype_rd i) -> is_reg (Itype_rs1 i) ->
    h i m =
    match load_mem o (wrap 64 (xreg m (Itype_rs1 i) + Itype_immediate_s i))
                   (dc_memory (dm_inner m)) with
    | (Ok v, mem) => (Ok tt, x_set (Itype_rd i) (load_sem o v) (set_memory mem m))
    | (Err e, mem) => (Err e, set_memory mem m)
    | (Panic, mem) => (Panic, set_memory mem m)
    end.
Proof.
  destruct o; (eexists; split; [reflexivity|]); intros m Hm Hd Ha; repeat run_step.
  all: cbv zeta; u64_ops; rewrite wrap_add_r; cbn [load_mem];
       match goal with |- _ = match ?r with _ => _ end => destruct r as [[v|e|] mem] end;
       try reflexivity;
       repeat run_step; result_eq; unfold load_sem; try reflexivity;
       u64_ops; rewrite u64_sign_extend_eq by lia; try reflexivity; by apply wrap_sign.
Qed.

Lemma store_handler o (i : Instruction) : exists h,
  zassoc (handle_table (Mac := DM)) (store_opcode o) = Some h /\
  forall m, regs_ok m -> is_reg (Stype_rs1 i) -> is_reg (Stype_rs2 i) ->
    h i m =
    let (r, mem) := store_mem o (wrap 64 (xreg m (Stype_rs1 i) + Stype_immediate_s i))
                              (xreg m (Stype_rs2 i)) (dc_memory (dm_inner m)) in
    (r, set_memory mem m).
Proof.
  destruct o; (eexists; split; [reflexivity|]); intros m Hm Ha Hb; repeat run_step.
  all: cbv zeta; u64_ops; rewrite wrap_add_r; reflexivity.
Qed.

Lemma fence_handlers : exists h1 h2,
  zassoc (handle_table (Mac := DM)) OP_FENCE = Some h1 /\
  zassoc (handle_table (Mac := DM)) OP_FENCEI = Some h2 /\
  forall i m, h1 i m = (Ok tt, m) /\ h2 i m = (Ok tt, m).
Proof. do 2 eexists. split; [reflexivity|]. by split; [reflexivity|]. Qed.

Lemma ecall_handler : exists h,
  zassoc (handle_table (Mac := DM)) OP_ECALL = Some h /\
  forall i m, regs_ok m -> h i m = environment_call m.
Proof.
  eexists; split; [reflexivity|]. intros i m Hm. unfold handle_ecall, environment_call.
  change (ecall m) with (machine_ecall (M := M) (Sy := Sy) (De := De) m).
  unfold machine_ecall. rewrite bind_register by (by eauto with regs || done).
  change (to_u64 (xreg m A7)) with (xreg m 17). cbv zeta.
  destruct (Z.eqb_spec (xreg m 17) 93) as [_|_].
  - rewrite bind_register by (by eauto with regs || done). reflexivity.
  - unfold mbind, ST_bind, gets. destruct (run_syscalls m) as [[[]|e|] m']; try reflexivity.
    by destruct (_ <? _).
Qed.

Lemma ebreak_handler : exists h,
  zassoc (handle_table (Mac := DM)) OP_EBREAK = Some h /\ forall i m, h i m = environment_break m.
Proof. eexists; split; [reflexivity|]. done. Qed.

(** * The instructions *)

(** Use the handler [H] of the opcode [Hop]. *)
Ltac run_handler Hop H :=
  let h := fresh "h" in let Hh := fresh "Hh" in let E := fresh "E" in
  destruct H as (h & Hh & E); rewrite (execute_eq _ _ h) by (by rewrite Hop);
  rewrite E by done.

Lemma execute_packs i r (m : DM) :
  regs_ok m -> rv_ok r -> packs i r -> execute i m = isa_exec (instruction_length i) r m.
Proof.
  intros Hm Hr Hp. destruct r; cbn [packs rv_ok] in Hp, Hr; destruct_and!; subst.
  - run_handler H (reg_handler o i). apply committed_set_x.
  - run_handler H (imm_handler o i). apply committed_set_x.
  - run_handler H (shift_handler o i). apply committed_set_x.
  - run_handler H (load_handler o i). cbn [isa_exec]. unfold after_access.
    change (dc_memory (dm_inner (at_next ?n m))) with (dc_memory (dm_inner m)).
    change (xreg (at_next ?n m)) with (xreg m).
    destruct (load_mem _ _ _) as [[v|e|] mem]; try reflexivity.
    apply (committed_set_x _ _ _ (set_memory mem m)).
  - run_handler H (store_handler o i). cbn [isa_exec]. unfold after_access.
    change (dc_memory (dm_inner (at_next ?n m))) with (dc_memory (dm_inner m)).
    change (xreg (at_next ?n m)) with (xreg m).
    by destruct (store_mem _ _ _ _) as [[[]|e|] mem].
  - run_handler H (branch_handler o i). reflexivity.
  - run_handler H (lui_handler i). apply committed_set_x.
  - run_handler H (auipc_handler i). apply committed_set_x.
  - run_handler H (jal_handler i). apply committed_jump.
  - run_handler H (jalr_handler i). apply committed_jump.
  - destruct fence_handlers as (h1 & h2 & Hh & _ & E). rewrite (execute_eq _ _ h1) by by rewrite H.
    by rewrite (proj1 (E i _)).
  - destruct fence_handlers as (h1 & h2 & _ & Hh & E). rewrite (execute_eq _ _ h2) by by rewrite Hp.
    by rewrite (proj2 (E i _)).
  - run_handler Hp ecall_handler. reflexivity.
  - run_handler Hp ebreak_handler. reflexivity.
Qed.
End exec.
