(* ===== verification/IsaStep.v ===== *)
(** One step of the interpreter on a word that encodes an RV64IM instruction is the
    transition of the specification: fetch, decode, charge and execute composed. *)
From S2P Require Import Prelude Outcome Register RegisterFacts Insts InstsFacts Memory.
From S2P Require Import Factories FactoriesFacts Machine Core Decoder Execute Exec Run Demo.
From S2P Require Import Isa IsaFacts Fetch FetchMem.
From stdpp Require Import base list numbers.
Open Scope Z_scope.

(** * Encodings of the ISA manual *)

Definition reg_bits (o : reg_op) : Z * Z * Z :=
  match o with
  | ADD => (0x33, 0, 0x00) | SUB => (0x33, 0, 0x20) | SLL => (0x33, 1, 0x00)
  | SLT => (0x33, 2, 0x00) | SLTU => (0x33, 3, 0x00) | XOR => (0x33, 4, 0x00)
  | SRL => (0x33, 5, 0x00) | SRA => (0x33, 5, 0x20) | OR => (0x33, 6, 0x00)
  | AND => (0x33, 7, 0x00) | ADDW => (0x3b, 0, 0x00) | SUBW => (0x3b, 0, 0x20)
  | SLLW => (0x3b, 1, 0x00) | SRLW => (0x3b, 5, 0x00) | SRAW => (0x3b, 5, 0x20)
  | MUL => (0x33, 0, 1) | MULH => (0x33, 1, 1) | MULHSU => (0x33, 2, 1)
  | MULHU => (0x33, 3, 1) | DIV => (0x33, 4, 1) | DIVU => (0x33, 5, 1)
  | REM => (0x33, 6, 1) | REMU => (0x33, 7, 1) | MULW => (0x3b, 0, 1)
  | DIVW => (0x3b, 4, 1) | DIVUW => (0x3b, 5, 1) | REMW => (0x3b, 6, 1)
  | REMUW => (0x3b, 7, 1)
  end.
Definition imm_bits (o : imm_op) : Z * Z :=
  match o with
  | ADDI => (0x13, 0) | SLTI => (0x13, 2) | SLTIU => (0x13, 3) | XORI => (0x13, 4)
  | ORI => (0x13, 6) | ANDI => (0x13, 7) | ADDIW => (0x1b, 0)
  end.
(** Opcode, [funct3] and what is above the six or five bits of the shift amount in the
    immediate. *)
Definition shift_bits (o : shift_op) : Z * Z * Z :=
  match o with
  | SLLI => (0x13, 1, 64 * 0x00) | SRLI => (0x13, 5, 64 * 0x00) | SRAI => (0x13, 5, 64 * 0x10)
  | SLLIW => (0x1b, 1, 32 * 0x00) | SRLIW => (0x1b, 5, 32 * 0x00)
  | SRAIW => (0x1b, 5, 32 * 0x20)
  end.
Definition load_bits (o : load_op) : Z :=
  match o with LB => 0 | LH => 1 | LW => 2 | LD => 3 | LBU => 4 | LHU => 5 | LWU => 6 end.
Definition store_bits (o : store_op) : Z :=
  match o with SB => 0 | SH => 1 | SW => 2 | SD => 3 end.
Definition branch_bits (o : branch_op) : Z :=
  match o with BEQ => 0 | BNE => 1 | BLT => 4 | BGE => 5 | BLTU => 6 | BGEU => 7 end.

Definition encode (r : rv64im) : Z :=
  match r with
  | RegReg o d a b => let '(opc, f3, f7) := reg_bits o in enc_R opc f3 f7 d a b
  | RegImm o d a imm => let '(opc, f3) := imm_bits o in enc_I opc f3 d a imm
  | Shift o d a sh => let '(opc, f3, hi) := shift_bits o in enc_I opc f3 d a (sh + hi)
  | Load o d a imm => enc_I 0x03 (load_bits o) d a imm
  | Store o a b imm => enc_S 0x23 (store_bits o) a b imm
  | Branch o a b imm => enc_B 0x63 (branch_bits o) a b imm
  | Lui d imm => enc_U 0x37 d imm
  | Auipc d imm => enc_U 0x17 d imm
  | Jal d imm => enc_J 0x6f d imm
  | Jalr d a imm => enc_I 0x67 0 d a imm
  | Fence fm pred succ => enc_fence fm pred succ
  | FenceI => 0x0000100f
  | Ecall => 0x00000073
  | Ebreak => 0x00100073
  end.

(** * Decoding an encoded instruction *)

(** The result of the factories of a new decoder. *)
Definition factories_of (isa v : Z) : list InstructionFactory :=
  dd_factories (decoder_new u64_register isa v).

Lemma land_3_opcode w : Z.land w 3 = Z.land (opcode w) 3.
Proof.
  apply Z.bits_inj'. intros j Hj. unfold opcode. rewrite !Z.land_spec, x_bit by lia.
  replace (j - 0 + 0) with j by lia.
  destruct (Z.lt_ge_cases j 2).
  - pos_cases. done.
  - rewrite (testbit_high 2 3 j) by (unfold in_u; lia). by rewrite !andb_false_r.
Qed.

(** A 32-bit word is not a compressed instruction. *)
Lemma rvc_none w v : Z.land (opcode w) 3 = 3 -> rvc_factory u64_register w v = None.
Proof. intros H. unfold rvc_factory. rewrite land_3_opcode, H. done. Qed.

Lemma first_factory_i isa v w i :
  Z.land (opcode w) 3 = 3 -> i_factory u64_register w v = Some i ->
  first_factory (factories_of isa v) w v = Some i.
Proof.
  intros H3 Hi. unfold factories_of, decoder_new. repeat case_match;
    cbn [dd_factories add_instruction_factory decoder_empty first_factory app];
    rewrite rvc_none by done; by rewrite Hi.
Qed.

Lemma first_factory_m isa v w i :
  Z.land (opcode w) 3 = 3 -> i_factory u64_register w v = None ->
  m_factory u64_register w v = Some i ->
  first_factory (factories_of isa v) w v = Some i.
Proof.
  intros H3 Hi Hm. unfold factories_of, decoder_new. repeat case_match;
    cbn [dd_factories add_instruction_factory decoder_empty first_factory app];
    rewrite rvc_none by done; by rewrite Hi, Hm.
Qed.

(** A row of a table of encodings. *)
Lemma row {A} (P : A -> Prop) l x : Forall P l -> x ∈ l -> P x.
Proof. rewrite list.Forall_forall. auto. Qed.

Ltac in_table := repeat (first [apply list_elem_of_here | apply list_elem_of_further]).

(** The packed form, with its length. *)
Definition packs4 (i : Instruction) (r : rv64im) : Prop :=
  packs i r /\ instruction_length i = 4.

Lemma length_4_flag i : set_instruction_length_4 i = Z.lor i (field8 2 24).
Proof. apply set_length_4_field. Qed.

Lemma imm_24 imm : in_s 24 imm -> sign 24 (wrap 32 imm) = imm.
Proof.
  intros. rewrite <- (sign_wrap 24), wrap_wrap_le, sign_wrap by lia. by apply sign_small.
Qed.

Lemma reg8 r : is_reg r -> wrap 8 r = r.
Proof. intros []. apply wrap_small. split; lia. Qed.

Section decode_encode.
Context (isa v : Z) (Hv : 1 <= v).
Local Abbreviation decodes r :=
  (exists i, first_factory (factories_of isa v) (encode r) v = Some i /\ packs4 i r).

Lemma packs_R o d a b : is_reg d -> is_reg a -> is_reg b ->
  packs4 (set_instruction_length_4 (Rtype_new (reg_opcode o) d a b)) (RegReg o d a b).
Proof.
  intros. rewrite length_4_flag.
  destruct (Rtype_fields (reg_opcode o) d a b 2) as (E1 & E2 & _ & E3 & E4 & E5);
    [by destruct o|done|]. split; [|done]. cbn [packs]. rewrite E1, E3, E4, E5, !reg8 by done. done.
Qed.

Lemma packs_I op d a imm : in_u 16 op -> is_reg d -> is_reg a -> in_s 12 imm ->
  let i := set_instruction_length_4 (Itype_new_s op d a imm) in
  extract_opcode i = op /\ Itype_rd i = d /\ Itype_rs1 i = a /\ Itype_immediate_s i = imm /\
  instruction_length i = 4.
Proof.
  intros Hop ?? Hi i. subst i. rewrite length_4_flag.
  destruct (Itype_fields op d a imm 2) as (E1 & E2 & _ & E3 & E4 & E5); [done|done|].
  rewrite E1, E2, E3, E4, E5, !reg8, imm_24 by (done || by eapply in_s_le, Hi). done.
Qed.

Lemma packs_S op a b imm : in_u 16 op -> is_reg a -> is_reg b -> in_s 24 imm ->
  let i := set_instruction_length_4 (Stype_new_s op imm a b) in
  extract_opcode i = op /\ Stype_rs1 i = a /\ Stype_rs2 i = b /\ Stype_immediate_s i = imm /\
  instruction_length i = 4.
Proof.
  intros Hop ?? Hi i. subst i. rewrite length_4_flag.
  destruct (Stype_fields op a b imm 2) as (E1 & E2 & _ & E3 & E4 & E5); [done|done|].
  rewrite E1, E2, E3, E4, E5, !reg8, imm_24 by done. done.
Qed.

Lemma packs_U op d imm : in_u 16 op -> is_reg d -> in_s 32 imm ->
  let i := set_instruction_length_4 (Utype_new_s op d imm) in
  extract_opcode i = op /\ Utype_rd i = d /\ Utype_immediate_s i = imm /\
  instruction_length i = 4.
Proof.
  intros Hop ? Hi i. subst i. rewrite length_4_flag.
  destruct (Utype_fields op d imm 2) as (E1 & E2 & _ & E3 & E4); [done|done|].
  rewrite E1, E2, E3, E4, reg8, sign_wrap, sign_small by done. done.
Qed.

(** The base factory rejects the M extension's function code. *)
Lemma i_none w : opcode w = 0x33 \/ opcode w = 0x3b -> funct7 w = 1 ->
  i_factory u64_register w v = None.
Proof.
  intros Ho H7. unfold i_factory, i_factory_inst. rewrite H7.
  destruct Ho as [-> | ->]; cbn [Z.eqb Pos.eqb andb negb BITS u64_register u64_BITS zassoc2];
    by rewrite !andb_false_r.
Qed.

Lemma decodes_RegReg o d a b : rv_ok (RegReg o d a b) -> decodes (RegReg o d a b).
Proof.
  intros (Hd & Ha & Hb). eexists. split; [|by apply packs_R]. cbn [encode].
  destruct o; cbn [reg_bits reg_opcode].
  all: match goal with |- first_factory _ (enc_R ?o ?f3 ?f7 _ _ _) _ = _ =>
         destruct (enc_R_fields o f3 f7 d a b) as (Ho & H3 & H7 & _) end.
  1-15: apply first_factory_i; [by rewrite Ho|];
        refine (row _ _ (_, _, _, _) (decode_R v d a b Hd Ha Hb) _); in_table.
  all: apply first_factory_m; [by rewrite Ho|apply i_none; [rewrite Ho; auto|done]|];
       refine (row _ _ (_, _, _) (decode_M v d a b Hd Ha Hb) _); in_table.
Qed.

(** An I-format row of the base factory. *)
Lemma decodes_I opc f3 op d a imm :
  (opc, f3, op) ∈ rv64_I -> Z.land (wrap 7 opc) 3 = 3 -> is_reg d -> is_reg a -> in_s 12 imm ->
  first_factory (factories_of isa v) (enc_I opc f3 d a imm) v =
  Some (set_instruction_length_4 (Itype_new_s (op v) d a imm)).
Proof.
  intros Hin H3 Hd Ha Hi. apply first_factory_i.
  - by destruct (enc_I_fields opc f3 d a imm) as (-> & _).
  - exact (row _ _ _ (decode_I v d a Hd Ha imm Hi) Hin).
Qed.

Lemma decodes_RegImm o d a imm : rv_ok (RegImm o d a imm) -> decodes (RegImm o d a imm).
Proof.
  intros (Hd & Ha & Hi). exists (set_instruction_length_4 (Itype_new_s (imm_opcode o) d a imm)).
  split.
  - destruct o; apply (decodes_I _ _ (fun _ => _)); try done; in_table.
  - destruct (packs_I (imm_opcode o) d a imm) as (?&?&?&?&?); [by destruct o|done..|].
    by split.
Qed.

Lemma decodes_Load o d a imm : rv_ok (Load o d a imm) -> decodes (Load o d a imm).
Proof.
  intros (Hd & Ha & Hi). exists (set_instruction_length_4 (Itype_new_s (load_opcode o) d a imm)).
  split.
  - set (f := match o with
              | LB => utils_lb | LH => utils_lh | LW => utils_lw | LD => utils_ld
              | LBU => utils_lbu | LHU => utils_lhu | LWU => utils_lwu
              end).
    replace (load_opcode o) with (f v).
    2:{ destruct o; subst f; cbn; unfold utils_lb, utils_lh, utils_lw, utils_ld, utils_lbu,
          utils_lhu, utils_lwu; by rewrite (proj2 (Z.leb_le 1 v)). }
    destruct o; apply decodes_I; try done; subst f; cbn; in_table.
  - destruct (packs_I (load_opcode o) d a imm) as (?&?&?&?&?); [by destruct o|done..|].
    by split.
Qed.

Lemma decodes_Jalr d a imm : rv_ok (Jalr d a imm) -> decodes (Jalr d a imm).
Proof.
  intros (Hd & Ha & Hi). exists (set_instruction_length_4 (Itype_new_s OP_JALR_VERSION1 d a imm)).
  split.
  - replace OP_JALR_VERSION1 with (utils_jalr v)
      by (unfold utils_jalr; by rewrite (proj2 (Z.leb_le 1 v))).
    apply decodes_I; try done; in_table.
  - destruct (packs_I OP_JALR_VERSION1 d a imm) as (?&?&?&?&?); [done..|]. by split.
Qed.

Lemma decodes_Shift o d a sh : rv_ok (Shift o d a sh) -> decodes (Shift o d a sh).
Proof.
  intros (Hd & Ha & Hs). exists (set_instruction_length_4 (Itype_new_s (shift_opcode o) d a sh)).
  split.
  - destruct o; cbn [encode shift_bits shift_opcode shift_width] in *; (apply first_factory_i;
      [ match goal with |- Z.land (opcode (enc_I ?o ?f3 _ _ ?i)) _ = _ =>
          by destruct (enc_I_fields o f3 d a i) as (-> & _) end
      |]).
    1-3: refine (row _ _ (_, _, _) (decode_shift v d a Hd Ha sh Hs) _); in_table.
    all: refine (row _ _ (_, _, _) (decode_shift_w v d a Hd Ha sh Hs) _); in_table.
  - assert (0 <= sh < 64) by (destruct o; cbn [shift_width] in Hs; lia).
    destruct (packs_I (shift_opcode o) d a sh) as (?&?&?&Hi&?);
      [by destruct o|done..|split; lia|].
    split; [|done]. cbn [packs]. split_and!; try done.
    unfold Itype_immediate_u. rewrite Hi. apply wrap_small. split; lia.
Qed.

Lemma decodes_Store o a b imm : rv_ok (Store o a b imm) -> decodes (Store o a b imm).
Proof.
  intros (Ha & Hb & Hi). exists (set_instruction_length_4 (Stype_new_s (store_opcode o) imm a b)).
  split.
  - destruct o; cbn [encode store_bits]; (apply first_factory_i;
      [ match goal with |- Z.land (opcode (enc_S ?o ?f3 _ _ ?i)) _ = _ =>
          by destruct (enc_S_fields o f3 a b i) as (-> & _) end
      | refine (row _ _ (_, _) (decode_S v a b Ha Hb imm Hi) _); in_table ]).
  - destruct (packs_S (store_opcode o) a b imm) as (?&?&?&?&?);
      [by destruct o|done|done|by eapply in_s_le, Hi|]. by split.
Qed.

Lemma decodes_Branch o a b imm : rv_ok (Branch o a b imm) -> decodes (Branch o a b imm).
Proof.
  intros (Ha & Hb & Hi & He).
  exists (set_instruction_length_4 (Stype_new_s (branch_opcode o) imm a b)). split.
  - destruct o; cbn [encode branch_bits]; (apply first_factory_i;
      [ match goal with |- Z.land (opcode (enc_B ?o ?f3 _ _ ?i)) _ = _ =>
          by destruct (enc_B_fields o f3 a b i He) as (-> & _) end
      | refine (row _ _ (_, _) (decode_B v a b Ha Hb imm Hi He) _); in_table ]).
  - destruct (packs_S (branch_opcode o) a b imm) as (?&?&?&?&?);
      [by destruct o|done|done|by eapply in_s_le, Hi|]. by split.
Qed.

Lemma decodes_U opc op d imm : (opc, op) ∈ rv64_U -> in_u 16 op -> Z.land (wrap 7 opc) 3 = 3 ->
  is_reg d -> in_s 32 imm -> wrap 12 imm = 0 ->
  first_factory (factories_of isa v) (enc_U opc d imm) v =
  Some (set_instruction_length_4 (Utype_new_s op d imm)).
Proof.
  intros Hin Hop H3 Hd Hi He. apply first_factory_i.
  - by destruct (enc_U_fields opc d imm He) as (-> & _).
  - exact (row _ _ _ (decode_U v d Hd imm Hi He) Hin).
Qed.

Lemma decodes_Fence fm p s : rv_ok (Fence fm p s) -> decodes (Fence fm p s).
Proof.
  intros (Hf & Hp & Hs). exists (set_instruction_length_4 (FenceType_new fm p s)). cbn [encode]. split.
  - apply first_factory_i; [by destruct (enc_fence_fields fm p s Hf Hp Hs) as (-> & _)|].
    by apply decode_fence.
  - unfold FenceType_new. rewrite length_4_flag.
    destruct (Rtype_fields OP_FENCE fm p s 2) as (E1 & E2 & _ & E3 & E4 & E5); [done|done|].
    split; [|done]. cbn [packs]. unfold FenceType_fm, FenceType_pred, FenceType_succ.
    rewrite E1, E3, E4, E5, !wrap_wrap.
    split_and!; [done|apply wrap_small, (in_u_le 4 8); done..].
Qed.

(** An instruction that is one word. *)
Lemma decodes_word w op : (w, op) ∈ rv64_words ->
  first_factory (factories_of isa v) w v = Some (set_instruction_length_4 (blank_instruction op)).
Proof.
  intros Hin. apply first_factory_i; [|exact (row _ _ _ (decode_words v) Hin)].
  refine (row (fun '(w, _) => Z.land (opcode w) 3 = 3) _ _ _ Hin). by repeat constructor.
Qed.

(** Every instruction of the specification is decoded to its packed form. *)
Lemma decode_encode r : rv_ok r -> decodes r.
Proof.
  destruct r.
  - apply decodes_RegReg.
  - apply decodes_RegImm.
  - apply decodes_Shift.
  - apply decodes_Load.
  - apply decodes_Store.
  - apply decodes_Branch.
  - intros (Hd & Hi & He). eexists. split; [apply (decodes_U _ OP_LUI); try done; in_table|].
    destruct (packs_U OP_LUI rd imm) as (?&?&?&?); [done..|]. by split.
  - intros (Hd & Hi & He). eexists. split; [apply (decodes_U _ OP_AUIPC); try done; in_table|].
    destruct (packs_U OP_AUIPC rd imm) as (?&?&?&?); [done..|]. by split.
  - intros (Hd & Hi & He). eexists. split.
    + cbn [encode]. apply first_factory_i; [by destruct (enc_J_fields 0x6f rd imm He) as (-> & _)|].
      by apply decode_J.
    + destruct (packs_U OP_JAL rd imm) as (?&?&?&?); [done..|by eapply in_s_le, Hi|]. by split.
  - apply decodes_Jalr.
  - apply decodes_Fence.
  - intros _. eexists. split; [apply (decodes_word _ OP_FENCEI); in_table|by split].
  - intros _. eexists. split; [apply (decodes_word _ OP_ECALL); in_table|by split].
  - intros _. eexists. split; [apply (decodes_word _ OP_EBREAK); in_table|by split].
Qed.
End decode_encode.

(** * One step *)

Section step.
Context {M Sy De : Type} `{!Memory u64_register M}.
Context `{!Syscalls (DefaultCoreMachine u64_register M) Sy}.
Context `{!Debugger (DefaultCoreMachine u64_register M) De}.
Local Abbreviation DM := (DefaultMachine u64_register M Sy De).

(** A decoder made by [InstDecoder::new] for a version with the fixed opcodes, without
    macro-op fusion. *)
Definition plain_decoder (d : DefaultDecoder) : Prop :=
  exists isa v, 1 <= v /\ dd_factories d = factories_of isa v /\ dd_version d = v /\
    dd_mop d = false /\ length (dd_instructions_cache d) = Z.to_nat INSTRUCTION_CACHE_SIZE.

(** What the cache holds for [pc], if anything, is what the word [w] decodes to. *)
Definition cache_agrees (d : DefaultDecoder) (pc w : Z) : Prop :=
  forall e, dd_instructions_cache d !! Z.to_nat (cache_key pc) = Some e -> e.1 = pc ->
    first_factory (dd_factories d) w (dd_version d) = Some e.2.

(** Decoding a word that is in memory. *)
Lemma decode_raw_agrees (d : DefaultDecoder) (mem : M) pc w i :
  length (dd_instructions_cache d) = Z.to_nat INSTRUCTION_CACHE_SIZE ->
  pc < memory_size mem -> decode_bits pc mem = (Ok w, mem) ->
  first_factory (dd_factories d) w (dd_version d) = Some i -> cache_agrees d pc w ->
  exists c, decode_raw pc (d, mem) = (Ok i, (set_cache c d, mem)) /\
    length c = Z.to_nat INSTRUCTION_CACHE_SIZE /\ cache_agrees (set_cache c d) pc w.
Proof.
  intros Hlen Hsz Hbits Hi Hc. unfold decode_raw, mbind, ST_bind, gets. cbn [snd fst].
  rewrite (proj2 (Z.leb_gt _ _)) by done. cbv zeta.
  pose proof (cache_key_lt pc) as Hk.
  destruct (lookup_lt_is_Some_2 (dd_instructions_cache d) (Z.to_nat (cache_key pc))) as [e He];
    [lia|].
  cbv beta zeta. cbn [fst snd]. rewrite He. cbn [unwrap mret ST_ret].
  destruct (Z.eqb_spec e.1 pc) as [Ep|Ep].
  - pose proof (Hc e He Ep) as Hd. rewrite Hi in Hd. injection Hd as ->.
    exists (dd_instructions_cache d). by destruct d.
  - unfold on_memory, zoom. cbn [snd fst]. rewrite Hbits. cbn [snd fst]. rewrite Hi.
    eexists. split; [reflexivity|]. split; [by rewrite length_insert|].
    intros e'. cbn. rewrite list_lookup_insert_eq by lia. intros [= <-] _. exact Hi.
Qed.

(** The machine with [c] more cycles spent. *)
Definition charge (c : Z) (m : DM) : DM :=
  dm_set_inner (with_cycles (dc_cycles (dm_inner m) + c) (dc_max_cycles (dm_inner m))
                            (dm_inner m)) m.

(** The step of a machine at an instruction of cost [c] with transition [t]. *)
Definition charged (c : Z) (t : DM -> outcome unit * DM) (m : DM) : outcome unit * DM :=
  let total := dc_cycles (dm_inner m) + c in
  if U64_MAX <? total then (Err CyclesOverflow, m)
  else if dc_max_cycles (dm_inner m) <? total then (Err CyclesExceeded, m)
  else t (charge c m).

Lemma set_memory_same (m : DM) : set_memory (dc_memory (dm_inner m)) m = m.
Proof. by destruct m as [[]]. Qed.
Lemma dm_set_inner_same (m : DM) : dm_set_inner (dm_inner m) m = m.
Proof. by destruct m. Qed.

Lemma step_decoded d (m : DM) i d' :
  decode (dc_pc (dm_inner m)) (d, dc_memory (dm_inner m)) = (Ok i, (d', dc_memory (dm_inner m))) ->
  step (d, m) =
  let (o, m') := charged (dm_instruction_cycle_func m i) (execute i) m in (o, (d', m')).
Proof.
  intros Hd. unfold step, mbind, ST_bind, gets, on_decoder, on_machine, zoom.
  cbn [fst snd pc memory default_machine machine_core default_machine_core default_core_machine].
  change (to_u64 (dc_pc (dm_inner m))) with (dc_pc (dm_inner m)). rewrite Hd. cbn [fst snd].
  change (dm_set_inner (with_memory ?mem (dm_inner m)) m) with (set_memory mem m).
  rewrite set_memory_same. unfold charged, on_inner, zoom, add_cycles, checked_add_u64.
  cbv zeta. rewrite Z.leb_antisym. destruct (U64_MAX <? _); cbn [negb].
  - unfold fail. by rewrite dm_set_inner_same.
  - destruct (_ <? _); [unfold fail; by rewrite dm_set_inner_same|]. reflexivity.
Qed.

Lemma charge_regs c (m : DM) : regs_ok m -> regs_ok (charge c m).
Proof. done. Qed.

(** C1: the interpreter implements the RISC-V manual.  When the word at the pc encodes
    an instruction of RV64I or of the M extension - the word shifts, FENCE, ECALL and
    EBREAK included - or FENCE.I, one step of a machine without macro-op fusion (version 1
    or later) charges the cost of the instruction and then does exactly the transition of
    the specification: the same registers, pc and memory, the same error for a failing
    access, the same request to the system call modules or the debugger, everything else
    unchanged; without enough cycles left it reports so and changes nothing.  The decoder's
    cache stays in agreement with the word.  (A FENCE has zero in its reserved fields.) *)
Theorem step_isa (d : DefaultDecoder) (m : DM) (r : rv64im) :
  plain_decoder d -> regs_ok m -> rv_ok r ->
  dc_pc (dm_inner m) < memory_size (dc_memory (dm_inner m)) ->
  decode_bits (dc_pc (dm_inner m)) (dc_memory (dm_inner m)) =
    (Ok (encode r), dc_memory (dm_inner m)) ->
  cache_agrees d (dc_pc (dm_inner m)) (encode r) ->
  exists i d',
    packs i r /\ plain_decoder d' /\ cache_agrees d' (dc_pc (dm_inner m)) (encode r) /\
    step (d, m) =
    let (o, m') := charged (dm_instruction_cycle_func m i) (isa_exec 4 r) m in (o, (d', m')).
Proof.
  intros (isa & v & Hv & Hf & Hver & Hmop & Hlen) Hm Hr Hsz Hbits Hc.
  destruct (decode_encode isa v Hv r Hr) as (i & Hi & Hp & Hl).
  destruct (decode_raw_agrees d (dc_memory (dm_inner m)) (dc_pc (dm_inner m)) (encode r) i)
    as (c & Hd & Hlen' & Hc'); [done..|by rewrite Hf, Hver|done|].
  exists i, (set_cache c d). split_and!; [done|by exists isa, v|done|].
  rewrite (step_decoded d m i (set_cache c d)).
  - assert (E : charged (dm_instruction_cycle_func m i) (execute i) m =
                charged (dm_instruction_cycle_func m i) (isa_exec 4 r) m).
    { unfold charged. cbv zeta. repeat case_match; try done.
      by rewrite (execute_packs i r), Hl. }
    by rewrite E.
  - unfold decode, mbind, ST_bind, gets. cbn [fst snd]. by rewrite Hmop.
Qed.
End step.

(** * Witness *)

(** The first instruction of the demonstration program: [addi a0, x0, 5]. *)
Lemma step_isa_witness :
  exists i d', packs i (RegImm ADDI 10 0 5) /\
    step (decoder_new u64_register ISA_IMC VERSION2, machine0) =
    let (o, m') := charged (dm_instruction_cycle_func machine0 i)
                     (isa_exec 4 (RegImm ADDI 10 0 5)) machine0 in (o, (d', m')).
Proof.
  destruct (step_isa (decoder_new u64_register ISA_IMC VERSION2) machine0
              (RegImm ADDI 10 0 5)) as (i & d' & Hp & _ & _ & Hs).
  - exists ISA_IMC, VERSION2. by split_and!.
  - split; [done|]. split; [|done]. by repeat constructor.
  - by repeat split.
  - vm_compute. reflexivity.
  - apply reads_eq; [apply flat_decode_bits_reads|]. vm_compute. reflexivity.
  - intros e He. vm_compute in He. injection He as <-. discriminate.
  - exists i, d'. exact (conj Hp Hs).
Defined.
