(* ===== verification/Fusion.v ===== *)
(** Macro-op fusion is sound: executing a fused instruction does what executing the
    instructions it replaces does, one after the other.

    The execution side computes both sequences of register updates; the decoding side
    recovers, from a successful fusion rule, the decoded instructions and the operand
    conditions it has checked. *)
From S2P Require Import Prelude Outcome Register RegisterFacts Insts InstsFacts Memory.
From S2P Require Import Machine Core Decoder Execute Exec MachineOk DecoderOk Fetch.
From stdpp Require Import base list numbers.
Open Scope Z_scope.

(** * Updates of the register file *)

Section updates.
Context {R : Register} {M Sy De : Type}.
Local Abbreviation DM := (DefaultMachine R M Sy De).

Lemma xreg_set_x d v (m : DM) r : regs32 m -> is_reg d -> is_reg r ->
  xreg (set_x d v m) r = if (r =? d) && negb (d =? 0) then v else xreg m r.
Proof.
  unfold regs32, is_reg, xreg, set_x. intros Hl Hd Hr.
  destruct (Z.eqb_spec d 0) as [->|Hd0]; [by rewrite andb_false_r|].
  cbn. destruct (Z.eqb_spec r d) as [->|Hne]; cbn.
  - by rewrite list_lookup_insert_eq by lia.
  - by rewrite list_lookup_insert_ne by lia.
Qed.

Lemma xreg_set_x_eq d v (m : DM) : regs32 m -> is_reg d -> d <> 0 -> xreg (set_x d v m) d = v.
Proof.
  intros. rewrite xreg_set_x by done. by rewrite Z.eqb_refl, (proj2 (Z.eqb_neq d 0)).
Qed.

Lemma xreg_set_x_ne d v (m : DM) r : regs32 m -> is_reg d -> is_reg r -> r <> d ->
  xreg (set_x d v m) r = xreg m r.
Proof. intros. rewrite xreg_set_x by done. by rewrite (proj2 (Z.eqb_neq r d)). Qed.

Lemma set_x_set_pc d v p (m : DM) : set_x d v (set_pc p m) = set_pc p (set_x d v m).
Proof. unfold set_x. by case_match. Qed.

Lemma set_x_at_next d v p (m : DM) : set_x d v (at_next p m) = at_next p (set_x d v m).
Proof. unfold set_x. by case_match. Qed.

Lemma set_pc_set_pc p q (m : DM) : set_pc p (set_pc q m) = set_pc p m.
Proof. done. Qed.

Lemma set_pc_at_next p q (m : DM) : set_pc p (at_next q m) = set_pc p m.
Proof. done. Qed.

Lemma set_x_twice d v v' (m : DM) : set_x d v (set_x d v' m) = set_x d v m.
Proof.
  unfold set_x. case_match; [done|]. unfold dm_set_inner, with_registers. cbn.
  by rewrite list_insert_insert_eq.
Qed.

Lemma set_x_comm d d' v v' (m : DM) : is_reg d -> is_reg d' -> d <> d' ->
  set_x d v (set_x d' v' m) = set_x d' v' (set_x d v m).
Proof.
  unfold set_x, is_reg. intros. repeat case_match; try done.
  unfold dm_set_inner, with_registers. cbn. rewrite list_insert_insert_ne by lia. done.
Qed.

Lemma dc_pc_set_x d v (m : DM) : dc_pc (dm_inner (set_x d v m)) = dc_pc (dm_inner m).
Proof. unfold set_x. by case_match. Qed.
End updates.

(** * Sequences of instructions *)

(** What fusion needs of the arithmetic: advancing the pc twice is advancing it once, and
    addition commutes. *)
Class AddArith (R : Register) := {
  add_u8_u8 (p : reg R) a b : 0 <= a -> 0 <= b -> a + b < 256 ->
    overflowing_add (overflowing_add p (from_u8 a)) (from_u8 b) =
    overflowing_add p (from_u8 (a + b));
  add_comm (x y : reg R) : overflowing_add x y = overflowing_add y x;
}.

#[export] Instance u64_add_arith : AddArith u64_register.
Proof.
  constructor; cbn; unfold u64_overflowing_add, wadd, u64_from_u8.
  - intros p a b _ _ _. rewrite wrap_add_l. f_equal. lia.
  - intros x y. f_equal. lia.
Qed.
#[export] Instance u32_add_arith : AddArith u32_register.
Proof.
  constructor; cbn; unfold u32_overflowing_add, wadd, u32_from_u8.
  - intros p a b _ _ _. rewrite wrap_add_l. f_equal. lia.
  - intros x y. f_equal. lia.
Qed.

Section sequences.
Context {R : Register} {M Sy De : Type} `{!Memory R M}.
Context `{!Syscalls (DefaultCoreMachine R M) Sy} `{!Debugger (DefaultCoreMachine R M) De}.
Local Abbreviation DM := (DefaultMachine R M Sy De).

(** Executing instructions one after the other. *)
Fixpoint exec_seq (l : list Instruction) : ST DM unit :=
  match l with
  | [] => mret tt
  | i :: l' => execute i;; exec_seq l'
  end.

Lemma exec_seq_cons i l (m : DM) m' :
  execute i m = (Ok tt, m') -> exec_seq (i :: l) m = exec_seq l m'.
Proof. intros H. cbn [exec_seq]. unfold mbind, ST_bind. by rewrite H. Qed.

(** The two-operand instructions that take part in fusion. *)
Definition alu_table : list (InstructionOpcode * (reg R -> reg R -> reg R)) :=
  [(OP_ADD, overflowing_add); (OP_SUB, overflowing_sub); (OP_SLTU, r_lt); (OP_OR, r_or);
   (OP_MUL, overflowing_mul); (OP_MULH, overflowing_mul_high_signed);
   (OP_MULHU, overflowing_mul_high_unsigned); (OP_MULHSU, overflowing_mul_high_signed_unsigned);
   (OP_DIV, overflowing_div_signed); (OP_DIVU, overflowing_div);
   (OP_REM, overflowing_rem_signed); (OP_REMU, overflowing_rem)].

Definition next_pc (i : Instruction) (m : DM) : reg R :=
  overflowing_add (dc_pc (dm_inner m)) (from_u8 (instruction_length i)).

Lemma alu_handler : Forall (fun p : InstructionOpcode * (reg R -> reg R -> reg R) =>
  exists h, zassoc (handle_table (Mac := DM)) p.1 = Some h /\
  forall i m, regs32 m -> is_reg (Rtype_rd i) -> is_reg (Rtype_rs1 i) -> is_reg (Rtype_rs2 i) ->
    h i m = (Ok tt, set_x (Rtype_rd i) (p.2 (xreg m (Rtype_rs1 i)) (xreg m (Rtype_rs2 i))) m))
  alu_table.
Proof.
  repeat apply List.Forall_cons; [..|constructor]; (eexists; split; [reflexivity|]);
    intros i m Hm Hd Ha Hb; cbn [fst snd]; repeat run_step; reflexivity.
Qed.

Lemma execute_alu i f (m : DM) : zassoc alu_table (extract_opcode i) = Some f -> regs32 m ->
  is_reg (Rtype_rd i) -> is_reg (Rtype_rs1 i) -> is_reg (Rtype_rs2 i) ->
  execute i m = (Ok tt, set_pc (next_pc i m)
    (set_x (Rtype_rd i) (f (xreg m (Rtype_rs1 i)) (xreg m (Rtype_rs2 i))) m)).
Proof.
  intros Hf%zassoc_in Hm Hd Ha Hb.
  destruct (proj1 (list.Forall_forall _ _) alu_handler _ Hf) as (h & Hh & E). cbn [fst snd] in *.
  rewrite (execute_eq i m h Hh), E by done. apply committed_set_x.
Qed.
End sequences.

(** * The fused handlers *)

Section fused.
Context {R : Register} {HP : AddArith R} {M Sy De : Type} `{!Memory R M}.
Context `{!Syscalls (DefaultCoreMachine R M) Sy} `{!Debugger (DefaultCoreMachine R M) De}.
Local Abbreviation DM := (DefaultMachine R M Sy De).

(** The operands of an instruction of the two-operand format. *)
Definition r_regs (i : Instruction) : Prop :=
  is_reg (Rtype_rd i) /\ is_reg (Rtype_rs1 i) /\ is_reg (Rtype_rs2 i).

Definition r4_regs (i : Instruction) : Prop :=
  is_reg (R4type_rd i) /\ is_reg (R4type_rs1 i) /\ is_reg (R4type_rs2 i) /\ is_reg (R4type_rs3 i).
Definition r5_regs (i : Instruction) : Prop :=
  is_reg (R5type_rd i) /\ is_reg (R5type_rs1 i) /\ is_reg (R5type_rs2 i) /\
  is_reg (R5type_rs3 i) /\ is_reg (R5type_rs4 i).

Definition short (i : Instruction) : Prop := instruction_length i = 2 \/ instruction_length i = 4.

(** One update: [rd := f rs1 rs2]. *)
Definition upd (d : Z) (f : reg R -> reg R -> reg R) (a b : Z) (m : DM) : DM :=
  set_x d (f (xreg m a) (xreg m b)) m.

Lemma upd_32 d f a b (m : DM) : regs32 m -> regs32 (upd d f a b m).
Proof. apply set_x_32. Qed.
Lemma upd_at_next d f a b p (m : DM) : upd d f a b (at_next p m) = at_next p (upd d f a b m).
Proof. apply set_x_at_next. Qed.
Lemma upd_set_pc d f a b p (m : DM) : upd d f a b (set_pc p m) = set_pc p (upd d f a b m).
Proof. apply set_x_set_pc. Qed.

Lemma bind_upd f a b d {A} (k : unit -> ST DM A) (m : DM) :
  regs32 m -> is_reg d -> is_reg a -> is_reg b ->
  (v ← register a; w ← register b; update_register d (f v w) ≫= k) m = k tt (upd d f a b m).
Proof. intros. do 2 rewrite bind_register by done. by rewrite bind_update_register. Qed.

Lemma last_upd f a b d (m : DM) : regs32 m -> is_reg d -> is_reg a -> is_reg b ->
  (v ← register a; w ← register b; update_register d (f v w)) m = (Ok tt, upd d f a b m).
Proof. intros. do 2 rewrite bind_register by done. by rewrite update_register_eq. Qed.

Lemma bind_upd_flip f a b d {A} (k : unit -> ST DM A) (m : DM) :
  regs32 m -> is_reg d -> is_reg a -> is_reg b ->
  (v ← register b; w ← register a; update_register d (f w v) ≫= k) m = k tt (upd d f a b m).
Proof. intros. do 2 rewrite bind_register by done. by rewrite bind_update_register. Qed.

(** The first instruction of a sequence, and one that follows another. *)
Lemma exec_seq_alu_first i f l (m : DM) :
  zassoc alu_table (extract_opcode i) = Some f -> regs32 m -> r_regs i ->
  exec_seq (i :: l) m =
  exec_seq l (set_pc (next_pc i m) (upd (Rtype_rd i) f (Rtype_rs1 i) (Rtype_rs2 i) m)).
Proof.
  intros Hf Hm (Hd & Ha & Hb). apply exec_seq_cons. by apply execute_alu.
Qed.

Lemma exec_seq_alu i f l p (m : DM) :
  zassoc alu_table (extract_opcode i) = Some f -> regs32 m -> r_regs i ->
  exec_seq (i :: l) (set_pc p m) =
  exec_seq l (set_pc (overflowing_add p (from_u8 (instruction_length i)))
                     (upd (Rtype_rd i) f (Rtype_rs1 i) (Rtype_rs2 i) m)).
Proof.
  intros Hf Hm Hi. rewrite (exec_seq_alu_first i f l (set_pc p m) Hf Hm Hi).
  by rewrite upd_set_pc, set_pc_set_pc.
Qed.

(** Executing an instruction whose handler ends in the updates [m']. *)
Lemma execute_done i h (m m' : DM) :
  zassoc (handle_table (Mac := DM)) (extract_opcode i) = Some h ->
  h i (at_next (next_pc i m) m) = (Ok tt, at_next (next_pc i m) m') ->
  execute i m = (Ok tt, set_pc (next_pc i m) m').
Proof. intros Hh E. rewrite (execute_eq i m h Hh). unfold next_pc in *. by rewrite E. Qed.

Lemma xreg_at_next p (m : DM) r : xreg (at_next p m) r = xreg m r.
Proof. done. Qed.

(** The pc after a fused instruction is the pc after the instructions it replaces. *)
Fixpoint advance (p : reg R) (l : list Instruction) : reg R :=
  match l with
  | [] => p
  | i :: l' => advance (overflowing_add p (from_u8 (instruction_length i))) l'
  end.

Definition total_length (l : list Instruction) : Z := foldr (fun i n => instruction_length i + n) 0 l.

Lemma advance_total p i l : Forall short (i :: l) -> total_length (i :: l) < 256 ->
  advance p (i :: l) = overflowing_add p (from_u8 (total_length (i :: l))).
Proof.
  revert p i. induction l as [|i' l IH]; intros p i Hs Ht.
  - cbn. by rewrite Z.add_0_r.
  - change (advance p (i :: i' :: l)) with
      (advance (overflowing_add p (from_u8 (instruction_length i))) (i' :: l)).
    apply Forall_cons_1 in Hs as [Hi Hs].
    assert (Hn : 0 <= total_length (i' :: l)).
    { clear -Hs. induction Hs as [|x l1 [Hx|Hx] _ IHl]; unfold total_length in *; cbn [foldr]; lia. }
    unfold short in Hi. change (total_length (i :: i' :: l)) with
      (instruction_length i + total_length (i' :: l)) in *.
    rewrite IH by (done || lia). rewrite add_u8_u8 by lia. done.
Qed.

Hint Resolve upd_32 : regs.

(** Run a sequence of two-operand instructions. *)
Ltac seq_step :=
  first [ erewrite exec_seq_alu by
            first [ eassumption | by eauto 10 with regs nocore
                  | match goal with O : extract_opcode ?i = _ |- zassoc _ (extract_opcode ?i) = _ =>
                      rewrite O; reflexivity end ]
        | erewrite exec_seq_alu_first by
            first [ eassumption | by eauto 10 with regs nocore
                  | match goal with O : extract_opcode ?i = _ |- zassoc _ (extract_opcode ?i) = _ =>
                      rewrite O; reflexivity end ] ].

(** The handler of the fused instruction, as updates. *)
Ltac upd_step :=
  cbv zeta;
  lazymatch goal with
  | |- mbind _ (register ?a) ?m = _ =>
      first [ rewrite (bind_upd overflowing_add) by eauto 10 with regs nocore
            | rewrite (bind_upd overflowing_sub) by eauto 10 with regs nocore
            | rewrite (bind_upd r_lt) by eauto 10 with regs nocore
            | rewrite (bind_upd_flip r_lt) by eauto 10 with regs nocore
            | rewrite (last_upd overflowing_add) by eauto 10 with regs nocore
            | rewrite (last_upd r_or) by eauto 10 with regs nocore ]
  | |- (Ok _, _) = _ => fail
  | |- _ => unfold_run
  end.
Ltac fused_handler Oj :=
  erewrite execute_done; [|rewrite Oj; reflexivity|];
  [ match goal with H : next_pc _ _ = _ |- _ => rewrite H; reflexivity end
  | repeat upd_step; rewrite ?upd_at_next ].

(** Rewrite with the operand equations a rule has checked. *)
Ltac use_fields :=
  repeat match goal with
  | E : ?f ?i = _ |- context [?f ?i] =>
      lazymatch f with
      | Rtype_rd => rewrite E | Rtype_rs1 => rewrite E | Rtype_rs2 => rewrite E
      | R4type_rd => rewrite E | R4type_rs1 => rewrite E | R4type_rs2 => rewrite E
      | R4type_rs3 => rewrite E
      | R5type_rd => rewrite E | R5type_rs1 => rewrite E | R5type_rs2 => rewrite E
      | R5type_rs3 => rewrite E | R5type_rs4 => rewrite E
      end
  end.

Lemma adc_fused (i1 i2 i3 i4 i5 j : Instruction) (m : DM) :
  regs32 m -> r_regs i1 -> r_regs i2 -> r_regs i3 -> r_regs i4 -> r_regs i5 -> r_regs j ->
  extract_opcode i1 = OP_ADD -> extract_opcode i2 = OP_SLTU -> extract_opcode i3 = OP_ADD ->
  extract_opcode i4 = OP_SLTU -> extract_opcode i5 = OP_OR -> extract_opcode j = OP_ADC ->
  Rtype_rd i1 = Rtype_rs1 i1 -> Rtype_rd i2 = Rtype_rs2 i1 -> Rtype_rs2 i1 = Rtype_rs2 i2 ->
  Rtype_rs1 i2 = Rtype_rs1 i1 -> Rtype_rd i3 = Rtype_rs1 i3 -> Rtype_rs1 i3 = Rtype_rs1 i2 ->
  Rtype_rd i4 = Rtype_rs2 i4 -> Rtype_rs2 i4 = Rtype_rs2 i3 -> Rtype_rs1 i4 = Rtype_rs1 i3 ->
  Rtype_rd i5 = Rtype_rs1 i5 -> Rtype_rs1 i5 = Rtype_rs2 i1 -> Rtype_rs2 i5 = Rtype_rs2 i4 ->
  Rtype_rd j = Rtype_rd i1 -> Rtype_rs1 j = Rtype_rd i2 -> Rtype_rs2 j = Rtype_rd i4 ->
  next_pc j m = advance (dc_pc (dm_inner m)) [i1; i2; i3; i4; i5] ->
  execute j m = exec_seq [i1; i2; i3; i4; i5] m.
Proof.
  intros Hm H1 H2 H3 H4 H5 (Hd & Ha & Hb) O1 O2 O3 O4 O5 Oj. intros.
  do 5 seq_step. fused_handler Oj. use_fields.
  reflexivity.
Qed.

Lemma sbb_fused (i1 i2 i3 i4 i5 j : Instruction) (m : DM) :
  regs32 m -> r_regs i1 -> r_regs i2 -> r_regs i3 -> r_regs i4 -> r_regs i5 -> r4_regs j ->
  extract_opcode i1 = OP_SUB -> extract_opcode i2 = OP_SLTU -> extract_opcode i3 = OP_SUB ->
  extract_opcode i4 = OP_SLTU -> extract_opcode i5 = OP_OR -> extract_opcode j = OP_SBB ->
  Rtype_rd i1 = Rtype_rs2 i1 -> Rtype_rs1 i2 = Rtype_rs1 i1 -> Rtype_rs2 i2 = Rtype_rs2 i1 ->
  Rtype_rd i3 = Rtype_rs1 i1 -> Rtype_rs1 i3 = Rtype_rs2 i1 ->
  Rtype_rd i4 = Rtype_rs2 i3 -> Rtype_rs1 i4 = Rtype_rs2 i1 -> Rtype_rs2 i4 = Rtype_rs1 i1 ->
  Rtype_rd i5 = Rtype_rd i1 -> Rtype_rs1 i5 = Rtype_rs2 i3 -> Rtype_rs2 i5 = Rtype_rd i2 ->
  R4type_rd j = Rtype_rs1 i1 -> R4type_rs1 j = Rtype_rs2 i1 -> R4type_rs2 j = Rtype_rs2 i3 ->
  R4type_rs3 j = Rtype_rd i2 ->
  next_pc j m = advance (dc_pc (dm_inner m)) [i1; i2; i3; i4; i5] ->
  execute j m = exec_seq [i1; i2; i3; i4; i5] m.
Proof.
  intros Hm H1 H2 H3 H4 H5 (Hd & Ha & Hb & Hc) O1 O2 O3 O4 O5 Oj. intros.
  do 5 seq_step. fused_handler Oj. use_fields. reflexivity.
Qed.

(** The handlers that do not follow the sequence statement by statement are compared by
    the values they write. *)
Ltac fused_values Oj :=
  erewrite execute_done; [|rewrite Oj; reflexivity|];
  [ match goal with H : next_pc _ _ = _ |- _ => rewrite H; reflexivity end
  | repeat run_step; rewrite ?set_x_at_next; rewrite ?xreg_at_next; unfold upd ].

Lemma adcs_fused (i1 i2 j : Instruction) (m : DM) :
  regs32 m -> r_regs i1 -> r_regs i2 -> r4_regs j ->
  extract_opcode i1 = OP_ADD -> extract_opcode i2 = OP_SLTU -> extract_opcode j = OP_ADCS ->
  (R4type_rs1 j = Rtype_rs1 i1 /\ R4type_rs2 j = Rtype_rs2 i1 \/
   R4type_rs1 j = Rtype_rs2 i1 /\ R4type_rs2 j = Rtype_rs1 i1) ->
  R4type_rd j = Rtype_rd i1 -> R4type_rs3 j = Rtype_rd i2 ->
  Rtype_rs1 i2 = R4type_rd j -> Rtype_rs2 i2 = R4type_rs1 j ->
  R4type_rd j <> R4type_rs1 j -> R4type_rd j <> 0 ->
  next_pc j m = advance (dc_pc (dm_inner m)) [i1; i2] ->
  execute j m = exec_seq [i1; i2] m.
Proof.
  intros Hm (?&?&?) (?&?&?) (Hd & Ha & Hb & Hc) O1 O2 Oj Hs Fd Fc Fa Fb Hne Hnz Hpc.
  do 2 seq_step. fused_values Oj. rewrite Fa, Fb, <- Fd, <- Fc.
  rewrite xreg_set_x_eq, xreg_set_x_ne by eauto with regs.
  destruct Hs as [[-> ->] | [-> ->]]; [done|]. by rewrite add_comm.
Qed.

Lemma sbbs_fused (i1 i2 j : Instruction) (m : DM) :
  regs32 m -> r_regs i1 -> r_regs i2 -> r4_regs j ->
  extract_opcode i1 = OP_SUB -> extract_opcode i2 = OP_SLTU -> extract_opcode j = OP_SBBS ->
  R4type_rd j = Rtype_rd i1 -> R4type_rs1 j = Rtype_rs1 i1 -> R4type_rs2 j = Rtype_rs2 i1 ->
  R4type_rs3 j = Rtype_rd i2 -> Rtype_rs1 i2 = R4type_rs1 j -> Rtype_rs2 i2 = R4type_rs2 j ->
  R4type_rd j <> R4type_rs1 j -> R4type_rd j <> R4type_rs2 j ->
  next_pc j m = advance (dc_pc (dm_inner m)) [i1; i2] ->
  execute j m = exec_seq [i1; i2] m.
Proof.
  intros Hm (?&?&?) (?&?&?) (Hd & Ha & Hb & Hc) O1 O2 Oj Fd Fa Fb Fc Ga Gb Hne1 Hne2 Hpc.
  do 2 seq_step. fused_values Oj. rewrite Ga, Gb, <- Fd, <- Fc, <- Fa, <- Fb.
  by rewrite !xreg_set_x_ne by eauto with regs.
Qed.

(** The three shapes of the add-with-carry-in triple. *)
Section add3.
Context (i1 i2 i3 j : Instruction) (m : DM).
Hypothesis (Hm : regs32 m) (H1 : r_regs i1) (H2 : r_regs i2) (H3 : r_regs i3) (Hj : r5_regs j).
Hypothesis (O1 : extract_opcode i1 = OP_ADD) (O2 : extract_opcode i2 = OP_SLTU).
Hypothesis (O3 : extract_opcode i3 = OP_ADD).
Hypothesis Hpc : next_pc j m = advance (dc_pc (dm_inner m)) [i1; i2; i3].
Hypothesis (Fd : Rtype_rd i1 = R5type_rd j) (Fa : Rtype_rs1 i1 = R5type_rs1 j).
Hypothesis (Ga : Rtype_rs1 i2 = R5type_rd j) (Gb : Rtype_rs2 i2 = R5type_rs1 j).
Hypothesis (Kd : Rtype_rd i3 = R5type_rs3 j) (Kb : Rtype_rs2 i3 = R5type_rs4 j).

Lemma add3a_fused : extract_opcode j = OP_ADD3A ->
  Rtype_rs2 i1 = R5type_rd j -> Rtype_rd i2 = R5type_rs2 j -> Rtype_rs1 i3 = R5type_rs2 j ->
  execute j m = exec_seq [i1; i2; i3] m.
Proof.
  intros Oj Fb Gd Ka. destruct Hj as (?&?&?&?&?).
  do 3 seq_step. fused_handler Oj. use_fields. unfold upd at 3 6.
  do 2 f_equal. by rewrite add_comm.
Qed.

Lemma add3b_fused : extract_opcode j = OP_ADD3B ->
  Rtype_rs2 i1 = R5type_rs2 j -> Rtype_rd i2 = R5type_rs1 j -> Rtype_rs1 i3 = R5type_rs1 j ->
  execute j m = exec_seq [i1; i2; i3] m.
Proof.
  intros Oj Fb Gd Ka. destruct Hj as (?&?&?&?&?).
  do 3 seq_step. fused_handler Oj. use_fields. reflexivity.
Qed.

Lemma add3c_fused : extract_opcode j = OP_ADD3C ->
  Rtype_rs2 i1 = R5type_rs2 j -> Rtype_rd i2 = R5type_rs3 j -> Rtype_rs1 i3 = R5type_rs3 j ->
  R5type_rs3 j <> R5type_rs4 j -> R5type_rs3 j <> 0 ->
  execute j m = exec_seq [i1; i2; i3] m.
Proof.
  intros Oj Fb Gd Ka Hne Hnz. destruct Hj as (?&?&?&?&?).
  do 3 seq_step. fused_values Oj. use_fields.
  rewrite set_x_twice, (xreg_set_x_eq (R5type_rs3 j)),
    (xreg_set_x_ne (R5type_rs3 j) _ _ (R5type_rs4 j))
    by eauto with regs. done.
Qed.
End add3.

(** The wide multiplications and divisions: high and low word, quotient and remainder. *)
Definition wide_table : list (InstructionOpcode * InstructionOpcode * InstructionOpcode) :=
  [(OP_MULH, OP_MUL, OP_WIDE_MUL); (OP_MULHU, OP_MUL, OP_WIDE_MULU);
   (OP_MULHSU, OP_MUL, OP_WIDE_MULSU); (OP_DIV, OP_REM, OP_WIDE_DIV);
   (OP_DIVU, OP_REMU, OP_WIDE_DIVU)].

Lemma wide_fused (i1 i2 j : Instruction) (m : DM) o1 o2 oj :
  (o1, o2, oj) ∈ wide_table -> regs32 m -> r_regs i1 -> r_regs i2 -> r4_regs j ->
  extract_opcode i1 = o1 -> extract_opcode i2 = o2 -> extract_opcode j = oj ->
  R4type_rd j = Rtype_rd i1 -> R4type_rs1 j = Rtype_rs1 i1 -> R4type_rs2 j = Rtype_rs2 i1 ->
  R4type_rs3 j = Rtype_rd i2 -> Rtype_rs1 i2 = R4type_rs1 j -> Rtype_rs2 i2 = R4type_rs2 j ->
  R4type_rd j <> R4type_rs1 j -> R4type_rd j <> R4type_rs2 j ->
  next_pc j m = advance (dc_pc (dm_inner m)) [i1; i2] ->
  execute j m = exec_seq [i1; i2] m.
Proof.
  intros Hin Hm (?&?&?) (?&?&?) (Hd & Ha & Hb & Hc) O1 O2 Oj Fd Fa Fb Fc Ga Gb Hne1 Hne2 Hpc.
  repeat (apply elem_of_cons in Hin as [[= -> -> ->] | Hin]); [..|by apply elem_of_nil in Hin].
  all: do 2 seq_step; fused_values Oj; rewrite Ga, Gb, <- Fd, <- Fc, <- Fa, <- Fb;
    by rewrite !xreg_set_x_ne by eauto with regs.
Qed.
End fused.

(** ** Immediates, on a 64-bit machine *)

Section fused_imm.
Context {M Sy De : Type} `{!Memory u64_register M}.
Context `{!Syscalls (DefaultCoreMachine u64_register M) Sy}.
Context `{!Debugger (DefaultCoreMachine u64_register M) De}.
Local Abbreviation DM := (DefaultMachine u64_register M Sy De).
Local Abbreviation here m := (dc_pc (dm_inner m)).
Local Abbreviation x_set := (set_x (R := u64_register)).
Local Abbreviation pc_set := (set_pc (R := u64_register)).
Local Abbreviation xr := (xreg (R := u64_register)).

Lemma exec_lui i (m : DM) : extract_opcode i = OP_LUI -> regs32 m -> is_reg (Utype_rd i) ->
  execute i m = (Ok tt, set_pc (next_pc i m) (x_set (Utype_rd i) (wrap 64 (Utype_immediate_s i)) m)).
Proof.
  intros O Hm Hd. erewrite execute_eq by (rewrite O; reflexivity).
  rewrite <- (committed_set_x _ _ (next_pc i m)). f_equal. by repeat run_step.
Qed.

Lemma exec_auipc i (m : DM) : extract_opcode i = OP_AUIPC -> regs32 m -> is_reg (Utype_rd i) ->
  execute i m = (Ok tt, set_pc (next_pc i m)
    (x_set (Utype_rd i) (wrap 64 (here m + Utype_immediate_s i)) m)).
Proof.
  intros O Hm Hd. erewrite execute_eq by (rewrite O; reflexivity).
  rewrite <- (committed_set_x _ _ (next_pc i m)). f_equal. repeat run_step. result_eq.
  apply wrap_add_r.
Qed.

Lemma exec_addi i (m : DM) : extract_opcode i = OP_ADDI -> regs32 m -> is_reg (Itype_rd i) ->
  is_reg (Itype_rs1 i) ->
  execute i m = (Ok tt, set_pc (next_pc i m)
    (x_set (Itype_rd i) (wrap 64 (xr m (Itype_rs1 i) + Itype_immediate_s i)) m)).
Proof.
  intros O Hm Hd Ha. erewrite execute_eq by (rewrite O; reflexivity).
  rewrite <- (committed_set_x _ _ (next_pc i m)). f_equal. repeat run_step. result_eq.
  apply wrap_add_r.
Qed.

(** The sign-extended low word of a register. *)
Lemma exec_addiw i (m : DM) : extract_opcode i = OP_ADDIW -> regs32 m -> is_reg (Itype_rd i) ->
  is_reg (Itype_rs1 i) ->
  execute i m = (Ok tt, set_pc (next_pc i m)
    (x_set (Itype_rd i) (wrap 64 (sign 32 (xr m (Itype_rs1 i) + Itype_immediate_s i))) m)).
Proof.
  intros O Hm Hd Ha. erewrite execute_eq by (rewrite O; reflexivity).
  rewrite <- (committed_set_x _ _ (next_pc i m)). f_equal. repeat run_step. result_eq.
  etransitivity; [by apply u64_sign_extend_eq|]. f_equal.
  rewrite <- (sign_wrap 32), <- (sign_wrap 32 (_ + _)). f_equal. unfold overflowing_add, from_i32.
  cbn. unfold u64_overflowing_add, wadd, u64_from_i32.
  by rewrite wrap_wrap_le, <- (wrap_add_r 32), wrap_wrap_le, wrap_add_r by lia.
Qed.

(** The target of an indirect jump, with its lowest bit cleared. *)
Definition even (z : Z) : Z := Z.land (wrap 64 z) (wnot 64 1).

Lemma exec_jalr i (m : DM) : extract_opcode i = OP_JALR_VERSION1 -> regs32 m ->
  is_reg (Itype_rd i) -> is_reg (Itype_rs1 i) ->
  execute i m = (Ok tt, pc_set (even (xr m (Itype_rs1 i) + Itype_immediate_s i))
    (x_set (Itype_rd i) (next_pc i m) m)).
Proof.
  intros O Hm Hd Ha. erewrite execute_eq by (rewrite O; reflexivity).
  rewrite <- (committed_jump _ _ _ (next_pc i m)). f_equal. repeat run_step. result_eq.
  unfold even. rewrite <- (wrap_add_r 64). reflexivity.
Qed.

Lemma exec_seq_two i1 i2 (m m1 m2 : DM) :
  execute i1 m = (Ok tt, m1) -> execute i2 m1 = (Ok tt, m2) ->
  exec_seq [i1; i2] m = (Ok tt, m2).
Proof. intros E1 E2. by rewrite (exec_seq_cons _ _ _ _ E1), (exec_seq_cons _ _ _ _ E2). Qed.

Lemma RA_reg : is_reg RA.
Proof. by split. Qed.
Hint Resolve RA_reg : regs.

(** Executing the fused far jumps and immediate load. *)
Lemma exec_far_jump_rel j (m : DM) : extract_opcode j = OP_FAR_JUMP_REL -> regs32 m ->
  execute j m = (Ok tt, pc_set (even (here m + Utype_immediate_s j))
    (x_set RA (next_pc j m) m)).
Proof.
  intros O Hm. erewrite execute_eq by (rewrite O; reflexivity).
  rewrite <- (committed_jump _ _ _ (next_pc j m)). f_equal. repeat run_step. result_eq.
  unfold even. rewrite <- (wrap_add_r 64). reflexivity.
Qed.

Lemma exec_far_jump_abs j (m : DM) : extract_opcode j = OP_FAR_JUMP_ABS -> regs32 m ->
  execute j m = (Ok tt, pc_set (even (Utype_immediate_s j)) (x_set RA (next_pc j m) m)).
Proof.
  intros O Hm. erewrite execute_eq by (rewrite O; reflexivity).
  rewrite <- (committed_jump _ _ _ (next_pc j m)). f_equal. by repeat run_step.
Qed.

Lemma exec_load_imm j (m : DM) : extract_opcode j = OP_CUSTOM_LOAD_IMM -> regs32 m ->
  is_reg (Utype_rd j) ->
  execute j m = (Ok tt, pc_set (next_pc j m) (x_set (Utype_rd j) (wrap 64 (Utype_immediate_s j)) m)).
Proof.
  intros O Hm Hd. erewrite execute_eq by (rewrite O; reflexivity).
  rewrite <- (committed_set_x _ _ (next_pc j m)). f_equal. by repeat run_step.
Qed.

Section pairs.
Context (i1 i2 j : Instruction) (m : DM).
Hypothesis (Hm : regs32 m) (H1 : is_reg (Utype_rd i1)) (H2 : is_reg (Itype_rd i2)).
Hypothesis H2a : is_reg (Itype_rs1 i2).
Hypothesis Hpc : next_pc j m = advance (here m) [i1; i2].

(** The link register of the second instruction. *)
Lemma next_pc_second (v : DM) : next_pc i2 (pc_set (next_pc i1 m) v) = next_pc j m.
Proof. rewrite Hpc. done. Qed.

Lemma even_wrap a b : even (wrap 64 a + b) = even (a + b).
Proof. unfold even. by rewrite wrap_add_l. Qed.

(** An indirect jump through the link register, after the upper immediate [v] was put there. *)
Lemma jalr_after v :
  extract_opcode i2 = OP_JALR_VERSION1 -> Itype_rs1 i2 = RA -> Itype_rd i2 = RA ->
  execute i2 (pc_set (next_pc i1 m) (x_set RA (wrap 64 v) m)) =
  (Ok tt, pc_set (even (v + Itype_immediate_s i2)) (x_set RA (next_pc j m) m)).
Proof.
  intros O F2 F3. rewrite exec_jalr by eauto with regs. rewrite next_pc_second, F2, F3.
  rewrite set_x_set_pc, set_pc_set_pc, set_x_twice, <- (even_wrap v).
  do 4 f_equal. by apply (xreg_set_x_eq (R := u64_register)).
Qed.

Lemma far_jump_rel_fused :
  extract_opcode i1 = OP_AUIPC -> extract_opcode i2 = OP_JALR_VERSION1 ->
  extract_opcode j = OP_FAR_JUMP_REL -> Utype_rd i1 = RA -> Itype_rs1 i2 = RA ->
  Itype_rd i2 = RA -> Utype_immediate_s j = Utype_immediate_s i1 + Itype_immediate_s i2 ->
  execute j m = exec_seq [i1; i2] m.
Proof.
  intros O1 O2 Oj F1 F2 F3 Fi. symmetry. rewrite exec_far_jump_rel by done.
  eapply exec_seq_two; [by apply exec_auipc|]. rewrite F1, jalr_after by done.
  by rewrite Fi, Z.add_assoc.
Qed.

Lemma far_jump_abs_fused :
  extract_opcode i1 = OP_LUI -> extract_opcode i2 = OP_JALR_VERSION1 ->
  extract_opcode j = OP_FAR_JUMP_ABS -> Utype_rd i1 = RA -> Itype_rs1 i2 = RA ->
  Itype_rd i2 = RA -> Utype_immediate_s j = Utype_immediate_s i1 + Itype_immediate_s i2 ->
  execute j m = exec_seq [i1; i2] m.
Proof.
  intros O1 O2 Oj F1 F2 F3 Fi. symmetry. rewrite exec_far_jump_abs by done.
  eapply exec_seq_two; [by apply exec_lui|]. by rewrite F1, jalr_after, Fi.
Qed.

(** The second instruction overwrites the register the first one has loaded. *)
Lemma reload d v v' w : is_reg d -> (d <> 0 -> v' = w) ->
  x_set d v' (x_set d v m) = x_set d w m.
Proof.
  intros Hd Hv. rewrite set_x_twice. destruct (decide (d = 0)) as [->|Hne]; [done|].
  by rewrite Hv.
Qed.

Lemma load_imm_lui_fused :
  extract_opcode i1 = OP_LUI -> extract_opcode i2 = OP_ADDIW ->
  extract_opcode j = OP_CUSTOM_LOAD_IMM -> Itype_rs1 i2 = Itype_rd i2 ->
  Itype_rd i2 = Utype_rd i1 -> Utype_rd j = Utype_rd i1 ->
  Utype_immediate_s j = sign 32 (Utype_immediate_s i1 + Itype_immediate_s i2) ->
  execute j m = exec_seq [i1; i2] m.
Proof.
  intros O1 O2 Oj F1 F2 F3 Fi. symmetry. rewrite exec_load_imm by congruence.
  eapply exec_seq_two; [by apply exec_lui|].
  rewrite exec_addiw by eauto with regs. rewrite next_pc_second, F1, F2, F3, Fi.
  rewrite set_x_set_pc, set_pc_set_pc. do 2 f_equal. apply reload; [done|]. intros Hne.
  change (xr (pc_set ?p ?v)) with (xr v). rewrite (xreg_set_x_eq (R := u64_register)) by done.
  f_equal. rewrite <- (sign_wrap 32), <- (sign_wrap 32 (_ + _)).
  by rewrite <- (wrap_add_l 32), wrap_wrap_le, wrap_add_l by lia.
Qed.

Lemma load_imm_auipc_fused :
  extract_opcode i1 = OP_AUIPC -> extract_opcode i2 = OP_ADDI ->
  extract_opcode j = OP_CUSTOM_LOAD_IMM -> Itype_rs1 i2 = Itype_rd i2 ->
  Itype_rd i2 = Utype_rd i1 -> Utype_rd j = Utype_rd i1 ->
  Utype_immediate_s j = Utype_immediate_s i1 + Itype_immediate_s i2 + here m ->
  execute j m = exec_seq [i1; i2] m.
Proof.
  intros O1 O2 Oj F1 F2 F3 Fi. symmetry. rewrite exec_load_imm by congruence.
  eapply exec_seq_two; [by apply exec_auipc|].
  rewrite exec_addi by eauto with regs. rewrite next_pc_second, F1, F2, F3, Fi.
  rewrite set_x_set_pc, set_pc_set_pc. do 2 f_equal. apply reload; [done|]. intros Hne.
  change (xr (pc_set ?p ?v)) with (xr v). rewrite (xreg_set_x_eq (R := u64_register)) by done.
  rewrite wrap_add_l. f_equal. cbn. lia.
Qed.
End pairs.
End fused_imm.
