(* ===== verification/FusionSound.v ===== *)
(** Macro-op fusion is sound, the decoding side: what a fusion rule has checked when it
    returns an instruction, and the theorem that the fused instruction does what the
    instructions in memory do.

    [yields s0] is a weakest precondition for computations of the decoder that start in
    a state [alike] to [s0]: instructions fetched on the way are those of [s0]. *)
From S2P Require Import Prelude Outcome Register RegisterFacts Insts InstsFacts Memory.
From S2P Require Import Machine Core Decoder Execute Exec MachineOk DecoderOk Fetch Fusion.
From S2P Require Import FactoriesFacts MemoryFacts Demo FetchMem.
From stdpp Require Import base list numbers.
Open Scope Z_scope.

(** * Packed fused instructions *)

Lemma total_length_range l : Forall short l ->
  2 * Z.of_nat (length l) <= total_length l <= 4 * Z.of_nat (length l) /\
  total_length l = 2 * (total_length l / 2).
Proof.
  unfold short. induction l as [|i l IH]; [done|]. intros [Hi Hl]%Forall_cons_1.
  destruct (IH Hl) as [H1 H2]. unfold total_length in *. cbn [foldr length]. dlia.
Qed.

Lemma is_reg_8 r : is_reg r -> wrap 8 r = r.
Proof. intros [? ?]. apply wrap_small. split; lia. Qed.

Section packed.
Context (l : list Instruction) (op d a b c e imm : Z).
Hypothesis (Hl : Forall short l) (Hn : (length l <= 5)%nat) (Hop : in_u 16 op).
Local Abbreviation n := (total_length l).

Lemma total_flag : in_u 4 (n / 2) /\ n = 2 * (n / 2) /\ 0 <= n < 32.
Proof. destruct (total_length_range l Hl). split_and!; try lia; split; dlia. Qed.

Lemma packed_R (j := set_instruction_length_n (Rtype_new op d a b) n) :
  is_reg d -> is_reg a -> is_reg b ->
  extract_opcode j = op /\ instruction_length j = n /\
  Rtype_rd j = d /\ Rtype_rs1 j = a /\ Rtype_rs2 j = b.
Proof.
  intros. subst j. destruct total_flag as (Hk & E & Hr). rewrite (set_length_n_field _ _ Hr).
  destruct (Rtype_fields op d a b (n / 2) Hop Hk) as (-> & -> & _ & -> & -> & ->).
  rewrite !is_reg_8 by done. done.
Qed.

Lemma packed_R4 (j := set_instruction_length_n (R4type_new op d a b c) n) :
  is_reg d -> is_reg a -> is_reg b -> is_reg c ->
  extract_opcode j = op /\ instruction_length j = n /\
  R4type_rd j = d /\ R4type_rs1 j = a /\ R4type_rs2 j = b /\ R4type_rs3 j = c.
Proof.
  intros. subst j. destruct total_flag as (Hk & E & Hr). rewrite (set_length_n_field _ _ Hr).
  destruct (R4type_fields op d a b c (n / 2) Hop Hk) as (-> & -> & _ & -> & -> & -> & ->).
  rewrite !is_reg_8 by done. done.
Qed.

Lemma packed_R5 (j := set_instruction_length_n (R5type_new op d a b c e) n) :
  is_reg d -> is_reg a -> is_reg b -> is_reg c -> is_reg e ->
  extract_opcode j = op /\ instruction_length j = n /\
  R5type_rd j = d /\ R5type_rs1 j = a /\ R5type_rs2 j = b /\ R5type_rs3 j = c /\
  R5type_rs4 j = e.
Proof.
  intros. subst j. destruct total_flag as (Hk & E & Hr). rewrite (set_length_n_field _ _ Hr).
  destruct (R5type_fields op d a b c e (n / 2) Hop Hk) as (-> & -> & _ & -> & -> & -> & -> & ->).
  rewrite !is_reg_8 by done. done.
Qed.

Lemma packed_U (j := set_instruction_length_n (Utype_new_s op d imm) n) :
  is_reg d -> in_s 32 imm ->
  extract_opcode j = op /\ instruction_length j = n /\
  Utype_rd j = d /\ Utype_immediate_s j = imm.
Proof.
  intros. subst j. destruct total_flag as (Hk & E & Hr). rewrite (set_length_n_field _ _ Hr).
  destruct (Utype_fields op d imm (n / 2) Hop Hk) as (-> & -> & _ & -> & ->).
  rewrite is_reg_8, sign_wrap, sign_small by done. done.
Qed.
End packed.

Lemma sign_in_s v : in_s 32 (sign 32 v).
Proof. by apply sign_range. Qed.

(** The decoder adds the lengths in 8 bits. *)
Ltac sum_lengths :=
  repeat match goal with
  | H : Forall short (_ :: _) |- _ => apply Forall_cons_1 in H as [? H]
  end;
  unfold short, total_length in *; cbn [foldr]; unfold wadd;
  repeat match goal with
  | |- context [wrap 8 ?x] =>
      lazymatch x with
      | context [wrap _ _] => fail
      | _ => rewrite (wrap_small 8 x) by (split; lia)
      end
  end; lia.

Section sums.
Context (i1 i2 i3 i4 i5 : Instruction).
Local Abbreviation len := instruction_length.

Lemma sum_lengths_2 : Forall short [i1; i2] ->
  wadd 8 (len i1) (len i2) = total_length [i1; i2].
Proof. intros. sum_lengths. Qed.
Lemma sum_lengths_3 : Forall short [i1; i2; i3] ->
  wadd 8 (wadd 8 (len i1) (len i2)) (len i3) = total_length [i1; i2; i3].
Proof. intros. sum_lengths. Qed.
Lemma sum_lengths_5 : Forall short [i1; i2; i3; i4; i5] ->
  wadd 8 (wadd 8 (wadd 8 (wadd 8 (len i1) (len i2)) (len i3)) (len i4)) (len i5) =
  total_length [i1; i2; i3; i4; i5].
Proof. intros. sum_lengths. Qed.
End sums.

(** * What the decoder finds *)

Section yields.
Context {M : Type} {HM : Memory u64_register M} {HF : FetchOk u64_register M}.
Local Abbreviation DS := (DecoderState (M := M)).
Context (s0 : DS).
Hypothesis Hfac : Forall factory_ok (dd_factories s0.1).

Definition yields {A} (c : ST DS A) (Q : A -> Prop) (E : Error -> Prop) : Prop :=
  forall s, alike s0 s ->
    alike s0 (c s).2 /\
    match (c s).1 with Ok a => Q a | Err e => E e | Panic => True end.

Lemma yields_ret {A} (a : A) (Q : A -> Prop) E : Q a -> yields (mret a) Q E.
Proof. by intros ? s Hs. Qed.

Lemma yields_if {A} (b : bool) (c c' : ST DS A) Q E :
  (b = true -> yields c Q E) -> (b = false -> yields c' Q E) ->
  yields (if b then c else c') Q E.
Proof. destruct b; auto. Qed.

Lemma yields_bind {A B} (c : ST DS A) (k : A -> ST DS B) P Q E :
  yields c P E -> (forall a, P a -> yields (k a) Q E) -> yields (c ≫= k) Q E.
Proof.
  intros Hc Hk s Hs. specialize (Hc s Hs). unfold mbind, ST_bind.
  destruct (c s) as [[a|e|] s']; cbn in Hc; destruct Hc as [Ha Hc]; [|done..].
  by apply (Hk a Hc).
Qed.

Lemma yields_mono {A} (c : ST DS A) (Q Q' : A -> Prop) (E E' : Error -> Prop) :
  yields c Q E -> (forall a, Q a -> Q' a) -> (forall e, E e -> E' e) -> yields c Q' E'.
Proof.
  intros Hc HQ HE s Hs. destruct (Hc s Hs) as [Ha H]. split; [done|].
  destruct (c s).1; auto.
Qed.

Lemma yields_attempt {A} (c : ST DS A) Q E E' : yields c Q E ->
  yields (attempt c) (fun o => forall a, o = Some a -> Q a) E'.
Proof.
  intros Hc s Hs. specialize (Hc s Hs). unfold attempt.
  destruct (c s) as [[a|e|] s']; cbn in *; destruct Hc; split; try done. by intros ? [= <-].
Qed.

Lemma yields_version E :
  yields (gets (fun s : DS => dd_version s.1)) (fun v => v = dd_version s0.1) E.
Proof. intros s Hs. split; [done|]. cbn. by destruct Hs. Qed.

Lemma yields_decode_raw pc E : in_u 64 pc ->
  (forall e, raw s0.1 s0.2 pc = Err e -> E e) ->
  yields (decode_raw pc) (fun i => raw s0.1 s0.2 pc = Ok i) E.
Proof.
  intros Hpc HE s Hs. destruct (decode_raw_spec pc s Hpc (al_right _ _ Hs)) as [E1 Ha].
  split; [by etrans|]. rewrite E1, <- (raw_alike s0 s pc Hpc Hs).
  destruct (raw s0.1 s0.2 pc); [done|by apply HE|done].
Qed.

(** Decoded instructions are well-formed. *)
Lemma raw_decoded pc i : raw s0.1 s0.2 pc = Ok i -> decoded i.
Proof.
  unfold raw. case_match; [done|]. destruct (decode_bits pc s0.2).1 as [w| |]; [|done..].
  destruct (first_factory _ _ _) as [i'|] eqn:Hf; [|done]. intros [= <-].
  exact (first_factory_ok _ _ _ Hfac _ Hf).
Qed.

(** The instructions [l] are what the code at [pc] decodes to. *)
Fixpoint code_at (pc : Z) (l : list Instruction) : Prop :=
  match l with
  | [] => True
  | i :: l' => raw s0.1 s0.2 pc = Ok i /\ code_at (wadd 64 pc (instruction_length i)) l'
  end.

Lemma code_at_decoded pc l : code_at pc l -> Forall decoded l.
Proof.
  revert pc. induction l as [|i l IH]; intros pc; [constructor|]. intros [Hi Hl].
  apply List.Forall_cons; [by eapply raw_decoded|by eapply IH].
Qed.

Lemma decoded_short l : Forall decoded l -> Forall short l.
Proof. intros H. eapply list.Forall_impl; [exact H|]. by intros i []. Qed.

(** * The rules *)

Context {M' Sy De : Type} `{!Memory u64_register M'}.
Context `{!Syscalls (DefaultCoreMachine u64_register M') Sy}.
Context `{!Debugger (DefaultCoreMachine u64_register M') De}.
Local Abbreviation DM := (DefaultMachine u64_register M' Sy De).

(** The operand conditions the rules leave out: the first borrow of the subtract with
    borrow must compare with the subtrahend, and the target of an absolute far jump must
    fit its 32-bit field. *)
Definition operands_checked (l : list Instruction) : bool :=
  match l with
  | [i1; i2] =>
      if (extract_opcode i1 =? OP_LUI) && (extract_opcode i2 =? OP_JALR_VERSION1) then
        let imm := Utype_immediate_s i1 + Itype_immediate_s i2 in
        (-2147483648 <=? imm) && (imm <=? 2147483647)
      else true
  | [i1; i2; _; _; _] =>
      if extract_opcode i1 =? OP_SUB then Rtype_rs2 i2 =? Rtype_rs2 i1 else true
  | _ => true
  end.

(** [j] stands for the instructions [l] at [pc]. *)
Definition replaces (pc : Z) (l : list Instruction) (j : Instruction) : Prop :=
  l <> [] /\ code_at pc l /\
  (operands_checked l = true ->
   forall m : DM, regs32 m -> dc_pc (dm_inner m) = pc -> execute j m = exec_seq l m).

Definition fused_at (pc : Z) (j : Instruction) : Prop := exists l, replaces pc l j.

Lemma fused_single pc i : raw s0.1 s0.2 pc = Ok i -> fused_at pc i.
Proof.
  intros Hi. exists [i]. split_and!; [done|by split|]. intros _ m _ _. cbn [exec_seq].
  unfold mbind, ST_bind. by destruct (execute i m) as [[[]|?|] ?].
Qed.

(** What is left of a fusion: the well-formedness of the instructions and of the pc. *)
Lemma fused_intro pc l j : (0 < length l <= 5)%nat -> code_at pc l ->
  instruction_length j = total_length l ->
  (Forall decoded l -> operands_checked l = true -> forall m : DM, regs32 m ->
   dc_pc (dm_inner m) = pc -> next_pc j m = advance (dc_pc (dm_inner m)) l ->
   execute j m = exec_seq l m) ->
  fused_at pc j.
Proof.
  intros Hlen Hc Hj Hex. pose proof (code_at_decoded _ _ Hc) as Hd.
  pose proof (decoded_short _ Hd) as Hs.
  exists l. split_and!; [by destruct l; cbn in *; [lia|]|done|].
  intros Hok m Hm Hpc. apply Hex; try done.
  destruct l as [|i l]; [cbn in Hlen; lia|].
  rewrite advance_total; [unfold next_pc; by rewrite Hj|done|].
  destruct (total_length_range _ Hs) as [? _]. lia.
Qed.

(** The fields of an instruction are read by the lemmas above only. *)
#[local] Opaque Rtype_rd Rtype_rs1 Rtype_rs2 R4type_rd R4type_rs1 R4type_rs2 R4type_rs3.
#[local] Opaque R5type_rd R5type_rs1 R5type_rs2 R5type_rs3 R5type_rs4 Itype_rd Itype_rs1.
#[local] Opaque Utype_rd Utype_immediate_s Itype_immediate_s extract_opcode instruction_length.

Ltac rule_step :=
  cbv zeta;
  lazymatch goal with
  | |- yields (mret None) _ _ => by apply yields_ret
  | |- yields (if _ then _ else _) _ _ => apply yields_if; intros ?
  | |- yields (mbind _ (decode_raw _)) _ _ =>
      eapply yields_bind; [apply yields_decode_raw; [apply wadd64_range|done]|intros ? ?]
  | |- yields (mbind _ (gets _)) _ _ =>
      eapply yields_bind; [apply yields_version|intros ? ->]
  end.

(** The result of a rule: the instructions [l] have been decoded one after the other. *)
Ltac rule_found l :=
  apply yields_ret; intros ? [= <-]; unfold ZERO in *; bool_hyps;
  assert (Hcode : code_at _ l) by (repeat split; eassumption);
  pose proof (code_at_decoded _ _ Hcode) as Hdec;
  pose proof (decoded_short _ Hdec) as Hshort;
  repeat match type of Hdec with
  | Forall decoded (_ :: _) => apply Forall_cons_1 in Hdec as [? Hdec]
  end;
  operand_facts.

(** The instruction in the goal is described by [lem]; abstract it. *)
Ltac rule_packed lem :=
  let F := fresh "F" in
  epose proof lem as F; cbv zeta in F;
  lazymatch goal with |- fused_at _ ?j => set (fused := j) in *; clearbody fused end;
  destruct F as (? & ? & F); [cbn; lia|first [assumption|by split]|first [assumption|by split|apply sign_in_s]..|];
  match goal with Hc : code_at ?pc ?l |- fused_at ?pc ?j =>
    apply (fused_intro pc l j); [cbn; lia|done|done|intros _ ? ? ? ? ?]
  end;
  destruct_and? F.

(** Discharge the hypotheses of a lemma on fused execution. *)
Tactic Notation "fused_by" uconstr(lem) :=
  eapply lem; unfold r_regs, r4_regs, r5_regs; split_and?;
  first [ match goal with H : ?P |- ?P => exact H end
        | match goal with E : _ = _ |- is_reg _ => rewrite E; assumption end
        | congruence ].

Local Abbreviation rule_result pc := (fun o => forall j, o = Some j -> fused_at pc j).

Lemma rule_adc_yields pc h : raw s0.1 s0.2 pc = Ok h -> extract_opcode h = OP_ADD ->
  yields (rule_adc pc h) (rule_result pc) (fun _ => True).
Proof.
  intros Hh Ho. unfold rule_adc. repeat rule_step.
  match goal with |- context [wadd 8 (wadd 8 (wadd 8 (wadd 8 _ (instruction_length ?i2))
    (instruction_length ?i3)) (instruction_length ?i4)) (instruction_length ?i5)] =>
    rule_found [h; i2; i3; i4; i5] end.
  rewrite sum_lengths_5 by done.
  rule_packed (packed_R _ OP_ADC (Rtype_rd h) (Rtype_rd a) (Rtype_rd a1) Hshort).
  fused_by adc_fused.
Qed.

Lemma rule_sbb_yields pc h : raw s0.1 s0.2 pc = Ok h -> extract_opcode h = OP_SUB ->
  yields (rule_sbb pc h) (rule_result pc) (fun _ => True).
Proof.
  intros Hh Ho. unfold rule_sbb. repeat rule_step.
  match goal with |- context [wadd 8 (wadd 8 (wadd 8 (wadd 8 _ (instruction_length ?i2))
    (instruction_length ?i3)) (instruction_length ?i4)) (instruction_length ?i5)] =>
    rule_found [h; i2; i3; i4; i5] end.
  rewrite sum_lengths_5 by done.
  rule_packed (packed_R4 _ OP_SBB (Rtype_rs1 h) (Rtype_rs2 h) (Rtype_rs2 a0) (Rtype_rd a) Hshort).
  match goal with H : operands_checked _ = true |- _ =>
    cbn [operands_checked] in H; rewrite Ho in H; cbn [Z.eqb] in H; apply Z.eqb_eq in H end.
  fused_by sbb_fused.
Qed.

Lemma rule_sbbs_yields pc h : VERSION2 <= dd_version s0.1 ->
  raw s0.1 s0.2 pc = Ok h -> extract_opcode h = OP_SUB ->
  yields (rule_sbbs pc h) (rule_result pc) (fun _ => True).
Proof.
  intros Hv Hh Ho. unfold rule_sbbs. repeat rule_step.
  match goal with |- context [wadd 8 _ (instruction_length ?i2)] => rule_found [h; i2] end.
  rewrite sum_lengths_2 by done.
  rule_packed (packed_R4 _ OP_SBBS (Rtype_rd h) (Rtype_rs1 h) (Rtype_rs2 h) (Rtype_rd a) Hshort).
  fused_by sbbs_fused.
Qed.

Lemma rule_add3_yields pc h : VERSION2 <= dd_version s0.1 ->
  raw s0.1 s0.2 pc = Ok h -> extract_opcode h = OP_ADD ->
  yields (rule_add3 pc h) (rule_result pc) (fun _ => True).
Proof.
  intros Hv Hh Ho. unfold rule_add3. repeat rule_step.
  unfold add3a, add3b, add3c. cbv zeta.
  repeat (match goal with |- yields (match (if ?b then _ else _) with _ => _ end) _ _ =>
    let Hb := fresh "Hb" in destruct b eqn:Hb end).
  all: cycle 3.
  { rule_step. }
  all: rule_found [h; a; a0]; rewrite sum_lengths_3 by done.
  - rule_packed (packed_R5 _ OP_ADD3A (Rtype_rd h) (Rtype_rs1 h) (Rtype_rd a) (Rtype_rd a0)
      (Rtype_rs2 a0) Hshort).
    fused_by add3a_fused.
  - rule_packed (packed_R5 _ OP_ADD3B (Rtype_rd h) (Rtype_rs1 h) (Rtype_rs2 h) (Rtype_rd a0)
      (Rtype_rs2 a0) Hshort).
    fused_by add3b_fused.
  - rule_packed (packed_R5 _ OP_ADD3C (Rtype_rd h) (Rtype_rs1 h) (Rtype_rs2 h) (Rtype_rd a)
      (Rtype_rs2 a0) Hshort).
    fused_by add3c_fused.
Qed.

(** The first instruction with its operands swapped. *)
Lemma swapped_fields h : is_reg (Rtype_rd h) -> is_reg (Rtype_rs1 h) -> is_reg (Rtype_rs2 h) ->
  let i := Rtype_new (Rtype_op h) (Rtype_rd h) (Rtype_rs2 h) (Rtype_rs1 h) in
  Rtype_rd i = Rtype_rd h /\ Rtype_rs1 i = Rtype_rs2 h /\ Rtype_rs2 i = Rtype_rs1 h.
Proof.
  intros Hd Ha Hb. destruct (Rtype_fields (Rtype_op h) (Rtype_rd h) (Rtype_rs2 h)
      (Rtype_rs1 h) 0 (inst_op_range h) ltac:(by split)) as (_&_&_&E1&E2&E3).
  cbv zeta. change (field8 0 24) with 0 in *. rewrite Z.lor_0_r in *.
  rewrite E1, E2, E3. split_and!; apply is_reg_8; assumption.
Qed.

Lemma rule_adcs_yields pc h : VERSION2 <= dd_version s0.1 ->
  raw s0.1 s0.2 pc = Ok h -> extract_opcode h = OP_ADD ->
  yields (rule_adcs pc h) (rule_result pc) (fun _ => True).
Proof.
  intros Hv Hh Ho. unfold rule_adcs. rule_step. rule_step; [rule_step|]. cbv zeta.
  set (i0 := if _ && _ then _ else h).
  assert (H0 : Rtype_rd i0 = Rtype_rd h /\
    (Rtype_rs1 i0 = Rtype_rs1 h /\ Rtype_rs2 i0 = Rtype_rs2 h \/
     Rtype_rs1 i0 = Rtype_rs2 h /\ Rtype_rs2 i0 = Rtype_rs1 h)).
  { pose proof (raw_decoded _ _ Hh). operand_facts. subst i0. case_match; [|by auto].
    destruct (swapped_fields h) as (-> & -> & ->); auto. }
  clearbody i0. destruct H0 as [Hd Hs]. repeat rule_step.
  rule_found [h; a]. rewrite sum_lengths_2 by done.
  assert (is_reg (Rtype_rd i0) /\ is_reg (Rtype_rs1 i0) /\ is_reg (Rtype_rs2 i0)) as (?&?&?)
    by (rewrite Hd; destruct Hs as [ [-> ->] | [-> ->] ]; auto).
  rule_packed (packed_R4 _ OP_ADCS (Rtype_rd i0) (Rtype_rs1 i0) (Rtype_rs2 i0) (Rtype_rd a) Hshort).
  assert (R4type_rs1 fused = Rtype_rs1 h /\ R4type_rs2 fused = Rtype_rs2 h \/
          R4type_rs1 fused = Rtype_rs2 h /\ R4type_rs2 fused = Rtype_rs1 h)
    by (destruct Hs as [ [<- <-] | [<- <-] ]; auto).
  fused_by adcs_fused.
Qed.

(** * The arms of [decode_mop] *)

Definition never (e : Error) : Prop := False.

Lemma try_rule_yields pc rule c :
  yields rule (rule_result pc) (fun _ => True) -> yields c (fused_at pc) never ->
  yields (try_rule rule c) (fused_at pc) never.
Proof.
  intros Hr Hc. unfold try_rule. eapply yields_bind; [by eapply yields_attempt|].
  intros [ [i|]|] Ho; [|done..]. apply yields_ret. by apply (Ho (Some i)).
Qed.

Lemma with_next_yields pc i k : in_u 64 pc -> raw s0.1 s0.2 pc = Ok i ->
  (forall n, raw s0.1 s0.2 (wadd 64 pc (instruction_length i)) = Ok n ->
   yields (k n) (fused_at pc) never) ->
  yields (with_next pc i k) (fused_at pc) never.
Proof.
  intros Hpc Hi Hk. unfold with_next. eapply yields_bind.
  { eapply yields_attempt, yields_decode_raw with (E := fun _ => True); [apply wadd64_range|done]. }
  intros [n|] Ho; [by apply Hk, Ho|]. by apply yields_ret, fused_single.
Qed.

Lemma mop_add_yields pc h : VERSION2 <= dd_version s0.1 -> raw s0.1 s0.2 pc = Ok h ->
  extract_opcode h = OP_ADD -> yields (mop_add pc h) (fused_at pc) never.
Proof.
  intros. repeat (apply try_rule_yields;
    [by auto using rule_adc_yields, rule_add3_yields, rule_adcs_yields|]).
  by apply yields_ret, fused_single.
Qed.

Lemma mop_sub_yields pc h : VERSION2 <= dd_version s0.1 -> raw s0.1 s0.2 pc = Ok h ->
  extract_opcode h = OP_SUB -> yields (mop_sub pc h) (fused_at pc) never.
Proof.
  intros. repeat (apply try_rule_yields;
    [by auto using rule_sbb_yields, rule_sbbs_yields|]).
  by apply yields_ret, fused_single.
Qed.

(** The fused pair in the goal. *)
Ltac pair_found h n :=
  apply yields_ret; bool_hyps;
  assert (Hcode : code_at _ [h; n]) by (repeat split; eassumption);
  pose proof (code_at_decoded _ _ Hcode) as Hdec;
  pose proof (decoded_short _ Hdec) as Hshort;
  apply Forall_cons_1 in Hdec as [? [? _]%Forall_cons_1];
  unfold fuze; rewrite sum_lengths_2 by done.

Ltac mop_step :=
  cbv zeta;
  lazymatch goal with
  | |- yields (if _ then _ else _) _ _ => apply yields_if; intros ?
  | |- yields (mbind _ (gets _)) _ _ =>
      eapply yields_bind; [apply yields_version|intros ? ->]
  | |- yields (match ?o with Some _ => _ | None => _ end) _ _ =>
      let Ho := fresh "Ho" in destruct o eqn:Ho
  | Hi : raw _ _ _ = Ok ?i |- yields (mret ?i) _ _ => by apply yields_ret, fused_single
  end.

Lemma mop_wide_yields o1 o2 oj pc h : (o1, o2, oj) ∈ wide_table -> in_u 64 pc ->
  raw s0.1 s0.2 pc = Ok h -> extract_opcode h = o1 ->
  yields (mop_wide o2 oj pc h) (fused_at pc) never.
Proof.
  intros Ht Hpc Hh Ho. apply with_next_yields; [done..|]. intros n Hn. repeat mop_step.
  pair_found h n.
  assert (zassoc tagged_table o1 = Some Rtype /\ zassoc tagged_table o2 = Some Rtype /\
          in_u 16 oj) as (T1 & T2 & T3).
  { clear - Ht. repeat (apply elem_of_cons in Ht as [ [= -> -> ->] | Ht]); try by split_and!.
    by apply elem_of_nil in Ht. }
  destruct (inst_ok_R h o1) as (?&?&?); [by eapply raw_decoded|done..|].
  destruct (inst_ok_R n o2) as (?&?&?); [by eapply raw_decoded|done..|].
  rule_packed (packed_R4 _ oj (Rtype_rd h) (Rtype_rs1 h) (Rtype_rs2 h) (Rtype_rd n) Hshort).
  fused_by (wide_fused _ _ _ _ o1 o2 oj).
Qed.

Lemma checked_add_i32_spec x y z : checked_add_i32 x y = Some z -> z = x + y /\ in_s 32 z.
Proof.
  unfold checked_add_i32. case_match; [|done]. intros [= <-]. bool_hyps. split; [done|].
  split; lia.
Qed.

Lemma far_jump_fits h n : operands_checked [h; n] = true ->
  extract_opcode h = OP_LUI -> extract_opcode n = OP_JALR_VERSION1 ->
  sign 32 (Utype_immediate_s h + Itype_immediate_s n) =
  Utype_immediate_s h + Itype_immediate_s n.
Proof.
  cbn [operands_checked]. intros H O1 O2. rewrite O1, O2, !Z.eqb_refl in H. cbn [andb] in H. bool_hyps.
  apply sign_small; [done|]. split; lia.
Qed.

Lemma mop_lui_yields pc h : VERSION2 <= dd_version s0.1 -> in_u 64 pc ->
  raw s0.1 s0.2 pc = Ok h -> extract_opcode h = OP_LUI ->
  yields (mop_lui pc h) (fused_at pc) never.
Proof.
  intros Hv Hpc Hh Ho. apply with_next_yields; [done..|]. intros n Hn.
  mop_step. rewrite (proj2 (Z.leb_le _ _) Hv). repeat mop_step.
  - pair_found h n. operand_facts.
    rule_packed (packed_U _ OP_FAR_JUMP_ABS RA
      (sign 32 (Utype_immediate_s h + Itype_immediate_s n)) Hshort).
    match goal with H : operands_checked _ = true |- _ => apply far_jump_fits in H; [|done..] end.
    fused_by far_jump_abs_fused.
  - pair_found h n. operand_facts.
    rule_packed (packed_U _ OP_CUSTOM_LOAD_IMM (Utype_rd h)
      (sign 32 (Utype_immediate_s h + Itype_immediate_s n)) Hshort).
    fused_by load_imm_lui_fused.
Qed.

Lemma mop_auipc_yields pc h : VERSION2 <= dd_version s0.1 -> in_u 64 pc ->
  raw s0.1 s0.2 pc = Ok h -> extract_opcode h = OP_AUIPC ->
  yields (mop_auipc pc h) (fused_at pc) never.
Proof.
  intros Hv Hpc Hh Ho. apply with_next_yields; [done..|]. intros n Hn.
  mop_step. rewrite (proj2 (Z.leb_le _ _) Hv). repeat mop_step.
  - pair_found h n. operand_facts. apply checked_add_i32_spec in Ho0 as [-> ?].
    rule_packed (packed_U _ OP_FAR_JUMP_REL RA
      (Utype_immediate_s h + Itype_immediate_s n) Hshort).
    fused_by far_jump_rel_fused.
  - pair_found h n. operand_facts.
    apply bind_Some in Ho0 as (imm & [-> ?]%checked_add_i32_spec & [-> ?]%checked_add_i32_spec).
    rule_packed (packed_U _ OP_CUSTOM_LOAD_IMM (Utype_rd h)
      (Utype_immediate_s h + Itype_immediate_s n + pc) Hshort).
    subst pc. fused_by load_imm_auipc_fused.
Qed.

Lemma decode_mop_yields pc : VERSION2 <= dd_version s0.1 -> in_u 64 pc ->
  yields (decode_mop pc) (fused_at pc) (fun e => raw s0.1 s0.2 pc = Err e).
Proof.
  intros Hv Hpc. unfold decode_mop. eapply yields_bind; [by apply yields_decode_raw|].
  intros h Hh. eapply yields_mono with (E := never); [|done|done]. cbv zeta.
  unfold mop_mulh, mop_mulhu, mop_mulhsu, mop_div, mop_divu.
  repeat (apply yields_if; intros ?; bool_hyps;
    [lazymatch goal with
     | |- yields (mop_add _ _) _ _ => by apply mop_add_yields
     | |- yields (mop_sub _ _) _ _ => by apply mop_sub_yields
     | |- yields (mop_lui _ _) _ _ => by apply mop_lui_yields
     | |- yields (mop_auipc _ _) _ _ => by apply mop_auipc_yields
     | _ => eapply mop_wide_yields; [|done..]; by repeat (left || right)
     end|]).
  by apply yields_ret, fused_single.
Qed.
End yields.

(** * Soundness *)

Section sound.
Context {M : Type} {HM : Memory u64_register M} {HF : FetchOk u64_register M}.
Context {M' Sy De : Type} `{!Memory u64_register M'}.
Context `{!Syscalls (DefaultCoreMachine u64_register M') Sy}.
Context `{!Debugger (DefaultCoreMachine u64_register M') De}.
Local Abbreviation DM := (DefaultMachine u64_register M' Sy De).

(** C5: macro-op fusion is sound (from version 2 on).  Whatever instruction the decoder
    returns at [pc], it stands for a non-empty sequence of instructions that the code at
    [pc] decodes to one by one, and executing it is executing that sequence: the same
    registers, pc, memory and result on every machine whose pc is there.  The two
    exceptions are the sequences that [operands_checked] excludes.  Fusion never adds an
    error: decoding fails only when the first instruction does not decode. *)
Theorem fusion_sound (d : DefaultDecoder) (mem : M) (pc : Z) :
  in_u 64 pc -> coherent (d, mem) -> Forall factory_ok (dd_factories d) ->
  VERSION2 <= dd_version d ->
  match (decode pc (d, mem)).1 with
  | Ok j =>
      exists l, l <> [] /\ code_at (d, mem) pc l /\
        (operands_checked l = true -> forall m : DM, regs32 m -> dc_pc (dm_inner m) = pc ->
         execute j m = exec_seq l m)
  | Err e => raw d mem pc = Err e
  | Panic => True
  end.
Proof.
  intros Hpc Hs Hf Hv.
  assert (Hy : yields (d, mem) (decode pc)
    (fused_at (d, mem) (M' := M') (Sy := Sy) (De := De) pc) (fun e => raw d mem pc = Err e)).
  { intros s Ha. unfold decode, mbind, ST_bind, gets. destruct (dd_mop s.1).
    - by apply (decode_mop_yields (d, mem) Hf pc Hv Hpc s).
    - refine (yields_mono (d, mem) _ _ _ _ _ _ _ _ s Ha).
      + by apply (yields_decode_raw (d, mem) pc (fun e => raw d mem pc = Err e) Hpc).
      + intros i Hi. by apply fused_single.
      + done. }
  apply (Hy (d, mem)), alike_refl, Hs.
Qed.
End sound.

(** * Witness and the two gaps *)

(** A decoder with fusion on code of 32-bit words at address 0. *)
Definition fusing : DefaultDecoder := decoder_new u64_register ISA_MOP VERSION2.

Definition code_memory (words : list Z) : FlatMemory u64_register :=
  flat_set_data (let b := mjoin (Z_to_le 4 <$> words) in b ++ replicate (4096 - length b) 0)
    (flat_of 4096).

Definition machine_with (regs : list (reg u64_register)) :
    DefaultMachine u64_register (FlatMemory u64_register) Empty_set Empty_set :=
  dm_set_inner (with_registers regs (dm_inner machine0)) machine0.

(** [add a0, a0, a1; sltu a1, a0, a1; add a0, a0, a2; sltu a2, a0, a2; or a1, a1, a2] *)
Definition adc_code : list Z :=
  [enc_R 0x33 0 0 10 10 11; enc_R 0x33 3 0 11 10 11; enc_R 0x33 0 0 10 10 12;
   enc_R 0x33 3 0 12 10 12; enc_R 0x33 6 0 11 11 12].

Lemma fusion_sound_witness :
  exists j l, (decode 0 (fusing, code_memory adc_code)).1 = Ok j /\
    code_at (fusing, code_memory adc_code) 0 l /\
    (operands_checked l = true -> execute j machine0 = exec_seq l machine0).
Proof.
  assert (Hs : coherent (fusing, code_memory adc_code)) by by apply decoder_new_coherent.
  assert (Hf : Forall factory_ok (dd_factories fusing)) by apply decoder_new_ok.
  pose proof (fusion_sound (M' := FlatMemory u64_register) (Sy := Empty_set) (De := Empty_set)
    fusing (code_memory adc_code) 0 ltac:(by split) Hs Hf ltac:(done)) as H.
  destruct (decode 0 (fusing, code_memory adc_code)).1 as [j| |] eqn:Hd;
    [|exfalso; vm_compute in Hd; discriminate..].
  destruct H as (l & _ & Hc & He). exists j, l. split_and!; [done|done|].
  intros Hok. by apply He.
Defined.

(** [sub a1, a0, a1; sltu a2, a0, a5; sub a0, a1, a4; sltu a4, a1, a0; or a1, a4, a2]: the
    second instruction compares with a register the rule does not look at. *)
Definition sbb_code : list Z :=
  [enc_R 0x33 0 0x20 11 10 11; enc_R 0x33 3 0 12 10 15; enc_R 0x33 0 0x20 10 11 14;
   enc_R 0x33 3 0 14 11 10; enc_R 0x33 6 0 11 14 12].

(** [lui ra, 0x80000; jalr ra, ra, -4]: the sum of the immediates does not fit 32 bits. *)
Definition far_code : list Z := [enc_U 0x37 1 (-2147483648); enc_I 0x67 0 1 1 (-4)].

Definition gap_machine := machine_with (<[10%nat := 1]> (<[15%nat := 5]> (replicate 32 0))).

(** C31: the two exceptions of [fusion_sound] are real.  The rule for the subtract with
    borrow compares [next_inst.rs2()] with itself, so it fuses a sequence whose first
    borrow is about another register, and the fused instruction leaves a different
    borrow; the absolute far jump wraps its target to 32 bits, so for targets below
    -2{^31} the fused jump goes elsewhere. *)
Theorem fusion_gaps :
  (exists j l, (decode 0 (fusing, code_memory sbb_code)).1 = Ok j /\
     extract_opcode j = OP_SBB /\ code_at (fusing, code_memory sbb_code) 0 l /\
     xreg (execute j gap_machine).2 11 = 0 /\ xreg (exec_seq l gap_machine).2 11 = 1) /\
  (exists j l, (decode 0 (fusing, code_memory far_code)).1 = Ok j /\
     extract_opcode j = OP_FAR_JUMP_ABS /\ code_at (fusing, code_memory far_code) 0 l /\
     dc_pc (dm_inner (execute j gap_machine).2) = 0x7ffffffc /\
     dc_pc (dm_inner (exec_seq l gap_machine).2) = 0xffffffff7ffffffc).
Proof.
  split.
  - exists 3393140295731860, [12137611135816; 16535657647167; 15440440986184; 11042394476095;
      13254302632751].
    split_and!; [vm_compute; reflexivity|reflexivity|repeat split; vm_compute; reflexivity|..];
      vm_compute; reflexivity.
  - exists 9223372019742015915, [9223372036888330533; 18446739679991562665].
    split_and!; [vm_compute; reflexivity|reflexivity|repeat split; vm_compute; reflexivity|..];
      vm_compute; reflexivity.
Qed.
